(* ===== verification/_CoqProject ===== *)
-Q . S2P
Prelude.v
GoStrings.v
Loops.v
Schedules.v
Types.v
Range.v
ForkDB.v
ForkDBFacts.v
ForkDBProps.v
Forkable.v
Consumer.v
Payloads.v
ForkableFacts.v
ForkableInv.v
ForkableStep.v
ForkableSend.v
ForkableProps.v
ForkableQueries.v
Resume.v
ResumeProps.v
ResumeThrough.v
Cursors.v
Gates.v
Buffers.v
TailLocks.v
Trackers.v
OneBlockFiles.v
CursorResolver.v
FileSource.v
FileSourceProps.v
BlockFiles.v
FilePipeline.v
FilePipelineProps.v
FilePipelineRuns.v
FilePipelineIndex.v
ForkableSim.v
Hub.v
HubProps.v
HeadInfo.v
JoiningSource.v
JoiningProps.v
Stream.v
StreamProps.v
BlockIndex.v
BlockIndexProps.v
BlockStream.v
BlockStreamProps.v
ClientPipeline.v
ClientPipelineProps.v
ForkDBSerial.v
ForkDBSerialProps.v
Sources.v
SourcesProps.v
Transforms.v
TransformsProps.v
LiveHub.v
EndToEnd.v
Targets.v
FromFiles.v
PassThrough.v
TargetFiles.v
TestHelpers.v
