(* ===== verification/Prelude.v ===== *)
(** * bstream: a verified model of the StreamingFast block streaming library

    bstream delivers the blocks of a chain to clients, in order and through
    forks: a fork database and a forkable turn incoming blocks into events (new,
    undo, irreversible, stalled), a hub serves them live, a file source serves the
    merged files of the past, a joining source goes from the files to the hub, and
    a stream is what a client asks for. This development is a shallow embedding of
    that code: each definition translates the function of the same name.

    ** Conventions

    Integers are [Z] with the wrap-around of Go's 64 bits written out ([u64],
    [i64]). A call returns a value, an error, panics or does not come back
    ([outcome]); stateful code is in the monad [M], whose state survives errors.
    Go maps are [gmap]s; where the order of their iteration can be seen it is a
    parameter. Pointers that are shared are locations in a heap (the blocks of a
    forkable, the subscriptions of a hub). Loops that are not structural run with
    fuel ([Loops.loop]): the fuel of the walks over the fork database is one more
    than the points that they can visit, and [walks_diverge_for_good] shows that a
    walk it does not finish never ends; the split of a range has the number of its
    chunks; [blocksFromCursor] recurses once, on a cursor that is not forked.
    Locks are left out: an operation is one step, and what goroutines do is an
    explicit sequence of such steps; where the lock of the code does not make it one,
    the theorems are about calls that come one after the other, and a lemma shows what
    may happen otherwise ([subscription_lost]). Where goroutines work on the same blocks at the
    same time the model is a function from an action and a state to the next state,
    and theorems are about every schedule of actions ([Schedules]).

    ** The files

    - [Prelude], [GoStrings], [Loops], [Schedules]: integers, outcomes, the monads,
      the string functions of Go (splitting, decimal numbers), loops,
      schedules of actions.
    - [Types]: blocks, references, steps, cursors, handlers (types.go, steps.go,
      interfaces.go, util.go, registry.go, pb/).
    - [Range] (range.go), [Cursors] (cursor.go), [Gates] (gates.go, gator.go,
      forkable/gates.go, recentblockgetter.go), [Buffers] (buffer.go), [TailLocks]
      (taillock.go), [Trackers] (tracker.go): one Module each, with their theorems.
    - [ForkDB] (forkable/forkdb.go), [ForkDBFacts] (paths, walks, the well-formed
      databases), [ForkDBProps]; [ForkDBSerial], [ForkDBSerialProps] (Serialize and
      Deserialize).
    - [Forkable] (forkable/forkable.go, ProcessBlock and all it calls, with
      forkable/options.go), [Consumer] (the abstract client), [ForkableFacts],
      [ForkableInv], [ForkableStep], [ForkableSend] (the invariant and the steps
      that keep it), [ForkableProps]; [ForkableQueries] (the replays of the same
      file), [Resume], [ResumeProps], [ResumeThrough]; [ForkableSim] (a forkable does not depend on
      the state of its handler).
    - [OneBlockFiles] (oneblockfile.go, oneblock_source.go, reader.go,
      single_block_fetcher.go), [CursorResolver] (cursor_resolver.go), [FileSource]
      and [FileSourceProps] (filesource.go, the blocks handed over in order),
      [FilePipeline], [FilePipelineProps], [FilePipelineRuns], [FilePipelineIndex] (its
      goroutines, without and with an index), [BlockFiles] (writer.go).
    - [Hub], [HubProps] (hub/), [HeadInfo] (headinfo.go, and the service of
      hub/blockstream.go), [JoiningSource], [JoiningProps] (joiningsource.go),
      [Stream], [StreamProps] (stream/, preprocess.go); [LiveHub] (the hub, with
      the events of its life, as the live source of a joining source).
    - [BlockIndex], [BlockIndexProps] (transform/block_index*.go), [Transforms],
      [TransformsProps] (transform/registry.go, transform/builder.go).
    - [BlockStream], [BlockStreamProps] (blockstream/), [ClientPipeline],
      [ClientPipelineProps] (the goroutines of blockstream/source.go).
    - [Sources], [SourcesProps] (eternalsource.go, multiplexedsource.go).
    - [EndToEnd]: the stream over the factory of the file source, which reads its
      bundles from a store, and over the hub of [LiveHub]; [Targets]: the stream
      through a cursor that the hub can serve. [FromFiles]: the stream from a cursor
      that lies in the files; [PassThrough] (cursor_resolver.go in its pass-through
      mode, over filesource.go) and [TargetFiles]: the stream through a cursor from
      the files to the hub.
    - [Payloads] (block.go, decoder.go, metrics.go, registry.go): payloads in the type
      of a protocol, functions as decoders, the handler that sets the head gauges.
    - [TestHelpers]: the blocks, sources and fixtures the tests of the repository are
      made of (testing.go, mock_source.go, transform/testing.go,
      transform/testdata/transforms.go, internal/pb/.../test/v1/test.go).

    Code that is not in the repository is a class or an argument: the stores, the
    dbin format, protobuf and JSON codecs, bitmaps, the clock, the handlers of the
    clients. What a theorem needs of it is one of its hypotheses, and the witness
    next to the theorem instantiates it with concrete functions.

    ** What the theorems show

    - The client. [Consumer.consume] is the specification of a client: a view made
      of a LIB and the blocks above it, that a new block extends, an undo pops and
      a final block advances, and that fails on anything else. [Forkable_follows],
      [Forkable_inclusive_follows] and [Forkable_adopts] refine it for the live
      events, [blocksFromCursor_resumes], [blocksThroughCursor_passes] and
      [blocksFromNum_starts] for the replays of a forkable, [hub_subscriber_follows] for a subscription of the hub,
      [cursor_resolver_resumes] and [SourceRun_resumes] for the files.
    - The whole. [request_served]: what a client that asks for the blocks from a
      number to another is sent by stream, joining source, file source, store and hub
      together, and that it holds a chain at every moment. [cursor_resumed]: what a
      client that comes back with a cursor is sent, and that the stack of blocks it
      held goes on without a gap. [target_reached]: the same of a client that starts
      at a number and passes through a cursor. [cursor_in_files] and
      [target_in_files] are the two when the hub cannot serve the request and the
      files begin it; they ask that the hub serves no height of the cursor's fork,
      which the code does not ensure ([join_skips_undo] and [join_repeats_blocks] show
      what happens otherwise).
    - What is served. [run_delivers], [through_files], [streamReader_serves] and
      [tweakRangeIndexResults_spec] for the files, with and without an index;
      [join_seamless] and [Stream_serves] for the composition of files, live source
      and stream, against the factories' interface, and [files_then_hub] for the
      joining source whose live source is the hub itself; [createSource_checks]; [server_serves] for the block stream server;
      [eternal_follows] over restarts; [heads_of_hub] for the heads a tracker gets;
      [index_roundtrip] and [FindNextUnindexed_covers] for indexes.
    - Goroutines. [file_pipeline_delivers], [indexed_pipeline_serves],
      [readStream_interleaved]: whatever the schedule, the handler gets what it gets
      when the blocks are handled one by one, up to some point, and the loops are
      never stuck; [open_failure_hangs] is the exception. [transforms_interleaved]:
      what a call of the preprocessing function needs of the schedule to return what it
      returns alone, the input being shared ([shared_input_race]).
    - The fork database: an invariant of every reachable one, each operation on
      every branch, the termination of the walks, and its round trip through
      serialization.
    - The smaller parts: round trips of written files, cursors, file names and ranges,
      the grammar of the cursors, what a forkable refuses, drops and stores, the tiling
      of a split range, the buffer, the tail lock, the heads a tracker reads.
    - Lemmas that show where the code parts from its intent, next to the component
      they are about; they are the findings of the manifest.

    ** Not modelled, and why

    Logging, which has no effect on what the code does: the registration of loggers,
    SetLogger and the WithLogger options, MarshalLogObject; a logger is never nil.
    The transport of gRPC and the launching of a server: a call gives an answer or an
    error, and a stream is the list of blocks sent. Generated code: the messages are
    records. Of the helpers of the tests, the reading of JSON and of lines and the
    assertions, which belong to the test framework. Timeouts and delays have no effect
    but their order. [FileSource] and [BlockStream] hand the blocks over one by one,
    which the theorems on schedules relate to the goroutines. Of a file source with an
    index, what follows the bundles that the index answers for is not described: the
    code then depends on which of its goroutines is first ([given_up_before_start]). The turn of a multiplexed source is atomic: [LockedInit] fails only once it is shut
    down. *)

From stdpp Require Export base gmap strings list sorting.
From Stdlib Require Export ZArith Lia.
From Stdlib Require Import Ascii.

#[global] Open Scope Z_scope.

(** ** Machine integers

    Go's [uint64], [int64] and [int] are 64 bits wide.  They are modelled by
    [Z], every operation that can leave the range being followed by the
    explicit wrap-around [u64] or [i64]. *)

Definition two64 : Z := 18446744073709551616.
Definition two63 : Z := 9223372036854775808.

Definition u64 (z : Z) : Z := z mod two64.
Definition i64 (z : Z) : Z := (z + two63) mod two64 - two63.

Definition is_u64 (z : Z) : Prop := 0 <= z < two64.
Definition is_i64 (z : Z) : Prop := - two63 <= z < two63.

Definition u64_add (a b : Z) : Z := u64 (a + b).
Definition u64_sub (a b : Z) : Z := u64 (a - b).

(** ** Errors, panics and divergence

    A Go call returns a value, returns an error, panics, or does not come
    back.  [EMsg] keeps the format string of [fmt.Errorf] (the formatted
    arguments play no role in the control flow), [ESentinel] is a package
    level error variable, [EWrap] is the [%w] verb. *)

Inductive error : Type :=
  | EMsg (msg : string)
  | ESentinel (name : string)
  | EWrap (msg : string) (cause : error).

#[global] Instance error_eq_dec : EqDecision error.
Proof. solve_decision. Defined.

(** [errors.Is] for a sentinel. *)
Fixpoint errors_Is (e : error) (name : string) : bool :=
  match e with
  | EMsg _ => false
  | ESentinel n => bool_decide (n = name)
  | EWrap _ c => errors_Is c name
  end.

Inductive outcome (A : Type) : Type :=
  | Ok (a : A)
  | Err (e : error)
  | Panic (why : string)
  | Diverge.
Arguments Ok {A} a.
Arguments Err {A} e.
Arguments Panic {A} why.
Arguments Diverge {A}.

#[global] Instance outcome_eq_dec {A} `{EqDecision A} : EqDecision (outcome A).
Proof. solve_decision. Defined.

#[global] Instance outcome_ret : MRet outcome := fun A a => Ok a.
#[global] Instance outcome_bind : MBind outcome := fun A B k m =>
  match m with
  | Ok a => k a
  | Err e => Err e
  | Panic w => Panic w
  | Diverge => Diverge
  end.
#[global] Instance outcome_fmap : FMap outcome := fun A B f m =>
  match m with
  | Ok a => Ok (f a)
  | Err e => Err e
  | Panic w => Panic w
  | Diverge => Diverge
  end.

Definition is_Ok {A} (m : outcome A) : bool := match m with Ok _ => true | _ => false end.
Definition is_Err {A} (m : outcome A) : bool := match m with Err _ => true | _ => false end.
Definition is_Panic {A} (m : outcome A) : bool := match m with Panic _ => true | _ => false end.

(** ** Stateful code: a state monad whose state survives errors and panics *)

Definition M (S A : Type) : Type := S -> outcome A * S.

#[global] Instance M_ret {S} : MRet (M S) := fun A a s => (Ok a, s).
#[global] Instance M_bind {S} : MBind (M S) := fun A B k m s =>
  match m s with
  | (Ok a, s') => k a s'
  | (Err e, s') => (Err e, s')
  | (Panic w, s') => (Panic w, s')
  | (Diverge, s') => (Diverge, s')
  end.

Definition mget {S} : M S S := fun s => (Ok s, s).
Definition mgets {S A} (f : S -> A) : M S A := fun s => (Ok (f s), s).
Definition mput {S} (s : S) : M S unit := fun _ => (Ok tt, s).
Definition mmodify {S} (f : S -> S) : M S unit := fun s => (Ok tt, f s).
Definition mlift {S A} (m : outcome A) : M S A := fun s => (m, s).
Definition merr {S A} (e : error) : M S A := fun s => (Err e, s).
Definition mpanic {S A} (w : string) : M S A := fun s => (Panic w, s).

(** [for _, x := range l { body }], stopping at the first error or panic. *)
Fixpoint mfor {S A} (l : list A) (body : A -> M S unit) : M S unit :=
  match l with
  | [] => mret tt
  | x :: l' => body x ≫= fun _ => mfor l' body
  end.

(** ** Lemmas and automation shared by the components *)

(** Arithmetic on machine integers: unfold the wrap-arounds and call [lia]. *)
Ltac u64_solve :=
  unfold u64_add, u64_sub, u64, i64, is_u64, is_i64, two63, two64 in *;
  Z.div_mod_to_equations; lia.

(** Case analysis on the boolean comparisons of the code. *)
Ltac zcases :=
  repeat match goal with
  | H : context [Z.ltb ?a ?b] |- _ => destruct (Z.ltb_spec a b)
  | H : context [Z.leb ?a ?b] |- _ => destruct (Z.leb_spec a b)
  | H : context [Z.eqb ?a ?b] |- _ => destruct (Z.eqb_spec a b)
  | |- context [Z.ltb ?a ?b] => destruct (Z.ltb_spec a b)
  | |- context [Z.leb ?a ?b] => destruct (Z.leb_spec a b)
  | |- context [Z.eqb ?a ?b] => destruct (Z.eqb_spec a b)
  end.

Create HintDb bstream discriminated.
Create Rewrite HintDb bstream.

Lemma outcome_bind_Ok {A B} (m : outcome A) (k : A -> outcome B) b :
  (m ≫= k) = Ok b <-> exists a, m = Ok a /\ k a = Ok b.
Proof.
  destruct m; cbn; split; try done; try (intros (? & ? & ?); congruence). eauto.
Qed.

(** *** Monadic steps *)

Lemma bind_Ok {S A B} (m : M S A) (k : A -> M S B) s a s' :
  m s = (Ok a, s') -> (m ≫= k) s = k a s'.
Proof. intros E. unfold mbind, M_bind. by rewrite E. Qed.

Lemma bind_Err {S A B} (m : M S A) (k : A -> M S B) s e s' :
  m s = (Err e, s') -> (m ≫= k) s = (Err e, s').
Proof. intros E. unfold mbind, M_bind. by rewrite E. Qed.

Lemma bind_mget {S B} (k : S -> M S B) s : (mget ≫= k) s = k s s.
Proof. done. Qed.

Lemma bind_mmodify {S B} (f : S -> S) (k : unit -> M S B) s : (mmodify f ≫= k) s = k tt (f s).
Proof. done. Qed.

Lemma bind_mlift_Ok {S A B} (m : outcome A) (k : A -> M S B) s a :
  m = Ok a -> (mlift m ≫= k) s = k a s.
Proof. by intros ->. Qed.

Lemma mfor_app {S A} (l1 l2 : list A) (body : A -> M S unit) s s' :
  mfor l1 body s = (Ok tt, s') -> mfor (l1 ++ l2) body s = mfor l2 body s'.
Proof.
  revert s. induction l1 as [|a l1 IH]; intros s E; [by injection E as <-|].
  cbn [mfor app] in *. unfold mbind, M_bind in *.
  destruct (body a s) as [[[]|e|w|] s1]; try done. by apply IH.
Qed.

Lemma u64_small z : is_u64 z -> u64 z = z.
Proof. intros H. unfold u64. apply Z.mod_small. exact H. Qed.

Lemma u64_range z : is_u64 (u64 z).
Proof. unfold is_u64, u64, two64. apply Z.mod_pos_bound. lia. Qed.

Lemma i64_small z : is_i64 z -> i64 z = z.
Proof. intros H. u64_solve. Qed.

Lemma u64_sub_le a b : is_u64 a -> 0 <= b <= a -> u64_sub a b = a - b.
Proof. intros Ha Hb. apply u64_small. unfold is_u64 in *. lia. Qed.

Lemma u64_add_lt a b : 0 <= a -> 0 <= b -> a + b < two64 -> u64_add a b = a + b.
Proof. intros Ha Hb Hab. apply u64_small. unfold is_u64. lia. Qed.

(** An increasing list without repetition is strictly increasing. *)
Lemma StronglySorted_lt_of_le l : StronglySorted Z.le l -> NoDup l -> StronglySorted Z.lt l.
Proof.
  induction 1 as [|x l _ IH Hx]; intros Hnd; [constructor|].
  apply NoDup_cons in Hnd as [Hn Hnd]. constructor; [by apply IH|].
  apply Forall_forall. intros y Hy. rewrite Forall_forall in Hx. specialize (Hx y Hy).
  destruct (decide (x = y)) as [->|]; [done|lia].
Qed.

#[export] Hint Resolve u64_range : bstream.
#[export] Hint Rewrite @bool_decide_eq_true @bool_decide_eq_false : bstream.

(** ** A concrete encoding

    The witnesses of theorems about an external codec take a codec that writes
    the bits of the code of a countable value. *)

Fixpoint bits_of (p : positive) : string :=
  match p with xH => "" | xO p => String "0"%char (bits_of p) | xI p => String "1"%char (bits_of p) end.

Fixpoint of_bits (s : string) : positive :=
  match s with
  | EmptyString => xH
  | String c s' => if decide (c = "0"%char) then xO (of_bits s') else xI (of_bits s')
  end.

Lemma of_bits_of p : of_bits (bits_of p) = p.
Proof. induction p; cbn; by f_equal. Qed.

Definition decoded {A} `{Countable A} (s : string) : outcome A :=
  match countable.decode (of_bits s) with Some a => Ok a | None => Err (EMsg "unreadable") end.

Lemma decoded_encode {A} `{Countable A} (a : A) : decoded (bits_of (countable.encode a)) = Ok a.
Proof. unfold decoded. by rewrite of_bits_of, decode_encode. Qed.
