(* ===== verification/GoStrings.v ===== *)
(** * The parts of Go's [strings], [strconv], [fmt] and [regexp] the code uses

    Strings are byte strings ([String.string]).  Every separator the code
    splits on is an ASCII byte, and UTF-8 keeps ASCII bytes apart from the
    bytes of longer runes, so a byte-level treatment is exact. *)

From S2P Require Import Prelude.
From Stdlib Require Import Ascii.

(** ** Digits *)

Definition digit_val (c : ascii) : option Z :=
  let n := Z.of_nat (nat_of_ascii c) in
  if (48 <=? n) && (n <=? 57) then Some (n - 48) else None.

Definition digit_char (d : Z) : ascii := ascii_of_nat (Z.to_nat (48 + d)).

(** [strconv.ParseUint(s, 10, bits)]: no sign, no underscore; the empty
    string and any other byte is a syntax error, a value that does not fit
    is a range error. *)
Fixpoint parse_digits (s : string) (acc : Z) : option Z :=
  match s with
  | EmptyString => Some acc
  | String c s' =>
      match digit_val c with
      | Some d => parse_digits s' (acc * 10 + d)
      | None => None
      end
  end.

Definition ParseUint (s : string) (bits : Z) : outcome Z :=
  match s with
  | EmptyString => Err (EMsg "invalid syntax")
  | _ =>
      match parse_digits s 0 with
      | None => Err (EMsg "invalid syntax")
      | Some v => if v <? 2 ^ bits then Ok v else Err (EMsg "value out of range")
      end
  end.

(** [strconv.ParseInt(s, 10, 64)]: an optional sign, then [ParseUint]. *)
Definition ParseInt (s : string) : outcome Z :=
  match s with
  | EmptyString => Err (EMsg "invalid syntax")
  | String c s' =>
      let '(neg, digits) :=
        if decide (c = "+"%char) then (false, s')
        else if decide (c = "-"%char) then (true, s')
        else (false, s) in
      match ParseUint digits 64 with
      | Ok un =>
          if neg then
            if two63 <? un then Err (EMsg "value out of range") else Ok (- un)
          else
            if two63 <=? un then Err (EMsg "value out of range") else Ok un
      | Err e => Err e
      | Panic w => Panic w
      | Diverge => Diverge
      end
  end.

(** [%d] of a non-negative number below [10 ^ fuel]. *)
Fixpoint fmt_digits (fuel : nat) (z : Z) (acc : string) : string :=
  match fuel with
  | O => acc
  | S n =>
      let acc' := String (digit_char (z mod 10)) acc in
      if z / 10 =? 0 then acc' else fmt_digits n (z / 10) acc'
  end.

(** Twenty digits are enough for every [uint64]. *)
Definition fmt_d (z : Z) : string := fmt_digits 20 z EmptyString.

Definition fmt_int (z : Z) : string :=
  if z <? 0 then String "-"%char (fmt_d (- z)) else fmt_d z.

Fixpoint zeros (n : nat) : string :=
  match n with O => EmptyString | S n' => String "0"%char (zeros n') end.

(** [%010d]. *)
Definition fmt_010d (z : Z) : string :=
  let s := fmt_d z in (zeros (10 - String.length s) +:+ s)%string.

(** ** Splitting and joining *)

Fixpoint str_forall (p : ascii -> bool) (s : string) : bool :=
  match s with
  | EmptyString => true
  | String c s' => p c && str_forall p s'
  end.

(** The byte does not occur in the string. *)
Definition free_of (c : ascii) (s : string) : bool :=
  str_forall (fun a => negb (bool_decide (a = c))) s.

(** [strings.Split(s, sep)] for a one byte separator: never empty. *)
Fixpoint Split (sep : ascii) (s : string) : list string :=
  match s with
  | EmptyString => [EmptyString]
  | String c s' =>
      if decide (c = sep) then EmptyString :: Split sep s'
      else
        match Split sep s' with
        | [] => [String c EmptyString]
        | p :: ps => String c p :: ps
        end
  end.

(** [strings.Join(parts, sep)]. *)
Fixpoint Join (parts : list string) (sep : string) : string :=
  match parts with
  | [] => EmptyString
  | [p] => p
  | p :: ps => (p +:+ sep +:+ Join ps sep)%string
  end.

(** [strings.FieldsFunc(s, f)]: the maximal non-empty runs of bytes that do
    not satisfy [f]. *)
Definition flush (cur : string) : list string :=
  match cur with EmptyString => [] | _ => [cur] end.

Fixpoint FieldsFunc_go (f : ascii -> bool) (s cur : string) : list string :=
  match s with
  | EmptyString => flush cur
  | String c s' =>
      if f c then flush cur ++ FieldsFunc_go f s' EmptyString
      else FieldsFunc_go f s' (cur +:+ String c EmptyString)%string
  end.

Definition FieldsFunc (f : ascii -> bool) (s : string) : list string :=
  FieldsFunc_go f s EmptyString.

(** [strings.ReplaceAll(s, c, "")] and [regexp.ReplaceAllString] of a
    character class by the empty string both keep a subset of the bytes. *)
Fixpoint str_filter (p : ascii -> bool) (s : string) : string :=
  match s with
  | EmptyString => EmptyString
  | String c s' => if p c then String c (str_filter p s') else str_filter p s'
  end.

(** [strings.HasPrefix] and [strings.HasSuffix]. *)
Definition HasPrefix (s pre : string) : bool := String.prefix pre s.

Definition str_drop (n : nat) (s : string) : string :=
  String.substring n (String.length s - n) s.

Definition HasSuffix (s suf : string) : bool :=
  (String.length suf <=? String.length s)%nat &&
  bool_decide (str_drop (String.length s - String.length suf) s = suf).

(** ** Lemmas *)

Lemma digit_val_char d : 0 <= d < 10 -> digit_val (digit_char d) = Some d.
Proof.
  intros H.
  assert (Hd : d = 0 \/ d = 1 \/ d = 2 \/ d = 3 \/ d = 4 \/ d = 5 \/ d = 6 \/
               d = 7 \/ d = 8 \/ d = 9) by lia.
  destruct Hd as [->|[->|[->|[->|[->|[->|[->|[->|[->| ->]]]]]]]]]; reflexivity.
Qed.

Lemma digit_char_is_digit d :
  0 <= d < 10 -> is_Some (digit_val (digit_char d)).
Proof. intros H. rewrite digit_val_char by done. eauto. Qed.

Lemma digit_char_ne d c :
  0 <= d < 10 -> digit_val c = None -> digit_char d <> c.
Proof. intros Hd Hc <-. rewrite digit_val_char in Hc by done. discriminate. Qed.

Lemma parse_fmt_digits fuel : forall z s acc,
  0 <= z < 10 ^ Z.of_nat fuel -> (0 < fuel)%nat ->
  exists k, 0 < k /\
    parse_digits (fmt_digits fuel z s) acc = parse_digits s (acc * k + z).
Proof.
  induction fuel as [|n IH]; intros z s acc Hz Hf; [lia|]. cbn [fmt_digits].
  assert (Hm : 0 <= z mod 10 < 10) by (apply Z.mod_pos_bound; lia).
  assert (Hdm : z = 10 * (z / 10) + z mod 10) by (apply Z.div_mod; lia).
  destruct (Z.eqb_spec (z / 10) 0) as [H0|H0].
  - exists 10. split; [lia|]. cbn [parse_digits]. rewrite digit_val_char by done.
    f_equal. lia.
  - destruct n as [|n].
    { exfalso. change (10 ^ Z.of_nat 1) with 10 in Hz. apply H0, Z.div_small. lia. }
    destruct (IH (z / 10) (String (digit_char (z mod 10)) s) acc) as (k & Hk & E).
    { rewrite Nat2Z.inj_succ, Z.pow_succ_r in Hz by lia.
      assert (0 <= z / 10) by (apply Z.div_pos; lia). lia. }
    { lia. }
    exists (k * 10). split; [lia|]. rewrite E. cbn [parse_digits].
    rewrite digit_val_char by done. f_equal. lia.
Qed.

Lemma fmt_digits_nonempty fuel z s :
  (0 < fuel)%nat -> fmt_digits fuel z s <> EmptyString.
Proof.
  revert z s. induction fuel as [|n IH]; intros z s H; [lia|]. cbn [fmt_digits].
  destruct (z / 10 =? 0); [done|].
  destruct n as [|n]; [done|]. apply IH. lia.
Qed.

Lemma fmt_d_nonempty z : fmt_d z <> EmptyString.
Proof. apply fmt_digits_nonempty. lia. Qed.

Lemma parse_fmt_d z : is_u64 z -> parse_digits (fmt_d z) 0 = Some z.
Proof.
  intros H. unfold fmt_d.
  destruct (parse_fmt_digits 20 z EmptyString 0) as (k & _ & E).
  { unfold is_u64, two64 in H. change (10 ^ Z.of_nat 20) with 100000000000000000000. lia. }
  { lia. }
  rewrite E. cbn [parse_digits]. f_equal; lia.
Qed.

Lemma ParseUint_digits s bits v :
  s <> EmptyString -> parse_digits s 0 = Some v -> v < 2 ^ bits ->
  ParseUint s bits = Ok v.
Proof.
  intros Hs Hp Hv. unfold ParseUint. destruct s as [|c s]; [done|]. rewrite Hp.
  destruct (Z.ltb_spec v (2 ^ bits)); [done|lia].
Qed.

Lemma ParseUint_fmt_d z : is_u64 z -> ParseUint (fmt_d z) 64 = Ok z.
Proof.
  intros H. apply ParseUint_digits; [apply fmt_d_nonempty|by apply parse_fmt_d|].
  unfold is_u64, two64 in H. change (2 ^ 64) with 18446744073709551616. lia.
Qed.

Lemma ParseInt_fmt_d z : 0 <= z < two63 -> ParseInt (fmt_d z) = Ok z.
Proof.
  intros H. unfold ParseInt.
  assert (Hu : is_u64 z) by (unfold is_u64, two63, two64 in *; lia).
  pose proof (ParseUint_fmt_d z Hu) as E.
  pose proof (parse_fmt_d z Hu) as P.
  destruct (fmt_d z) as [|c s] eqn:F; [by destruct (fmt_d_nonempty z)|].
  assert (c <> "+"%char /\ c <> "-"%char) as [Hp Hm].
  { cbn [parse_digits] in P. split; intros ->; discriminate. }
  rewrite !decide_False by done. rewrite E. cbv beta iota zeta.
  destruct (Z.leb_spec two63 z); [lia|done].
Qed.

Lemma str_app_nil_r s : (s +:+ EmptyString)%string = s.
Proof.
  induction s as [|c s IH]; [done|].
  change (String c s +:+ EmptyString)%string with (String c (s +:+ EmptyString)).
  by rewrite IH.
Qed.

Lemma str_app_assoc s t u : ((s +:+ t) +:+ u)%string = (s +:+ (t +:+ u))%string.
Proof.
  induction s as [|c s IH]; [done|].
  change (((String c s +:+ t) +:+ u)%string) with (String c ((s +:+ t) +:+ u)).
  change ((String c s +:+ (t +:+ u))%string) with (String c (s +:+ (t +:+ u))).
  by rewrite IH.
Qed.

Lemma str_app_length s t : String.length (s +:+ t) = (String.length s + String.length t)%nat.
Proof. induction s as [|c s IH]; [done|]. simpl. by rewrite IH. Qed.

Lemma str_app_nonempty_l s t : s <> EmptyString -> (s +:+ t)%string <> EmptyString.
Proof. by destruct s. Qed.

Lemma FieldsFunc_go_end f s : forall cur,
  str_forall (fun a => negb (f a)) s = true ->
  FieldsFunc_go f s cur = flush (cur +:+ s)%string.
Proof.
  induction s as [|a s IH]; intros cur Hs; [cbn; by rewrite str_app_nil_r|].
  cbn [str_forall] in Hs. apply andb_true_iff in Hs as [Ha Hs].
  apply negb_true_iff in Ha. cbn [FieldsFunc_go]. rewrite Ha, IH by done.
  by rewrite str_app_assoc.
Qed.

Lemma FieldsFunc_go_skip f c s : forall cur,
  str_forall (fun a => negb (f a)) s = true -> f c = true ->
  forall t, FieldsFunc_go f (s +:+ String c t)%string cur =
    flush (cur +:+ s)%string ++ FieldsFunc_go f t EmptyString.
Proof.
  induction s as [|a s IH]; intros cur Hs Hc t.
  - change (EmptyString +:+ String c t)%string with (String c t).
    cbn [FieldsFunc_go]. rewrite Hc. by rewrite str_app_nil_r.
  - change (String a s +:+ String c t)%string with (String a (s +:+ String c t)).
    cbn [str_forall] in Hs. apply andb_true_iff in Hs as [Ha Hs].
    apply negb_true_iff in Ha. cbn [FieldsFunc_go]. rewrite Ha, IH by done.
    by rewrite str_app_assoc.
Qed.

Lemma flush_nonempty s : s <> EmptyString -> flush s = [s].
Proof. by destruct s. Qed.

(** A predicate that holds of the ten digits holds of a printed number. *)
Lemma fmt_digits_forall fuel p : forall z s,
  (forall d, 0 <= d < 10 -> p (digit_char d) = true) -> 0 <= z ->
  str_forall p (fmt_digits fuel z s) = str_forall p s.
Proof.
  induction fuel as [|n IH]; intros z s Hp Hz; [done|]. cbn [fmt_digits].
  assert (Hm : 0 <= z mod 10 < 10) by (apply Z.mod_pos_bound; lia).
  assert (E : str_forall p (String (digit_char (z mod 10)) s) = str_forall p s).
  { cbn [str_forall]. by rewrite Hp. }
  destruct (z / 10 =? 0); [done|]. rewrite IH; [done|done|]. apply Z.div_pos; lia.
Qed.

Lemma fmt_d_forall p z :
  (forall d, 0 <= d < 10 -> p (digit_char d) = true) -> 0 <= z ->
  str_forall p (fmt_d z) = true.
Proof. intros Hp Hz. unfold fmt_d. by rewrite fmt_digits_forall. Qed.

Lemma str_filter_all p s : str_forall p s = true -> str_filter p s = s.
Proof.
  induction s as [|c s IH]; intros H; [done|]. cbn [str_forall] in H.
  apply andb_true_iff in H as [Hc Hs]. cbn. rewrite Hc. f_equal. by apply IH.
Qed.

(** Case analysis over the ten digits. *)
Lemma digit_char_cases (P : ascii -> Prop) :
  P "0"%char -> P "1"%char -> P "2"%char -> P "3"%char -> P "4"%char ->
  P "5"%char -> P "6"%char -> P "7"%char -> P "8"%char -> P "9"%char ->
  forall d, 0 <= d < 10 -> P (digit_char d).
Proof.
  intros P0 P1 P2 P3 P4 P5 P6 P7 P8 P9 d H.
  assert (Hd : d = 0 \/ d = 1 \/ d = 2 \/ d = 3 \/ d = 4 \/ d = 5 \/ d = 6 \/
               d = 7 \/ d = 8 \/ d = 9) by lia.
  destruct Hd as [->|[->|[->|[->|[->|[->|[->|[->|[->| ->]]]]]]]]]; assumption.
Qed.

Lemma str_forall_app p s t : str_forall p (s +:+ t) = str_forall p s && str_forall p t.
Proof.
  induction s as [|c s IH]; [done|].
  change (String c s +:+ t) with (String c (s +:+ t)). cbn [str_forall].
  rewrite IH. by rewrite andb_assoc.
Qed.

Lemma fmt_digits_free fuel : forall c z s,
  digit_val c = None -> 0 <= z ->
  free_of c (fmt_digits fuel z s) = free_of c s.
Proof.
  unfold free_of.
  induction fuel as [|n IH]; intros c z s Hc Hz; [done|]. cbn [fmt_digits].
  assert (Hm : 0 <= z mod 10 < 10) by (apply Z.mod_pos_bound; lia).
  assert (E : str_forall (fun a => negb (bool_decide (a = c)))
                (String (digit_char (z mod 10)) s) =
              str_forall (fun a => negb (bool_decide (a = c))) s).
  { cbn [str_forall]. rewrite bool_decide_eq_false_2; [done|].
    by apply digit_char_ne. }
  destruct (z / 10 =? 0); [done|]. rewrite IH; [done|done|].
  apply Z.div_pos; lia.
Qed.

Lemma fmt_d_free c z : digit_val c = None -> 0 <= z -> free_of c (fmt_d z) = true.
Proof. intros Hc Hz. unfold fmt_d. by rewrite fmt_digits_free. Qed.

Lemma Split_nonempty c s : Split c s <> [].
Proof. destruct s as [|a s]; [done|]. cbn. destruct (decide _); [done|]. by destruct (Split c s). Qed.

Lemma Split_free c s : free_of c s = true -> Split c s = [s].
Proof.
  induction s as [|a s IH]; intros H; [done|].
  unfold free_of in H. cbn [str_forall] in H. apply andb_true_iff in H as [H1 H2].
  apply negb_true_iff, bool_decide_eq_false in H1.
  cbn [Split]. rewrite decide_False by done. by rewrite (IH H2).
Qed.

Lemma Split_app c s t :
  free_of c s = true ->
  Split c (s +:+ String c t) = s :: Split c t.
Proof.
  induction s as [|a s IH]; intros H.
  - change (EmptyString +:+ String c t)%string with (String c t).
    cbn [Split]. by rewrite decide_True.
  - unfold free_of in H. cbn [str_forall] in H. apply andb_true_iff in H as [H1 H2].
    apply negb_true_iff, bool_decide_eq_false in H1.
    change (String a s +:+ String c t)%string with (String a (s +:+ String c t)).
    cbn [Split]. rewrite decide_False by done. by rewrite (IH H2).
Qed.

Lemma Split_Join c parts :
  parts <> [] -> Forall (fun p => free_of c p = true) parts ->
  Split c (Join parts (String c EmptyString)) = parts.
Proof.
  intros Hne HF. induction HF as [|p ps Hp HF IH]; [done|]. destruct ps as [|q qs].
  - by apply Split_free.
  - change (Join (p :: q :: qs) (String c EmptyString))
      with (p +:+ String c EmptyString +:+ Join (q :: qs) (String c EmptyString))%string.
    change (String c EmptyString +:+ ?x)%string with (String c x).
    rewrite Split_app by done. f_equal. by apply IH.
Qed.

#[export] Hint Resolve fmt_d_nonempty fmt_d_free : bstream.

Lemma parse_digits_nonneg s : forall acc v, 0 <= acc -> parse_digits s acc = Some v -> 0 <= v.
Proof.
  induction s as [|c s IH]; intros acc v Ha H; cbn in H; [by injection H as <-|].
  unfold digit_val in H. destruct (_ && _) eqn:E; [|done].
  apply andb_true_iff in E as [E1%Z.leb_le E2%Z.leb_le]. eapply IH; [|exact H]. lia.
Qed.

(** The two parsers return a value or an error. *)
Lemma ParseUint_cases s bits :
  (exists v, ParseUint s bits = Ok v /\ 0 <= v < 2 ^ bits) \/ exists e, ParseUint s bits = Err e.
Proof.
  unfold ParseUint. destruct s as [|c s]; [right; eauto|].
  destruct (parse_digits (String c s) 0) as [v|] eqn:E; [|right; eauto].
  apply parse_digits_nonneg in E; [|lia]. destruct (Z.ltb_spec v (2 ^ bits)); [left|right]; eauto.
Qed.

Lemma ParseUint_range s v : ParseUint s 64 = Ok v -> is_u64 v.
Proof.
  intros H. destruct (ParseUint_cases s 64) as [(v' & E & Hv)|[e E]]; [|congruence].
  assert (v = v') as -> by congruence. exact Hv.
Qed.

Lemma ParseInt_cases s : (exists v, ParseInt s = Ok v) \/ exists e, ParseInt s = Err e.
Proof.
  unfold ParseInt. destruct s as [|c s]; [right; eauto|].
  destruct (if decide (c = "+"%char) then _ else _) as [neg digits].
  destruct (ParseUint_cases digits 64) as [(v & -> & _)|[e ->]]; [|eauto].
  destruct neg; [destruct (two63 <? v)|destruct (two63 <=? v)]; eauto.
Qed.

Lemma str_drop_0 s : str_drop 0 s = s.
Proof.
  unfold str_drop. rewrite Nat.sub_0_r.
  induction s as [|c s IH]; [done|]. cbn. by rewrite IH.
Qed.

Lemma str_drop_1 c s : str_drop 1 (String c s) = s.
Proof. transitivity (str_drop 0 s); [|apply str_drop_0]. done. Qed.

(** ** Zero-padded numbers *)

Lemma parse_digits_zeros n s : parse_digits (zeros n +:+ s) 0 = parse_digits s 0.
Proof. induction n as [|n IH]; [done|]. cbn. exact IH. Qed.

Lemma fmt_010d_nonempty z : fmt_010d z <> EmptyString.
Proof.
  unfold fmt_010d. destruct (zeros _); [apply fmt_d_nonempty|done].
Qed.

Lemma zeros_free c n : c <> "0"%char -> free_of c (zeros n) = true.
Proof.
  intros Hc. induction n as [|n IH]; [done|]. unfold free_of in *. cbn [zeros str_forall].
  rewrite IH, bool_decide_false by congruence. done.
Qed.

Lemma fmt_010d_free c z : digit_val c = None -> 0 <= z -> free_of c (fmt_010d z) = true.
Proof.
  intros Hc Hz. unfold fmt_010d, free_of. rewrite str_forall_app.
  apply andb_true_iff. split; [|by apply fmt_d_free].
  apply zeros_free. intros ->. discriminate.
Qed.

Lemma parse_fmt_010d z : is_u64 z -> parse_digits (fmt_010d z) 0 = Some z.
Proof. intros H. unfold fmt_010d. rewrite parse_digits_zeros. by apply parse_fmt_d. Qed.

Lemma ParseUint_overflow s bits v :
  s <> EmptyString -> parse_digits s 0 = Some v -> 2 ^ bits <= v ->
  ParseUint s bits = Err (EMsg "value out of range").
Proof.
  intros Hs Hp Hv. unfold ParseUint. destruct s as [|c s]; [done|]. rewrite Hp.
  destruct (Z.ltb_spec v (2 ^ bits)); [lia|done].
Qed.

(** ** Dropping bytes *)

Lemma str_drop_S n c s : str_drop (S n) (String c s) = str_drop n s.
Proof. unfold str_drop. cbn. by destruct (String.length s - n)%nat. Qed.

Lemma str_drop_length n s : (n <= String.length s)%nat ->
  String.length (str_drop n s) = (String.length s - n)%nat.
Proof.
  revert s. induction n as [|n IH]; intros s Hn; [rewrite str_drop_0; lia|].
  destruct s as [|c s]; [cbn in Hn; lia|]. rewrite str_drop_S, IH; cbn in *; lia.
Qed.

Lemma HasSuffix_drop n s : (n <= String.length s)%nat -> HasSuffix s (str_drop n s) = true.
Proof.
  intros Hn. unfold HasSuffix. rewrite str_drop_length by done.
  replace (String.length s - (String.length s - n))%nat with n by lia.
  rewrite bool_decide_true by done. by apply andb_true_iff; split; [apply Nat.leb_le; lia|].
Qed.
