(* ===== verification/Loops.v ===== *)
(** * Loops

    Go's [for { body }] as an iteration with fuel, and the rules to reason
    about it: invariants, termination by a measure, and the adequacy of the
    fuel for loops that walk a finite set of points. *)

From S2P Require Import Prelude.

(** ** Loops

    [for { body }]: the body either continues with a new state or leaves the
    loop with a result.  [None] is the exhaustion of the fuel. *)
Fixpoint loop {S R} (body : S -> S + R) (fuel : nat) (s : S) : option R :=
  match fuel with
  | O => None
  | Datatypes.S n =>
      match body s with
      | inl s' => loop body n s'
      | inr r => Some r
      end
  end.

Definition of_fuel {A} (r : option A) : outcome A :=
  match r with Some a => Ok a | None => Diverge end.

(** ** Rules *)
(** *** Loops *)

Section Loop.
Context {S R : Type} (body : S -> S + R).

Lemma loop_mono n m s r : loop body n s = Some r -> (n <= m)%nat -> loop body m s = Some r.
Proof.
  revert m s. induction n as [|n IH]; intros m s H Hm; [discriminate|].
  destruct m as [|m]; [lia|]. cbn in *. destruct (body s); [|done].
  apply IH; [done|lia].
Qed.

(** The invariant rule. *)
Lemma loop_inv (P : S -> Prop) (Q : R -> Prop) n s r :
  P s ->
  (forall s s', P s -> body s = inl s' -> P s') ->
  (forall s r, P s -> body s = inr r -> Q r) ->
  loop body n s = Some r -> Q r.
Proof.
  intros HP Hs Hr. revert s HP. induction n as [|n IH]; intros s HP H; [discriminate|].
  cbn in H. destruct (body s) as [s'|r'] eqn:E; [eauto|].
  injection H as <-. eauto.
Qed.

(** The termination rule: the measure decreases under the invariant. *)
Lemma loop_terminates (P : S -> Prop) (mu : S -> nat) n s :
  P s ->
  (forall s s', P s -> body s = inl s' -> P s' /\ (mu s' < mu s)%nat) ->
  (mu s < n)%nat -> is_Some (loop body n s).
Proof.
  intros HP Hs. revert s HP. induction n as [|n IH]; intros s HP Hn; [lia|].
  cbn. destruct (body s) as [s'|r'] eqn:E; [|eauto].
  destruct (Hs _ _ HP E). apply IH; [done|lia].
Qed.

(** Whether the loop goes on depends on a projection of its state only; the
    projected states form an orbit of [next]. *)
Context {A : Type} `{EqDecision A} (pi : S -> A) (next : A -> option A).

Hypothesis body_next : forall s,
  match body s with
  | inl s' => next (pi s) = Some (pi s')
  | inr _ => next (pi s) = None
  end.

Fixpoint orbit (n : nat) (a : A) : option A :=
  match n with
  | O => Some a
  | Datatypes.S n' => next a ≫= orbit n'
  end.

Lemma orbit_add n m a : orbit (n + m) a = orbit n a ≫= orbit m.
Proof.
  revert a. induction n as [|n IH]; intros a; [done|]. cbn.
  destruct (next a); [apply IH|done].
Qed.

Lemma loop_None_orbit n s : loop body n s = None <-> is_Some (orbit n (pi s)).
Proof.
  revert s. induction n as [|n IH]; intros s; cbn; [split; eauto|].
  pose proof (body_next s) as Hb. destruct (body s) as [s'|r].
  - rewrite Hb. apply IH.
  - rewrite Hb. cbn. split; [done|]. by intros [? [=]].
Qed.

(** An orbit that meets the same point twice never ends. *)
Lemma orbit_cycle i j a x :
  (i < j)%nat -> orbit i a = Some x -> orbit j a = Some x -> forall n, is_Some (orbit n a).
Proof.
  intros Hij Hi Hj.
  assert (Hp : orbit (j - i) x = Some x).
  { replace j with (i + (j - i))%nat in Hj by lia. rewrite orbit_add, Hi in Hj. exact Hj. }
  assert (Hk : forall k, orbit (k * (j - i)) x = Some x).
  { induction k as [|k IH]; [done|]. cbn [Nat.mul]. rewrite orbit_add, Hp. exact IH. }
  assert (Hpre : forall m n, (n <= m)%nat -> is_Some (orbit m x) -> is_Some (orbit n x)).
  { intros m n Hle [y Hy]. replace m with (n + (m - n))%nat in Hy by lia.
    rewrite orbit_add in Hy. destruct (orbit n x); [eauto|done]. }
  intros n. destruct (Nat.le_gt_cases n i) as [Hle|Hgt].
  - replace i with (n + (i - n))%nat in Hi by lia. rewrite orbit_add in Hi.
    destruct (orbit n a); [eauto|done].
  - replace n with (i + (n - i))%nat by lia. rewrite orbit_add, Hi. cbn.
    apply (Hpre ((n - i) * (j - i))%nat); [nia|]. rewrite Hk. eauto.
Qed.

Lemma orbit_elem (D : list A) a n x :
  (forall y z, y ∈ D -> next y = Some z -> z ∈ D) -> a ∈ D -> orbit n a = Some x -> x ∈ D.
Proof.
  intros HD. revert a. induction n as [|n IH]; intros a Ha H; cbn in H; [by injection H as <-|].
  destruct (next a) eqn:E; [|done]. eauto.
Qed.

(** Fuel adequacy: if a loop over a finite set of points does not end within as
    many rounds as there are points, it never ends. *)
(** Either a list has no duplicates or two of its positions agree. *)
Lemma NoDup_or_repeat {B} `{EqDecision B} (l : list B) :
  NoDup l \/ exists i j x, (i < j)%nat /\ l !! i = Some x /\ l !! j = Some x.
Proof.
  induction l as [|x l [IH|(i & j & y & Hij & Hi & Hj)]].
  - left. constructor.
  - destruct (decide (x ∈ l)) as [Hin|Hin]; [|left; by constructor].
    right. apply list_elem_of_lookup in Hin as [j Hj].
    exists 0%nat, (Datatypes.S j), x. repeat split; [lia|done].
  - right. exists (Datatypes.S i), (Datatypes.S j), y. repeat split; [lia|done|done].
Qed.

Lemma loop_diverges (D : list A) n s :
  (forall x y, x ∈ D -> next x = Some y -> y ∈ D) -> pi s ∈ D ->
  (length D <= n)%nat -> loop body n s = None -> forall m, loop body m s = None.
Proof.
  intros HD Hs Hn HN m. apply loop_None_orbit.
  apply loop_None_orbit in HN.
  destruct HN as [z Hz].
  assert (Hdef : forall i, (i <= n)%nat -> is_Some (orbit i (pi s))).
  { intros i Hi. replace n with (i + (n - i))%nat in Hz by lia.
    rewrite orbit_add in Hz. destruct (orbit i (pi s)); [eauto|done]. }
  destruct (NoDup_or_repeat (omap (fun i => orbit i (pi s)) (seq 0 (Datatypes.S n))))
    as [Hnd|(i & j & x & Hij & Hi & Hj)].
  - exfalso.
    assert (Hlen : forall k a, (a + k <= Datatypes.S n)%nat ->
      length (omap (fun i => orbit i (pi s)) (seq a k)) = k).
    { induction k as [|k IH]; intros a Ha; [done|]. cbn.
      destruct (Hdef a) as [y Hy]; [lia|]. rewrite Hy. cbn. by rewrite IH by lia. }
    assert (Hsub : omap (fun i => orbit i (pi s)) (seq 0 (Datatypes.S n)) ⊆+ D).
    { apply NoDup_submseteq; [done|]. intros x Hx.
      apply list_elem_of_omap in Hx as (i & _ & Hx). by eapply orbit_elem. }
    apply submseteq_length in Hsub. rewrite Hlen in Hsub; lia.
  - assert (Hat : forall k a q y, (a + q <= Datatypes.S n)%nat ->
      omap (fun i => orbit i (pi s)) (seq a q) !! k = Some y -> orbit (a + k) (pi s) = Some y).
    { induction k as [|k IH]; intros a q y Ha Hy; (destruct q as [|q]; [done|]);
        cbn in Hy; destruct (Hdef a) as [w Hw]; try lia; rewrite Hw in Hy; cbn in Hy.
      - by rewrite Nat.add_0_r, Hw.
      - replace (a + Datatypes.S k)%nat with (Datatypes.S a + k)%nat by lia.
        eapply IH; [|exact Hy]. lia. }
    apply (orbit_cycle i j (pi s) x Hij).
    + by apply (Hat i 0%nat (Datatypes.S n)).
    + by apply (Hat j 0%nat (Datatypes.S n)).
Qed.
End Loop.
