(* ===== verification/Schedules.v ===== *)
(** * Schedules of goroutines

    A component whose goroutines run together is a state and a function [fire]
    that tells what each of their next actions does; a schedule is the list of the
    actions in the order in which they happen.  An action that cannot be taken
    (a send on a full channel, a receive on an empty one) has no result. *)

From S2P Require Import Prelude.

Section Schedules.
Context {L S : Type} (fire : L -> S -> option S).

Fixpoint schedule (ls : list L) (s : S) : option S :=
  match ls with
  | [] => Some s
  | l :: ls' => fire l s ≫= schedule ls'
  end.

Definition reachable (s s' : S) : Prop := exists ls, schedule ls s = Some s'.

Lemma schedule_app ls1 ls2 s s' : schedule (ls1 ++ ls2) s = Some s' <->
  exists s1, schedule ls1 s = Some s1 /\ schedule ls2 s1 = Some s'.
Proof.
  revert s. induction ls1 as [|l ls1 IH]; intros s; cbn.
  - split; [by exists s|]. by intros (? & [= ->] & ?).
  - destruct (fire l s) as [s1|]; cbn; [apply IH|]. by split; [|intros (? & ? & _)].
Qed.

(** The invariant rule, for the schedules of some of the actions. *)
Lemma schedule_inv_on (A : L -> Prop) (P : S -> Prop) ls s s' : Forall A ls -> P s ->
  (forall l s s', A l -> P s -> fire l s = Some s' -> P s') -> schedule ls s = Some s' -> P s'.
Proof.
  intros HA HP Hf. revert s HP. induction HA as [|l ls Hl _ IH]; intros s HP E; cbn in E; [by injection E as <-|].
  destruct (fire l s) as [s1|] eqn:E1; [|done]. by eapply IH, E; eauto.
Qed.

Lemma schedule_inv (P : S -> Prop) ls s s' : P s -> (forall l s s', P s -> fire l s = Some s' -> P s') ->
  schedule ls s = Some s' -> P s'.
Proof.
  intros HP Hf. apply (schedule_inv_on (fun _ => True)); [by apply Forall_true|done|]. intros l q q' _. apply Hf.
Qed.

(** The termination rule: when every action decreases a measure, the schedules are
    no longer than the measure. *)
Lemma schedule_bound (P : S -> Prop) (mu : S -> nat) ls s s' : P s ->
  (forall l s s', P s -> fire l s = Some s' -> P s' /\ (mu s' < mu s)%nat) ->
  schedule ls s = Some s' -> (length ls + mu s' <= mu s)%nat.
Proof.
  intros HP Hf. revert s HP. induction ls as [|l ls IH]; intros s HP E; cbn in E |- *; [injection E as <-; lia|].
  destruct (fire l s) as [s1|] eqn:E1; [|done]. destruct (Hf _ _ _ HP E1) as [HP1 Hm].
  cbn in E. specialize (IH s1 HP1 E). lia.
Qed.

(** A machine whose actions decrease a measure comes to a state without actions. *)
Lemma schedule_stops (P : S -> Prop) (mu : S -> nat) s : P s ->
  (forall l s s', P s -> fire l s = Some s' -> P s' /\ (mu s' < mu s)%nat) ->
  (forall s, P s -> (exists l, is_Some (fire l s)) \/ (forall l, fire l s = None)) ->
  exists s', reachable s s' /\ P s' /\ forall l, fire l s' = None.
Proof.
  intros HP Hf Hd. remember (mu s) as n eqn:En. revert s HP En.
  induction (lt_wf n) as [n _ IH]; intros s HP ->.
  destruct (Hd s HP) as [[l [s1 E]]|Hn]; [|exists s; split; [by exists []|done]].
  destruct (Hf _ _ _ HP E) as [HP1 Hm]. destruct (IH _ Hm s1 HP1 eq_refl) as (s' & [ls Hr] & H').
  exists s'. split; [|done]. exists (l :: ls). cbn. by rewrite E.
Qed.
End Schedules.
