(* ===== verification/Types.v ===== *)
(** * Blocks, references, steps and objects ([types.go], [steps.go], [util.go])

    The data every component of the library exchanges: the block message, the
    reference to a block, the step type of an event, the cursor and the
    dynamically typed object that travels next to a block through the
    handlers. *)

From S2P Require Import Prelude GoStrings.
From Stdlib Require Import Ascii.

(** ** Configuration

    The package variable [GetProtocolFirstStreamableBlock] ([registry.go]) is
    set by the program that embeds the library. *)
Class Protocol := {
  GetProtocolFirstStreamableBlock : Z;
}.

(** ** The block message

    [google.protobuf.Any] and [Timestamp] are external messages.  The
    [Timestamp] is represented by its nanoseconds since the epoch, [None]
    standing for a nil timestamp or one [CheckValid] refuses. *)
Record Any := mkAny { TypeUrl : string; Value : string }.

Record Block := mkBlock {
  Number : Z;
  Id : string;
  ParentId : string;
  Timestamp : option Z;
  LibNum : Z;
  PayloadKind : Z;
  PayloadVersion : Z;
  PayloadBuffer : string;
  HeadNum : Z;
  ParentNum : Z;
  Payload : option Any;
}.

#[global] Instance Any_eq_dec : EqDecision Any.
Proof. solve_decision. Defined.
#[global] Instance Block_eq_dec : EqDecision Block.
Proof. solve_decision. Defined.

(** ** Block references *)

Record BlockRef := NewBlockRef { ID : string; Num : Z }.

#[global] Instance BlockRef_eq_dec : EqDecision BlockRef.
Proof. solve_decision. Defined.

Definition BlockRefEmpty : BlockRef := NewBlockRef "" 0.

(** A nil interface is [None]; calling a method on it panics. *)
Definition deref {A} (r : option A) : outcome A :=
  match r with
  | Some x => Ok x
  | None => Panic "invalid memory address or nil pointer dereference"
  end.

Definition IsEmpty (ref : option BlockRef) : bool :=
  match ref with
  | None => true
  | Some r => (Num r =? 0) && bool_decide (ID r = "")
  end.

Definition EqualsBlockRefs (left right : option BlockRef) : bool :=
  match left, right with
  | None, None => true
  | None, _ | _, None => false
  | Some l, Some r => (Num l =? Num r) && bool_decide (ID l = ID r)
  end.

(** [blockRefAsAstring], and the [String] methods of a reference that differ
    from it: the empty reference, and the reference type of the [pbbstream]
    package. *)
Definition blockRefAsAstring (source : option BlockRef) : string :=
  match source with
  | None => "Block <nil>"
  | Some r => "#" +:+ fmt_d (Num r) +:+ " (" +:+ ID r +:+ ")"
  end.

Definition emptyBlockRef_String : string := "Block <empty>".

Definition pb_String (e : BlockRef) : string :=
  if bool_decide (ID e = "") && (Num e =? 0) then "Block <nil>" else blockRefAsAstring (Some e).

(** [Block.AsRef] of a possibly nil block. *)
Definition AsRef (b : option Block) : BlockRef :=
  match b with
  | None => NewBlockRef "" 0
  | Some b => NewBlockRef (Id b) (Number b)
  end.

Definition PreviousRef (b : option Block) : BlockRef :=
  match b with
  | None => NewBlockRef "" 0
  | Some b =>
      if (ParentNum b =? 0) || bool_decide (ParentId b = "") then NewBlockRef "" 0
      else NewBlockRef (ParentId b) (ParentNum b)
  end.

(** [Block.Time]: the zero time is represented by [None]. *)
Definition Time (b : option Block) : outcome (option Z) :=
  match b with
  | None => Ok None
  | Some b =>
      match Timestamp b with
      | None => Panic "invalid timestamp"
      | Some t => Ok (Some t)
      end
  end.

(** The accessors of [pb/sf/bstream/v1/bstream.go] for firehose, of a non-nil block. *)
Definition GetFirehoseBlockID (b : Block) : string := Id b.
Definition GetFirehoseBlockNumber (b : Block) : Z := Number b.
Definition GetFirehoseBlockParentID (b : Block) : string := ParentId b.
Definition GetFirehoseBlockParentNumber (b : Block) : Z := ParentNum b.
Definition GetFirehoseBlockTime (b : Block) : outcome (option Z) := Time (Some b).

(** [encoding/hex] and [encoding/binary] on the first eight characters. *)
Definition hex_val (c : ascii) : option Z :=
  let n := Z.of_nat (nat_of_ascii c) in
  if (48 <=? n) && (n <=? 57) then Some (n - 48)
  else if (97 <=? n) && (n <=? 102) then Some (n - 87)
  else if (65 <=? n) && (n <=? 70) then Some (n - 55)
  else None.

Fixpoint hex_DecodeString (s : string) : option (list Z) :=
  match s with
  | EmptyString => Some []
  | String a (String b s') =>
      match hex_val a, hex_val b, hex_DecodeString s' with
      | Some x, Some y, Some bs => Some (x * 16 + y :: bs)
      | _, _, _ => None
      end
  | String _ EmptyString => None
  end.

Definition BigEndian_Uint32 (b : list Z) : outcome Z :=
  match b with
  | b0 :: b1 :: b2 :: b3 :: _ => Ok (b0 * 16777216 + b1 * 65536 + b2 * 256 + b3)
  | _ => Panic "index out of range"
  end.

Definition BigEndian_Uint64 (b : list Z) : outcome Z :=
  match b with
  | b0 :: b1 :: b2 :: b3 :: b4 :: b5 :: b6 :: b7 :: _ =>
      Ok ((b0 * 16777216 + b1 * 65536 + b2 * 256 + b3) * 4294967296 +
          (b4 * 16777216 + b5 * 65536 + b6 * 256 + b7))
  | _ => Panic "index out of range"
  end.

Definition NewBlockRefFromID (id : string) : outcome BlockRef :=
  if (String.length id <? 8)%nat then Ok (NewBlockRef id 0)
  else
    match hex_DecodeString (String.substring 0 8 id) with
    | None => Ok (NewBlockRef id 0)
    | Some bin => n ← BigEndian_Uint32 bin; Ok (NewBlockRef id n)
    end.

(** [toBlockNum] ([util.go]): extracts the number of a hex-encoded ID. *)
Definition toBlockNum (blockID : string) : outcome Z :=
  if (String.length blockID <? 8)%nat then Ok 0
  else
    match hex_DecodeString (String.substring 0 8 blockID) with
    | None => Ok 0
    | Some bin => BigEndian_Uint64 bin
    end.

(** [lowBoundary] ([util.go], and its copy in [transform]). *)
Definition lowBoundary (i modulus : Z) : outcome Z :=
  if modulus =? 0 then Panic "integer divide by zero"
  else Ok (u64_sub i (i mod modulus)).

(** ** Steps ([steps.go]) *)

Definition StepNew : Z := 1.
Definition StepUndo : Z := 2.
Definition StepIrreversible : Z := 16.
Definition StepStalled : Z := 32.
Definition StepNewIrreversible : Z := Z.lor StepNew StepIrreversible.
Definition StepsAll : Z :=
  Z.lor (Z.lor (Z.lor StepNew StepUndo) StepIrreversible) StepStalled.

Definition Matches (t t2 : Z) : bool := negb (Z.land t t2 =? 0).

Definition StepType_String (t : Z) : string :=
  let el :=
    (if Matches t StepNew then ["new"] else []) ++
    (if Matches t StepUndo then ["undo"] else []) ++
    (if Matches t StepIrreversible then ["irreversible"] else []) ++
    (if Matches t StepStalled then ["stalled"] else []) in
  match el with [] => "none" | _ => Join el "," end.

(** ** Cursors and objects

    [obj interface{}] is nil, an object of the embedding program (of the
    abstract type [O]) or one of the library's three wrappers. *)
Record Cursor := mkCursor {
  Step : Z;
  cBlock : option BlockRef;
  LIB : option BlockRef;
  HeadBlock : option BlockRef;
}.

#[global] Instance Cursor_eq_dec : EqDecision Cursor.
Proof. solve_decision. Defined.

Definition EmptyCursor : Cursor :=
  mkCursor 0 (Some BlockRefEmpty) (Some BlockRefEmpty) (Some BlockRefEmpty).

(** [*forkable.ForkableObject]; the blocks of a multi-block step are pairs of
    a block and the object it was preprocessed to. *)
Record ForkableObject (O : Type) := mkForkableObject {
  fo_step : Z;
  StepCount : Z;
  StepIndex : Z;
  StepBlocks : list (Block * option O);
  fo_reorgJunctionBlock : option BlockRef;
  headBlock : option BlockRef;
  fo_block : option BlockRef;
  lastLIBSent : option BlockRef;
  fo_Obj : option O;
}.
Arguments mkForkableObject {O}.
Arguments fo_step {O}. Arguments StepCount {O}. Arguments StepIndex {O}.
Arguments StepBlocks {O}. Arguments fo_reorgJunctionBlock {O}. Arguments headBlock {O}.
Arguments fo_block {O}. Arguments lastLIBSent {O}. Arguments fo_Obj {O}.

(** [*bstream.wrappedObject]. *)
Record wrappedObject (O : Type) := mkWrapped {
  w_obj : option O;
  w_cursor : Cursor;
  w_reorgJunctionBlock : option BlockRef;
}.
Arguments mkWrapped {O}. Arguments w_obj {O}. Arguments w_cursor {O}.
Arguments w_reorgJunctionBlock {O}.

(** [*bstream.preprocessedForkableObject]. *)
Record preprocessedForkableObject (O : Type) := mkPreprocessed {
  p_cursor : Cursor;
  p_step : Z;
  p_reorgJunctionBlock : option BlockRef;
  p_obj : option O;
}.
Arguments mkPreprocessed {O}. Arguments p_cursor {O}. Arguments p_step {O}.
Arguments p_reorgJunctionBlock {O}. Arguments p_obj {O}.

Inductive iface (O : Type) : Type :=
  | INil
  | IUser (o : O)
  | IForkable (f : ForkableObject O)
  | IWrapped (w : wrappedObject O)
  | IPreprocessed (p : preprocessedForkableObject O).
Arguments INil {O}. Arguments IUser {O}. Arguments IForkable {O}.
Arguments IWrapped {O}. Arguments IPreprocessed {O}.

Section Interfaces.
Context {O : Type}.

(** *** [forkable.ForkableObject] *)
Definition FO_FinalBlockHeight (f : ForkableObject O) : outcome Z :=
  r ← deref (lastLIBSent f); Ok (Num r).

Definition FO_ReorgJunctionBlock (f : ForkableObject O) : option BlockRef :=
  if fo_step f =? StepUndo then fo_reorgJunctionBlock f else None.

Definition FO_Cursor (f : option (ForkableObject O)) : Cursor :=
  match f with
  | None => EmptyCursor
  | Some f =>
      match fo_block f, headBlock f, lastLIBSent f with
      | Some b, Some h, Some l =>
          let lib := if Num b <? Num l then b else l in
          mkCursor (fo_step f) (Some b) (Some lib) (Some h)
      | _, _, _ => EmptyCursor
      end
  end.

Definition FO_Step (f : ForkableObject O) : Z := fo_step f.
Definition FO_WrappedObject (f : ForkableObject O) : option O := fo_Obj f.

(** *** [bstream.wrappedObject] *)
Definition W_Step (w : wrappedObject O) : Z := Step (w_cursor w).
Definition W_WrappedObject (w : wrappedObject O) : option O := w_obj w.
Definition W_Cursor (w : wrappedObject O) : Cursor := w_cursor w.
Definition W_ReorgJunctionBlock (w : wrappedObject O) : option BlockRef := w_reorgJunctionBlock w.

Definition W_FinalBlockHeight (w : wrappedObject O) : Z :=
  match LIB (w_cursor w) with None => 0 | Some l => Num l end.

(** *** [bstream.preprocessedForkableObject] *)
Definition P_FinalBlockHeight (p : preprocessedForkableObject O) : Z :=
  match LIB (p_cursor p) with None => 0 | Some l => Num l end.

Definition P_Step (p : preprocessedForkableObject O) : Z := p_step p.
Definition P_WrappedObject (p : preprocessedForkableObject O) : option O := p_obj p.
Definition P_Cursor (p : preprocessedForkableObject O) : Cursor := p_cursor p.
Definition P_ReorgJunctionBlock (p : preprocessedForkableObject O) : option BlockRef := p_reorgJunctionBlock p.

(** [obj.(bstream.Stepable).Step()] *)
Definition iface_Step (o : iface O) : outcome Z :=
  match o with
  | INil | IUser _ => Panic "interface conversion: missing method Step"
  | IForkable f => Ok (FO_Step f)
  | IWrapped w => Ok (W_Step w)
  | IPreprocessed p => Ok (P_Step p)
  end.

(** The methods of the [bstream.ForkableObject] interface, for the three
    types that implement it. *)
Definition iface_WrappedObject (o : iface O) : option (option O) :=
  match o with
  | INil | IUser _ => None
  | IForkable f => Some (FO_WrappedObject f)
  | IWrapped w => Some (W_WrappedObject w)
  | IPreprocessed p => Some (P_WrappedObject p)
  end.

Definition iface_Cursor (o : iface O) : Cursor :=
  match o with
  | INil | IUser _ => EmptyCursor
  | IForkable f => FO_Cursor (Some f)
  | IWrapped w => W_Cursor w
  | IPreprocessed p => P_Cursor p
  end.

Definition iface_ReorgJunctionBlock (o : iface O) : option BlockRef :=
  match o with
  | INil | IUser _ => None
  | IForkable f => FO_ReorgJunctionBlock f
  | IWrapped w => W_ReorgJunctionBlock w
  | IPreprocessed p => P_ReorgJunctionBlock p
  end.
End Interfaces.

(** [PreprocessedBlock] ([blocktypes.go]): a block and the object it was
    preprocessed to. *)
Record PreprocessedBlock (O : Type) := mkPreprocessedBlock { pp_Block : Block; pp_Obj : iface O }.
Arguments mkPreprocessedBlock {O}. Arguments pp_Block {O}. Arguments pp_Obj {O}.

Definition PreprocessedBlock_ID {O} (p : PreprocessedBlock O) : string := Id (pp_Block p).
Definition PreprocessedBlock_Num {O} (p : PreprocessedBlock O) : Z := Number (pp_Block p).
Definition PreprocessedBlock_String {O} (p : PreprocessedBlock O) : string :=
  blockRefAsAstring (Some (NewBlockRef (PreprocessedBlock_ID p) (PreprocessedBlock_Num p))).

(** ** Handlers

    [Handler.ProcessBlock] of code outside the library: a state transformer
    that may return an error.  [HS] is the handler's own state. *)
Definition Handler (O HS : Type) : Type := Block -> iface O -> HS -> option error * HS.

(** The recording handler used by the witnesses: it keeps what it receives,
    latest first, and never fails. *)
Definition recorder {O} : Handler O (list (Block * iface O)) :=
  fun b o h => (None, (b, o) :: h).

(** How a run ends: with the error of the handler, or as the source does. *)
Definition ended (failure : option error) (src_end : outcome unit) : outcome unit :=
  match failure with Some e => Err e | None => src_end end.

(** ** Workers by protocol ([util.go])

    The keys are the numbers of [pbbstream.Protocol]. *)

Definition DoForProtocol {S} (kind : Z) (mappings : gmap Z (M S unit)) : M S unit :=
  match mappings !! kind with
  | Some worker => worker
  | None => merr (EMsg "don't know how to handle block kind %s")
  end.

Definition MustDoForProtocol {S} (kind : Z) (mappings : gmap Z (M S unit)) : M S unit :=
  match mappings !! kind with
  | Some worker => worker
  | None => mpanic "don't know how to handle block kind %s"
  end.

(** ** Lemmas *)

Lemma Matches_sym a b : Matches a b = Matches b a.
Proof. unfold Matches. by rewrite Z.land_comm. Qed.

Lemma lowBoundary_spec i m :
  is_u64 i -> 0 < m ->
  exists lb, lowBoundary i m = Ok lb /\ lb <= i < lb + m /\ lb mod m = 0 /\ 0 <= lb.
Proof.
  intros Hi Hm. unfold lowBoundary.
  destruct (Z.eqb_spec m 0); [lia|].
  pose proof (Z.mod_pos_bound i m Hm) as Hb.
  pose proof (Z.mod_le i m) as Hle.
  assert (0 <= i) by (unfold is_u64 in Hi; lia).
  rewrite u64_sub_le by (auto; lia).
  exists (i - i mod m). repeat split; try lia.
  rewrite Zminus_mod_idemp_r, Z.sub_diag. apply Z.mod_0_l. lia.
Qed.

(** Eight hexadecimal digits are four bytes, of which [toBlockNum] reads eight. *)
Lemma toBlockNum_panics : is_Panic (toBlockNum "00000001aa") = true.
Proof. reflexivity. Qed.
