(* ===== verification/Range.v ===== *)
(** * Block ranges ([range.go])

    A range keeps its end as a pointer; [Equals] compares pointers, so the
    model keeps the address next to the value.  Functions that allocate the
    pointer take the fresh address as their first argument. *)

From S2P Require Import Prelude GoStrings Types.
From Stdlib Require Import Ascii.

Module Range.

Record ptr := mkPtr { addr : nat; val : Z }.

#[export] Instance ptr_eq_dec : EqDecision ptr.
Proof. solve_decision. Defined.

Record Range := mkRange {
  startBlock : Z;
  endBlock : option ptr;
  exclusiveStartBlock : bool;
  exclusiveEndBlock : bool;
}.

#[export] Instance Range_eq_dec : EqDecision Range.
Proof. solve_decision. Defined.

(** The accessors. *)
Definition StartBlock (r : Range) : Z := startBlock r.
Definition EndBlock (r : Range) : option ptr := endBlock r.

Definition ErrOpenEndedRange : error := ESentinel "open ended range".

Definition RangeOptions : Type := Range -> Range.

Definition WithExclusiveEnd : RangeOptions := fun p =>
  mkRange (startBlock p) (endBlock p) (exclusiveStartBlock p) true.

Definition WithExclusiveStart : RangeOptions := fun p =>
  mkRange (startBlock p) (endBlock p) true (exclusiveEndBlock p).

Definition newRange (start : Z) (end_ : option ptr) (opts : list RangeOptions)
  : outcome Range :=
  let invalid := match end_ with Some e => val e <=? start | None => false end in
  if invalid then Err (EMsg "invalid block range start %d, end %d")
  else Ok (foldl (fun r opt => opt r) (mkRange start end_ false false) opts).

Definition mustNewRange (start : Z) (end_ : option ptr) (opts : list RangeOptions)
  : outcome Range :=
  match newRange start end_ opts with
  | Err _ => Panic "invalid block range"
  | o => o
  end.

Definition NewOpenRange (start : Z) : outcome Range :=
  mustNewRange start None [WithExclusiveEnd].

Definition NewRangeExcludingEnd (a : nat) (start end_ : Z) : outcome Range :=
  mustNewRange start (Some (mkPtr a end_)) [WithExclusiveEnd].

Definition NewInclusiveRange (a : nat) (start end_ : Z) : outcome Range :=
  mustNewRange start (Some (mkPtr a end_)) [].

Definition NewRangeContaining (a : nat) (blockNum size : Z) : outcome Range :=
  if size =? 0 then Err (EMsg "range needs a size")
  else
    let start := u64_sub blockNum (blockNum mod size) in
    NewInclusiveRange a start (u64_add start size).

(** [splitBy] and the byte class [a-zA-Z0-9 ] of the regular expression. *)
Definition splitBy (r : ascii) : bool :=
  bool_decide (r = ":"%char) || bool_decide (r = "-"%char).

Definition is_space (c : ascii) : bool := bool_decide (c = " "%char).

Definition is_alnum_or_space (c : ascii) : bool :=
  let n := Z.of_nat (nat_of_ascii c) in
  ((97 <=? n) && (n <=? 122)) || ((65 <=? n) && (n <=? 90)) ||
  ((48 <=? n) && (n <=? 57)) || is_space c.

Definition clean_bound (bound : string) : string :=
  str_filter is_alnum_or_space (str_filter (fun c => negb (is_space c)) bound).

Definition nth_bound (ch : list string) (i : nat) : outcome string :=
  match ch !! i with
  | Some b => Ok b
  | None => Panic "index out of range"
  end.

Definition wrap_err {A} (msg : string) (m : outcome A) : outcome A :=
  match m with Err e => Err (EWrap msg e) | o => o end.

Definition ParseRange (a : nat) (input : string) (opts : list RangeOptions)
  : outcome Range :=
  if bool_decide (input = "") then Err (EMsg "input is required")
  else
    let ch := clean_bound <$> FieldsFunc splitBy input in
    b0 ← nth_bound ch 0;
    lo ← wrap_err "invalid start block" (ParseInt b0);
    b1 ← nth_bound ch 1;
    hi ← wrap_err "invalid stop block" (ParseInt b1);
    wrap_err "making range" (newRange (u64 lo) (Some (mkPtr a (u64 hi))) opts).

Definition MustParseRange (a : nat) (input : string) (opts : list RangeOptions)
  : outcome Range :=
  match ParseRange a input opts with
  | Err _ => Panic "MustParseRange"
  | o => o
  end.

(** [String] of a possibly nil range. *)
Definition Range_String (r : option Range) : string :=
  match r with
  | None => "[nil]"
  | Some r =>
      let startBlockDeli := if exclusiveStartBlock r then "(" else "[" in
      match endBlock r with
      | None => (startBlockDeli +:+ fmt_d (startBlock r) +:+ ", nil]")%string
      | Some e =>
          let endBlockDeli := if exclusiveEndBlock r then ")" else "]" in
          (startBlockDeli +:+ fmt_d (startBlock r) +:+ ", " +:+
           fmt_d (val e) +:+ endBlockDeli)%string
      end
  end.

Definition Contains (r : Range) (blockNum : Z) : bool :=
  if blockNum <? startBlock r then false
  else if exclusiveStartBlock r && (blockNum =? startBlock r) then false
  else
    match endBlock r with
    | None => true
    | Some e =>
        if val e <? blockNum then false
        else if exclusiveEndBlock r && (blockNum =? val e) then false
        else true
    end.

Definition ReachedEndBlock (r : Range) (blockNum : Z) : bool :=
  match endBlock r with
  | None => false
  | Some e =>
      if val e <=? blockNum then true
      else if exclusiveEndBlock r && (blockNum =? u64_sub (val e) 1) then true
      else false
  end.

Definition Next (a : nat) (r : Range) (size : Z) : Range :=
  match endBlock r with
  | None =>
      mkRange (u64_add (startBlock r) size) None
        (exclusiveStartBlock r) (exclusiveEndBlock r)
  | Some e =>
      mkRange (val e) (Some (mkPtr a (u64_add (val e) size)))
        (exclusiveStartBlock r) (exclusiveEndBlock r)
  end.

(** [prevRange.endBlock = &r.startBlock]: the address is the one of the
    receiver's own field. *)
Definition Previous (a : nat) (r : Range) (size : Z) : Range :=
  mkRange (u64_sub (startBlock r) size)
    (match endBlock r with
     | None => None
     | Some _ => Some (mkPtr a (startBlock r))
     end)
    (exclusiveStartBlock r) (exclusiveEndBlock r).

(** [r.endBlock == other.endBlock] on pointers. *)
Definition ptr_eqb (p q : option ptr) : bool :=
  match p, q with
  | None, None => true
  | Some p, Some q => (addr p =? addr q)%nat
  | _, _ => false
  end.

Definition Equals (r other : Range) : bool :=
  (startBlock r =? startBlock other) &&
  ptr_eqb (endBlock r) (endBlock other) &&
  Bool.eqb (exclusiveStartBlock r) (exclusiveStartBlock other) &&
  Bool.eqb (exclusiveEndBlock r) (exclusiveEndBlock other).

Definition IsNext (a : nat) (r next : Range) (size : Z) : bool :=
  Equals (Next a r size) next.

Definition Size (r : Range) : outcome Z :=
  match endBlock r with
  | None => Err ErrOpenEndedRange
  | Some e => Ok (u64_sub (val e) (startBlock r))
  end.

(** The loop of [Split]: [None] when the fuel runs out. *)
Fixpoint Split_loop (fuel a : nat) (r : Range) (endB chunkSize currentStart currentEnd : Z)
  : option (list Range) :=
  match fuel with
  | O => None
  | S n =>
      let chunk := mkRange currentStart (Some (mkPtr a currentEnd))
                     (exclusiveStartBlock r) (exclusiveEndBlock r) in
      if endB <=? currentEnd then Some [chunk]
      else
        let currentStart' := currentEnd in
        let e := u64_add currentStart' chunkSize in
        let currentEnd' := if endB <? e then endB else e in
        cons chunk <$> Split_loop n (S a) r endB chunkSize currentStart' currentEnd'
  end.

Definition Split_fuel (r : Range) (endB chunkSize : Z) : nat :=
  Z.to_nat ((endB - startBlock r) / chunkSize + 2).

Definition Split (a : nat) (r : Range) (chunkSize : Z) : outcome (list Range) :=
  match endBlock r with
  | None => Err ErrOpenEndedRange
  | Some e =>
      let endB := val e in
      if u64_sub endB (startBlock r) <=? chunkSize then Ok [r]
      else if chunkSize =? 0 then Panic "integer divide by zero"
      else
        let x := u64_add (startBlock r) chunkSize in
        let currentEnd := u64_sub x (x mod chunkSize) in
        match Split_loop (Split_fuel r endB chunkSize) a r endB chunkSize
                (startBlock r) currentEnd with
        | Some l => Ok l
        | None => Diverge
        end
  end.

(** ** Specification vocabulary *)

Definition wf (r : Range) : Prop :=
  is_u64 (startBlock r) /\
  forall e, endBlock r = Some e -> is_u64 (val e) /\ startBlock r < val e.

(** The chunks tile [s, e]: each starts where the previous one ends, none is
    empty or larger than [c], all carry the flags of [r], and every inner
    boundary is a multiple of [c]. *)
Fixpoint tiles (r : Range) (c s e : Z) (l : list Range) : Prop :=
  match l with
  | [] => False
  | k :: l' =>
      startBlock k = s /\
      exclusiveStartBlock k = exclusiveStartBlock r /\
      exclusiveEndBlock k = exclusiveEndBlock r /\
      exists p, endBlock k = Some p /\ s < val p <= s + c /\
        match l' with
        | [] => val p = e
        | _ => val p mod c = 0 /\ tiles r c (val p) e l'
        end
  end.

(** Membership in the interval a closed range denotes. *)
Definition inside (s e : Z) (xs xe : bool) (n : Z) : bool :=
  (if xs then s <? n else s <=? n) && (if xe then n <? e else n <=? e).

(** How many chunks contain the block. *)
Definition cover_count (n : Z) (l : list Range) : nat :=
  length (filter (fun k => Contains k n = true) l).

(** ** Lemmas *)

Lemma Contains_inside s p xs xe n :
  Contains (mkRange s (Some p) xs xe) n = inside s (val p) xs xe n.
Proof.
  unfold Contains, inside. cbn. destruct xs, xe; zcases; cbn; try done; lia.
Qed.

Lemma cover_count_cons n k l :
  cover_count n (k :: l) = ((if Contains k n then 1 else 0) + cover_count n l)%nat.
Proof.
  unfold cover_count. rewrite filter_cons.
  destruct (Contains k n); [rewrite decide_True by done|rewrite decide_False by done]; done.
Qed.


Lemma Split_loop_tiles r c endB fuel : forall a s e,
  0 < c -> 0 <= s -> endB + c < two64 ->
  s < e <= s + c -> e <= endB ->
  (e < endB -> e mod c = 0) ->
  (endB - e + c - 1) / c + 1 <= Z.of_nat fuel ->
  exists l, Split_loop fuel a r endB c s e = Some l /\ tiles r c s endB l.
Proof.
  induction fuel as [|n IH]; intros a s e Hc Hs0 Hov Hse Hend Hmod Hfuel.
  - assert (0 <= (endB - e + c - 1) / c) by (apply Z.div_pos; lia). lia.
  - cbn [Split_loop]. destruct (Z.leb_spec endB e) as [Hle|Hlt].
    + eexists. split; [done|]. cbn. repeat split. exists (mkPtr a e). cbn. repeat split; lia.
    + rewrite u64_add_lt by lia.
      set (e' := if endB <? e + c then endB else e + c).
      assert (He' : e < e' <= e + c /\ e' <= endB /\ (e' < endB -> e' = e + c)).
      { unfold e'. destruct (Z.ltb_spec endB (e + c)); lia. }
      destruct (IH (S a) e e') as (l & El & Tl); try lia.
      { intros Hlt'. replace e' with (e + c) by lia.
        rewrite <- Zplus_mod_idemp_l, Hmod, Z.add_0_l by lia. apply Z.mod_same. lia. }
      { assert ((endB - e + c - 1) / c = 1 + (endB - e - 1) / c) as Hd.
        { replace (endB - e + c - 1) with (1 * c + (endB - e - 1)) by lia.
          apply Z.div_add_l. lia. }
        assert (0 <= (endB - e - 1) / c) by (apply Z.div_pos; lia).
        destruct (Z.eq_dec e' endB) as [->|Hne].
        - replace (endB - endB + c - 1) with (c - 1) by lia.
          rewrite (Z.div_small (c - 1)) by lia. lia.
        - replace (endB - e' + c - 1) with (endB - e - 1) by lia. lia. }
      rewrite El. eexists. split; [reflexivity|]. cbn.
      repeat split. exists (mkPtr a e). cbn. repeat split; try lia.
      destruct l as [|k l]; [destruct Tl|]. split; [by apply Hmod|exact Tl].
Qed.

(** Where the first chunk ends. *)
Lemma first_boundary s c :
  0 <= s -> 0 < c -> s < (s + c) - (s + c) mod c <= s + c.
Proof.
  intros Hs Hc. pose proof (Z.mod_pos_bound (s + c) c Hc). lia.
Qed.

Lemma Split_tiles a r e c :
  wf r -> endBlock r = Some e -> 0 < c -> c < val e - startBlock r ->
  val e + c < two64 ->
  exists l, Split a r c = Ok l /\ tiles r c (startBlock r) (val e) l.
Proof.
  intros [Hs He] Ee Hc Hbig Hov. destruct (He e Ee) as [Hu Hlt].
  unfold is_u64 in *. unfold Split. rewrite Ee.
  rewrite u64_sub_le by (unfold is_u64; lia).
  destruct (Z.leb_spec (val e - startBlock r) c); [lia|].
  destruct (Z.eqb_spec c 0); [lia|].
  rewrite u64_add_lt by lia.
  pose proof (first_boundary (startBlock r) c ltac:(lia) Hc) as Hfb.
  pose proof (Z.mod_pos_bound (startBlock r + c) c Hc).
  rewrite u64_sub_le by (unfold is_u64; lia).
  set (e0 := startBlock r + c - (startBlock r + c) mod c) in *.
  destruct (Split_loop_tiles r c (val e) (Split_fuel r (val e) c) a (startBlock r) e0)
    as (l & El & Tl); try lia.
  - intros _. unfold e0. rewrite Zminus_mod_idemp_r, Z.sub_diag. apply Z.mod_0_l. lia.
  - unfold Split_fuel. assert (0 <= (val e - startBlock r) / c) by (apply Z.div_pos; lia).
    rewrite Z2Nat.id by lia.
    assert ((val e - e0 + c - 1) / c <= (1 * c + (val e - startBlock r)) / c)
      by (apply Z.div_le_mono; lia).
    rewrite Z.div_add_l in * by lia. lia.
  - rewrite El. eauto.
Qed.

Lemma tiles_pos r c s e l : tiles r c s e l -> s < e.
Proof.
  revert s. induction l as [|k l IH]; intros s H; [destruct H|].
  destruct H as (_ & _ & _ & p & _ & Hp & Hrest).
  destruct l; [lia|]. destruct Hrest as [_ Hrest]. specialize (IH _ Hrest). lia.
Qed.

(** Below its start, a tiling with exactly one exclusive end contains nothing;
    in it, every block lies in one chunk. *)
Lemma tiles_count r c s e l n :
  xorb (exclusiveStartBlock r) (exclusiveEndBlock r) = true ->
  tiles r c s e l ->
  cover_count n l =
  if inside s e (exclusiveStartBlock r) (exclusiveEndBlock r) n then 1%nat else 0%nat.
Proof.
  intros Hx. revert s. induction l as [|k l IH]; intros s H; [destruct H|].
  destruct H as (Hs & Hxs & Hxe & p & Hp & Hb & Hrest).
  destruct k as [ks ke kxs kxe]. cbn in Hs, Hxs, Hxe, Hp. subst.
  rewrite cover_count_cons, Contains_inside.
  destruct l as [|k' l].
  - subst e. cbn. lia.
  - destruct Hrest as [_ Hrest]. pose proof (tiles_pos _ _ _ _ _ Hrest) as Hlt.
    rewrite (IH _ Hrest). unfold inside.
    destruct (exclusiveStartBlock r), (exclusiveEndBlock r); try discriminate;
      zcases; cbn; lia.
Qed.

Lemma tiles_single r c p :
  endBlock r = Some p -> startBlock r < val p <= startBlock r + c ->
  tiles r c (startBlock r) (val p) [r].
Proof. intros Hp Hb. cbn. repeat split. eauto. Qed.

(** *** Parsing *)

Lemma bound_digits d :
  0 <= d < 10 ->
  negb (splitBy (digit_char d)) && is_alnum_or_space (digit_char d) &&
  negb (is_space (digit_char d)) = true.
Proof.
  intros H. pattern (digit_char d). by apply digit_char_cases.
Qed.

Lemma clean_bound_fmt_d z : 0 <= z -> clean_bound (fmt_d z) = fmt_d z.
Proof.
  intros Hz. unfold clean_bound.
  rewrite (str_filter_all (fun c => negb (is_space c))), str_filter_all; [done| |];
    apply fmt_d_forall; try done; intros d Hd; pose proof (bound_digits d Hd);
    rewrite !andb_true_iff in *; tauto.
Qed.

Lemma FieldsFunc_bounds c lo hi :
  splitBy c = true -> 0 <= lo -> 0 <= hi ->
  FieldsFunc splitBy (fmt_d lo +:+ String c (fmt_d hi))%string = [fmt_d lo; fmt_d hi].
Proof.
  intros Hc Hlo Hhi. unfold FieldsFunc.
  assert (Hd : forall z, 0 <= z -> str_forall (fun a => negb (splitBy a)) (fmt_d z) = true).
  { intros z Hz. apply fmt_d_forall; [|done]. intros d Hd. pose proof (bound_digits d Hd).
    rewrite !andb_true_iff in *. tauto. }
  rewrite FieldsFunc_go_skip, FieldsFunc_go_end by auto.
  change (EmptyString +:+ ?x)%string with x.
  by rewrite !flush_nonempty by apply fmt_d_nonempty.
Qed.

(** ** Properties *)

(** C38: [Split] with a positive chunk size that does not overflow always
    returns; its chunks tile the range (consecutive, none larger than the chunk
    size, inner boundaries aligned, flags kept), and when exactly one bound is
    exclusive every block of the range is in exactly one chunk and no other
    block is in any. *)
Theorem Split_partitions a r e c :
  wf r -> endBlock r = Some e -> 0 < c -> val e + c < two64 ->
  exists l, Split a r c = Ok l /\ tiles r c (startBlock r) (val e) l /\
    (xorb (exclusiveStartBlock r) (exclusiveEndBlock r) = true ->
     forall n, cover_count n l = if Contains r n then 1%nat else 0%nat).
Proof.
  intros Hwf He Hc Hov.
  assert (exists l, Split a r c = Ok l /\ tiles r c (startBlock r) (val e) l) as (l & El & Tl).
  { destruct (Z.leb_spec (val e - startBlock r) c) as [Hle|Hgt];
      [|by apply Split_tiles].
    pose proof Hwf as [Hs Hve]. destruct (Hve _ He) as [Hu Hlt]. unfold is_u64 in *.
    exists [r]. split; [|apply tiles_single; [done|lia]].
    unfold Split. rewrite He, u64_sub_le by (unfold is_u64; lia).
    by destruct (Z.leb_spec (val e - startBlock r) c); [|lia]. }
  exists l. split; [done|]. split; [done|]. intros Hx n.
  rewrite (tiles_count _ _ _ _ _ n Hx Tl).
  destruct r as [s p xs xe]. cbn in He. subst p. by rewrite Contains_inside.
Qed.

Lemma Split_partitions_witness :
  exists l, Split 7 (mkRange 10 (Some (mkPtr 0 28)) true false) 5 = Ok l /\
    tiles (mkRange 10 (Some (mkPtr 0 28)) true false) 5 10 28 l /\
    (xorb true false = true -> forall n, cover_count n l =
      if Contains (mkRange 10 (Some (mkPtr 0 28)) true false) n then 1%nat else 0%nat).
Proof.
  apply (Split_partitions 7 (mkRange 10 (Some (mkPtr 0 28)) true false) (mkPtr 0 28) 5).
  - split; [unfold is_u64, two64; cbn; lia|].
    intros e [= <-]. unfold is_u64, two64; cbn; lia.
  - reflexivity.
  - reflexivity.
  - reflexivity.
Defined.

(** Near the top of the [uint64] space the addition inside the loop of
    [Split] wraps around and the loop never ends, whatever the fuel. *)
Theorem Split_overflow_diverges :
  let r := mkRange 1 (Some (mkPtr 0 (two64 - 1))) false true in
  Split 1 r two63 = Diverge /\
  forall fuel a, Split_loop fuel a r (two64 - 1) two63 1 two63 = None.
Proof.
  cbv zeta. split; [vm_compute; reflexivity|].
  set (r := mkRange 1 _ _ _).
  assert (H : forall fuel a s,
    Split_loop fuel a r (two64 - 1) two63 s two63 = None /\
    Split_loop fuel a r (two64 - 1) two63 s 0 = None).
  { induction fuel as [|n IH]; intros a s; [done|]. split; cbn [Split_loop].
    - destruct (Z.leb_spec (two64 - 1) two63) as [H|H]; [vm_compute in H; congruence|].
      change (u64_add two63 two63) with 0.
      destruct (Z.ltb_spec (two64 - 1) 0) as [H'|H']; [vm_compute in H'; congruence|].
      by rewrite (proj2 (IH (S a) two63)).
    - destruct (Z.leb_spec (two64 - 1) 0) as [H|H]; [vm_compute in H; congruence|].
      change (u64_add 0 two63) with two63.
      destruct (Z.ltb_spec (two64 - 1) two63) as [H'|H']; [vm_compute in H'; congruence|].
      by rewrite (proj1 (IH (S a) 0)). }
  intros fuel a. apply H.
Qed.

(** For a range that includes its start, [ReachedEndBlock] is true exactly
    when no later block belongs to the range. *)
Theorem ReachedEndBlock_iff r n :
  wf r -> exclusiveStartBlock r = false -> 0 <= n ->
  ReachedEndBlock r n = true <-> forall m, n < m -> Contains r m = false.
Proof.
  intros [Hs He] Hx Hn. destruct r as [s [p|] xs xe]; cbn in *; subst xs.
  - destruct (He p eq_refl) as [Hu Hlt]. unfold is_u64 in *.
    setoid_rewrite Contains_inside. unfold ReachedEndBlock, inside. cbn.
    rewrite u64_sub_le by (unfold is_u64; lia). split.
    + intros H m Hm. destruct xe; zcases; cbn in *; try done; lia.
    + intros H. specialize (H (if xe then val p - 1 else val p)).
      destruct xe; zcases; cbn in *; try done; try lia; (discriminate H; lia).
  - split; [done|]. intros H. specialize (H (Z.max n s + 1)).
    unfold Contains in H. cbn in H.
    destruct (Z.ltb_spec (Z.max n s + 1) s); [lia|]. discriminate H; lia.
Qed.

Lemma ReachedEndBlock_iff_witness :
  let r := mkRange 10 (Some (mkPtr 0 15)) false true in
  ReachedEndBlock r 14 = true <-> forall m, 14 < m -> Contains r m = false.
Proof.
  apply ReachedEndBlock_iff; [|reflexivity|lia].
  split; [unfold is_u64, two64; cbn; lia|].
  intros e [= <-]. unfold is_u64, two64; cbn; lia.
Defined.

(** [Equals] compares the end pointers, and [Next] allocates a new one:
    [IsNext] is false for every closed range, even for the range that does
    follow it. *)
Theorem IsNext_closed_false a r e next size :
  endBlock r = Some e ->
  (forall p, endBlock next = Some p -> addr p <> a) ->
  IsNext a r next size = false.
Proof.
  intros He Hfresh. unfold IsNext, Equals, Next. rewrite He. cbn.
  destruct (endBlock next) as [p|] eqn:E; cbn; [|by rewrite !andb_false_r].
  specialize (Hfresh p eq_refl). destruct (Nat.eqb_spec a (addr p)); [congruence|].
  by rewrite andb_false_r.
Qed.

Lemma IsNext_closed_false_witness :
  IsNext 9 (mkRange 0 (Some (mkPtr 0 10)) false true)
    (mkRange 10 (Some (mkPtr 1 20)) false true) 10 = false.
Proof.
  apply (IsNext_closed_false 9 _ (mkPtr 0 10)); [reflexivity|].
  intros p [= <-]. cbn. lia.
Defined.

(** [ParseRange] of two printed numbers around either separator gives the
    inclusive range between them when they are in order, and the error of
    [newRange] when they are not; an input with a single bound makes the code
    index past the end of the split and panic. *)
Theorem ParseRange_printed a c lo hi :
  splitBy c = true -> 0 <= lo < two63 -> 0 <= hi < two63 ->
  ParseRange a (fmt_d lo +:+ String c (fmt_d hi))%string [] =
    (if lo <? hi then Ok (mkRange lo (Some (mkPtr a hi)) false false)
     else Err (EWrap "making range" (EMsg "invalid block range start %d, end %d"))) /\
  ParseRange a (fmt_d lo) [] = Panic "index out of range".
Proof.
  intros Hc Hlo Hhi.
  assert (Hu : forall z, 0 <= z < two63 -> u64 z = z).
  { intros z Hz. apply u64_small. unfold is_u64, two63, two64 in *. lia. }
  split.
  - unfold ParseRange. rewrite bool_decide_eq_false_2.
    2: { apply str_app_nonempty_l, fmt_d_nonempty. }
    rewrite FieldsFunc_bounds, !fmap_cons, !clean_bound_fmt_d by (done || lia).
    unfold nth_bound. cbn [lookup list_lookup mbind outcome_bind].
    rewrite !ParseInt_fmt_d by lia. cbn [wrap_err outcome_bind mbind].
    rewrite !Hu by done. unfold newRange. cbn.
    destruct (Z.leb_spec hi lo), (Z.ltb_spec lo hi); done || lia.
  - unfold ParseRange. rewrite bool_decide_eq_false_2 by apply fmt_d_nonempty.
    unfold FieldsFunc. rewrite FieldsFunc_go_end.
    2: { apply fmt_d_forall; [|lia]. intros d Hd. pose proof (bound_digits d Hd).
         rewrite !andb_true_iff in *. tauto. }
    change (EmptyString +:+ ?x)%string with x.
    rewrite flush_nonempty, fmap_cons, clean_bound_fmt_d by (apply fmt_d_nonempty || lia).
    unfold nth_bound. cbn [lookup list_lookup mbind outcome_bind].
    rewrite ParseInt_fmt_d by lia. done.
Qed.

Lemma ParseRange_printed_witness :
  ParseRange 3 "20-40" [] = Ok (mkRange 20 (Some (mkPtr 3 40)) false false) /\
  ParseRange 3 "20" [] = Panic "index out of range".
Proof.
  exact (ParseRange_printed 3 "-"%char 20 40 eq_refl
           ltac:(unfold two63; lia) ltac:(unfold two63; lia)).
Defined.

End Range.
