(* ===== verification/ForkDB.v ===== *)
(** * The fork database ([forkable/forkdb.go], [forkable/types.go])

    The graph of the blocks known so far: each block ID points to the ID of its
    parent, with the number of the block and the object attached to it.  The
    walks over the graph are Go [for] loops ([Loops.loop]); their fuel is the
    number of points the walk can visit. *)

From S2P Require Import Prelude Loops Types.

(** [forkable.Block]; a nil object is [None]. *)
Record ForkBlock (V : Type) := mkForkBlock {
  BlockID : string;
  BlockNum : Z;
  PreviousBlockID : string;
  Object : option V;
}.
Arguments mkForkBlock {V}. Arguments BlockID {V}. Arguments BlockNum {V}.
Arguments PreviousBlockID {V}. Arguments Object {V}.

(** [libRef] is never nil: [NewForkDB] sets [BlockRefEmpty]. *)
Record ForkDB (V : Type) := mkForkDB {
  links : gmap string string;
  nums : gmap string Z;
  objects : gmap string (option V);
  libRef : BlockRef;
}.
Arguments mkForkDB {V}. Arguments links {V}. Arguments nums {V}.
Arguments objects {V}. Arguments libRef {V}.

Definition ForkBlock_AsRef {V} (b : ForkBlock V) : BlockRef :=
  NewBlockRef (BlockID b) (BlockNum b).

Section ForkDB.
Context {V : Type} `{Protocol}.
Implicit Types (f : ForkDB V).

(** Go map reads, with the zero value for a missing key. *)
Definition link f (id : string) : string := default "" (links f !! id).
Definition num f (id : string) : Z := default 0 (nums f !! id).
Definition object f (id : string) : option V := mjoin (objects f !! id).

Definition set_libRef f (r : BlockRef) : ForkDB V :=
  mkForkDB (links f) (nums f) (objects f) r.

Definition NewForkDB : ForkDB V := mkForkDB ∅ ∅ ∅ BlockRefEmpty.

Definition InitLIB f (ref : BlockRef) : ForkDB V :=
  mkForkDB (links f) (<[ID ref := Num ref]> (nums f)) (objects f) ref.

Definition HasLIB f : bool := negb (EqualsBlockRefs (Some (libRef f)) (Some BlockRefEmpty)).

Definition LIBID f : string := ID (libRef f).
Definition LIBNum f : Z := Num (libRef f).
Definition IsBehindLIB f (blockNum : Z) : bool := blockNum <=? LIBNum f.

Definition MoveLIB f (r : BlockRef) : ForkDB V := set_libRef f r.

(** Every walk visits the start, the parents recorded in [links] and at most
    the empty ID. *)
Definition walk_fuel f : nat := S (S (size (links f))).

(** *** [BlockInCurrentChain] *)
Definition chain_body f (blockNum : Z) (cur : string) : string + BlockRef :=
  let prev := link f cur in
  match nums f !! prev with
  | None => inr BlockRefEmpty
  | Some prevNum =>
      if prevNum =? blockNum then inr (NewBlockRef prev prevNum)
      else if prevNum <? blockNum then inr (NewBlockRef cur blockNum)
      else inl prev
  end.

Definition BlockInCurrentChain f (startAtBlock : BlockRef) (blockNum : Z) : outcome BlockRef :=
  if Num startAtBlock =? blockNum then Ok startAtBlock
  else of_fuel (loop (chain_body f blockNum) (walk_fuel f) (ID startAtBlock)).

Definition SetLIB f (headRef : BlockRef) (libNum : Z) : outcome (ForkDB V) :=
  if Num headRef =? GetProtocolFirstStreamableBlock then Ok (set_libRef f headRef)
  else
    libRef' ← BlockInCurrentChain f headRef libNum;
    if decide (ID libRef' = "") then Ok f else Ok (MoveLIB f libRef').

(** *** [ChainSwitchSegments] *)
Definition undo_body f (s : string * list string * gset string)
  : (string * list string * gset string) + (list string * gset string) :=
  let '(cur, undoChain, seen) := s in
  let undoChain' := undoChain ++ [cur] in
  let seen' := {[cur]} ∪ seen in
  let prev := link f cur in
  if decide (prev = "") then inr (undoChain', seen') else inl (prev, undoChain', seen').

Definition redo_body f (seen : gset string) (s : string * list string)
  : (string * list string) + option (list string * string) :=
  let '(cur, redoChain) := s in
  if decide (cur ∈ seen) then inr (Some (redoChain, cur))
  else
    let redoChain' := redoChain ++ [cur] in
    let prev := link f cur in
    if decide (prev = "") then inr None else inl (prev, redoChain').

Fixpoint take_until (junction : string) (l : list string) : list string :=
  match l with
  | [] => []
  | blk :: l' => if decide (blk = junction) then [] else blk :: take_until junction l'
  end.

Definition ChainSwitchSegments f (oldHeadBlockID newHeadsPreviousID : string)
  : outcome (list string * list string * string) :=
  '(undoChain, seen) ← of_fuel (loop (undo_body f) (walk_fuel f) (oldHeadBlockID, [], ∅));
  r ← of_fuel (loop (redo_body f seen) (walk_fuel f) (newHeadsPreviousID, []));
  match r with
  | None => Ok ([], [], "")
  | Some (redoChain, reorgJunctionBlock) =>
      Ok (take_until reorgJunctionBlock undoChain, reverse redoChain, reorgJunctionBlock)
  end.

Definition Exists f (blockID : string) : bool := negb (bool_decide (link f blockID = "")).

(** *** [AddLink] *)
Definition AddLink f (blockRef : BlockRef) (previousRefID : string) (obj : option V)
  : (bool * bool) * ForkDB V :=
  let blockID := ID blockRef in
  if decide (blockID = previousRefID \/ blockID = "") then ((false, false), f)
  else
    let seenPrevious := negb (bool_decide (link f previousRefID = "")) in
    if decide (link f blockID <> "") then ((true, seenPrevious), f)
    else
      ((false, seenPrevious),
       mkForkDB (<[blockID := previousRefID]> (links f))
                (<[blockID := Num blockRef]> (nums f))
                (match obj with
                 | Some o => <[blockID := Some o]> (objects f)
                 | None => objects f
                 end)
                (libRef f)).

(** *** Segments *)
Definition node f (id : string) (n : Z) (parentID : string) : ForkBlock V :=
  mkForkBlock id n parentID (object f id).

Definition seg_state : Type := string * Z * list (ForkBlock V) * gset string * bool.
Definition seg_result : Type := option (list (ForkBlock V)) * bool.

Definition complete_body f (s : seg_state) : seg_state + seg_result :=
  let '(curID, curNum, reversedBlocks, seenIDs, reachLIB) := s in
  if decide (curID ∈ seenIDs) then inr (None, false)
  else
    let reachLIB' := if decide (curID = LIBID f) then true else reachLIB in
    match links f !! curID with
    | None => inr (Some (reverse reversedBlocks), reachLIB')
    | Some parentID =>
        inl (parentID, num f parentID, reversedBlocks ++ [node f curID curNum parentID],
             {[curID]} ∪ seenIDs, reachLIB')
    end.

Definition CompleteSegment f (startBlock : BlockRef) : outcome seg_result :=
  of_fuel (loop (complete_body f) (walk_fuel f) (ID startBlock, Num startBlock, [], ∅, false)).

Definition reversible_body f (s : seg_state) : seg_state + seg_result :=
  let '(curID, curNum, reversedBlocks, seenIDs, reachLIB) := s in
  if decide (curID ∈ seenIDs) then inr (None, false)
  else if (GetProtocolFirstStreamableBlock <? curNum) && (curNum <? LIBNum f)
  then inr (None, reachLIB)
  else if decide (curID = LIBID f) then inr (Some (reverse reversedBlocks), true)
  else
    match links f !! curID with
    | None =>
        if HasLIB f then inr (None, false) else inr (Some (reverse reversedBlocks), reachLIB)
    | Some parentID =>
        inl (parentID, num f parentID, reversedBlocks ++ [node f curID curNum parentID],
             {[curID]} ∪ seenIDs, reachLIB)
    end.

Definition ReversibleSegment f (startBlock : BlockRef) : outcome seg_result :=
  of_fuel (loop (reversible_body f) (walk_fuel f) (ID startBlock, Num startBlock, [], ∅, false)).

(** [sort.Slice(out, func(i, j) bool { return out[i].BlockID < out[j].BlockID })] *)
Definition id_le (a b : ForkBlock V) : Prop := String.le (BlockID a) (BlockID b).

#[export] Instance id_le_dec : RelDecision id_le.
Proof. intros a b. unfold id_le. apply _. Defined.

Definition stalled_candidates f (excludeBlocks : gset string) (start end_ : Z)
  : list (ForkBlock V) :=
  omap (fun '(blkID, prevID) =>
          let linkBlkNum := num f blkID in
          if negb (bool_decide (blkID ∈ excludeBlocks)) &&
             (start <=? linkBlkNum) && (linkBlkNum <=? end_)
          then Some (node f blkID linkBlkNum prevID)
          else None)
       (map_to_list (links f)).

Definition stalledInSegment f (blocks : list (ForkBlock V)) : list (ForkBlock V) :=
  if bool_decide (LIBID f = "") then []
  else
    match blocks, last blocks with
    | first :: _, Some lst =>
        let excludeBlocks := list_to_set (BlockID <$> blocks) in
        merge_sort id_le
          (stalled_candidates f excludeBlocks (BlockNum first) (BlockNum lst))
    | _, _ => []
    end.

Definition HasNewIrreversibleSegment f (newLIB : BlockRef)
  : outcome (bool * list (ForkBlock V) * list (ForkBlock V)) :=
  if negb (HasLIB f) then Panic "the LIB ID is not defined and should have been"
  else if decide (LIBID f = ID newLIB) then Ok (false, [], [])
  else
    '(seg, _) ← ReversibleSegment f newLIB;
    match seg with
    | None | Some [] => Ok (false, [], [])
    | Some irreversibleSegment =>
        Ok (true, irreversibleSegment, stalledInSegment f irreversibleSegment)
    end.

Definition DeleteLink f (id : string) : ForkDB V :=
  mkForkDB (delete id (links f)) (delete id (nums f)) (delete id (objects f)) (libRef f).

(** [PurgeBeforeLIB]: the purged blocks come in the unspecified order of the
    map iteration. *)
Definition purge_cutoff f (keptBlocks : Z) : Z :=
  if LIBNum f <? u64 keptBlocks then 0 else u64_sub (LIBNum f) (u64 keptBlocks).

Definition PurgeBeforeLIB f (keptBlocks : Z) : list (ForkBlock V) * ForkDB V :=
  let cutoff := purge_cutoff f keptBlocks in
  let kept := filter (fun kv => cutoff <= num f kv.1) (links f) in
  let purged := filter (fun kv => ~ cutoff <= num f kv.1) (links f) in
  ((fun '(blk, prev) => node f blk (num f blk) prev) <$> map_to_list purged,
   mkForkDB kept (map_imap (fun blk _ => Some (num f blk)) kept)
     (filter (fun kv => purged !! kv.1 = None) (objects f)) (libRef f)).

Definition ClonedLinks f : gmap string string * gmap string Z :=
  (links f, map_imap (fun k _ => Some (num f k)) (links f)).

Definition BlockForID f (blockID : string) : option (ForkBlock V) :=
  match links f !! blockID with
  | Some previous => Some (node f blockID (num f blockID) previous)
  | None => None
  end.

Definition blockRefForID f (blockID : string) : option BlockRef :=
  match links f !! blockID with
  | Some _ => Some (NewBlockRef blockID (num f blockID))
  | None => None
  end.

(** [IterateLinks] over a given order of the map: the callback may stop it. *)
Fixpoint iterate_links {S} f (order : list (string * string))
  (callback : string -> string -> option V -> S -> bool * S) (s : S) : S :=
  match order with
  | [] => s
  | (id, prevID) :: order' =>
      let '(getNext, s') := callback id prevID (object f id) s in
      if getNext then iterate_links f order' callback s' else s'
  end.

(** ** Specification vocabulary *)

(** [path f x l y]: following the links from [x] visits the IDs [l] and
    reaches [y]. *)
Inductive path f : string -> list string -> string -> Prop :=
  | path_nil x : path f x [] x
  | path_cons x p l y : links f !! x = Some p -> path f p l y -> path f x (x :: l) y.

(** The shape every operation keeps. *)
Record wf f : Prop := {
  wf_empty : links f !! "" = None;
  wf_self : forall x, links f !! x <> Some x;
  wf_nums : forall x p, links f !! x = Some p -> is_Some (nums f !! x);
  wf_objects : forall x o, objects f !! x = Some o -> is_Some (links f !! x);
}.

(** Numbers decrease strictly towards the parents. *)
Record heights f : Prop := {
  h_dec : forall x p n m, links f !! x = Some p -> nums f !! x = Some n ->
    nums f !! p = Some m -> m < n;
  h_nonneg : forall x n, nums f !! x = Some n -> 0 <= n;
  h_empty : nums f !! "" = None;
}.

End ForkDB.

#[global] Arguments walk_fuel {V} f : simpl never.
