(* ===== verification/ForkDBFacts.v ===== *)
(** * The fork database: invariants and functional behaviour

    Proofs about the definitions of [ForkDB.v]: paths along the links, the
    walks ([BlockInCurrentChain], [ChainSwitchSegments]), the segments and the
    purge. *)

From S2P Require Import Prelude Loops Types ForkDB.

Section Paths.
Context {V : Type}.
Implicit Types (f : ForkDB V) (l : list string).

Definition anc f (x y : string) : Prop := exists l, path f x l y.

(** The blocks of a segment, from the start of a path towards its end. *)
Fixpoint seg_nodes f (n : Z) l : list (ForkBlock V) :=
  match l with
  | [] => []
  | x :: l' => (node f x n (link f x)) :: (seg_nodes f (num f (link f x)) l')
  end.

(** The number the code gives to the end of a path it walked. *)
Fixpoint end_num f (n : Z) l : Z :=
  match l with
  | [] => n
  | x :: l' => end_num f (num f (link f x)) l'
  end.

(** Where the links of a start lead: to an ID without a link, or back to an ID
    already visited. *)
Definition rooted f (x : string) l (y : string) : Prop :=
  path f x l y /\ NoDup l /\ (y ∉ l) /\ links f !! y = None.

Definition looping f (x : string) l (y : string) : Prop :=
  path f x l y /\ NoDup l /\ y ∈ l.

Lemma link_Some f x p : links f !! x = Some p -> link f x = p.
Proof. unfold link. by intros ->. Qed.

Lemma link_None f x : links f !! x = None -> link f x = "".
Proof. unfold link. by intros ->. Qed.

Lemma path_ext f (g : ForkDB V) x l y : links f = links g -> path f x l y -> path g x l y.
Proof. intros E. induction 1; [constructor|]. econstructor; [|done]. by rewrite <- E. Qed.

Lemma path_app f x l y k z : path f x l y -> path f y k z -> path f x (l ++ k) z.
Proof. induction 1; [done|]. cbn. econstructor; eauto. Qed.

Lemma path_snoc f x l y p : path f x l y -> links f !! y = Some p -> path f x (l ++ [y]) p.
Proof. intros H Hp. eapply path_app; [done|]. econstructor; [done|constructor]. Qed.

Lemma path_app_inv f x l k z :
  path f x (l ++ k) z -> exists y, path f x l y /\ path f y k z.
Proof.
  revert x. induction l as [|a l IH]; intros x H; [exists x; split; [constructor|done]|].
  inversion H as [|? p ? ? Hp Hr]; subst. destruct (IH _ Hr) as (y & H1 & H2).
  exists y. split; [econstructor; eauto|done].
Qed.

Lemma path_head f x a l y : path f x (a :: l) y -> a = x.
Proof. by inversion 1. Qed.

Lemma path_cons_head f x a l y :
  path f x (a :: l) y -> a = x /\ exists p, links f !! x = Some p /\ path f p l y.
Proof. inversion 1; subst; eauto. Qed.

Lemma path_snoc_inv f x l a y :
  path f x (l ++ [a]) y -> path f x l a /\ links f !! a = Some y.
Proof.
  intros H. apply path_app_inv in H as (z & H1 & H2).
  apply path_cons_head in H2 as (-> & p & Hp & Hr). inversion Hr; subst. done.
Qed.

Lemma path_dom f x l y a : path f x l y -> a ∈ l -> is_Some (links f !! a).
Proof. induction 1; intros Hin; set_solver. Qed.

Lemma path_split f x l y a :
  path f x l y -> a ∈ l -> exists l1 l2, l = l1 ++ a :: l2 /\ path f x l1 a /\ path f a (a :: l2) y.
Proof.
  intros H Ha. apply list_elem_of_split in Ha as (l1 & l2 & ->).
  apply path_app_inv in H as (z & H1 & H2). pose proof (path_head _ _ _ _ _ H2) as ->.
  eauto.
Qed.

Lemma path_compare f x l y k z :
  path f x l y -> path f x k z ->
  (exists r, k = l ++ r /\ path f y r z) \/ (exists r, l = k ++ r /\ path f z r y).
Proof.
  intros H. revert k. induction H as [x|x p l y Hp H IH]; intros [|a k] Hk.
  - left. eauto.
  - left. eauto.
  - right. inversion Hk; subst. eexists (_ :: l). split; [done|]. econstructor; eauto.
  - apply path_cons_head in Hk as (-> & p' & Hp' & Hk'). simplify_eq.
    destruct (IH _ Hk') as [(r & -> & Hr)|(r & -> & Hr)]; [left|right]; eauto.
Qed.

Lemma path_length f x l y : path f x l y -> NoDup l -> (length l <= size (links f))%nat.
Proof.
  intros H Hnd.
  assert (Hsub : l ⊆+ elements (dom (links f))).
  { apply NoDup_submseteq; [done|]. intros a Ha. apply elem_of_elements, elem_of_dom.
    by eapply path_dom. }
  apply submseteq_length in Hsub. rewrite <- size_dom. exact Hsub.
Qed.

(** Every start either reaches a root or loops. *)
Lemma rooted_or_looping f x :
  (exists l y, rooted f x l y) \/ (exists l y, looping f x l y).
Proof.
  assert (Hk : forall k l y, path f x l y -> NoDup l ->
    (size (links f) < length l + k)%nat ->
    (exists l y, rooted f x l y) \/ (exists l y, looping f x l y)).
  { induction k as [|k IH]; intros l y Hp Hnd Hk.
    - pose proof (path_length _ _ _ _ Hp Hnd). lia.
    - destruct (decide (y ∈ l)) as [Hin|Hin]; [right; exists l, y; done|].
      destruct (links f !! y) as [p|] eqn:E; [|left; exists l, y; done].
      apply (IH (l ++ [y]) p); [by eapply path_snoc| |].
      + apply NoDup_app. split; [done|]. split; [set_solver|]. apply NoDup_singleton.
      + rewrite length_app. cbn. lia. }
  apply (Hk (S (size (links f))) [] x); [constructor|constructor|cbn; lia].
Qed.

Lemma rooted_unique f x l y k z : rooted f x l y -> rooted f x k z -> l = k /\ y = z.
Proof.
  intros (Hp & _ & _ & Hy) (Hk & _ & _ & Hz).
  destruct (path_compare _ _ _ _ _ _ Hp Hk) as [(r & -> & Hr)|(r & -> & Hr)];
    inversion Hr; subst; rewrite ?app_nil_r; try done; congruence.
Qed.

(** The IDs of a loop all have a link, which stays among them. *)
Lemma looping_closed f x k z w :
  looping f x k z -> w ∈ k -> exists p, links f !! w = Some p /\ p ∈ k.
Proof.
  intros (Hk & _ & Hz) Hw. apply list_elem_of_split in Hw as (k1 & k2 & ->).
  apply path_app_inv in Hk as (y & _ & H2).
  apply path_cons_head in H2 as (-> & p & Hp & Hr). exists p. split; [done|].
  destruct k2 as [|b k2]; [by inversion Hr; subst|].
  apply path_cons_head in Hr as (-> & _). set_solver.
Qed.

Lemma rooted_not_looping f x l y k z : rooted f x l y -> looping f x k z -> False.
Proof.
  intros (Hp & _ & _ & Hy) HL. pose proof HL as (Hk & _ & Hz).
  assert (Hx : x ∈ k).
  { destruct k as [|a k]; [by apply elem_of_nil in Hz|].
    apply path_cons_head in Hk as (-> & _). left. }
  assert (Hcl := fun w => looping_closed _ _ _ _ w HL). clear HL Hk Hz.
  assert (Hyk : y ∈ k).
  { clear Hy. induction Hp as [x|x p l y Hp1 _ IH]; [done|].
    destruct (Hcl _ Hx) as (p' & Hp' & Hin). simplify_eq. by apply IH. }
  destruct (Hcl _ Hyk) as (p & Hp' & _). congruence.
Qed.
End Paths.

(** ** Walks along the links *)

Section Walks.
Context {V : Type} `{Protocol}.
Implicit Types (f : ForkDB V).

(** The points a walk from [x] can visit. *)
Definition walk_points f (x : string) : list string := x :: "" :: (map_to_list (links f)).*2.

Lemma walk_points_length f x : length (walk_points f x) = walk_fuel f.
Proof.
  unfold walk_points, walk_fuel. cbn. by rewrite length_fmap, length_map_to_list.
Qed.

Lemma walk_points_link f x a : link f a ∈ walk_points f x.
Proof.
  unfold walk_points, link. destruct (links f !! a) as [p|] eqn:E; cbn; [|set_solver].
  right. right. apply list_elem_of_fmap. exists (a, p). split; [done|].
  by apply elem_of_map_to_list.
Qed.

(** *** [BlockInCurrentChain] *)

Definition chain_next f (blockNum : Z) (cur : string) : option string :=
  match nums f !! link f cur with
  | None => None
  | Some pn => if pn =? blockNum then None else if pn <? blockNum then None else Some (link f cur)
  end.

Lemma chain_body_next f n cur :
  match chain_body f n cur with
  | inl s' => chain_next f n (id cur) = Some (id s')
  | inr _ => chain_next f n (id cur) = None
  end.
Proof.
  unfold chain_body, chain_next, id. destruct (nums f !! link f cur) as [pn|]; [|done].
  by destruct (pn =? n), (pn <? n).
Qed.

Lemma chain_loop_adequate f n x :
  loop (chain_body f n) (walk_fuel f) x = None ->
  forall m, loop (chain_body f n) m x = None.
Proof.
  intros HN. eapply (loop_diverges _ id (chain_next f n) (chain_body_next f n)
    (walk_points f x)); [| | |exact HN].
  - intros a b _ Hb. unfold chain_next in Hb.
    destruct (nums f !! link f a) as [pn|]; [|done].
    destruct (pn =? n), (pn <? n); simplify_eq. apply walk_points_link.
  - left.
  - by rewrite walk_points_length.
Qed.

(** With decreasing numbers the walk ends. *)
Lemma chain_loop_terminates f n x : heights f ->
  0 <= n -> exists r, loop (chain_body f n) (walk_fuel f) x = Some r.
Proof.
  intros [Hdec Hnn Hemp] Hn.
  destruct (loop (chain_body f n) (walk_fuel f) x) as [r|] eqn:E; [eauto|exfalso].
  pose proof (chain_loop_adequate _ _ _ E) as Hdiv.
  set (P := fun c : string => (c = x \/ exists k, nums f !! c = Some k /\ n < k)).
  assert (Hstep : forall c c', chain_body f n c = inl c' ->
    exists k, c' = link f c /\ nums f !! c' = Some k /\ n < k).
  { intros c c' Hc. unfold chain_body in Hc.
    destruct (nums f !! link f c) as [k|] eqn:Ek; [|done].
    destruct (Z.eqb_spec k n), (Z.ltb_spec k n); simplify_eq.
    exists k. repeat split; [done|lia]. }
  destruct (chain_body f n x) as [c0|r] eqn:E0.
  2: { specialize (Hdiv 1%nat). cbn in Hdiv. by rewrite E0 in Hdiv. }
  destruct (Hstep _ _ E0) as (k0 & -> & Hk0 & Hlt0).
  assert (Hd' : forall m, loop (chain_body f n) m (link f x) = None).
  { intros m. specialize (Hdiv (S m)). cbn in Hdiv. by rewrite E0 in Hdiv. }
  destruct (loop_terminates (chain_body f n) (fun c => is_Some (nums f !! c))
    (fun c => Z.to_nat (num f c)) (S (Z.to_nat (num f (link f x)))) (link f x)) as [r Hr].
  - eauto.
  - intros c c' [kc Hkc] Hc. destruct (Hstep _ _ Hc) as (k & -> & Hk & Hlt).
    split; [eauto|]. unfold num. rewrite Hk, Hkc. cbn.
    assert (Hl : links f !! c = Some (link f c)).
    { unfold link in *. destruct (links f !! c) as [p|]; [done|]. cbn in Hk. congruence. }
    pose proof (Hdec _ _ _ _ Hl Hkc Hk). pose proof (Hnn _ _ Hk). lia.
  - lia.
  - by rewrite Hd' in Hr.
Qed.

(** What the walk answers: nothing when it meets an ID without a number, else
    an ancestor [r] of the start, carrying the requested number: the one that
    has it, or the last one above it when the chain skips it. *)
Definition chain_answer f (x : string) (n : Z) (r : BlockRef) : Prop :=
  (r = BlockRefEmpty /\ exists l c, path f x l c /\ nums f !! link f c = None) \/
  exists l, path f x l (ID r) /\ Num r = n /\
    ((exists k, nums f !! ID r = Some k /\ n <= k) \/ l = []) /\
    ((l <> [] /\ nums f !! ID r = Some n) \/
     exists pn, nums f !! link f (ID r) = Some pn /\ pn < n).

Lemma num_link f c k :
  nums f !! "" = None -> nums f !! link f c = Some k -> links f !! c = Some (link f c).
Proof.
  intros He Hc. unfold link in *. destruct (links f !! c) as [p|]; [done|].
  cbn in Hc. congruence.
Qed.

Lemma chain_loop_answer f n x r : nums f !! "" = None ->
  loop (chain_body f n) (walk_fuel f) x = Some r -> chain_answer f x n r.
Proof.
  intros Hemp HL.
  refine (loop_inv (chain_body f n)
    (fun c => exists l, path f x l c /\ ((exists k, nums f !! c = Some k /\ n <= k) \/ l = []))
    (chain_answer f x n) (walk_fuel f) x r _ _ _ HL).
  - exists []. split; [constructor|by right].
  - intros c c' (l & Hl & Hk') Hc. unfold chain_body in Hc.
    destruct (nums f !! link f c) as [k|] eqn:Ek; [|done].
    destruct (Z.eqb_spec k n), (Z.ltb_spec k n); simplify_eq.
    exists (l ++ [c]). split; [by eapply path_snoc; [|eapply num_link]|].
    left. exists k. split; [done|lia].
  - intros c r0 (l & Hl & Hk') Hc. unfold chain_body in Hc.
    destruct (nums f !! link f c) as [k|] eqn:Ek; [|simplify_eq; left; eauto].
    destruct (Z.eqb_spec k n) as [->|Hne].
    + simplify_eq. right. exists (l ++ [c]).
      split; [by eapply path_snoc; [|eapply num_link]|]. split; [done|]. split.
      * left. exists n. split; [done|lia].
      * left. split; [by destruct l|done].
    + destruct (Z.ltb_spec k n); simplify_eq. right. exists l. eauto 10.
Qed.

(** *** [ChainSwitchSegments] *)

Definition undo_next f (cur : string) : option string :=
  if decide (link f cur = "") then None else Some (link f cur).

Definition redo_next f (seen : gset string) (cur : string) : option string :=
  if decide (cur ∈ seen) then None
  else if decide (link f cur = "") then None else Some (link f cur).

Lemma undo_loop_adequate f x u s :
  loop (undo_body f) (walk_fuel f) (x, u, s) = None ->
  forall m, loop (undo_body f) m (x, u, s) = None.
Proof.
  intros HN. eapply (loop_diverges _ (fun s => s.1.1) (undo_next f) _ (walk_points f x));
    [| | |exact HN].
  - intros a b _ Hb. unfold undo_next in Hb. case_decide; simplify_eq. apply walk_points_link.
  - left.
  - by rewrite walk_points_length.
  Unshelve. intros [[c l] t]. unfold undo_body, undo_next. cbn. by case_decide.
Qed.

Lemma redo_loop_adequate f seen x l :
  loop (redo_body f seen) (walk_fuel f) (x, l) = None ->
  forall m, loop (redo_body f seen) m (x, l) = None.
Proof.
  intros HN. eapply (loop_diverges _ fst (redo_next f seen) _ (walk_points f x));
    [| | |exact HN].
  - intros a b _ Hb. unfold redo_next in Hb. repeat case_decide; simplify_eq.
    apply walk_points_link.
  - left.
  - by rewrite walk_points_length.
  Unshelve. intros [c t]. unfold redo_body, redo_next. cbn. by repeat case_decide.
Qed.

Lemma link_path f x : link f x <> "" -> links f !! x = Some (link f x).
Proof. unfold link. by destruct (links f !! x). Qed.

Lemma undo_loop_spec f x u seen fuel :
  loop (undo_body f) fuel (x, [], ∅) = Some (u, seen) ->
  exists l z, u = l ++ [z] /\ path f x l z /\ link f z = "" /\ seen = list_to_set u /\
    (x <> "" -> Forall (fun a => a <> "") u).
Proof.
  intros HL.
  refine (loop_inv (undo_body f)
    (fun '(c, l, s) => path f x l c /\ s = list_to_set l /\
       (x <> "" -> c <> "" /\ Forall (fun a => a <> "") l))
    (fun '(u, seen) => exists l z, u = l ++ [z] /\ path f x l z /\ link f z = "" /\
       seen = list_to_set u /\ (x <> "" -> Forall (fun a => a <> "") u))
    fuel _ (u, seen) _ _ _ HL).
  - split; [constructor|]. split; [done|]. intros Hx. split; [done|constructor].
  - intros [[c l] s] s' (Hp & -> & Hne) Hc. unfold undo_body in Hc. case_decide; simplify_eq.
    split; [by eapply path_snoc; [|apply link_path]|]. split.
    + rewrite list_to_set_app_L. set_solver.
    + intros Hx. destruct (Hne Hx). split; [done|]. apply Forall_app. auto.
  - intros [[c l] s] [u' s'] (Hp & -> & Hne) Hc. unfold undo_body in Hc. case_decide; simplify_eq.
    exists l, c. repeat split; [done|done| |].
    + rewrite list_to_set_app_L. set_solver.
    + intros Hx. destruct (Hne Hx). apply Forall_app. auto.
Qed.

Lemma redo_loop_spec f seen x r fuel :
  loop (redo_body f seen) fuel (x, []) = Some r ->
  match r with
  | Some (l, j) => path f x l j /\ j ∈ seen /\ (forall a, a ∈ l -> a ∉ seen)
  | None => exists l z, path f x l z /\ link f z = "" /\ (forall a, a ∈ l ++ [z] -> a ∉ seen)
  end.
Proof.
  intros HL.
  refine (loop_inv (redo_body f seen)
    (fun '(c, l) => path f x l c /\ (forall a, a ∈ l -> a ∉ seen))
    (fun r => match r with
       | Some (l, j) => path f x l j /\ j ∈ seen /\ (forall a, a ∈ l -> a ∉ seen)
       | None => exists l z, path f x l z /\ link f z = "" /\
                   (forall a, a ∈ l ++ [z] -> a ∉ seen)
       end) fuel _ r _ _ _ HL).
  - split; [constructor|]. set_solver.
  - intros [c l] s' (Hp & Hno) Hc. unfold redo_body in Hc. repeat case_decide; simplify_eq.
    split; [by eapply path_snoc; [|apply link_path]|]. set_solver.
  - intros [c l] r' (Hp & Hno) Hc. unfold redo_body in Hc. repeat case_decide; simplify_eq.
    + done.
    + exists l, c. repeat split; [done|done|]. set_solver.
Qed.

(** Rooted walks end. *)
Lemma undo_loop_rooted f x l y u s fuel :
  path f x l y -> links f !! y = None -> (length l < fuel)%nat ->
  is_Some (loop (undo_body f) fuel (x, u, s)).
Proof.
  intros Hp Hy. revert u s fuel. induction Hp as [x|x p l y Hx Hp IH]; intros u s fuel Hf;
    (destruct fuel as [|n]; [cbn in Hf; lia|]); cbn.
  - rewrite (link_None _ _ Hy), decide_True by done. eauto.
  - case_decide; [eauto|]. rewrite (link_Some _ _ _ Hx). apply IH; [done|]. cbn in Hf. lia.
Qed.

Lemma redo_loop_rooted f seen x l y u fuel :
  path f x l y -> links f !! y = None -> (length l < fuel)%nat ->
  is_Some (loop (redo_body f seen) fuel (x, u)).
Proof.
  intros Hp Hy. revert u fuel. induction Hp as [x|x p l y Hx Hp IH]; intros u fuel Hf;
    (destruct fuel as [|n]; [cbn in Hf; lia|]); cbn.
  - case_decide; [eauto|]. rewrite (link_None _ _ Hy), decide_True by done. eauto.
  - repeat case_decide; [eauto|eauto|]. rewrite (link_Some _ _ _ Hx). apply IH; [done|].
    cbn in Hf. lia.
Qed.

Lemma rooted_fuel f x l y : rooted f x l y -> (length l < walk_fuel f)%nat.
Proof.
  intros (Hp & Hnd & _). pose proof (path_length _ _ _ _ Hp Hnd). unfold walk_fuel. lia.
Qed.

(** Decreasing numbers along a path. *)
Lemma path_heights f x l y n m : heights f ->
  (forall x p, links f !! x = Some p -> is_Some (nums f !! x)) ->
  path f x l y -> nums f !! x = Some n -> nums f !! y = Some m -> l <> [] -> m < n.
Proof.
  intros Hh Hwf Hp. revert n. induction Hp as [x|x p l y Hx Hp IH]; intros n Hn Hm Hl; [done|].
  destruct l as [|b l].
  - inversion Hp; subst. by eapply (h_dec _ Hh).
  - pose proof (path_cons_head _ _ _ _ _ Hp) as (-> & q & Hq & _).
    destruct (Hwf _ _ Hq) as [k Hk]. pose proof (h_dec _ Hh _ _ _ _ Hx Hn Hk).
    specialize (IH k Hk Hm ltac:(done)). lia.
Qed.

Lemma heights_rooted f x : heights f ->
  (forall x p, links f !! x = Some p -> is_Some (nums f !! x)) ->
  exists l y, rooted f x l y.
Proof.
  intros Hh Hwf. destruct (rooted_or_looping f x) as [?|(l & y & Hp & _ & Hy)]; [done|exfalso].
  destruct (path_split _ _ _ _ _ Hp Hy) as (l1 & l2 & _ & _ & Hc).
  pose proof (path_cons_head _ _ _ _ _ Hc) as (_ & q & Hq & _).
  destruct (Hwf _ _ Hq) as [k Hk].
  pose proof (path_heights f y (y :: l2) y k k Hh Hwf Hc Hk Hk ltac:(done)). lia.
Qed.

(** Prefix of the undo chain up to the junction. *)
Lemma take_until_path f x l z j :
  path f x l z -> j ∈ l ++ [z] -> path f x (take_until j (l ++ [z])) j.
Proof.
  induction 1 as [x|x p l y Hx Hp IH]; intros Hj; cbn.
  - case_decide; subst; [constructor|]. set_solver.
  - case_decide; subst; [constructor|]. econstructor; [done|]. apply IH. set_solver.
Qed.

Lemma anc_in_chain f x l z y :
  links f !! "" = None -> path f x l z -> link f z = "" -> y <> "" -> anc f x y ->
  y ∈ l ++ [z].
Proof.
  intros He Hp Hz Hy (k & Hk).
  destruct (path_compare _ _ _ _ _ _ Hp Hk) as [(r & -> & Hr)|(r & -> & Hr)].
  - inversion Hr as [|? p ? ? Hzp Hr']; subst; [set_solver|].
    rewrite (link_Some _ _ _ Hzp) in Hz. subst p. inversion Hr'; subst; [done|congruence].
  - destruct r as [|b r]; [inversion Hr; subst; set_solver|].
    pose proof (path_cons_head _ _ _ _ _ Hr) as (-> & _). set_solver.
Qed.

Lemma ChainSwitchSegments_Ok f old new l y k z :
  rooted f old l y -> rooted f new k z -> exists res, ChainSwitchSegments f old new = Ok res.
Proof.
  intros Hl Hk.
  destruct (undo_loop_rooted f old l y [] ∅ (walk_fuel f)) as [[u seen] EU];
    [apply Hl|apply Hl|by eapply rooted_fuel|].
  destruct (redo_loop_rooted f seen new k z [] (walk_fuel f)) as [r ER];
    [apply Hk|apply Hk|by eapply rooted_fuel|].
  unfold ChainSwitchSegments. rewrite EU. cbn [mbind outcome_bind of_fuel]. rewrite ER.
  cbn [mbind outcome_bind of_fuel]. destruct r as [[? ?]|]; eauto.
Qed.

Lemma ChainSwitchSegments_cases f old new undo redo j :
  links f !! "" = None -> old <> "" ->
  ChainSwitchSegments f old new = Ok (undo, redo, j) ->
  (j <> "" /\ path f old undo j /\ path f new (reverse redo) j /\
     forall x, x ∈ redo -> x <> "" -> ~ anc f old x) \/
  (undo = [] /\ redo = [] /\ j = "" /\ forall y, y <> "" -> anc f old y -> ~ anc f new y).
Proof.
  intros He Hold HC. unfold ChainSwitchSegments in HC.
  destruct (loop (undo_body f) _ _) as [[u seen]|] eqn:EU; [|done]. cbn in HC.
  destruct (loop (redo_body f seen) _ _) as [r|] eqn:ER; [|done]. cbn in HC.
  destruct (undo_loop_spec _ _ _ _ _ EU) as (l & z & -> & Hp & Hz & -> & Hne).
  specialize (Hne Hold). pose proof (redo_loop_spec _ _ _ _ _ ER) as Hr.
  assert (Hseen : forall y, y <> "" -> anc f old y -> y ∈ l ++ [z]).
  { intros y Hy Ha. by eapply anc_in_chain. }
  destruct r as [[rl j']|]; simplify_eq.
  - left. destruct Hr as (Hrp & Hj & Hno). rewrite elem_of_list_to_set in Hj. repeat split.
    + rewrite Forall_forall in Hne. by apply Hne.
    + by apply take_until_path.
    + by rewrite reverse_involutive.
    + intros x Hx Hxe Ha. rewrite elem_of_reverse in Hx. apply (Hno x Hx).
      rewrite elem_of_list_to_set. auto.
  - right. repeat split. intros y Hy Ho Ha. destruct Hr as (k & w & Hk & Hw & Hno).
    apply (Hno y); [|rewrite elem_of_list_to_set; auto].
    by eapply anc_in_chain.
Qed.
(** From no head at all there is nothing to undo, and no junction. *)
Lemma ChainSwitchSegments_no_head f new undo redo j : links f !! "" = None ->
  ChainSwitchSegments f "" new = Ok (undo, redo, j) -> undo = [] /\ redo = [] /\ j = "".
Proof.
  intros He HC. unfold ChainSwitchSegments in HC.
  destruct (loop (undo_body f) _ _) as [[u seen]|] eqn:EU; [|done]. cbn in HC.
  destruct (loop (redo_body f seen) _ _) as [r|] eqn:ER; [|done]. cbn in HC.
  destruct (undo_loop_spec _ _ _ _ _ EU) as (l & z & -> & Hp & Hz & -> & _).
  inversion Hp as [|x p l' y Hx]; subst; [|congruence].
  destruct r as [[rl j']|]; [|by simplify_eq].
  assert (Hr : match (Some (rl, j') : option (list string * string)) with Some (l, j) => (new = "" /\ l = []) \/ j <> "" | None => True end).
  { refine (loop_inv (redo_body f (list_to_set ([] ++ [""])))
      (fun '(c, l) => (c = new /\ l = []) \/ c <> "")
      (fun r => match r with Some (l, j) => (new = "" /\ l = []) \/ j <> "" | None => True end) _ _ _ _ _ _ ER).
    - by left.
    - intros [c l] s' _ Hc. unfold redo_body in Hc. repeat case_decide; simplify_eq. by right.
    - intros [c l] r Hi Hc. unfold redo_body in Hc. repeat case_decide; simplify_eq; try done.
      destruct Hi as [[-> ->]|Hi]; [|by right]. destruct (decide (new = "")) as [->|]; [by left|by right]. }
  pose proof (redo_loop_spec _ _ _ _ _ ER) as (_ & Hj & _). cbn in Hj. assert (j' = "") as -> by set_solver.
  destruct Hr as [[-> ->]|Hr]; [|done]. by simplify_eq.
Qed.
End Walks.

(** ** Segments *)

Section Segments.
Context {V : Type} `{Protocol}.
Implicit Types (f : ForkDB V).

Lemma seg_nodes_ids f n l : BlockID <$> seg_nodes f n l = l.
Proof. revert n. induction l as [|x l IH]; intros n; [done|]. cbn. by f_equal. Qed.

Lemma seg_nodes_app f n l k :
  seg_nodes f n (l ++ k) = seg_nodes f n l ++ seg_nodes f (end_num f n l) k.
Proof. revert n. induction l as [|x l IH]; intros n; [done|]. cbn. by f_equal. Qed.

Lemma end_num_app f n l k : end_num f n (l ++ k) = end_num f (end_num f n l) k.
Proof. revert n. induction l as [|x l IH]; intros n; [done|]. cbn. apply IH. Qed.

Lemma seg_nodes_length f n l : length (seg_nodes f n l) = length l.
Proof. rewrite <- (length_fmap BlockID), seg_nodes_ids. done. Qed.

(** The state of a segment loop that walked the path [l] from [x]. *)
Definition seg_at f (n : Z) (l : list string) (r : bool) (c : string) : @seg_state V :=
  (c, end_num f n l, seg_nodes f n l, list_to_set l, r).

Lemma seg_at_step f n l r c p : links f !! c = Some p ->
  (p, num f p, seg_nodes f n l ++ [node f c (end_num f n l) p], {[c]} ∪ list_to_set l, r)
  = seg_at f n (l ++ [c]) r p.
Proof.
  intros Hp. unfold seg_at. rewrite seg_nodes_app, end_num_app. cbn.
  rewrite (link_Some _ _ _ Hp).
  assert ({[c]} ∪ list_to_set l =@{gset string} list_to_set (l ++ [c])) as ->; [|done].
  rewrite list_to_set_app_L. set_solver.
Qed.

Lemma complete_step f n l r c :
  complete_body f (seg_at f n l r c) =
  if decide (c ∈ l) then inr (None, false)
  else
    let r' := if decide (c = LIBID f) then true else r in
    match links f !! c with
    | None => inr (Some (reverse (seg_nodes f n l)), r')
    | Some p => inl (seg_at f n (l ++ [c]) r' p)
    end.
Proof.
  unfold complete_body, seg_at at 1.
  destruct (decide (c ∈ l)) as [Hin|Hin].
  - rewrite decide_True; [done|]. by apply elem_of_list_to_set.
  - rewrite decide_False; [|by rewrite elem_of_list_to_set].
    destruct (links f !! c) as [p|] eqn:E; [|done].
    cbv zeta. rewrite <- (seg_at_step _ _ _ _ _ _ E). done.
Qed.

Lemma reversible_step f n l r c :
  reversible_body f (seg_at f n l r c) =
  if decide (c ∈ l) then inr (None, false)
  else if (GetProtocolFirstStreamableBlock <? end_num f n l) && (end_num f n l <? LIBNum f)
  then inr (None, r)
  else if decide (c = LIBID f) then inr (Some (reverse (seg_nodes f n l)), true)
  else
    match links f !! c with
    | None => if HasLIB f then inr (None, false) else inr (Some (reverse (seg_nodes f n l)), r)
    | Some p => inl (seg_at f n (l ++ [c]) r p)
    end.
Proof.
  unfold reversible_body, seg_at at 1.
  destruct (decide (c ∈ l)) as [Hin|Hin].
  - rewrite decide_True; [done|]. by apply elem_of_list_to_set.
  - rewrite decide_False; [|by rewrite elem_of_list_to_set].
    destruct (_ && _); [done|]. case_decide; [done|].
    destruct (links f !! c) as [p|] eqn:E; [|done].
    rewrite <- (seg_at_step _ _ _ _ _ _ E). done.
Qed.

(** Both loops visit distinct IDs that have a link: they always end. *)
Definition seg_inv f (x : string) (n : Z) (s : @seg_state V) : Prop :=
  exists l r c, s = seg_at f n l r c /\ path f x l c /\ NoDup l.

Definition seg_measure f (s : @seg_state V) : nat :=
  (size (links f) - length (s.1.1.2))%nat.

Lemma seg_inv_next f x n l r c p :
  path f x l c -> NoDup l -> c ∉ l -> links f !! c = Some p ->
  seg_inv f x n (seg_at f n (l ++ [c]) r p) /\
  (seg_measure f (seg_at f n (l ++ [c]) r p) < seg_measure f (seg_at f n l r c))%nat.
Proof.
  intros Hp Hnd Hc Hl.
  assert (Hp' : path f x (l ++ [c]) p) by by eapply path_snoc.
  assert (Hnd' : NoDup (l ++ [c])).
  { apply NoDup_app. split; [done|]. split; [set_solver|]. apply NoDup_singleton. }
  split; [by exists (l ++ [c]), r, p|].
  pose proof (path_length _ _ _ _ Hp' Hnd') as Hlen.
  unfold seg_measure, seg_at. cbn. rewrite !seg_nodes_length, length_app in *. cbn in *. lia.
Qed.

Lemma seg_loop_ends f x n body :
  (forall l r c s', body (seg_at f n l r c) = inl s' ->
     exists r' p, c ∉ l /\ links f !! c = Some p /\ s' = seg_at f n (l ++ [c]) r' p) ->
  exists res : @seg_result V, loop body (walk_fuel f) (seg_at f n [] false x) = Some res.
Proof.
  intros Hb. destruct (loop_terminates body (seg_inv f x n) (seg_measure f) (walk_fuel f)
    (seg_at f n [] false x)) as [r Hr].
  - exists [], false, x. repeat split; [constructor|constructor].
  - intros s s' (l & r & c & -> & Hp & Hnd) Hs.
    destruct (Hb _ _ _ _ Hs) as (r' & p & Hc & Hl & ->).
    destruct (seg_inv_next f x n l r' c p Hp Hnd Hc Hl). split; [done|].
    unfold seg_measure, seg_at in *. cbn in *. lia.
  - unfold seg_measure, walk_fuel, seg_at. cbn. lia.
  - eauto.
Qed.

Lemma CompleteSegment_Ok f b : exists res, CompleteSegment f b = Ok res.
Proof.
  destruct (seg_loop_ends f (ID b) (Num b) (complete_body f)) as [res E].
  - intros l r c s' Hs. rewrite complete_step in Hs. case_decide; [done|].
    destruct (links f !! c) as [p|] eqn:Ep; [injection Hs as <-|done].
    by eexists _, p.
  - exists res. unfold CompleteSegment. unfold seg_at in E. cbn in E. by rewrite E.
Qed.

Lemma ReversibleSegment_Ok f b : exists res, ReversibleSegment f b = Ok res.
Proof.
  destruct (seg_loop_ends f (ID b) (Num b) (reversible_body f)) as [res E].
  - intros l r c s' Hs. rewrite reversible_step in Hs. case_decide; [done|].
    destruct (_ && _); [done|]. case_decide; [done|].
    destruct (links f !! c) as [p|] eqn:Ep; [injection Hs as <-|by destruct (HasLIB f)].
    by eexists _, p.
  - exists res. unfold ReversibleSegment. unfold seg_at in E. cbn in E. by rewrite E.
Qed.

(** What a finished loop answers, from an invariant [J] of the walked path. *)
Lemma seg_loop_inv f x n body (J : list string -> bool -> Prop)
  (Q : @seg_result V -> Prop) res :
  J [] false ->
  (forall l r c s', path f x l c -> J l r -> body (seg_at f n l r c) = inl s' ->
     exists p, (c ∉ l) /\ links f !! c = Some p /\
       exists r', s' = seg_at f n (l ++ [c]) r' p /\ J (l ++ [c]) r') ->
  (forall l r c res, path f x l c -> NoDup l -> J l r ->
     body (seg_at f n l r c) = inr res -> Q res) ->
  loop body (walk_fuel f) (seg_at f n [] false x) = Some res -> Q res.
Proof.
  intros HJ Hs HQ. apply (loop_inv body
    (fun s => exists l r c, s = seg_at f n l r c /\ path f x l c /\ NoDup l /\ J l r)).
  - exists [], false, x. repeat split; [constructor|constructor|done].
  - intros s s' (l & r & c & -> & Hp & Hnd & Hj) Hb.
    destruct (Hs _ _ _ _ Hp Hj Hb) as (p & Hc & Hl & r' & -> & HJ').
    exists (l ++ [c]), r', p. split; [done|]. split; [by eapply path_snoc|]. split; [|done].
    apply NoDup_app. split; [done|]. split; [set_solver|]. apply NoDup_singleton.
  - intros s res' (l & r & c & -> & Hp & Hnd & Hj) Hb. eauto.
Qed.

(** [CompleteSegment] along a rooted path. *)
Lemma complete_loop_rooted f x n l y k c r fuel :
  path f x l y -> links f !! y = None -> NoDup (k ++ l) -> y ∉ k ++ l ->
  (length l < fuel)%nat -> c = x ->
  loop (complete_body f) fuel (seg_at f n k r c) =
  Some (Some (reverse (seg_nodes f n (k ++ l))),
        if decide (LIBID f ∈ l ++ [y]) then true else r).
Proof.
  intros Hp Hy. revert k c r fuel. induction Hp as [x|x p l y Hx Hp IH];
    intros k c r fuel Hnd Hyk Hf ->; (destruct fuel as [|m]; [cbn in Hf; lia|]);
    cbn [loop]; rewrite complete_step.
  - rewrite app_nil_r in *. rewrite decide_False by done. rewrite Hy. cbn.
    destruct (decide (x = LIBID f)) as [->|Hne].
    + by rewrite decide_True by set_solver.
    + by rewrite decide_False by set_solver.
  - rewrite decide_False.
    2: { apply NoDup_app in Hnd as (_ & Hd & _). intros Hin. apply (Hd _ Hin). left. }
    rewrite Hx. cbv beta iota zeta. rewrite (IH Hy (k ++ [x]) p); [|by rewrite <- app_assoc..|cbn in Hf; lia|done].
    rewrite <- app_assoc. cbn. repeat f_equal.
    destruct (decide (x = LIBID f)) as [->|Hne].
    + rewrite (decide_True (P := LIBID f ∈ LIBID f :: l ++ [y])) by left.
      by case_decide.
    + destruct (decide (LIBID f ∈ l ++ [y])) as [Hin|Hin].
      * by rewrite decide_True by by right.
      * rewrite decide_False; [done|]. intros [?|?]%elem_of_cons; congruence.
Qed.

Lemma CompleteSegment_rooted f b l y : rooted f (ID b) l y ->
  CompleteSegment f b =
  Ok (Some (reverse (seg_nodes f (Num b) l)), bool_decide (LIBID f ∈ l ++ [y])).
Proof.
  intros HR. pose proof (rooted_fuel _ _ _ _ HR) as Hf. destruct HR as (Hp & Hnd & Hyl & Hy).
  unfold CompleteSegment.
  pose proof (complete_loop_rooted f (ID b) (Num b) l y [] (ID b) false (walk_fuel f)
    Hp Hy Hnd Hyl Hf eq_refl) as E.
  unfold seg_at in E. cbn in E. rewrite E. done.
Qed.

Lemma CompleteSegment_looping f b l y : looping f (ID b) l y ->
  CompleteSegment f b = Ok (None, false).
Proof.
  intros HL. destruct (CompleteSegment_Ok f b) as [res E]. rewrite E. f_equal.
  unfold CompleteSegment in E. destruct (loop _ _ _) as [r|] eqn:EL; [|done].
  injection E as ->.
  refine (seg_loop_inv f (ID b) (Num b) (complete_body f) (fun _ _ => True)
            (fun res => res = (None, false)) res I _ _ EL).
  - intros k r c s' _ _ Hs. rewrite complete_step in Hs. case_decide; [done|].
    destruct (links f !! c) as [p|] eqn:Ep; [injection Hs as <-|done].
    exists p. split; [done|]. split; [done|]. by eexists.
  - intros k r c res' Hp Hnd _ Hs. rewrite complete_step in Hs.
    destruct (decide (c ∈ k)) as [|Hck]; [congruence|].
    destruct (links f !! c) as [p|] eqn:Ep; [done|]. exfalso.
    eapply (rooted_not_looping f (ID b) k c); [|exact HL]. done.
Qed.

(** *** [ReversibleSegment] *)

(** The number that makes the walk give up: below the LIB. *)
Definition cut f (m : Z) : bool :=
  (GetProtocolFirstStreamableBlock <? m) && (m <? LIBNum f).

(** The walk from [x] reaches the LIB through [l]. *)
Definition reaches_lib f (x : string) (n : Z) (l : list string) : Prop :=
  path f x l (LIBID f) /\ NoDup l /\ (LIBID f ∉ l) /\
  Forall (fun b => cut f (BlockNum b) = false) (seg_nodes f n l) /\
  cut f (end_num f n l) = false.

Definition reversible_answer f (x : string) (n : Z) (res : @seg_result V) : Prop :=
  match res with
  | (Some blocks, true) => exists l, reaches_lib f x n l /\ blocks = reverse (seg_nodes f n l)
  | (Some blocks, false) =>
      HasLIB f = false /\ exists l y, rooted f x l y /\ blocks = reverse (seg_nodes f n l)
  | (None, r) => r = false
  end.

Lemma ReversibleSegment_answer f b res :
  ReversibleSegment f b = Ok res -> reversible_answer f (ID b) (Num b) res.
Proof.
  unfold ReversibleSegment. intros E. destruct (loop _ _ _) as [r|] eqn:EL; [|done].
  injection E as ->.
  refine (seg_loop_inv f (ID b) (Num b) (reversible_body f)
    (fun l r => r = false /\ (LIBID f ∉ l) /\
       Forall (fun b => cut f (BlockNum b) = false) (seg_nodes f (Num b) l))
    (reversible_answer f (ID b) (Num b)) res _ _ _ EL).
  - split; [done|]. split; [set_solver|constructor].
  - intros l r c s' Hp (-> & Hno & Hcut) Hs. rewrite reversible_step in Hs.
    case_decide; [done|]. destruct (_ && _) eqn:Ec; [done|].
    destruct (decide (c = LIBID f)) as [|Hc]; [done|].
    destruct (links f !! c) as [p|] eqn:Ep; [injection Hs as <-|by destruct (HasLIB f)].
    exists p. split; [done|]. split; [done|]. exists false. split; [done|]. split; [done|].
    split; [set_solver|]. rewrite seg_nodes_app. apply Forall_app. split; [done|].
    constructor; [exact Ec|constructor].
  - intros l r c res' Hp Hnd (-> & Hno & Hcut) Hs. rewrite reversible_step in Hs.
    destruct (decide (c ∈ l)); [by injection Hs as <-|].
    destruct (_ && _) eqn:Ec; [by injection Hs as <-|].
    destruct (decide (c = LIBID f)) as [->|Hc].
    { injection Hs as <-. exists l. by repeat split. }
    destruct (links f !! c) as [p|] eqn:Ep; [done|].
    destruct (HasLIB f) eqn:EH; [by injection Hs as <-|].
    injection Hs as <-. split; [done|]. by exists l, c.
Qed.

Lemma reversible_loop_path f x n l k c fuel :
  path f x l (LIBID f) -> NoDup (k ++ l) -> LIBID f ∉ k ++ l ->
  Forall (fun b => cut f (BlockNum b) = false) (seg_nodes f (end_num f n k) l) ->
  cut f (end_num f n (k ++ l)) = false ->
  (length l < fuel)%nat -> c = x ->
  loop (reversible_body f) fuel (seg_at f n k false c) =
  Some (Some (reverse (seg_nodes f n (k ++ l))), true).
Proof.
  remember (LIBID f) as y eqn:Ey. intros Hp.
  revert k c fuel. induction Hp as [x|x p l y Hx Hp IH]; intros k c fuel Hnd Hyk Hcut Hend Hf ->;
    (destruct fuel as [|m]; [cbn in Hf; lia|]); cbn [loop]; rewrite reversible_step.
  - rewrite app_nil_r in *. rewrite decide_False by done.
    unfold cut in Hend. by rewrite Hend, decide_True.
  - cbn in Hcut. apply Forall_cons in Hcut as [Hc1 Hcut].
    rewrite decide_False.
    2: { apply NoDup_app in Hnd as (_ & Hd & _). intros Hin. apply (Hd _ Hin). left. }
    unfold cut in Hc1. cbn in Hc1. rewrite Hc1, decide_False by set_solver. rewrite Hx.
    rewrite (link_Some _ _ _ Hx) in Hcut.
    rewrite (IH Ey (k ++ [x]) p); rewrite <- ?app_assoc; try done.
    + rewrite end_num_app. cbn. by rewrite (link_Some _ _ _ Hx).
    + cbn in Hf. lia.
Qed.

Lemma ReversibleSegment_reaches f b l :
  reaches_lib f (ID b) (Num b) l ->
  ReversibleSegment f b = Ok (Some (reverse (seg_nodes f (Num b) l)), true).
Proof.
  intros (Hp & Hnd & Hno & Hcut & Hend).
  assert (Hf : (length l < walk_fuel f)%nat).
  { pose proof (path_length _ _ _ _ Hp Hnd). unfold walk_fuel. lia. }
  pose proof (reversible_loop_path f (ID b) (Num b) l [] (ID b) (walk_fuel f)
    Hp Hnd Hno Hcut Hend Hf eq_refl) as E.
  unfold ReversibleSegment. unfold seg_at in E. cbn in E. rewrite E. done.
Qed.

Lemma reaches_lib_unique f x n l k : reaches_lib f x n l -> reaches_lib f x n k -> l = k.
Proof.
  intros (Hp & _ & Hl & _) (Hk & _ & Hno & _).
  destruct (path_compare _ _ _ _ _ _ Hp Hk) as [(r & -> & Hr)|(r & -> & Hr)];
    (destruct r as [|a r]; [by rewrite app_nil_r|]); apply path_head in Hr as ->; set_solver.
Qed.

Lemma HasNew_cases f newLIB : HasLIB f = true ->
  HasNewIrreversibleSegment f newLIB = Ok (false, [], []) \/
  exists l, ID newLIB <> LIBID f /\ reaches_lib f (ID newLIB) (Num newLIB) l /\ l <> [] /\
    let seg := reverse (seg_nodes f (Num newLIB) l) in
    HasNewIrreversibleSegment f newLIB = Ok (true, seg, stalledInSegment f seg).
Proof.
  intros HL. unfold HasNewIrreversibleSegment. rewrite HL. cbn [negb].
  case_decide as Hid; [by left|].
  destruct (ReversibleSegment_Ok f newLIB) as [[seg r] E]. rewrite E.
  pose proof (ReversibleSegment_answer f newLIB _ E) as HA. cbn [mbind outcome_bind].
  destruct seg as [[|nb seg]|]; [by left| |by left].
  destruct r; [|destruct HA; congruence]. destruct HA as (l & Hl & ->). right.
  exists l. split; [done|]. split; [done|]. split; [|done]. intros ->.
  destruct Hl as (Hp & _). inversion Hp. congruence.
Qed.
End Segments.

(** ** Stalled blocks, purge and insertion *)

Section Updates.
Context {V : Type} `{Protocol}.
Implicit Types (f : ForkDB V).

#[local] Instance id_le_trans : Transitive (id_le (V := V)).
Proof. intros a b c. unfold id_le. apply transitivity. Qed.
#[local] Instance id_le_total : Total (id_le (V := V)).
Proof. intros a b. unfold id_le. apply total, _. Qed.

Lemma stalled_candidates_elem f excl s e b :
  b ∈ stalled_candidates f excl s e <->
  links f !! BlockID b = Some (PreviousBlockID b) /\
  b = node f (BlockID b) (num f (BlockID b)) (PreviousBlockID b) /\
  (BlockID b ∉ excl) /\ s <= num f (BlockID b) <= e.
Proof.
  unfold stalled_candidates. rewrite list_elem_of_omap. split.
  - intros ([x p] & Hin & Hb). apply elem_of_map_to_list in Hin.
    destruct (bool_decide_reflect (x ∈ excl)), (Z.leb_spec s (num f x)),
      (Z.leb_spec (num f x) e); cbn in Hb; simplify_eq. cbn. done.
  - intros (Hl & Hb & Hx & Hs & He). exists (BlockID b, PreviousBlockID b).
    split; [by apply elem_of_map_to_list|].
    rewrite bool_decide_eq_false_2 by done.
    destruct (Z.leb_spec s (num f (BlockID b))), (Z.leb_spec (num f (BlockID b)) e);
      cbn; [by rewrite <- Hb|lia..].
Qed.

Lemma stalled_candidates_ids f excl s e : NoDup (BlockID <$> stalled_candidates f excl s e).
Proof.
  unfold stalled_candidates.
  pose proof (NoDup_fst_map_to_list (links f)) as Hnd.
  induction (map_to_list (links f)) as [|[x p] l IH]; [constructor|].
  cbn in Hnd. apply NoDup_cons in Hnd as [Hx Hnd]. specialize (IH Hnd). cbn.
  destruct (negb _ && _ && _); [|done]. cbn. constructor; [|done].
  intros Hin. apply Hx. apply list_elem_of_fmap in Hin as (b & -> & Hb).
  apply list_elem_of_omap in Hb as ([y q] & Hy & Hb).
  destruct (negb _ && _ && _); simplify_eq. cbn.
  apply list_elem_of_fmap. by exists (y, q).
Qed.

Lemma stalledInSegment_elem f first blocks lst b :
  LIBID f <> "" -> last (first :: blocks) = Some lst ->
  b ∈ stalledInSegment f (first :: blocks) <->
  links f !! BlockID b = Some (PreviousBlockID b) /\
  b = node f (BlockID b) (num f (BlockID b)) (PreviousBlockID b) /\
  (BlockID b ∉ BlockID <$> first :: blocks) /\
  BlockNum first <= num f (BlockID b) <= BlockNum lst.
Proof.
  intros HL Hlst. unfold stalledInSegment. rewrite bool_decide_eq_false_2 by done.
  rewrite Hlst, merge_sort_Permutation, stalled_candidates_elem.
  by rewrite elem_of_list_to_set.
Qed.

Lemma stalledInSegment_sorted f blocks :
  StronglySorted id_le (stalledInSegment f blocks) /\
  NoDup (BlockID <$> stalledInSegment f blocks).
Proof.
  unfold stalledInSegment. case_bool_decide; [split; constructor|].
  destruct blocks as [|x l]; [split; constructor|].
  destruct (last (x :: l)) as [lst|]; [|split; constructor].
  split; [apply (StronglySorted_merge_sort id_le)|].
  rewrite merge_sort_Permutation. apply stalled_candidates_ids.
Qed.

(** *** Purge *)

Lemma purge_links f k x p :
  links (PurgeBeforeLIB f k).2 !! x = Some p <->
  links f !! x = Some p /\ purge_cutoff f k <= num f x.
Proof. cbn. rewrite map_lookup_filter_Some. done. Qed.

Lemma purge_nums f k x :
  nums (PurgeBeforeLIB f k).2 !! x =
  match links (PurgeBeforeLIB f k).2 !! x with Some _ => Some (num f x) | None => None end.
Proof.
  cbn. rewrite map_lookup_imap. by destruct (filter _ _ !! x).
Qed.

Lemma purge_num f k x p :
  links (PurgeBeforeLIB f k).2 !! x = Some p -> num (PurgeBeforeLIB f k).2 x = num f x.
Proof. intros E. unfold num at 1. by rewrite purge_nums, E. Qed.

Lemma purge_link f k x p :
  links (PurgeBeforeLIB f k).2 !! x = Some p -> link (PurgeBeforeLIB f k).2 x = link f x.
Proof.
  intros E. rewrite (link_Some _ _ _ E). apply purge_links in E as [E _].
  by rewrite (link_Some _ _ _ E).
Qed.

Lemma purge_object f k x p :
  links (PurgeBeforeLIB f k).2 !! x = Some p -> object (PurgeBeforeLIB f k).2 x = object f x.
Proof.
  intros E. apply purge_links in E as [E Hc]. unfold object. cbn.
  destruct (objects f !! x) as [o|] eqn:Eo.
  - rewrite (map_lookup_filter_Some_2 _ _ _ _ Eo); [done|].
    apply map_lookup_filter_None_2. right. cbn. intros y _. tauto.
  - rewrite map_lookup_filter_None_2 by by left. done.
Qed.

Lemma purge_path f k x l y : path f x l y ->
  Forall (fun a => purge_cutoff f k <= num f a) l -> path (PurgeBeforeLIB f k).2 x l y.
Proof.
  induction 1 as [x|x p l y Hx Hp IH]; intros HF; [constructor|].
  apply Forall_cons in HF as [Hx' HF]. econstructor; [by apply purge_links|auto].
Qed.

Lemma purge_path_inv f k x l y : path (PurgeBeforeLIB f k).2 x l y -> path f x l y.
Proof.
  induction 1 as [x|x p l y Hx Hp IH]; [constructor|].
  apply purge_links in Hx as [Hx _]. by econstructor.
Qed.

Lemma purge_blocks_elem f k b :
  b ∈ (PurgeBeforeLIB f k).1 <->
  links f !! BlockID b = Some (PreviousBlockID b) /\
  b = node f (BlockID b) (num f (BlockID b)) (PreviousBlockID b) /\
  num f (BlockID b) < purge_cutoff f k.
Proof.
  cbn. rewrite list_elem_of_fmap. split.
  - intros ([x p] & -> & Hin). apply elem_of_map_to_list in Hin.
    apply map_lookup_filter_Some in Hin as [Hx Hc]. cbn in *. repeat split; [done|lia].
  - intros (Hl & Hb & Hc). exists (BlockID b, PreviousBlockID b). split; [done|].
    apply elem_of_map_to_list, map_lookup_filter_Some. split; [done|]. cbn. lia.
Qed.

Lemma purge_wf f k : wf f -> wf (PurgeBeforeLIB f k).2.
Proof.
  intros [He Hs Hn Ho]. split.
  - apply eq_None_not_Some. intros [p E]. apply purge_links in E as [E _]. congruence.
  - intros x E. apply purge_links in E as [E _]. by apply (Hs x).
  - intros x p E. rewrite purge_nums, E. eauto.
  - intros x o E. cbn in E. apply map_lookup_filter_Some in E as [E Hp]. cbn in Hp.
    destruct (Ho _ _ E) as [p Hl]. exists p. apply purge_links. split; [done|].
    apply map_lookup_filter_None in Hp as [Hp|Hp]; [congruence|].
    specialize (Hp p Hl). cbn in Hp. lia.
Qed.

Lemma purge_heights f k : wf f -> heights f -> heights (PurgeBeforeLIB f k).2.
Proof.
  intros Hwf [Hd Hn He].
  assert (Hnum : forall x n, nums (PurgeBeforeLIB f k).2 !! x = Some n -> nums f !! x = Some n).
  { intros x n E. rewrite purge_nums in E.
    destruct (links (PurgeBeforeLIB f k).2 !! x) as [p|] eqn:El; [|done].
    apply purge_links in El as [El _]. destruct (wf_nums _ Hwf _ _ El) as [m Hm].
    injection E as <-. unfold num. by rewrite Hm. }
  split.
  - intros x p n m Hx Hxn Hpm. apply purge_links in Hx as [Hx _]. eauto.
  - eauto.
  - apply eq_None_not_Some. intros [n E]. apply Hnum in E. congruence.
Qed.

(** *** [AddLink] and the other updates *)

Definition AddLink_db f b prev o : ForkDB V := (AddLink f b prev o).2.
Definition AddLink_exists f b prev o : bool := (AddLink f b prev o).1.1.

Definition addlink_new f (b : BlockRef) (prev : string) : Prop :=
  ID b <> prev /\ ID b <> "" /\ link f (ID b) = "".

Lemma AddLink_added f b prev o : addlink_new f b prev ->
  AddLink f b prev o =
  ((false, negb (bool_decide (link f prev = ""))),
   mkForkDB (<[ID b := prev]> (links f)) (<[ID b := Num b]> (nums f))
     (match o with Some v => <[ID b := Some v]> (objects f) | None => objects f end) (libRef f)).
Proof.
  intros (H1 & H2 & H3). unfold AddLink. rewrite decide_False by tauto.
  rewrite decide_False by tauto. done.
Qed.

Lemma AddLink_same f b prev o : ~ addlink_new f b prev -> AddLink_db f b prev o = f.
Proof.
  intros Hn. unfold AddLink_db, AddLink, addlink_new in *.
  destruct (decide _) as [|H1]; [done|]. destruct (decide _) as [|H2]; [done|].
  exfalso. apply Hn. destruct (decide (link f (ID b) = "")); tauto.
Qed.

Lemma addlink_new_dec f b prev : Decision (addlink_new f b prev).
Proof. unfold addlink_new. apply _. Defined.
#[local] Existing Instance addlink_new_dec.

Lemma AddLink_wf f b prev o : wf f -> wf (AddLink_db f b prev o).
Proof.
  intros Hwf. destruct (decide (addlink_new f b prev)) as [Hnew|Hn].
  2: { by rewrite AddLink_same. }
  unfold AddLink_db. rewrite (AddLink_added _ _ _ _ Hnew). destruct Hnew as (H1 & H2 & H3).
  destruct Hwf as [He Hs Hn Ho]. split; cbn.
  - by rewrite lookup_insert_ne.
  - intros x Hx. destruct (decide (x = ID b)) as [->|Hne]; simplify_map_eq. by apply (Hs x).
  - intros x p Hx. destruct (decide (x = ID b)) as [->|Hne]; simplify_map_eq; eauto.
  - intros x o' Hx. destruct (decide (x = ID b)) as [->|Hne]; simplify_map_eq; [eauto|].
    destruct o; simplify_map_eq; eauto.
Qed.

Lemma AddLink_path f b prev o x l y : links f !! ID b = None ->
  path f x l y -> path (AddLink_db f b prev o) x l y.
Proof.
  intros Hnone. destruct (decide (addlink_new f b prev)) as [Hnew|Hn].
  2: { by rewrite AddLink_same. }
  unfold AddLink_db. rewrite (AddLink_added _ _ _ _ Hnew). cbn.
  induction 1 as [x|x p l y Hx Hp IH]; [constructor|]. econstructor; [|exact IH]. cbn.
  rewrite lookup_insert_ne; [done|]. congruence.
Qed.

Lemma DeleteLink_wf f id : wf f -> wf (DeleteLink f id).
Proof.
  intros [He Hs Hn Ho]. split; cbn.
  - rewrite lookup_delete. by case_decide.
  - intros x Hx. apply lookup_delete_Some in Hx as [_ Hx]. by apply (Hs x).
  - intros x p Hx. apply lookup_delete_Some in Hx as [Hne Hx]. rewrite lookup_delete_ne by done.
    eauto.
  - intros x o Hx. apply lookup_delete_Some in Hx as [Hne Hx]. rewrite lookup_delete_ne by done.
    eauto.
Qed.

Lemma set_libRef_wf f r : wf f -> wf (set_libRef f r).
Proof. intros [He Hs Hn Ho]. by split. Qed.

Lemma InitLIB_wf f r : wf f -> wf (InitLIB f r).
Proof.
  intros [He Hs Hn Ho]. split; cbn; [done|done| |done].
  intros x p Hx. destruct (decide (x = ID r)) as [->|Hne]; simplify_map_eq; eauto.
Qed.

Lemma SetLIB_wf f h n f' : wf f -> SetLIB f h n = Ok f' -> wf f'.
Proof.
  intros Hwf HS. unfold SetLIB in HS. destruct (_ =? _).
  { injection HS as <-. by apply set_libRef_wf. }
  destruct (BlockInCurrentChain f h n) as [r| | |]; try done. cbn in HS.
  case_decide; simplify_eq; [done|by apply set_libRef_wf].
Qed.

Lemma NewForkDB_wf : wf (NewForkDB (V := V)).
Proof. split; cbn; intros *; rewrite ?lookup_empty; done. Qed.
End Updates.
