(* ===== verification/ForkDBProps.v ===== *)
(** * The properties of the fork database

    Each theorem applies the lemmas of [ForkDBFacts.v]; the witnesses evaluate
    the operations on a small graph with two branches above its LIB. *)

From S2P Require Import Prelude Loops Types ForkDB ForkDBFacts.

(** ** The operations as steps *)

Section Reachable.
Context {V : Type} `{Protocol}.

Inductive db_step : ForkDB V -> ForkDB V -> Prop :=
  | step_InitLIB f r : db_step f (InitLIB f r)
  | step_SetLIB f h n f' : SetLIB f h n = Ok f' -> db_step f f'
  | step_AddLink f b prev o : db_step f (AddLink_db f b prev o)
  | step_DeleteLink f id : db_step f (DeleteLink f id)
  | step_MoveLIB f r : db_step f (MoveLIB f r)
  | step_Purge f k : db_step f (PurgeBeforeLIB f k).2.

Inductive db_reachable : ForkDB V -> Prop :=
  | reach_new : db_reachable NewForkDB
  | reach_step f f' : db_reachable f -> db_step f f' -> db_reachable f'.
End Reachable.

(** ** The example graph *)

#[local] Instance proto0 : Protocol := {| GetProtocolFirstStreamableBlock := 0 |}.

Definition ex_add (f : ForkDB nat) (x : string * Z * string * nat) : ForkDB nat :=
  let '(id, n, prev, o) := x in AddLink_db f (NewBlockRef id n) prev (Some o).

Definition ex_db : ForkDB nat :=
  foldl ex_add (InitLIB NewForkDB (NewBlockRef "3a" 3))
    [("4a", 4, "3a", 1%nat); ("5a", 5, "4a", 2%nat); ("5b", 5, "4a", 3%nat);
     ("6b", 6, "5b", 4%nat); ("2z", 2, "1z", 5%nat)].

(** A graph with a cycle, which [AddLink] does not refuse. *)
Definition cyclic_db : ForkDB nat :=
  foldl ex_add NewForkDB [("a", 1, "b", 1%nat); ("b", 2, "a", 2%nat)].

Lemma ex_add_reachable l : forall f, db_reachable f -> db_reachable (foldl ex_add f l).
Proof.
  induction l as [|[[[id n] prev] o] l IH]; intros f Hf; [done|]. cbn [foldl].
  apply IH. eapply reach_step; [exact Hf|apply step_AddLink].
Qed.

Lemma ex_db_reachable : db_reachable ex_db.
Proof.
  apply ex_add_reachable. eapply reach_step; [apply reach_new|apply step_InitLIB].
Qed.

Lemma reachable_wf {V} `{Protocol} (f : ForkDB V) : db_reachable f -> wf f.
Proof.
  induction 1 as [|f f' _ IH Hs]; [apply NewForkDB_wf|].
  destruct Hs; eauto using InitLIB_wf, SetLIB_wf, AddLink_wf, DeleteLink_wf, set_libRef_wf,
    purge_wf.
Qed.

Lemma heights_by_map {V} (f : ForkDB V) :
  map_Forall (fun x p => match nums f !! x, nums f !! p with
    | Some n, Some m => m < n | _, _ => True end) (links f) ->
  map_Forall (fun _ n => 0 <= n) (nums f) -> nums f !! "" = None -> heights f.
Proof.
  intros H1 H2 H3. split; [|done..]. intros x p n m Hx Hn Hm.
  specialize (H1 _ _ Hx). cbn in H1. by rewrite Hn, Hm in H1.
Qed.

Lemma ex_db_heights : heights ex_db.
Proof.
  apply heights_by_map; [| |reflexivity];
    apply map_Forall_to_list; vm_compute; repeat constructor; discriminate.
Qed.

(** ** Properties *)

(** C30: every fork database reached from [NewForkDB] by any sequence of
    [InitLIB], [SetLIB], [AddLink], [DeleteLink], [MoveLIB] and
    [PurgeBeforeLIB] is well formed: no empty ID and no self-link is ever
    stored, every linked block has a number, and an object belongs to a linked
    block. *)
Theorem ForkDB_wf {V} `{Protocol} (f : ForkDB V) : db_reachable f -> wf f.
Proof. apply reachable_wf. Qed.

Lemma ForkDB_wf_witness : wf ex_db.
Proof. apply ForkDB_wf, ex_db_reachable. Defined.

(** Over a well-formed database whose numbers decrease towards the parents,
    [BlockInCurrentChain] always returns: the start itself when it has the
    requested number; otherwise the empty reference when the walk meets an ID
    without a number, or else a reference to an ancestor (or the start) that
    carries the requested number, its own number being that one, or its number
    being above it (unless it is the start) and its parent's below. *)
Theorem BlockInCurrentChain_spec {V} `{Protocol} (f : ForkDB V) start n :
  heights f -> 0 <= n ->
  exists r, BlockInCurrentChain f start n = Ok r /\
    (Num start = n -> r = start) /\
    (Num start <> n -> chain_answer f (ID start) n r).
Proof.
  intros Hh Hn. unfold BlockInCurrentChain. destruct (Z.eqb_spec (Num start) n) as [E|E].
  { eexists. split; [done|]. split; done. }
  destruct (chain_loop_terminates f n (ID start) Hh Hn) as [r Hr].
  exists r. rewrite Hr. split; [done|]. split; [done|]. intros _.
  by apply chain_loop_answer; [apply Hh|].
Qed.

Lemma BlockInCurrentChain_spec_witness :
  (exists r, BlockInCurrentChain ex_db (NewBlockRef "6b" 6) 4 = Ok r /\
     (6 = 4 -> r = NewBlockRef "6b" 6) /\ (6 <> 4 -> chain_answer ex_db "6b" 4 r)) /\
  BlockInCurrentChain ex_db (NewBlockRef "6b" 6) 4 = Ok (NewBlockRef "4a" 4).
Proof.
  split; [|reflexivity].
  exact (BlockInCurrentChain_spec ex_db (NewBlockRef "6b" 6) 4 ex_db_heights ltac:(lia)).
Defined.

(** Asked for a number above the one of its start, [BlockInCurrentChain]
    answers the start's own ID under the requested number, as if that block
    existed, whenever the start has a parent with a known lower number. *)
Theorem BlockInCurrentChain_above_start {V} `{Protocol} (f : ForkDB V) start n pn :
  nums f !! link f (ID start) = Some pn -> pn < Num start -> Num start < n ->
  BlockInCurrentChain f start n = Ok (NewBlockRef (ID start) n).
Proof.
  intros Hp Hlt Hn. unfold BlockInCurrentChain, walk_fuel.
  destruct (Z.eqb_spec (Num start) n); [lia|]. cbn. unfold chain_body at 1. rewrite Hp.
  destruct (Z.eqb_spec pn n); [lia|]. destruct (Z.ltb_spec pn n); [done|lia].
Qed.

Lemma BlockInCurrentChain_above_start_witness :
  BlockInCurrentChain ex_db (NewBlockRef "6b" 6) 1000 = Ok (NewBlockRef "6b" 1000).
Proof.
  apply (BlockInCurrentChain_above_start ex_db (NewBlockRef "6b" 6) 1000 5);
    [reflexivity|cbn; lia|cbn; lia].
Defined.

(** The fuel of the unguarded walks is adequate: when
    [BlockInCurrentChain] or [ChainSwitchSegments] runs out of it, the loop of
    the code never ends, whatever the number of rounds. *)
Theorem walks_diverge_for_good {V} `{Protocol} (f : ForkDB V) :
  (forall start n, BlockInCurrentChain f start n = Diverge ->
     forall m, loop (chain_body f n) m (ID start) = None) /\
  (forall old new, ChainSwitchSegments f old new = Diverge ->
     (forall m, loop (undo_body f) m (old, [], ∅) = None) \/
     exists seen, forall m, loop (redo_body f seen) m (new, []) = None).
Proof.
  split.
  - intros start n E. apply chain_loop_adequate. unfold BlockInCurrentChain in E.
    destruct (_ =? _); [done|]. by destruct (loop _ _ _).
  - intros old new E. unfold ChainSwitchSegments in E.
    destruct (loop (undo_body f) _ _) as [[u seen]|] eqn:EU.
    + right. exists seen. apply redo_loop_adequate. cbn in E.
      destruct (loop (redo_body f seen) _ _) as [[[? ?]|]|]; done.
    + left. by apply undo_loop_adequate.
Qed.

(** [AddLink] accepts links that close a cycle; on it [ChainSwitchSegments]
    loops forever, while [CompleteSegment], which remembers the IDs it has
    seen, returns no segment. *)
Theorem cyclic_links_diverge :
  links cyclic_db = {["a" := "b"; "b" := "a"]} /\
  ChainSwitchSegments cyclic_db "a" "b" = Diverge /\
  (forall m, loop (undo_body cyclic_db) m ("a", [], ∅) = None) /\
  CompleteSegment cyclic_db (NewBlockRef "a" 1) = Ok (None, false).
Proof.
  split; [reflexivity|]. split; [reflexivity|]. split; [|reflexivity].
  apply undo_loop_adequate. reflexivity.
Qed.

(** C27: over a well-formed database whose numbers decrease towards the parents
    [ChainSwitchSegments] always returns (without it, it may not:
    [cyclic_links_diverge]).  Either it gives a junction reached
    from the old head through the blocks to undo and from the new parent
    through the blocks to redo (taken backwards), none of the blocks to redo
    being an ancestor of the old head; or it gives nothing, and the two chains
    have no block in common. *)
Theorem ChainSwitchSegments_reorg {V} `{Protocol} (f : ForkDB V) old new :
  wf f -> heights f ->
  exists undo redo j, ChainSwitchSegments f old new = Ok (undo, redo, j) /\
    ((j <> "" /\ path f old undo j /\ path f new (reverse redo) j /\
        forall x, x ∈ redo -> x <> "" -> ~ anc f old x) \/
     (undo = [] /\ redo = [] /\ j = "" /\
        forall y, y <> "" -> anc f old y -> ~ anc f new y)).
Proof.
  intros Hwf Hh.
  destruct (heights_rooted f old Hh (wf_nums f Hwf)) as (l & y & Hl).
  destruct (heights_rooted f new Hh (wf_nums f Hwf)) as (k & z & Hk).
  destruct (ChainSwitchSegments_Ok f old new l y k z Hl Hk) as [[[undo redo] j] E].
  exists undo, redo, j. split; [done|]. destruct (decide (old = "")) as [->|Hold].
  - right. destruct (ChainSwitchSegments_no_head _ _ _ _ _ (wf_empty _ Hwf) E) as (-> & -> & ->).
    do 3 (split; [done|]). intros x Hx [l' Hp]. inversion Hp as [|? p ? ? Hp']; subst; [done|].
    by rewrite (wf_empty _ Hwf) in Hp'.
  - eapply ChainSwitchSegments_cases; [apply (wf_empty _ Hwf)|done|done].
Qed.

Lemma ChainSwitchSegments_reorg_witness :
  (exists undo redo j, ChainSwitchSegments ex_db "5a" "6b" = Ok (undo, redo, j) /\
    ((j <> "" /\ path ex_db "5a" undo j /\ path ex_db "6b" (reverse redo) j /\
        forall x, x ∈ redo -> x <> "" -> ~ anc ex_db "5a" x) \/
     (undo = [] /\ redo = [] /\ j = "" /\
        forall y, y <> "" -> anc ex_db "5a" y -> ~ anc ex_db "6b" y))) /\
  ChainSwitchSegments ex_db "5a" "6b" = Ok (["5a"], ["5b"; "6b"], "4a").
Proof.
  split; [|reflexivity].
  exact (ChainSwitchSegments_reorg ex_db "5a" "6b" (reachable_wf _ ex_db_reachable)
           ex_db_heights).
Defined.

(** C29: [CompleteSegment] returns on every database, cyclic ones included.
    From a start whose links lead to an ID without a link it gives the walked
    blocks, oldest first, and says whether the LIB is among the IDs met;
    otherwise the links loop and it gives no segment.  One of the two holds for
    every start. *)
Theorem CompleteSegment_spec {V} `{Protocol} (f : ForkDB V) b :
  (exists l y, rooted f (ID b) l y /\
     CompleteSegment f b =
     Ok (Some (reverse (seg_nodes f (Num b) l)), bool_decide (LIBID f ∈ l ++ [y]))) \/
  (exists l y, looping f (ID b) l y /\ CompleteSegment f b = Ok (None, false)).
Proof.
  destruct (rooted_or_looping f (ID b)) as [(l & y & HR)|(l & y & HL)]; [left|right];
    exists l, y; split; eauto using CompleteSegment_rooted, CompleteSegment_looping.
Qed.

(** C28: [ReversibleSegment] returns on every database.  When the links lead from
    the start to the LIB without a repeated ID and without meeting a number that is
    above the first streamable block and below the LIB, it gives the walked blocks,
    oldest first, the LIB excluded, and reports the LIB reached.  When they do not it
    reports the LIB not reached, and gives no segment if a LIB is set; if none is, it
    gives none or the whole walk, down to an ID without a link. *)
Theorem ReversibleSegment_spec {V} `{Protocol} (f : ForkDB V) b :
  exists res, ReversibleSegment f b = Ok res /\
    ((exists l, reaches_lib f (ID b) (Num b) l /\ res = (Some (reverse (seg_nodes f (Num b) l)), true)) \/
     ((forall l, ~ reaches_lib f (ID b) (Num b) l) /\ res.2 = false /\
      (HasLIB f = true -> res.1 = None) /\
      forall blocks, res.1 = Some blocks -> exists l y, rooted f (ID b) l y /\ blocks = reverse (seg_nodes f (Num b) l))).
Proof.
  destruct (ReversibleSegment_Ok f b) as [res E]. exists res. split; [done|].
  pose proof (ReversibleSegment_answer f b res E) as HA.
  assert (Hno : res.2 = false -> forall l, ~ reaches_lib f (ID b) (Num b) l).
  { intros Hr l Hl. rewrite (ReversibleSegment_reaches f b l Hl) in E. by injection E as <-. }
  destruct res as [[blocks|] [|]]; cbn in HA, Hno |- *; [| |done|].
  - left. destruct HA as (l & Hl & ->). by exists l.
  - right. destruct HA as (HL & Hr). split; [by apply Hno|]. split; [done|]. split; [congruence|]. by intros ? [= <-].
  - right. split; [by apply Hno|]. done.
Qed.

(** [stalledInSegment] returns the linked blocks numbered between the first
    and the last block of the segment that are not in the segment, each once,
    in increasing order of ID. *)
Theorem stalledInSegment_spec {V} `{Protocol} (f : ForkDB V) first blocks lst :
  LIBID f <> "" -> last (first :: blocks) = Some lst ->
  let out := stalledInSegment f (first :: blocks) in
  StronglySorted id_le out /\ NoDup (BlockID <$> out) /\
  forall b, b ∈ out <->
    links f !! BlockID b = Some (PreviousBlockID b) /\
    b = node f (BlockID b) (num f (BlockID b)) (PreviousBlockID b) /\
    (BlockID b ∉ BlockID <$> first :: blocks) /\
    BlockNum first <= num f (BlockID b) <= BlockNum lst.
Proof.
  intros HL Hlst out. destruct (stalledInSegment_sorted f (first :: blocks)).
  split; [done|]. split; [done|]. intros b. by apply stalledInSegment_elem.
Qed.

Lemma stalledInSegment_spec_witness :
  let s := [mkForkBlock "4a" 4 "3a" (Some 1%nat); mkForkBlock "5b" 5 "4a" (Some 3%nat)] in
  let out := stalledInSegment ex_db s in
  (StronglySorted id_le out /\ NoDup (BlockID <$> out) /\
   forall b, b ∈ out <->
    links ex_db !! BlockID b = Some (PreviousBlockID b) /\
    b = node ex_db (BlockID b) (num ex_db (BlockID b)) (PreviousBlockID b) /\
    (BlockID b ∉ BlockID <$> s) /\ 4 <= num ex_db (BlockID b) <= 5) /\
  out = [mkForkBlock "5a" 5 "4a" (Some 2%nat)].
Proof.
  split; [|reflexivity].
  exact (stalledInSegment_spec ex_db (mkForkBlock "4a" 4 "3a" (Some 1%nat))
    [mkForkBlock "5b" 5 "4a" (Some 3%nat)] (mkForkBlock "5b" 5 "4a" (Some 3%nat))
    ltac:(discriminate) eq_refl).
Defined.

(** [HasNewIrreversibleSegment] panics exactly when no LIB is set.
    Otherwise it always returns; it reports a new segment exactly when the new
    LIB is another block from which the links lead to the current LIB, and the
    segment is that path, oldest block first, ending with the new LIB. *)
Theorem HasNewIrreversibleSegment_spec {V} `{Protocol} (f : ForkDB V) newLIB :
  (HasLIB f = false <-> is_Panic (HasNewIrreversibleSegment f newLIB) = true) /\
  (HasLIB f = true ->
   exists hasNew seg stale, HasNewIrreversibleSegment f newLIB = Ok (hasNew, seg, stale) /\
     (hasNew = true <-> ID newLIB <> LIBID f /\
        exists l, reaches_lib f (ID newLIB) (Num newLIB) l) /\
     (hasNew = true -> exists l, reaches_lib f (ID newLIB) (Num newLIB) l /\
        seg = reverse (seg_nodes f (Num newLIB) l) /\ stale = stalledInSegment f seg)).
Proof.
  unfold HasNewIrreversibleSegment.
  destruct (ReversibleSegment_Ok f newLIB) as [res E]. rewrite E.
  pose proof (ReversibleSegment_answer f newLIB res E) as HA.
  destruct (HasLIB f) eqn:HL; cbn [negb]; [|split; [done|done]].
  split.
  { split; [done|]. case_decide; [done|]. destruct res as [[[|]|] r]; done. }
  intros _. destruct (decide (LIBID f = ID newLIB)) as [Hid|Hid].
  { exists false, [], []. split; [done|]. split; [|done]. split; [done|]. intros [Hne _]. congruence. }
  destruct res as [[blocks|] r]; cbn [mbind outcome_bind].
  2: { exists false, [], []. split; [done|]. split; [|done]. split; [done|].
       intros (_ & l & Hl). rewrite (ReversibleSegment_reaches f newLIB l Hl) in E. congruence. }
  destruct r; [|by destruct HA; congruence]. destruct HA as (l & Hl & ->).
  destruct l as [|x l].
  { destruct Hl as (Hp & _). inversion Hp. congruence. }
  destruct (reverse _) as [|y s] eqn:ER.
  { apply (f_equal length) in ER. rewrite length_reverse, seg_nodes_length in ER. done. }
  exists true, (y :: s), (stalledInSegment f (y :: s)). split; [done|]. split.
  - split; [intros _; split; [done|by exists (x :: l)]|done].
  - intros _. exists (x :: l). rewrite ER. done.
Qed.

Lemma HasNewIrreversibleSegment_spec_witness :
  (exists hasNew seg stale,
     HasNewIrreversibleSegment ex_db (NewBlockRef "5b" 5) = Ok (hasNew, seg, stale) /\
     (hasNew = true <-> "5b" <> "3a" /\ exists l, reaches_lib ex_db "5b" 5 l) /\
     (hasNew = true -> exists l, reaches_lib ex_db "5b" 5 l /\
        seg = reverse (seg_nodes ex_db 5 l) /\ stale = stalledInSegment ex_db seg)) /\
  HasNewIrreversibleSegment ex_db (NewBlockRef "5b" 5) =
    Ok (true, [mkForkBlock "4a" 4 "3a" (Some 1%nat); mkForkBlock "5b" 5 "4a" (Some 3%nat)],
        [mkForkBlock "5a" 5 "4a" (Some 2%nat)]).
Proof.
  split; [|reflexivity].
  exact (proj2 (HasNewIrreversibleSegment_spec ex_db (NewBlockRef "5b" 5)) eq_refl).
Defined.

(** C32: [PurgeBeforeLIB] keeps exactly the links of the blocks numbered at
    least [LIB - kept] (0 when that is negative), returns the other blocks, keeps
    the number, parent and object of the blocks it keeps, and keeps the
    database well formed; the LIB does not move. *)
Theorem PurgeBeforeLIB_spec {V} `{Protocol} (f : ForkDB V) k :
  wf f ->
  let f' := (PurgeBeforeLIB f k).2 in
  wf f' /\ libRef f' = libRef f /\
  (forall x p, links f' !! x = Some p <->
     links f !! x = Some p /\ purge_cutoff f k <= num f x) /\
  (forall x p, links f' !! x = Some p ->
     num f' x = num f x /\ link f' x = link f x /\ object f' x = object f x) /\
  (forall b, b ∈ (PurgeBeforeLIB f k).1 <->
     links f !! BlockID b = Some (PreviousBlockID b) /\
     b = node f (BlockID b) (num f (BlockID b)) (PreviousBlockID b) /\
     num f (BlockID b) < purge_cutoff f k) /\
  (0 <= k < two63 -> is_u64 (LIBNum f) -> purge_cutoff f k = Z.max 0 (LIBNum f - k)).
Proof.
  intros Hwf f'. split; [by apply purge_wf|]. split; [done|].
  split; [intros x p; apply purge_links|]. split.
  - intros x p Hx. split; [by eapply purge_num|]. split; [by eapply purge_link|].
    by eapply purge_object.
  - split; [intros b; apply purge_blocks_elem|]. intros Hk Hl. unfold purge_cutoff.
    rewrite (u64_small k) by (unfold is_u64, two63, two64 in *; lia).
    destruct (Z.ltb_spec (LIBNum f) k); [lia|]. rewrite u64_sub_le by (try done; lia). lia.
Qed.

Lemma PurgeBeforeLIB_spec_witness :
  (wf (PurgeBeforeLIB ex_db 0).2 /\
   libRef (PurgeBeforeLIB ex_db 0).2 = libRef ex_db /\
   (forall x p, links (PurgeBeforeLIB ex_db 0).2 !! x = Some p <->
     links ex_db !! x = Some p /\ 3 <= num ex_db x)) /\
  (PurgeBeforeLIB ex_db 0).1 = [mkForkBlock "2z" 2 "1z" (Some 5%nat)].
Proof.
  split; [|reflexivity].
  destruct (PurgeBeforeLIB_spec ex_db 0 (reachable_wf _ ex_db_reachable)) as (H1 & H2 & H3 & _).
  exact (conj H1 (conj H2 H3)).
Defined.

(** [AddLink] refuses an empty ID and a block that is its own parent, and
    leaves the database alone when the ID already has a parent, reporting that
    it exists; in every other case the block, its number and its non-nil object
    are stored, the path of every other block is unchanged, and the ID then
    exists unless its parent ID is empty. *)
Theorem AddLink_spec {V} `{Protocol} (f : ForkDB V) b prev o :
  let f' := AddLink_db f b prev o in
  let ex := AddLink_exists f b prev o in
  (ID b = prev \/ ID b = "" -> f' = f /\ ex = false) /\
  (ID b <> prev -> ID b <> "" -> Exists f (ID b) = true -> f' = f /\ ex = true) /\
  (addlink_new f b prev -> ex = false /\
     links f' = <[ID b := prev]> (links f) /\ nums f' = <[ID b := Num b]> (nums f) /\
     (forall v, o = Some v -> object f' (ID b) = Some v) /\ libRef f' = libRef f /\
     (Exists f' (ID b) = true <-> prev <> "") /\
     (links f !! ID b = None -> forall x l y, path f x l y -> path f' x l y)).
Proof.
  intros f' ex. split; [|split].
  - intros H0. unfold f', ex, AddLink_db, AddLink_exists, AddLink. by rewrite decide_True.
  - intros H1 H2 H3. unfold Exists in H3. unfold f', ex, AddLink_db, AddLink_exists, AddLink.
    rewrite decide_False by tauto. apply negb_true_iff, bool_decide_eq_false in H3.
    by rewrite decide_True.
  - intros Hnew. unfold ex, AddLink_exists. rewrite (AddLink_added _ _ _ _ Hnew).
    assert (Ef : f' = (AddLink f b prev o).2) by done.
    rewrite (AddLink_added _ _ _ _ Hnew) in Ef. cbn in Ef. split; [done|].
    split; [by rewrite Ef|]. split; [by rewrite Ef|]. split.
    { intros v ->. rewrite Ef. unfold object. cbn. by rewrite lookup_insert_eq. }
    split; [by rewrite Ef|]. split.
    { rewrite Ef. unfold Exists, link. cbn. rewrite lookup_insert_eq. cbn.
      rewrite negb_true_iff, bool_decide_eq_false. done. }
    intros Hn x l y Hp. by apply AddLink_path.
Qed.

Lemma AddLink_spec_witness :
  let b := NewBlockRef "7b" 7 in
  let f' := AddLink_db ex_db b "6b" (Some 9%nat) in
  addlink_new ex_db b "6b" /\
  links f' = <["7b" := "6b"]> (links ex_db) /\ (Exists f' "7b" = true <-> "6b" <> "").
Proof.
  assert (Hnew : addlink_new ex_db (NewBlockRef "7b" 7) "6b").
  { split; [discriminate|]. split; [discriminate|reflexivity]. }
  destruct (AddLink_spec ex_db (NewBlockRef "7b" 7) "6b" (Some 9%nat)) as (_ & _ & H).
  destruct (H Hnew) as (_ & H1 & _ & _ & _ & H2 & _). exact (conj Hnew (conj H1 H2)).
Defined.
