(* ===== verification/Forkable.v ===== *)
(** * The forkable handler ([forkable/forkable.go], [forkable/options.go])

    [Forkable] receives blocks, keeps them in a fork database and calls its
    handler with the steps (new, undo, irreversible, stalled) that keep a
    consumer on the longest chain.

    The database, the segments and the memoized longest chain share pointers to
    [ForkableBlock]s, whose [sentAsNew] flag is updated in place: the model has
    a heap of them, and the objects of the database are locations.  The wall
    clock is an input of [ProcessBlock].  Log statements are left out. *)

From S2P Require Import Prelude Loops GoStrings Types ForkDB.

Record ForkableBlock (O : Type) := mkForkableBlock {
  fb_Block : Block;
  fb_Obj : option O;
  sentAsNew : bool;
}.
Arguments mkForkableBlock {O}. Arguments fb_Block {O}. Arguments fb_Obj {O}.
Arguments sentAsNew {O}.

Definition loc : Type := nat.

(** The fields of [Forkable] that only the options set. *)
Record Config := mkConfig {
  filterSteps : Z;
  ensureBlockFlows : BlockRef;
  ensureAllBlocksTriggerLongestChain : bool;
  holdBlocksUntilLIB : bool;
  keptFinalBlocks : Z;
  includeInitialLIB : bool;
  failOnUnlinkableBlocksCount : Z;
  failOnUnlinkableBlocksGracePeriod : Z;
  warnOnUnlinkableBlocksCount : Z;
}.

(** The fields [ProcessBlock] updates, the heap and the handler's state. *)
Record Forkable (O HS : Type) := mkForkable {
  heap : gmap loc (ForkableBlock O);
  hstate : HS;
  forkDB : ForkDB loc;
  lastBlockSent : option Block;
  lastLIBSeen : BlockRef;
  ensureBlockFlowed : bool;
  consecutiveUnlinkableBlocks : Z;
  unlinkableBlocksSince : Z;
  lastLongestChain : option (list (ForkBlock loc));
}.
Arguments mkForkable {O HS}. Arguments heap {O HS}. Arguments hstate {O HS}.
Arguments forkDB {O HS}. Arguments lastBlockSent {O HS}. Arguments lastLIBSeen {O HS}.
Arguments ensureBlockFlowed {O HS}. Arguments consecutiveUnlinkableBlocks {O HS}.
Arguments unlinkableBlocksSince {O HS}. Arguments lastLongestChain {O HS}.

(** The IDs for the logs. *)
Definition ids {O} (blocks : list (ForkableBlock O)) : list string := (fun obj => Id (fb_Block obj)) <$> blocks.

Section Setters.
Context {O HS : Type}.
Implicit Types (p : Forkable O HS).

Definition set_heap (x : gmap loc (ForkableBlock O)) p :=
  mkForkable x (hstate p) (forkDB p) (lastBlockSent p) (lastLIBSeen p) (ensureBlockFlowed p)
    (consecutiveUnlinkableBlocks p) (unlinkableBlocksSince p) (lastLongestChain p).
Definition set_hstate (x : HS) p :=
  mkForkable (heap p) x (forkDB p) (lastBlockSent p) (lastLIBSeen p) (ensureBlockFlowed p)
    (consecutiveUnlinkableBlocks p) (unlinkableBlocksSince p) (lastLongestChain p).
Definition set_forkDB (x : ForkDB loc) p :=
  mkForkable (heap p) (hstate p) x (lastBlockSent p) (lastLIBSeen p) (ensureBlockFlowed p)
    (consecutiveUnlinkableBlocks p) (unlinkableBlocksSince p) (lastLongestChain p).
Definition set_lastBlockSent (x : option Block) p :=
  mkForkable (heap p) (hstate p) (forkDB p) x (lastLIBSeen p) (ensureBlockFlowed p)
    (consecutiveUnlinkableBlocks p) (unlinkableBlocksSince p) (lastLongestChain p).
Definition set_lastLIBSeen (x : BlockRef) p :=
  mkForkable (heap p) (hstate p) (forkDB p) (lastBlockSent p) x (ensureBlockFlowed p)
    (consecutiveUnlinkableBlocks p) (unlinkableBlocksSince p) (lastLongestChain p).
Definition set_ensureBlockFlowed (x : bool) p :=
  mkForkable (heap p) (hstate p) (forkDB p) (lastBlockSent p) (lastLIBSeen p) x
    (consecutiveUnlinkableBlocks p) (unlinkableBlocksSince p) (lastLongestChain p).
Definition set_unlinkable (n since : Z) p :=
  mkForkable (heap p) (hstate p) (forkDB p) (lastBlockSent p) (lastLIBSeen p)
    (ensureBlockFlowed p) n since (lastLongestChain p).
Definition set_lastLongestChain (x : option (list (ForkBlock loc))) p :=
  mkForkable (heap p) (hstate p) (forkDB p) (lastBlockSent p) (lastLIBSeen p)
    (ensureBlockFlowed p) (consecutiveUnlinkableBlocks p) (unlinkableBlocksSince p) x.
End Setters.

(** ** Construction and options *)

Section New.
Context {O HS : Type}.

Definition Option_ : Type := Config * Forkable O HS -> Config * Forkable O HS.

Definition default_Config : Config :=
  mkConfig StepsAll BlockRefEmpty false false 0 false 0 0 0.

Definition New (h0 : HS) (opts : list Option_) : Config * Forkable O HS :=
  foldl (fun f opt => opt f)
    (default_Config,
     mkForkable ∅ h0 NewForkDB None BlockRefEmpty false 0 0 None) opts.

Definition WithWarnOnUnlinkableBlocks (count : Z) : Option_ := fun '(c, p) =>
  (mkConfig (filterSteps c) (ensureBlockFlows c) (ensureAllBlocksTriggerLongestChain c)
     (holdBlocksUntilLIB c) (keptFinalBlocks c) (includeInitialLIB c)
     (failOnUnlinkableBlocksCount c) (failOnUnlinkableBlocksGracePeriod c) count, p).

Definition WithFailOnUnlinkableBlocks (count gracePeriod : Z) : Option_ := fun '(c, p) =>
  (mkConfig (filterSteps c) (ensureBlockFlows c) (ensureAllBlocksTriggerLongestChain c)
     (holdBlocksUntilLIB c) (keptFinalBlocks c) (includeInitialLIB c)
     count gracePeriod (warnOnUnlinkableBlocksCount c), p).

Definition WithInclusiveLIB (irreversibleBlock : BlockRef) : Option_ := fun '(c, p) =>
  (mkConfig (filterSteps c) (ensureBlockFlows c) (ensureAllBlocksTriggerLongestChain c)
     (holdBlocksUntilLIB c) (keptFinalBlocks c) true
     (failOnUnlinkableBlocksCount c) (failOnUnlinkableBlocksGracePeriod c)
     (warnOnUnlinkableBlocksCount c),
   set_forkDB (InitLIB (forkDB p) irreversibleBlock) p).

Definition WithExclusiveLIB (irreversibleBlock : BlockRef) : Option_ := fun '(c, p) =>
  (c, set_lastLIBSeen irreversibleBlock
        (set_forkDB (InitLIB (forkDB p) irreversibleBlock) p)).

Definition WithFilters (steps : Z) : Option_ := fun '(c, p) =>
  (mkConfig steps (ensureBlockFlows c) (ensureAllBlocksTriggerLongestChain c)
     (holdBlocksUntilLIB c) (keptFinalBlocks c) (includeInitialLIB c)
     (failOnUnlinkableBlocksCount c) (failOnUnlinkableBlocksGracePeriod c)
     (warnOnUnlinkableBlocksCount c), p).

Definition HoldBlocksUntilLIB : Option_ := fun '(c, p) =>
  (mkConfig (filterSteps c) (ensureBlockFlows c) (ensureAllBlocksTriggerLongestChain c)
     true (keptFinalBlocks c) (includeInitialLIB c)
     (failOnUnlinkableBlocksCount c) (failOnUnlinkableBlocksGracePeriod c)
     (warnOnUnlinkableBlocksCount c), p).

Definition WithKeptFinalBlocks (count : Z) : Option_ := fun '(c, p) =>
  (mkConfig (filterSteps c) (ensureBlockFlows c) (ensureAllBlocksTriggerLongestChain c)
     (holdBlocksUntilLIB c) count (includeInitialLIB c)
     (failOnUnlinkableBlocksCount c) (failOnUnlinkableBlocksGracePeriod c)
     (warnOnUnlinkableBlocksCount c), p).

Definition EnsureBlockFlows (blockRef : BlockRef) : Option_ := fun '(c, p) =>
  (mkConfig (filterSteps c) blockRef (ensureAllBlocksTriggerLongestChain c)
     (holdBlocksUntilLIB c) (keptFinalBlocks c) (includeInitialLIB c)
     (failOnUnlinkableBlocksCount c) (failOnUnlinkableBlocksGracePeriod c)
     (warnOnUnlinkableBlocksCount c), p).

Definition EnsureAllBlocksTriggerLongestChain : Option_ := fun '(c, p) =>
  (mkConfig (filterSteps c) (ensureBlockFlows c) true
     (holdBlocksUntilLIB c) (keptFinalBlocks c) (includeInitialLIB c)
     (failOnUnlinkableBlocksCount c) (failOnUnlinkableBlocksGracePeriod c)
     (warnOnUnlinkableBlocksCount c), p).
End New.

Section Forkable.
Context {O HS : Type} `{Protocol}.
Context (cfg : Config) (handler : Handler O HS).
Implicit Types (p : Forkable O HS).

Abbreviation FM := (M (Forkable O HS)).

(** ** Pointers *)

(** [o.( *ForkableBlock)] followed by a read. *)
Definition fb_at p (o : option loc) : outcome (ForkableBlock O) :=
  match o with
  | None => Panic "interface conversion: interface {} is nil, not *ForkableBlock"
  | Some l =>
      match heap p !! l with
      | Some b => Ok b
      | None => Panic "invalid memory address or nil pointer dereference"
      end
  end.

Definition read_fb (o : option loc) : FM (ForkableBlock O) := fun p => (fb_at p o, p).

Definition alloc_fb (b : ForkableBlock O) : FM loc := fun p =>
  let l := fresh (dom (heap p)) in (Ok l, set_heap (<[l := b]> (heap p)) p).

Definition mark_sent (l : loc) : FM unit := fun p =>
  match heap p !! l with
  | Some b => (Ok tt, set_heap (<[l := mkForkableBlock (fb_Block b) (fb_Obj b) true]> (heap p)) p)
  | None => (Panic "invalid memory address or nil pointer dereference", p)
  end.

(** ** Small pieces *)

Definition matchFilter (step : Z) : bool := negb (Z.land (filterSteps cfg) step =? 0).

Definition targetChainBlock p (blk : BlockRef) : BlockRef :=
  if negb (bool_decide (ID (ensureBlockFlows cfg) = "")) && negb (ensureBlockFlowed p)
  then ensureBlockFlows cfg
  else blk.

Definition blockFlowed (blockRef : BlockRef) p : Forkable O HS :=
  if bool_decide (ID (ensureBlockFlows cfg) = "") then p
  else if ensureBlockFlowed p then p
  else if bool_decide (ID blockRef = ID (ensureBlockFlows cfg))
  then set_ensureBlockFlowed true p
  else p.

Definition triggersNewLongestChain p (blk : Block) : bool :=
  if ensureAllBlocksTriggerLongestChain cfg then true
  else
    match lastBlockSent p with
    | None => true
    | Some l => if Number l <? Number blk then true else false
    end.

(** [p.handler.ProcessBlock(blk, fo)]: the handler runs under the lock, its
    only effects are on its own state. *)
Definition call_handler (blk : Block) (fo : ForkableObject O) : FM unit := fun p =>
  match handler blk (IForkable fo) (hstate p) with
  | (Some e, hs) => (Err e, set_hstate hs p)
  | (None, hs) => (Ok tt, set_hstate hs p)
  end.

Definition lib_sent p : BlockRef :=
  if IsEmpty (Some (lastLIBSeen p)) then libRef (forkDB p) else lastLIBSeen p.

Definition computeNewLongestChain (l : loc) (blk : Block) : FM (option (list (ForkBlock loc))) :=
  p ← mget;
  let longestChain := lastLongestChain p in
  let canSkipRecompute :=
    match longestChain with
    | Some (first :: rest) =>
        match last (first :: rest) with
        | Some lst =>
            bool_decide (ParentId blk = BlockID lst) &&
            bool_decide (LIBID (forkDB p) = PreviousBlockID first)
        | None => false
        end
    | _ => false
    end in
  longestChain' ←
    (if canSkipRecompute
     then mret (Some (default [] longestChain ++
                      [mkForkBlock (Id blk) (Number blk) (ParentId blk) (Some l)]))
     else
       '(seg, _) ← mlift (ReversibleSegment (forkDB p) (targetChainBlock p (AsRef (Some blk))));
       mret seg);
  _ ← mmodify (set_lastLongestChain longestChain');
  mret longestChain'.

(** ** Chain switches *)

Fixpoint sentChainSegment p (ids : list string) (doingRedos : bool)
  : outcome (list (ForkableBlock O)) :=
  match ids with
  | [] => Ok []
  | blockID :: ids' =>
      match BlockForID (forkDB p) blockID with
      | None => Panic "block for id returned nil"
      | Some blkObj =>
          ppBlock ← fb_at p (Object blkObj);
          rest ← sentChainSegment p ids' doingRedos;
          if doingRedos && negb (sentAsNew ppBlock) then Ok rest else Ok (ppBlock :: rest)
      end
  end.

Definition sentChainSwitchSegments p (currentHeadBlockID newHeadsPreviousID : string)
  : outcome (list (ForkableBlock O) * list (ForkableBlock O) * option BlockRef) :=
  if decide (currentHeadBlockID = newHeadsPreviousID) then Ok ([], [], None)
  else
    '(undoIDs, redoIDs, junctionBlockID) ←
      ChainSwitchSegments (forkDB p) currentHeadBlockID newHeadsPreviousID;
    let junctionBlock :=
      match undoIDs with
      | [] => None
      | _ => ForkBlock_AsRef <$> BlockForID (forkDB p) junctionBlockID
      end in
    undos ← sentChainSegment p undoIDs false;
    redos ← sentChainSegment p redoIDs true;
    Ok (undos, redos, junctionBlock).

(** ** Sending *)

Definition preproc (b : ForkableBlock O) : Block * option O := (fb_Block b, fb_Obj b).

Definition wrap_process {A} (m : FM A) : FM A := fun p =>
  match m p with
  | (Err e, p') => (Err (EWrap "process block" e), p')
  | r => r
  end.

Fixpoint processBlocks_from (idx : Z) (currentBlock : Block) (objs : list (Block * option O))
  (blocks : list (ForkableBlock O)) (step : Z) (reorgJunctionBlock : option BlockRef) : FM unit :=
  match blocks with
  | [] => mret tt
  | block :: blocks' =>
      p ← mget;
      let fo := mkForkableObject step (Z.of_nat (length objs)) idx objs reorgJunctionBlock
                  (Some (AsRef (Some currentBlock))) (Some (AsRef (Some (fb_Block block))))
                  (Some (lib_sent p)) (fb_Obj block) in
      _ ← wrap_process (call_handler (fb_Block block) fo);
      processBlocks_from (idx + 1) currentBlock objs blocks' step reorgJunctionBlock
  end.

Definition processBlocks (currentBlock : Block) (blocks : list (ForkableBlock O)) (step : Z)
  (reorgJunctionBlock : option BlockRef) : FM unit :=
  processBlocks_from 0 currentBlock (preproc <$> blocks) blocks step reorgJunctionBlock.

Definition processNewBlock (headBlock : ForkBlock loc) (b : ForkBlock loc) : FM unit :=
  ppBlk ← read_fb (Object b);
  if sentAsNew ppBlk then mret tt
  else
    _ ← (if matchFilter StepNew then
           p ← mget;
           call_handler (fb_Block ppBlk)
             (mkForkableObject StepNew 0 0 [] None (Some (ForkBlock_AsRef headBlock))
                (Some (ForkBlock_AsRef b)) (Some (lib_sent p)) (fb_Obj ppBlk))
         else mret tt);
    _ ← mmodify (blockFlowed (AsRef (Some (fb_Block ppBlk))));
    _ ← (match Object b with Some l => mark_sent l | None => mret tt end);
    mmodify (set_lastBlockSent (Some (fb_Block ppBlk))).

Definition processNewBlocks (longestChain : list (ForkBlock loc)) : FM unit :=
  match last longestChain with
  | None => mpanic "index out of range"
  | Some headBlock => mfor longestChain (processNewBlock headBlock)
  end.

Fixpoint read_all (blocks : list (ForkBlock loc)) : FM (list (Block * option O)) :=
  match blocks with
  | [] => mret []
  | b :: blocks' =>
      fb ← read_fb (Object b);
      rest ← read_all blocks';
      mret (preproc fb :: rest)
  end.

Fixpoint processIrreversible_from (idx : Z) (count : Z) (irrGroup : list (Block * option O))
  (segment : list (ForkBlock loc)) (headBlock : BlockRef) : FM unit :=
  match segment with
  | [] => mret tt
  | irrBlock :: segment' =>
      preprocBlock ← read_fb (Object irrBlock);
      let blkRef := AsRef (Some (fb_Block preprocBlock)) in
      _ ← call_handler (fb_Block preprocBlock)
            (mkForkableObject StepIrreversible count idx irrGroup None (Some headBlock)
               (Some blkRef) (Some blkRef) (fb_Obj preprocBlock));
      processIrreversible_from (idx + 1) count irrGroup segment' headBlock
  end.

Definition processIrreversibleSegment (irreversibleSegment : list (ForkBlock loc))
  (headBlock : BlockRef) : FM unit :=
  _ ← (if matchFilter StepIrreversible then
         irrGroup ← read_all irreversibleSegment;
         processIrreversible_from 0 (Z.of_nat (length irreversibleSegment)) irrGroup
           irreversibleSegment headBlock
       else mret tt);
  match last irreversibleSegment with
  | Some irrBlock => mmodify (set_lastLIBSeen (ForkBlock_AsRef irrBlock))
  | None => mret tt
  end.

Fixpoint processStalled_from (idx : Z) (count : Z) (stalledGroup : list (Block * option O))
  (stalledBlocks : list (ForkBlock loc)) (headBlock : BlockRef) : FM unit :=
  match stalledBlocks with
  | [] => mret tt
  | staleBlock :: stalledBlocks' =>
      preprocBlock ← read_fb (Object staleBlock);
      p ← mget;
      _ ← call_handler (fb_Block preprocBlock)
            (mkForkableObject StepStalled count idx stalledGroup None (Some headBlock)
               (Some (ForkBlock_AsRef staleBlock)) (Some (lastLIBSeen p)) (fb_Obj preprocBlock));
      processStalled_from (idx + 1) count stalledGroup stalledBlocks' headBlock
  end.

Definition processStalledSegment (stalledBlocks : list (ForkBlock loc)) (headBlock : BlockRef)
  : FM unit :=
  if matchFilter StepStalled then
    stalledGroup ← read_all stalledBlocks;
    processStalled_from 0 (Z.of_nat (length stalledBlocks)) stalledGroup stalledBlocks headBlock
  else mret tt.

Definition processInitialInclusiveIrreversibleBlock (blk : Block) (obj : option O)
  (sendAsNew : bool) : FM unit :=
  l ← alloc_fb (mkForkableBlock blk obj false);
  let tinyChain := [mkForkBlock (Id blk) (Number blk) "" (Some l)] in
  _ ← (if sendAsNew then processNewBlocks tinyChain else mret tt);
  processIrreversibleSegment tinyChain (AsRef (Some blk)).

(** ** [ProcessBlock] *)

(** The accounting of unlinkable blocks; [now] and [later] are the two readings
    of the clock. *)
Definition checkUnlinkable (now later : Z) (longestChain : option (list (ForkBlock loc)))
  : FM unit :=
  if negb (failOnUnlinkableBlocksCount cfg =? 0) || negb (warnOnUnlinkableBlocksCount cfg =? 0)
  then
    p ← mget;
    if negb (bool_decide (is_Some longestChain)) && HasLIB (forkDB p) then
      let since := if consecutiveUnlinkableBlocks p =? 0 then now else unlinkableBlocksSince p in
      let n := i64 (consecutiveUnlinkableBlocks p + 1) in
      _ ← mmodify (set_unlinkable n since);
      if negb (failOnUnlinkableBlocksCount cfg =? 0) &&
         (failOnUnlinkableBlocksCount cfg <? n) &&
         (failOnUnlinkableBlocksGracePeriod cfg <? later - since)
      then merr (EMsg "too many consecutive unlinkable blocks")
      else mret tt
    else mmodify (set_unlinkable 0 (unlinkableBlocksSince p))
  else mret tt.

(** The end of [ProcessBlock]: the LIB of the new head is looked up, moved to,
    and the final and stalled blocks are sent. *)
Definition advanceLIB (blk : Block) (firstIrreverbleBlock : option (ForkBlock loc)) : FM unit :=
  p ← mget;
  match lastBlockSent p with
  | None => mret tt
  | Some lst =>
      if negb (HasLIB (forkDB p)) then mret tt
      else
        let newHeadBlock := AsRef (Some lst) in
        libRef' ← mlift (BlockInCurrentChain (forkDB p) newHeadBlock (LibNum lst));
        if decide (ID libRef' = "") then mret tt
        else
          '(hasNew, irreversibleSegment, stalledBlocks) ←
            mlift (HasNewIrreversibleSegment (forkDB p) libRef');
          let irreversibleSegment' :=
            match firstIrreverbleBlock with
            | Some b => irreversibleSegment ++ [b]
            | None => irreversibleSegment
            end in
          if negb hasNew && negb (bool_decide (is_Some firstIrreverbleBlock)) then mret tt
          else
            _ ← mmodify (fun p => set_forkDB (MoveLIB (forkDB p) libRef') p);
            _ ← mmodify (fun p => set_forkDB (PurgeBeforeLIB (forkDB p) (keptFinalBlocks cfg)).2 p);
            _ ← processIrreversibleSegment irreversibleSegment' (AsRef (Some blk));
            processStalledSegment stalledBlocks (AsRef (Some blk))
  end.

(** Sending the undos, the redos and the new blocks of the longest chain. *)
Definition sendChain (blk : Block) (undos redos : list (ForkableBlock O))
  (reorgJunctionBlock : option BlockRef) (longestChain : list (ForkBlock loc)) : FM unit :=
  _ ← (if matchFilter StepUndo then processBlocks blk undos StepUndo reorgJunctionBlock
       else mret tt);
  _ ← (if matchFilter StepNew then processBlocks blk redos StepNew None else mret tt);
  processNewBlocks longestChain.

(** From the insertion of the block in the database to the end. *)
Definition afterAddLink (now later : Z) (blk : Block) (obj : option O) (l : loc)
  (triggers : bool) (undos redos : list (ForkableBlock O))
  (reorgJunctionBlock : option BlockRef) : FM unit :=
  let continue_ (firstIrreverbleBlock : option (ForkBlock loc)) : FM unit :=
    longestChain ← computeNewLongestChain l blk;
    _ ← checkUnlinkable now later longestChain;
    match longestChain with
    | Some ((_ :: _) as chain) =>
        if negb triggers then mret tt
        else
          _ ← sendChain blk undos redos reorgJunctionBlock chain;
          advanceLIB blk firstIrreverbleBlock
    | _ => mret tt
    end in
  p ← mget;
  if HasLIB (forkDB p) then continue_ None
  else
    db ← mlift (SetLIB (forkDB p) (AsRef (Some blk)) (LibNum blk));
    _ ← mmodify (set_forkDB db);
    if HasLIB db then
      if LIBNum db =? Number blk then processInitialInclusiveIrreversibleBlock blk obj true
      else continue_ (BlockForID db (LIBID db))
    else if holdBlocksUntilLIB cfg then mret tt
    else continue_ None.

Definition ProcessBlock (now later : Z) (blk : Block) (obj : option O) : FM unit :=
  if decide (Id blk = ParentId blk) then merr (EMsg "invalid block ID detected on block, bad data")
  else
    p ← mget;
    if (Number blk <? LIBNum (forkDB p)) && bool_decide (is_Some (lastBlockSent p)) then mret tt
    else
      let triggers := triggersNewLongestChain p blk in
      if includeInitialLIB cfg && negb (bool_decide (is_Some (lastBlockSent p))) &&
         bool_decide (Id blk = LIBID (forkDB p))
      then processInitialInclusiveIrreversibleBlock blk obj true
      else
        l ← alloc_fb (mkForkableBlock blk obj false);
        '(undos, redos, reorgJunctionBlock) ←
          (match lastBlockSent p with
           | Some lst =>
               if matchFilter StepUndo && triggers
               then mlift (sentChainSwitchSegments p (Id lst) (ParentId blk))
               else mret ([], [], None)
           | None => mret ([], [], None)
           end);
        p' ← mget;
        let '((exists_, _), db) :=
          AddLink (forkDB p') (AsRef (Some blk)) (ParentId blk) (Some l) in
        _ ← mmodify (set_forkDB db);
        if exists_ : bool then mret tt
        else afterAddLink now later blk obj l triggers undos redos reorgJunctionBlock.
End Forkable.
