(* ===== verification/Consumer.v ===== *)
(** * What a consumer may rely on: the chain view

    The abstract specification of the events a [Forkable] sends.  A consumer
    keeps the last final block and the blocks it applied above it, newest
    first; an event that does not fit its view is refused:
    - a new block must extend the tip;
    - an undone block must be the tip, and a final block is never undone;
    - the next final block must be the oldest pending one;
    - a stalled block is on a branch the consumer does not follow;
    - a block sent as new and irreversible at once extends the last final block
      of a consumer with nothing pending.

    Every event carries the last final block, from which its cursor is made: it
    must be the one the consumer knows (a first new block may carry itself, when
    it is known to be final before it is sent). *)

From S2P Require Import Prelude Types.

Record View := mkView { v_final : string; v_pending : list string }.

(** What the handler receives. *)
Notation event O := (Block * iface O)%type.

Section Consumer.
Context {O : Type}.

Definition tip (v : View) : string := default (v_final v) (head (v_pending v)).

Definition lib_id (fo : ForkableObject O) : option string := ID <$> lastLIBSent fo.

(** One delivered block: its step and the last final block its cursor carries. *)
Definition consume_step (v : View) (b : Block) (step : Z) (lib : option string) : option View :=
  if decide (step = StepNew) then
    if decide (ParentId b = tip v /\ (lib = Some (v_final v) \/
                 v_pending v = [] /\ lib = Some (Id b)))
    then Some (mkView (v_final v) (Id b :: v_pending v)) else None
  else if decide (step = StepUndo) then
    if decide (head (v_pending v) = Some (Id b) /\ lib = Some (v_final v))
    then Some (mkView (v_final v) (tail (v_pending v))) else None
  else if decide (step = StepIrreversible) then
    if decide (last (v_pending v) = Some (Id b) /\ lib = Some (Id b))
    then Some (mkView (Id b) (removelast (v_pending v))) else None
  else if decide (step = StepStalled) then
    if decide (Id b <> v_final v /\ (Id b ∉ v_pending v) /\ lib = Some (v_final v))
    then Some v else None
  else if decide (step = StepNewIrreversible) then
    if decide (ParentId b = v_final v /\ v_pending v = [] /\ lib = Some (Id b))
    then Some (mkView (Id b) []) else None
  else None.

(** The step and the last final block of what travels next to the block. *)
Definition ev_step (o : iface O) : option Z :=
  match o with
  | IForkable fo => Some (fo_step fo)
  | IWrapped w => Some (Step (w_cursor w))
  | _ => None
  end.

Definition ev_lib (o : iface O) : option string :=
  match o with
  | IForkable fo => lib_id fo
  | IWrapped w => ID <$> LIB (w_cursor w)
  | _ => None
  end.

Definition consume1 (v : View) (ev : event O) : option View :=
  ev_step ev.2 ≫= fun step => consume_step v ev.1 step (ev_lib ev.2).

(** The events in the order they were sent. *)
Fixpoint consume (v : View) (evs : list (event O)) : option View :=
  match evs with
  | [] => Some v
  | ev :: evs' => consume1 v ev ≫= fun v' => consume v' evs'
  end.

Lemma consume_app v e1 e2 : consume v (e1 ++ e2) = consume v e1 ≫= fun v' => consume v' e2.
Proof.
  revert v. induction e1 as [|e e1 IH]; intros v; [done|]. cbn.
  destruct (consume1 v e); [apply IH|done].
Qed.

(** ** Runs of events of one step *)

Definition ev_is (step : Z) (lib : Block -> string) (ev : event O) (b : Block) : Prop :=
  ev.1 = b /\ ev_step ev.2 = Some step /\ ev_lib ev.2 = Some (lib b).

Lemma ev_is_consume step lib ev b v :
  ev_is step lib ev b -> consume1 v ev = consume_step v b step (Some (lib b)).
Proof. intros (<- & Hs & Hl). unfold consume1. by rewrite Hs, Hl. Qed.

(** [bs] is a chain that starts on top of [top]. *)
Fixpoint chained (top : string) (bs : list Block) : Prop :=
  match bs with
  | [] => True
  | b :: bs' => ParentId b = top /\ chained (Id b) bs'
  end.

Ltac ev_decide :=
  repeat first [rewrite decide_True by done | rewrite decide_False by done];
  cbn [mbind option_bind head tail v_final v_pending fst].

Lemma consume_new fin pend evs bs :
  Forall2 (ev_is StepNew (fun _ => fin)) evs bs ->
  chained (tip (mkView fin pend)) bs ->
  consume (mkView fin pend) evs = Some (mkView fin (reverse (Id <$> bs) ++ pend)).
Proof.
  intros HF. revert pend. induction HF as [|ev b evs bs Hev HF IH]; intros pend Hc; [done|].
  destruct Hc as [Hp Hc]. cbn [consume]. rewrite (ev_is_consume _ _ _ _ _ Hev). unfold consume_step. ev_decide.
  rewrite decide_True by auto. cbn [mbind option_bind].
  rewrite (IH (Id b :: pend)) by exact Hc.
  by rewrite fmap_cons, reverse_cons, <- app_assoc.
Qed.

Lemma consume_undo fin pend evs bs :
  Forall2 (ev_is StepUndo (fun _ => fin)) evs bs ->
  consume (mkView fin ((Id <$> bs) ++ pend)) evs = Some (mkView fin pend).
Proof.
  induction 1 as [|ev b evs bs Hev HF IH]; [done|].
  cbn [consume]. rewrite (ev_is_consume _ _ _ _ _ Hev). unfold consume_step. ev_decide. exact IH.
Qed.

Lemma removelast_snoc {A} (l : list A) (a : A) : removelast (l ++ [a]) = l.
Proof. apply List.removelast_last. Qed.

(** The last of a list of IDs, or what there was before. *)
Lemma default_last_cons {A} (d x : A) l : default d (last (x :: l)) = default x (last l).
Proof. destruct l as [|y l]; [done|]. rewrite last_cons_cons. by destruct (last (y :: l)) eqn:E;
  [|apply last_None in E]. Qed.

Lemma consume_irreversible fin pend evs bs :
  Forall2 (ev_is StepIrreversible Id) evs bs ->
  consume (mkView fin (pend ++ reverse (Id <$> bs))) evs =
  Some (mkView (default fin (last (Id <$> bs))) pend).
Proof.
  intros HF. revert fin. induction HF as [|ev b evs bs Hev HF IH]; intros fin.
  { cbn. by rewrite app_nil_r. }
  cbn [consume]. rewrite (ev_is_consume _ _ _ _ _ Hev). unfold consume_step.
  rewrite fmap_cons, reverse_cons, app_assoc. cbn [v_pending v_final].
  rewrite last_snoc. ev_decide. by rewrite removelast_snoc, IH, default_last_cons.
Qed.

Lemma consume_stalled fin pend evs bs :
  Forall2 (ev_is StepStalled (fun _ => fin)) evs bs ->
  Forall (fun b => Id b <> fin /\ (Id b ∉ pend)) bs ->
  consume (mkView fin pend) evs = Some (mkView fin pend).
Proof.
  induction 1 as [|ev b evs bs Hev HF IH]; intros HN; [done|].
  apply Forall_cons in HN as [[H1 H2] HN].
  cbn [consume]. rewrite (ev_is_consume _ _ _ _ _ Hev). unfold consume_step. ev_decide. by apply IH.
Qed.

Lemma consume_final fin evs bs :
  Forall2 (ev_is StepNewIrreversible Id) evs bs -> chained fin bs ->
  consume (mkView fin []) evs = Some (mkView (default fin (last (Id <$> bs))) []).
Proof.
  intros HF. revert fin. induction HF as [|ev b evs bs Hev HF IH]; intros fin Hc; [done|].
  destruct Hc as [Hp Hc]. cbn [consume]. rewrite (ev_is_consume _ _ _ _ _ Hev). unfold consume_step.
  ev_decide. by rewrite IH, fmap_cons, default_last_cons.
Qed.
End Consumer.
