(* ===== verification/Payloads.v ===== *)
(** * Payloads and head metrics ([block.go], [decoder.go], [metrics.go], [registry.go])

    The handlers and decoders a program puts around its own code: the payload of a
    block in the type of a protocol, a function as a decoder, and the gauges of
    the head. The codec of a protocol and the gauges are external. *)

From S2P Require Import Prelude GoStrings Types Consumer.

(** ** The payload *)

Section Payload.
Context {B : Type} (UnmarshalTo : option Any -> outcome B).

(** [blk.Payload.UnmarshalTo]; the message of the panic reads the payload, so that a
    nil one panics while it is made. *)
Definition ToProtocol (blk : Block) : outcome B :=
  match UnmarshalTo (Payload blk) with
  | Ok value => Ok value
  | Err _ =>
      payload ← deref (Payload blk);
      Panic "unable to unmarshal block %s payload (kind: %s): %w"
  | Panic w => Panic w
  | Diverge => Diverge
  end.
End Payload.

(** A [BlockDecoderFunc] is its function. *)
Definition BlockDecoderFunc (A : Type) : Type := Block -> outcome A.
Definition BlockDecoderFunc_Decode {A} (f : BlockDecoderFunc A) (blk : Block) : outcome A := f blk.

(** ** The registry *)

Definition GetMaxNormalLIBDistance : Z := 1000.
Definition NormalizeBlockID (in_ : string) : string := in_.
Definition ValidateRegistry : option error := None.

(** ** The gauges of the head *)

Section Metrics.
Context {O HS G : Type} (SetBlockTime : option Z -> G -> G) (SetUint64 : Z -> G -> G).

(** The gauges are set before the handler is called; the time of a block without a valid
    timestamp panics first. *)
Definition WithHeadMetrics (h : Handler O HS) (blk : Block) (obj : iface O) : M (G * HS) unit := fun '(g, hs) =>
  match Time (Some blk) with
  | Ok t =>
      let g' := SetUint64 (Number blk) (SetBlockTime t g) in
      match h blk obj hs with
      | (None, hs') => (Ok tt, (g', hs'))
      | (Some e, hs') => (Err e, (g', hs'))
      end
  | Err e => (Err e, (g, hs))
  | Panic w => (Panic w, (g, hs))
  | Diverge => (Diverge, (g, hs))
  end.
End Metrics.

(** Gauges that show the last value they were given. *)
Record HeadGauges := mkHeadGauges { HeadTimeDrift : option Z; HeadBlockNum : Z }.

Notation gauged := (WithHeadMetrics (fun t g => mkHeadGauges t (HeadBlockNum g)) (fun n g => mkHeadGauges (HeadTimeDrift g) n)).

(** The wrapper hands the same blocks to the handler, with the same errors, and the gauges
    show the last block handed over, failed or not. *)
Lemma WithHeadMetrics_transparent {O HS} (h : Handler O HS) evs : Forall (fun ev => is_Some (Timestamp ev.1)) evs ->
  forall g hs, exists done_ g' r hs',
    mfor evs (fun ev => gauged h ev.1 ev.2) (g, hs) = (r, (g', hs')) /\
    mfor evs (fun ev => fun hs => match h ev.1 ev.2 hs with (None, hs') => (Ok tt, hs') | (Some e, hs') => (Err e, hs') end) hs = (r, hs') /\
    (exists rest, evs = done_ ++ rest) /\ (r = Ok tt -> done_ = evs) /\
    g' = match last done_ with Some ev => mkHeadGauges (Timestamp ev.1) (Number ev.1) | None => g end.
Proof.
  induction 1 as [|[b o] evs [t Et] _ IH]; intros g hs.
  { exists [], g, (Ok tt), hs. split_and!; try done. by exists []. }
  cbn in Et. set (g1 := mkHeadGauges (Timestamp b) (Number b)).
  assert (E1 : gauged h b o (g, hs) = match h b o hs with (None, hs') => (Ok tt, (g1, hs')) | (Some e, hs') => (Err e, (g1, hs')) end)
    by (unfold WithHeadMetrics, Time, g1; by rewrite Et).
  cbn [mfor fst snd]. unfold mbind, M_bind. rewrite E1. destruct (h b o hs) as [[e|] hs1].
  - exists [(b, o)], g1, (Err e), hs1. split_and!; try done. by exists evs.
  - destruct (IH g1 hs1) as (done_ & g' & r & hs' & Ea & Eb & (rest & ->) & Hr & ->).
    exists ((b, o) :: done_), (match last done_ with Some ev => mkHeadGauges (Timestamp ev.1) (Number ev.1) | None => g1 end), r, hs'.
    split; [exact Ea|]. split; [exact Eb|]. split; [by exists rest|]. split; [intros Er; f_equal; auto|].
    rewrite last_cons. by destruct (last done_).
Qed.
