(* ===== verification/ForkableFacts.v ===== *)
(** * Running the forkable: what each phase of [ProcessBlock] does

    The handler is the recorder of [Types.v]; the options of interest send
    every step and do not force a block to flow.  Each lemma gives the result
    of a phase on a state, its events and the state it leaves. *)

From S2P Require Import Prelude Loops GoStrings Types ForkDB ForkDBFacts Forkable Consumer.

Section Run.
Context {O : Type} `{Protocol} (cfg : Config).

Notation Fk := (Forkable O (list (event O))).
Implicit Types (p : Fk).

(** The options: all the steps, no block forced to flow. *)
Definition plain : Prop :=
  filterSteps cfg = StepsAll /\ ID (ensureBlockFlows cfg) = "".

Definition push (evs : list (event O)) p : Fk := set_hstate (reverse evs ++ hstate p) p.

Lemma push_nil p : push [] p = p.
Proof. by destruct p. Qed.

Lemma push_push e1 e2 p : push e2 (push e1 p) = push (e1 ++ e2) p.
Proof. unfold push, set_hstate. cbn. by rewrite reverse_app, app_assoc. Qed.

Definition ev_of (b : Block) (fo : ForkableObject O) : event O := (b, IForkable fo).

Lemma call_handler_run b fo p : call_handler recorder b fo p = (Ok tt, push [ev_of b fo] p).
Proof. done. Qed.

Lemma matchFilter_plain s : plain -> s ∈ [StepNew; StepUndo; StepIrreversible; StepStalled] ->
  matchFilter cfg s = true.
Proof.
  intros [Hf _] Hs. unfold matchFilter. rewrite Hf.
  repeat (apply elem_of_cons in Hs as [->|Hs]; [reflexivity|]). by apply elem_of_nil in Hs.
Qed.

(** ** Undos and redos *)

Lemma processBlocks_run cur objs blocks step rj idx p :
  exists evs, processBlocks_from recorder idx cur objs blocks step rj p = (Ok tt, push evs p) /\
    Forall2 (ev_is step (fun _ => ID (lib_sent p))) evs (fb_Block <$> blocks).
Proof.
  revert idx p. induction blocks as [|b blocks IH]; intros idx p.
  { exists []. by rewrite push_nil. }
  cbn [processBlocks_from]. rewrite bind_mget.
  erewrite bind_Ok by (unfold wrap_process; rewrite call_handler_run; reflexivity).
  edestruct IH as (evs & E & HF). rewrite E. eexists (_ :: evs). split.
  { by rewrite push_push. }
  constructor; [|exact HF]. by repeat split.
Qed.

(** ** New blocks *)

(** The pointer of a node and the block it points to. *)
Definition node_at p (nb : ForkBlock loc) (fb : ForkableBlock O) : Prop :=
  exists l, Object nb = Some l /\ heap p !! l = Some fb.

Definition mark (fb : ForkableBlock O) : ForkableBlock O :=
  mkForkableBlock (fb_Block fb) (fb_Obj fb) true.

Lemma read_fb_run p nb fb : node_at p nb fb -> read_fb (Object nb) p = (Ok fb, p).
Proof. intros (l & Hl & Hfb). unfold read_fb, fb_at. by rewrite Hl, Hfb. Qed.

Lemma processNewBlocks_skip head_ chain p :
  Forall (fun nb => exists fb, node_at p nb fb /\ sentAsNew fb = true) chain ->
  mfor chain (processNewBlock cfg recorder head_) p = (Ok tt, p).
Proof.
  induction 1 as [|nb chain (fb & Hn & Hs) _ IH]; [done|]. cbn [mfor].
  erewrite bind_Ok; [exact IH|]. unfold processNewBlock.
  erewrite bind_Ok by by apply read_fb_run. by rewrite Hs.
Qed.

(** Marking the locations [ls]. *)
Definition mark_all (ls : list loc) (h : gmap loc (ForkableBlock O)) :=
  foldl (fun h l => alter mark l h) h ls.

Lemma mark_all_lookup ls h l :
  mark_all ls h !! l = (if decide (l ∈ ls) then mark <$> h !! l else h !! l).
Proof.
  revert h. induction ls as [|k ls IH]; intros h; [done|]. cbn [mark_all foldl].
  unfold mark_all in IH. rewrite IH.
  destruct (decide (l = k)) as [->|Hne].
  - rewrite lookup_alter_eq. rewrite (decide_True (P := k ∈ k :: ls)) by left.
    case_decide; [|done]. by destruct (h !! k).
  - rewrite lookup_alter_ne by done. repeat case_decide; set_solver.
Qed.

Lemma processNewBlock_send nb fb l head_ p : plain ->
  Object nb = Some l -> heap p !! l = Some fb -> sentAsNew fb = false ->
  exists ev, ev_is StepNew (fun _ => ID (lib_sent p)) ev (fb_Block fb) /\
    processNewBlock cfg recorder head_ nb p =
      (Ok tt, set_lastBlockSent (Some (fb_Block fb)) (set_heap (alter mark l (heap p)) (push [ev] p))).
Proof.
  intros Hpl Ho Hl Hs. unfold processNewBlock.
  erewrite bind_Ok by (apply read_fb_run; exists l; done). rewrite Hs.
  rewrite matchFilter_plain by (done || set_solver).
  erewrite bind_Ok by (rewrite bind_mget; apply call_handler_run).
  rewrite bind_mmodify. unfold blockFlowed. destruct Hpl as [_ ->].
  rewrite bool_decide_true by done. rewrite Ho.
  erewrite bind_Ok.
  2: { unfold mark_sent. cbn [heap push set_hstate]. rewrite Hl. reflexivity. }
  eexists. split.
  2: { unfold mmodify. f_equal. f_equal. f_equal.
       apply map_eq. intros k. destruct (decide (k = l)) as [->|Hne].
       - by rewrite lookup_insert_eq, lookup_alter_eq, Hl.
       - by rewrite lookup_insert_ne, lookup_alter_ne. }
  done.
Qed.

Lemma processNewBlocks_send head_ chain fbs ls p : plain ->
  Forall3 (fun nb fb l => Object nb = Some l /\ heap p !! l = Some fb /\ sentAsNew fb = false)
    chain fbs ls ->
  NoDup ls ->
  exists evs, Forall2 (ev_is StepNew (fun _ => ID (lib_sent p))) evs (fb_Block <$> fbs) /\
    mfor chain (processNewBlock cfg recorder head_) p =
      (Ok tt, set_lastBlockSent
                (match last fbs with Some fb => Some (fb_Block fb) | None => lastBlockSent p end)
                (set_heap (mark_all ls (heap p)) (push evs p))).
Proof.
  intros Hpl. revert fbs ls p. induction chain as [|nb chain IH]; intros fbs ls p HF Hnd.
  { inversion HF; subst. exists []. split; [done|]. cbn. rewrite push_nil. by destruct p. }
  inversion HF as [|? fb l ? fbs' ls' (Ho & Hl & Hs) HF']; subst.
  apply NoDup_cons in Hnd as [Hnl Hnd].
  destruct (processNewBlock_send nb fb l head_ p Hpl Ho Hl Hs) as (ev & Hev & E).
  cbn [mfor]. erewrite bind_Ok by exact E.
  set (p1 := set_lastBlockSent _ _).
  destruct (IH fbs' ls' p1) as (evs & Hevs & E'); [|done|].
  { clear -HF' Hnl. induction HF' as [|nb' fb' l' c f ls (H1 & H2 & H3) HF IH]; constructor.
    - split; [done|]. split; [|done]. cbn. rewrite lookup_alter_ne; [done|]. set_solver.
    - apply IH. set_solver. }
  exists (ev :: evs). split; [by constructor|]. rewrite E'. f_equal.
  assert (Hlast : match last fbs' with Some fb => Some (fb_Block fb) | None => lastBlockSent p1 end =
            match last (fb :: fbs') with Some fb => Some (fb_Block fb) | None => lastBlockSent p end).
  { destruct fbs' as [|fb' fbs'']; [done|].
    change (last (fb :: fb' :: fbs'')) with (last (fb' :: fbs'')).
    destruct (last (fb' :: fbs'')) eqn:El; [done|]. by apply last_None in El. }
  rewrite Hlast. unfold p1, push, set_lastBlockSent, set_heap, set_hstate.
  cbn [heap hstate forkDB lastBlockSent lastLIBSeen ensureBlockFlowed mark_all foldl
    consecutiveUnlinkableBlocks unlinkableBlocksSince lastLongestChain].
  by rewrite (reverse_cons evs ev), <- app_assoc.
Qed.

(** ** Final and stalled blocks *)

Lemma read_all_run p chain fbs : Forall2 (node_at p) chain fbs ->
  read_all chain p = (Ok (preproc <$> fbs), p).
Proof.
  induction 1 as [|nb fb chain fbs Hn _ IH]; [done|]. cbn [read_all].
  erewrite bind_Ok by by apply read_fb_run. by erewrite bind_Ok by exact IH.
Qed.

Lemma node_at_push p evs chain fbs :
  Forall2 (node_at p) chain fbs -> Forall2 (node_at (push evs p)) chain fbs.
Proof. intros HF. by apply (Forall2_impl _ _ _ _ HF). Qed.

Lemma processIrreversible_run count grp hd chain fbs idx p : Forall2 (node_at p) chain fbs ->
  exists evs, processIrreversible_from recorder idx count grp chain hd p = (Ok tt, push evs p) /\
    Forall2 (ev_is StepIrreversible Id) evs (fb_Block <$> fbs).
Proof.
  revert fbs idx p. induction chain as [|nb chain IH]; intros fbs idx p HF;
    inversion HF as [|? fb ? fbs' Hn HF']; subst.
  { exists []. by rewrite push_nil. }
  cbn [processIrreversible_from]. erewrite bind_Ok by by apply read_fb_run.
  erewrite bind_Ok by apply call_handler_run.
  edestruct IH as (evs & E & Hevs); [by apply node_at_push|].
  rewrite E. eexists (_ :: evs). split; [by rewrite push_push|].
  constructor; [|exact Hevs]. by repeat split.
Qed.

Lemma processStalled_run count grp hd chain fbs idx p : Forall2 (node_at p) chain fbs ->
  exists evs, processStalled_from recorder idx count grp chain hd p = (Ok tt, push evs p) /\
    Forall2 (ev_is StepStalled (fun _ => ID (lastLIBSeen p))) evs (fb_Block <$> fbs).
Proof.
  revert fbs idx p. induction chain as [|nb chain IH]; intros fbs idx p HF;
    inversion HF as [|? fb ? fbs' Hn HF']; subst.
  { exists []. by rewrite push_nil. }
  cbn [processStalled_from]. erewrite bind_Ok by by apply read_fb_run. rewrite bind_mget.
  erewrite bind_Ok by apply call_handler_run.
  edestruct IH as (evs & E & Hevs); [by apply node_at_push|].
  rewrite E. eexists (_ :: evs). split; [by rewrite push_push|].
  constructor; [|exact Hevs]. by repeat split.
Qed.

Lemma processIrreversibleSegment_run hd chain fbs p : plain -> Forall2 (node_at p) chain fbs ->
  exists evs, processIrreversibleSegment cfg recorder chain hd p =
      (Ok tt, match last chain with
              | Some nb => set_lastLIBSeen (ForkBlock_AsRef nb) (push evs p)
              | None => push evs p
              end) /\
    Forall2 (ev_is StepIrreversible Id) evs (fb_Block <$> fbs).
Proof.
  intros Hpl HF. unfold processIrreversibleSegment.
  rewrite matchFilter_plain by (done || set_solver).
  edestruct processIrreversible_run as (evs & E & Hevs); [exact HF|].
  exists evs. split; [|exact Hevs].
  erewrite bind_Ok.
  2: { erewrite bind_Ok by (apply read_all_run; exact HF). exact E. }
  by destruct (last chain).
Qed.

Lemma processStalledSegment_run hd chain fbs p : plain -> Forall2 (node_at p) chain fbs ->
  exists evs, processStalledSegment cfg recorder chain hd p = (Ok tt, push evs p) /\
    Forall2 (ev_is StepStalled (fun _ => ID (lastLIBSeen p))) evs (fb_Block <$> fbs).
Proof.
  intros Hpl HF. unfold processStalledSegment.
  rewrite matchFilter_plain by (done || set_solver).
  edestruct processStalled_run as (evs & E & Hevs); [exact HF|].
  exists evs. split; [|exact Hevs].
  erewrite bind_Ok by (apply read_all_run; exact HF). exact E.
Qed.
End Run.

(** ** What a computation may send *)

Section Emits.
Context {O : Type} `{Protocol} (cfg : Config).
Notation Fk := (Forkable O (list (event O))).
Notation FM := (M Fk).

(** Whatever the outcome, the computation only adds events that satisfy [P]. *)
Definition emits {A} (P : event O -> Prop) (m : FM A) : Prop :=
  forall p, exists evs, hstate (m p).2 = evs ++ hstate p /\ Forall P evs.

Lemma emits_pure {A} P (m : FM A) : (forall p, hstate (m p).2 = hstate p) -> emits P m.
Proof. intros E p. exists []. by rewrite E. Qed.

Lemma emits_bind {A B} P (m : FM A) (k : A -> FM B) :
  emits P m -> (forall a, emits P (k a)) -> emits P (m ≫= k).
Proof.
  intros Hm Hk p. destruct (Hm p) as (e1 & E1 & H1). unfold mbind, M_bind.
  destruct (m p) as [[a|e|w|] p1]; cbn in *; try by exists e1.
  destruct (Hk a p1) as (e2 & E2 & H2). exists (e2 ++ e1).
  rewrite E2, E1, app_assoc. split; [done|]. by apply Forall_app.
Qed.

Lemma emits_mfor {A} P (l : list A) (body : A -> FM unit) :
  (forall a, emits P (body a)) -> emits P (mfor l body).
Proof.
  intros Hb. induction l as [|a l IH]; [by apply emits_pure|]. cbn [mfor].
  apply emits_bind; [done|]. by intros _.
Qed.

Lemma emits_call P b fo : P (b, IForkable fo) -> emits P (call_handler recorder b fo).
Proof. intros HP p. exists [(b, IForkable fo)]. split; [done|]. by repeat constructor. Qed.

Lemma emits_wrap {A} P (m : FM A) : emits P m -> emits P (wrap_process m).
Proof.
  intros Hm p. destruct (Hm p) as (e & E & HP). exists e. split; [|done].
  unfold wrap_process. destruct (m p) as [[a|er|w|] p1]; exact E.
Qed.

Lemma emits_read P o : emits P (read_fb (O := O) (HS := list (event O)) o).
Proof. by apply emits_pure. Qed.

Lemma emits_mark P l : emits P (mark_sent (O := O) (HS := list (event O)) l).
Proof. apply emits_pure. intros p. unfold mark_sent. by destruct (heap p !! l). Qed.

Lemma emits_blockFlowed P r : emits P (mmodify (S := Fk) (blockFlowed cfg r)).
Proof.
  apply emits_pure. intros p. unfold mmodify, blockFlowed. cbn.
  by repeat case_bool_decide; try done; destruct (ensureBlockFlowed p).
Qed.

Lemma emits_read_all P l : emits P (read_all (O := O) (HS := list (event O)) l).
Proof.
  induction l as [|b l IH]; [by apply emits_pure|]. cbn [read_all].
  apply emits_bind; [apply emits_read|]. intros fb. apply emits_bind; [exact IH|].
  intros rest. by apply emits_pure.
Qed.

(** Only steps of the filter are sent. *)
Definition in_filter (ev : event O) : Prop :=
  exists fo, ev.2 = IForkable fo /\ matchFilter cfg (fo_step fo) = true.
End Emits.

Section Filter.
Context {O : Type} `{Protocol} (cfg : Config).
Notation Fk := (Forkable O (list (event O))).

Lemma call_in_filter b fo : matchFilter cfg (fo_step fo) = true ->
  emits (O := O) (in_filter cfg) (call_handler recorder b fo).
Proof. intros Hm. apply emits_call. by exists fo. Qed.

Lemma processBlocks_filter idx cur objs blocks step rj : matchFilter cfg step = true ->
  emits (O := O) (in_filter cfg) (processBlocks_from recorder idx cur objs blocks step rj).
Proof.
  intros Hm. revert idx. induction blocks as [|b bs IH]; intros idx; [by apply emits_pure|].
  cbn [processBlocks_from]. apply emits_bind; [by apply emits_pure|]. intros p.
  apply emits_bind; [by apply emits_wrap, call_in_filter|]. intros _. apply IH.
Qed.

Lemma processNewBlocks_filter chain :
  emits (O := O) (in_filter cfg) (processNewBlocks cfg recorder chain).
Proof.
  unfold processNewBlocks. destruct (last chain); [|by apply emits_pure].
  apply emits_mfor. intros b. unfold processNewBlock.
  apply emits_bind; [apply emits_read|]. intros fb. destruct (sentAsNew fb); [by apply emits_pure|].
  apply emits_bind.
  - destruct (matchFilter cfg StepNew) eqn:E; [|by apply emits_pure].
    apply emits_bind; [by apply emits_pure|]. intros p. by apply call_in_filter.
  - intros _. apply emits_bind; [apply emits_blockFlowed|]. intros _.
    apply emits_bind; [|intros _; by apply emits_pure].
    destruct (Object b); [apply emits_mark|by apply emits_pure].
Qed.

Lemma processIrreversible_filter chain hd :
  emits (O := O) (in_filter cfg) (processIrreversibleSegment cfg recorder chain hd).
Proof.
  unfold processIrreversibleSegment. apply emits_bind.
  - destruct (matchFilter cfg StepIrreversible) eqn:E; [|by apply emits_pure].
    apply emits_bind; [apply emits_read_all|]. intros grp. generalize 0 at 1.
    generalize (Z.of_nat (length chain)). intros n. revert n.
    induction chain as [|b bs IH]; intros n idx; [by apply emits_pure|].
    cbn [processIrreversible_from]. apply emits_bind; [apply emits_read|]. intros fb.
    apply emits_bind; [by apply call_in_filter|]. intros _. apply IH.
  - intros _. destruct (last chain); by apply emits_pure.
Qed.

Lemma processStalled_filter chain hd :
  emits (O := O) (in_filter cfg) (processStalledSegment cfg recorder chain hd).
Proof.
  unfold processStalledSegment. destruct (matchFilter cfg StepStalled) eqn:E; [|by apply emits_pure].
  apply emits_bind; [apply emits_read_all|]. intros grp. generalize 0 at 1.
  generalize (Z.of_nat (length chain)). intros n. revert n.
  induction chain as [|b bs IH]; intros n idx; [by apply emits_pure|].
  cbn [processStalled_from]. apply emits_bind; [apply emits_read|]. intros fb.
  apply emits_bind; [by apply emits_pure|]. intros p.
  apply emits_bind; [by apply call_in_filter|]. intros _. apply IH.
Qed.

Lemma initial_filter b o s :
  emits (O := O) (in_filter cfg) (processInitialInclusiveIrreversibleBlock cfg recorder b o s).
Proof.
  unfold processInitialInclusiveIrreversibleBlock. apply emits_bind; [by apply emits_pure|].
  intros l. apply emits_bind; [|intros _; apply processIrreversible_filter].
  destruct s; [apply processNewBlocks_filter|by apply emits_pure].
Qed.

Lemma advanceLIB_filter b first :
  emits (O := O) (in_filter cfg) (advanceLIB cfg recorder b first).
Proof.
  unfold advanceLIB. apply emits_bind; [by apply emits_pure|]. intros p.
  destruct (lastBlockSent p); [|by apply emits_pure].
  destruct (negb _); [by apply emits_pure|]. cbv zeta.
  apply emits_bind; [by apply emits_pure|]. intros r. case_decide; [by apply emits_pure|].
  apply emits_bind; [by apply emits_pure|]. intros [[hasNew seg] st].
  destruct (_ && _); [by apply emits_pure|]. apply emits_bind; [by apply emits_pure|]. intros _.
  apply emits_bind; [by apply emits_pure|]. intros _.
  apply emits_bind; [apply processIrreversible_filter|]. intros _. apply processStalled_filter.
Qed.

Lemma continue_filter now later b l first triggers undos redos rj :
  emits (O := O) (in_filter cfg)
    (longestChain ← computeNewLongestChain cfg l b;
     _ ← checkUnlinkable cfg now later longestChain;
     match longestChain with
     | Some ((_ :: _) as chain) =>
         if negb triggers then mret tt
         else _ ← sendChain cfg recorder b undos redos rj chain; advanceLIB cfg recorder b first
     | _ => mret tt
     end).
Proof.
  apply emits_bind.
  { apply emits_bind; [by apply emits_pure|]. intros p. cbv zeta.
    apply emits_bind; [|intros ch; by apply emits_pure].
    destruct (match lastLongestChain p with Some _ => _ | None => _ end); [by apply emits_pure|].
    apply emits_bind; [by apply emits_pure|]. intros []. by apply emits_pure. }
  intros ch. apply emits_bind.
  { unfold checkUnlinkable. destruct (_ || _); [|by apply emits_pure].
    apply emits_bind; [by apply emits_pure|]. intros p.
    destruct (_ && HasLIB _); [|by apply emits_pure]. cbv zeta.
    apply emits_bind; [by apply emits_pure|]. intros _. destruct (_ && _); by apply emits_pure. }
  intros _. destruct ch as [[|nb c]|]; [by apply emits_pure| |by apply emits_pure].
  destruct (negb triggers); [by apply emits_pure|].
  apply emits_bind; [|intros _; apply advanceLIB_filter]. unfold sendChain.
  apply emits_bind; [destruct (matchFilter cfg StepUndo) eqn:E; [by apply processBlocks_filter|by apply emits_pure]|].
  intros _.
  apply emits_bind; [destruct (matchFilter cfg StepNew) eqn:E; [by apply processBlocks_filter|by apply emits_pure]|].
  intros _. apply processNewBlocks_filter.
Qed.

Lemma ProcessBlock_emits now later b o :
  emits (O := O) (in_filter cfg) (ProcessBlock cfg recorder now later b o).
Proof.
  unfold ProcessBlock. case_decide; [by apply emits_pure|].
  apply emits_bind; [by apply emits_pure|]. intros p. destruct (_ && bool_decide _); [by apply emits_pure|].
  cbv zeta. destruct (_ && bool_decide (Id b = _)); [apply initial_filter|].
  apply emits_bind; [by apply emits_pure|]. intros l. apply emits_bind.
  { destruct (lastBlockSent p); [|by apply emits_pure]. destruct (_ && _); by apply emits_pure. }
  intros [[undos redos] rj]. apply emits_bind; [by apply emits_pure|]. intros p'.
  destruct (AddLink _ _ _ _) as [[ex ?] db]. apply emits_bind; [by apply emits_pure|]. intros _.
  destruct ex; [by apply emits_pure|]. unfold afterAddLink. cbv zeta.
  apply emits_bind; [by apply emits_pure|]. intros p2.
  destruct (HasLIB _); [apply continue_filter|].
  apply emits_bind; [by apply emits_pure|]. intros db2. apply emits_bind; [by apply emits_pure|]. intros _.
  destruct (HasLIB db2).
  - destruct (_ =? _); [apply initial_filter|apply continue_filter].
  - destruct (holdBlocksUntilLIB cfg); [by apply emits_pure|apply continue_filter].
Qed.
End Filter.
