(* ===== verification/ForkableInv.v ===== *)
(** * The invariant of the forkable

    [unum] numbers the blocks of the chain: the only assumption on the input is
    that a block ID always comes with the same number, above its parent's
    ([good]).  [Inv] relates the state of the forkable to the view of a consumer
    that replayed its events. *)

From S2P Require Import Prelude Loops GoStrings Types ForkDB ForkDBFacts Forkable Consumer ForkableFacts.

Section Inv.
Context {O : Type} `{Protocol} (unum : string -> Z) (unum_pos : forall x, 0 <= unum x).

Notation Fk := (Forkable O (list (event O))).
Notation Heap := (gmap loc (ForkableBlock O)).
Implicit Types (p : Fk) (hp : Heap) (db : ForkDB loc).

Record good (b : Block) : Prop := {
  g_id : Id b <> "";
  g_parent : ParentId b <> "";
  g_num : Number b = unum (Id b);
  g_dec : unum (ParentId b) < unum (Id b);
  g_lib : 0 <= LibNum b <= Number b;
}.

(** The block a linked ID stands for, and whether it was sent. *)
Definition fb_of hp db (x : string) (fb : ForkableBlock O) : Prop :=
  exists l, object db x = Some l /\ hp !! l = Some fb.

Definition sent hp db (x : string) : Prop := exists fb, fb_of hp db x fb /\ sentAsNew fb = true.

Record db_ok hp db : Prop := {
  d_link : forall x y, links db !! x = Some y -> exists fb, fb_of hp db x fb /\
    good (fb_Block fb) /\ Id (fb_Block fb) = x /\ ParentId (fb_Block fb) = y;
  d_num : forall x n, nums db !! x = Some n -> n = unum x /\ x <> "";
  d_numd : forall x y, links db !! x = Some y -> is_Some (nums db !! x);
  d_lib : LIBID db <> "" /\ 0 <= LIBNum db <= unum (LIBID db);
}.

(** A memoized longest chain that starts on the LIB is a path of the database. *)
Definition node_of db (nb : ForkBlock loc) (x : string) : Prop :=
  BlockID nb = x /\ Object nb = object db x /\ PreviousBlockID nb = link db x.

Definition chain_at db (x : string) (l : list string) (chain : list (ForkBlock loc)) : Prop :=
  path db x l (LIBID db) /\ Forall2 (node_of db) chain (reverse l).

Definition memo_ok db (memo : option (list (ForkBlock loc))) : Prop :=
  match memo with
  | Some ((b0 :: _) as chain) =>
      PreviousBlockID b0 = LIBID db -> exists x l, chain_at db x l chain
  | _ => True
  end.

Record Inv (v0 : View) (pending : list string) p : Prop := {
  I_db : db_ok (heap p) (forkDB p);
  I_closed : forall x y, links (forkDB p) !! x = Some y -> sent (heap p) (forkDB p) x ->
    (is_Some (links (forkDB p) !! y) /\ sent (heap p) (forkDB p) y) \/
    y = LIBID (forkDB p) \/ unum y < LIBNum (forkDB p);
  I_last :
    match lastBlockSent p with
    | None => pending = [] /\
        forall x y, links (forkDB p) !! x = Some y -> ~ sent (heap p) (forkDB p) x
    | Some lst => path (forkDB p) (Id lst) pending (LIBID (forkDB p)) /\
        Forall (sent (heap p) (forkDB p)) pending
    end;
  I_memo : memo_ok (forkDB p) (lastLongestChain p);
  I_seen : ID (lastLIBSeen p) = LIBID (forkDB p);
  I_view : consume v0 (reverse (hstate p)) = Some (mkView (LIBID (forkDB p)) pending);
}.

(** ** Facts about a sound database *)

Lemma fb_of_fun hp db x a b : fb_of hp db x a -> fb_of hp db x b -> a = b.
Proof. intros (l & H1 & H2) (k & H3 & H4). simplify_eq. done. Qed.

Lemma db_link_dec hp db x y : db_ok hp db -> links db !! x = Some y ->
  unum y < unum x /\ x <> "" /\ y <> "".
Proof.
  intros Hd Hx. destruct (d_link _ _ Hd _ _ Hx) as (fb & _ & [] & <- & <-). done.
Qed.

Lemma db_path_dec hp db x l y : db_ok hp db -> path db x l y -> l <> [] -> unum y < unum x.
Proof.
  intros Hd. induction 1 as [x|x q l y Hx Hp IH]; intros Hl; [done|].
  destruct (db_link_dec _ _ _ _ Hd Hx) as [Hlt _].
  destruct l as [|a l]; [by inversion Hp; subst|]. specialize (IH ltac:(done)). lia.
Qed.

Lemma db_path_le hp db x l y : db_ok hp db -> path db x l y -> unum y <= unum x.
Proof.
  intros Hd Hp. destruct l as [|a l]; [inversion Hp; lia|].
  pose proof (db_path_dec _ _ _ _ _ Hd Hp ltac:(done)). lia.
Qed.

Lemma db_path_elem hp db x l y a : db_ok hp db -> path db x l y -> a ∈ l -> unum y < unum a.
Proof.
  intros Hd Hp Ha. destruct (path_split _ _ _ _ _ Hp Ha) as (l1 & l2 & -> & _ & H2).
  by eapply db_path_dec.
Qed.

Lemma db_path_unique hp db x l k y : db_ok hp db -> path db x l y -> path db x k y -> l = k.
Proof.
  intros Hd H1 H2. destruct (path_compare _ _ _ _ _ _ H1 H2) as [(r & -> & Hr)|(r & -> & Hr)];
    (destruct r as [|a r]; [by rewrite app_nil_r|]);
    pose proof (db_path_dec _ _ _ _ _ Hd Hr ltac:(done)); lia.
Qed.

Lemma db_path_NoDup hp db x l y : db_ok hp db -> path db x l y -> NoDup l.
Proof.
  intros Hd. induction 1 as [x|x q l y Hx Hp IH]; constructor; [|done].
  intros Hin. destruct (path_split _ _ _ _ _ Hp Hin) as (l1 & l2 & _ & H1 & _).
  pose proof (db_path_le _ _ _ _ _ Hd H1). destruct (db_link_dec _ _ _ _ Hd Hx). lia.
Qed.

Lemma db_links_empty hp db : db_ok hp db -> links db !! "" = None.
Proof.
  intros Hd. apply eq_None_not_Some. intros [y Hy]. by destruct (db_link_dec _ _ _ _ Hd Hy) as (_ & ? & _).
Qed.

Lemma db_heights hp db : db_ok hp db -> heights db.
Proof.
  intros Hd. split.
  - intros x q n m Hx Hn Hm. apply (d_num _ _ Hd) in Hn as [-> _], Hm as [-> _].
    by apply (db_link_dec _ _ _ _ Hd).
  - intros x n Hn. apply (d_num _ _ Hd) in Hn as [-> _]. apply unum_pos.
  - apply eq_None_not_Some. intros [n Hn]. by apply (d_num _ _ Hd) in Hn as [_ ?].
Qed.

Lemma db_num hp db x y : db_ok hp db -> links db !! x = Some y -> num db x = unum x.
Proof.
  intros Hd Hx. destruct (d_numd _ _ Hd _ _ Hx) as [n Hn]. unfold num. rewrite Hn. cbn.
  by destruct (d_num _ _ Hd _ _ Hn).
Qed.

Lemma db_wf hp db : db_ok hp db -> wf (mkForkDB (links db) (nums db) (∅ : gmap string (option loc)) (libRef db)).
Proof.
  intros Hd. split; cbn.
  - by eapply db_links_empty.
  - intros x Hx. destruct (db_link_dec _ _ _ _ Hd Hx). lia.
  - by apply (d_numd _ _ Hd).
  - intros x o Hx. by rewrite lookup_empty in Hx.
Qed.

Lemma db_rooted hp db x : db_ok hp db -> exists l y, rooted db x l y.
Proof.
  intros Hd. apply heights_rooted; [by eapply db_heights|]. intros a b. apply (d_numd _ _ Hd).
Qed.

Lemma HasLIB_ok hp db : db_ok hp db -> HasLIB db = true.
Proof.
  intros Hd. unfold HasLIB, EqualsBlockRefs. cbn.
  rewrite (bool_decide_false (ID (libRef db) = "")) by apply (d_lib _ _ Hd).
  by rewrite andb_false_r.
Qed.

(** The nodes of a segment of the database. *)
Lemma seg_nodes_of db n l x y : path db x l y -> Forall2 (node_of db) (seg_nodes db n l) l.
Proof.
  intros Hp. revert n. induction Hp as [x|x q l y Hx Hp IH]; intros n; constructor; [|apply IH].
  done.
Qed.

Lemma Forall2_reverse {A B} (P : A -> B -> Prop) l k :
  Forall2 P l k -> Forall2 P (reverse l) (reverse k).
Proof.
  induction 1 as [|a b l k Hab _ IH]; [constructor|]. rewrite !reverse_cons.
  by apply Forall2_app; [|repeat constructor].
Qed.

(** The blocks of a run of linked IDs. *)
Definition blk_of hp db (x : string) (fb : ForkableBlock O) : Prop :=
  fb_of hp db x fb /\ Id (fb_Block fb) = x /\ links db !! x = Some (ParentId (fb_Block fb)).

Lemma linked_block hp db x y : db_ok hp db -> links db !! x = Some y -> exists fb, blk_of hp db x fb.
Proof.
  intros Hd Hx. destruct (d_link _ _ Hd _ _ Hx) as (fb & Hfb & _ & Hid & Hp).
  exists fb. split; [done|]. split; [done|]. by rewrite Hp.
Qed.

Lemma path_blocks hp db x l y : db_ok hp db -> path db x l y ->
  exists fbs, Forall2 (blk_of hp db) l fbs.
Proof.
  intros Hd. induction 1 as [x|x q l y Hx Hp (fbs & IH)]; [by exists []|].
  destruct (linked_block _ _ _ _ Hd Hx) as [fb Hfb]. exists (fb :: fbs). by constructor.
Qed.

Lemma blk_ids hp db l fbs : Forall2 (blk_of hp db) l fbs -> Id <$> (fb_Block <$> fbs) = l.
Proof. induction 1 as [|x fb l fbs (_ & Hid & _) _ IH]; [done|]. cbn. by rewrite Hid, IH. Qed.

Lemma chained_snoc top bs b :
  chained top bs -> ParentId b = default top (last (Id <$> bs)) -> chained top (bs ++ [b]).
Proof.
  revert top. induction bs as [|c bs IH]; intros top Hc Hp; [done|].
  destruct Hc as [Hc Hc']. split; [done|]. apply IH; [done|]. rewrite Hp.
  destruct bs as [|d bs]; [done|]. cbn [fmap list_fmap].
  change (last (Id c :: Id d :: (Id <$> bs))) with (last (Id d :: (Id <$> bs))).
  by destruct (last (Id d :: (Id <$> bs))) eqn:E; [|apply last_None in E].
Qed.

Lemma path_head_default db x l y : path db x l y -> default y (head l) = x.
Proof. by inversion 1. Qed.

(** Read from the oldest block, the blocks of a path are a chain on its end. *)
Lemma path_chained hp db x l y fbs : path db x l y -> Forall2 (blk_of hp db) l fbs ->
  chained y (fb_Block <$> reverse fbs).
Proof.
  intros Hp. revert fbs. induction Hp as [x|x q l y Hx Hp IH]; intros fbs HF;
    inversion HF as [|? fb ? fbs' Hfb HF']; subst; [done|].
  rewrite reverse_cons, fmap_app. apply chained_snoc; [by apply IH|].
  destruct Hfb as (_ & _ & Hl). rewrite !fmap_reverse, last_reverse, (blk_ids _ _ _ _ HF').
  rewrite (path_head_default _ _ _ _ Hp). congruence.
Qed.

Lemma nodes_at p l chain fbs :
  Forall2 (node_of (forkDB p)) chain l -> Forall2 (blk_of (heap p) (forkDB p)) l fbs ->
  Forall2 (node_at p) chain fbs.
Proof.
  intros HF. revert fbs. induction HF as [|nb x chain l (_ & Ho & _) _ IH]; intros fbs HB;
    inversion HB as [|? fb ? fbs' ((k & H1 & H2) & _) HB']; subst; constructor; [|by apply IH].
  exists k. by rewrite Ho.
Qed.

#[export] Instance sent_dec hp db x : Decision (sent hp db x).
Proof.
  destruct (object db x) as [l|] eqn:E1.
  2: { right. intros (fb & (l & H1 & _) & _). congruence. }
  destruct (hp !! l) as [fb|] eqn:E2.
  2: { right. intros (fb & (k & H1 & H2) & _). congruence. }
  destruct (sentAsNew fb) eqn:E3; [left; by exists fb; split; [exists l|]|].
  right. intros (fb' & (k & H1 & H2) & H3). congruence.
Defined.
End Inv.
