(* ===== verification/ForkableStep.v ===== *)
(** * [ProcessBlock] keeps the invariant

    One lemma per phase of [ProcessBlock] under the invariant of
    [ForkableInv.v]: the segments of a chain switch, the insertion in the
    database, the longest chain, the sending, the move of the LIB. *)

From S2P Require Import Prelude Loops GoStrings Types ForkDB ForkDBFacts Forkable Consumer ForkableFacts.
From S2P Require Import ForkableInv.

Section Step.
Context {O : Type} `{Protocol} (unum : string -> Z) (unum_pos : forall x, 0 <= unum x).

Notation Fk := (Forkable O (list (event O))).
Notation Heap := (gmap loc (ForkableBlock O)).
Implicit Types (p : Fk) (hp : Heap) (db : ForkDB loc).

Notation db_ok := (db_ok unum).
Notation Inv := (Inv unum).
Notation good := (good unum).

(** ** Chain switches *)

Lemma switch_junction hp db old new undo redo j q k :
  db_ok hp db -> old <> "" ->
  path db old q (LIBID db) -> path db new k (LIBID db) ->
  ChainSwitchSegments db old new = Ok (undo, redo, j) ->
  exists r, q = undo ++ r /\ k = reverse redo ++ r.
Proof.
  intros Hd Hold Hq Hk E.
  destruct (ChainSwitchSegments_cases db old new undo redo j
    (db_links_empty _ _ _ Hd) Hold E) as [(Hj & Hu & Hr & Hno)|(_ & _ & _ & Hno)].
  2: { exfalso. apply (Hno (LIBID db)); [apply (d_lib _ _ _ Hd)|by exists q|by exists k]. }
  assert (Hflat : forall r r', path db (LIBID db) r j -> path db j r' (LIBID db) -> r = [] /\ r' = []).
  { intros r r' H1 H2. destruct r as [|a r], r' as [|b r']; try done; exfalso;
      [inversion H1; subst|inversion H2; subst|];
      try pose proof (db_path_dec _ _ _ _ _ _ Hd H1 ltac:(done));
      try pose proof (db_path_dec _ _ _ _ _ _ Hd H2 ltac:(done));
      try pose proof (db_path_le _ _ _ _ _ _ Hd H1);
      try pose proof (db_path_le _ _ _ _ _ _ Hd H2); lia. }
  assert (Hin : forall r', reverse redo = k ++ r' -> path db (LIBID db) r' j -> r' = []).
  { intros [|a r'] Er Hp; [done|]. exfalso.
    pose proof (path_head _ _ _ _ _ Hp) as ->. apply (Hno (LIBID db)).
    - rewrite <- elem_of_reverse, Er. set_solver.
    - apply (d_lib _ _ _ Hd).
    - by exists q. }
  destruct (path_compare _ _ _ _ _ _ Hq Hu) as [(r & -> & Hr1)|(r & -> & Hr1)];
    destruct (path_compare _ _ _ _ _ _ Hk Hr) as [(r' & Er & Hr2)|(r' & -> & Hr2)].
  - assert (r = r') as <- by (by eapply db_path_unique). pose proof (Hin r Er Hr1) as ->.
    exists []. by rewrite Er, !app_nil_r.
  - destruct (Hflat r r' Hr1 Hr2) as [-> ->]. exists []. rewrite !app_nil_r. done.
  - destruct (Hflat r' r Hr2 Hr1) as [-> ->]. exists []. by rewrite Er, !app_nil_r.
  - assert (r = r') as <- by (by eapply db_path_unique). by exists r.
Qed.

Lemma sentChainSegment_undo p ids fbs :
  Forall2 (blk_of (heap p) (forkDB p)) ids fbs -> sentChainSegment p ids false = Ok fbs.
Proof.
  induction 1 as [|x fb ids fbs ((l & Ho & Hl) & _ & Hx) _ IH]; [done|].
  cbn [sentChainSegment]. unfold BlockForID. rewrite Hx. cbn [node Object].
  unfold fb_at. rewrite Ho, Hl. cbn. by rewrite IH.
Qed.

(** The blocks to redo are those already sent. *)
Lemma sentChainSegment_redo p ids fbs :
  Forall2 (blk_of (heap p) (forkDB p)) ids fbs ->
  sentChainSegment p ids true = Ok (filter (fun fb => sentAsNew fb = true) fbs).
Proof.
  induction 1 as [|x fb ids fbs ((l & Ho & Hl) & _ & Hx) _ IH]; [done|].
  cbn [sentChainSegment]. unfold BlockForID. rewrite Hx. cbn [node Object].
  unfold fb_at. rewrite Ho, Hl. cbn [mbind outcome_bind]. rewrite IH, filter_cons.
  cbn [mbind outcome_bind]. by destruct (sentAsNew fb).
Qed.

Lemma blk_sent hp db x fb : blk_of hp db x fb -> sent hp db x <-> sentAsNew fb = true.
Proof.
  intros (Hfb & _). split; [|intros Hs; by exists fb].
  intros (fb' & Hfb' & Hs). by rewrite (fb_of_fun _ _ _ _ _ Hfb Hfb').
Qed.

(** On a path to the LIB the blocks already sent come last. *)
Lemma sent_split v0 pending p x l : Inv v0 pending p ->
  path (forkDB p) x l (LIBID (forkDB p)) ->
  exists ru rs, l = ru ++ rs /\ Forall (sent (heap p) (forkDB p)) rs /\
    Forall (fun x => ~ sent (heap p) (forkDB p) x) ru.
Proof.
  intros HI. pose proof (I_db _ _ _ _ HI) as Hd. remember (LIBID (forkDB p)) as L eqn:EL.
  intros Hp. induction Hp as [x|x q l y Hx Hp IH]; [by exists [], []|].
  destruct (IH EL) as (ru & rs & -> & Hs & Hu).
  destruct (decide (sent (heap p) (forkDB p) x)) as [Hsx|Hsx].
  2: { exists (x :: ru), rs. split; [done|]. split; [done|by constructor]. }
  destruct ru as [|a ru].
  { exists [], (x :: rs). split; [done|]. split; [by constructor|constructor]. }
  exfalso. pose proof (path_head _ _ _ _ _ Hp) as ->.
  pose proof (db_path_dec _ _ _ _ _ _ Hd Hp ltac:(done)) as Hlt.
  pose proof (d_lib _ _ _ Hd) as (_ & Hl). apply Forall_cons in Hu as [Hq _].
  destruct (I_closed _ _ _ _ HI _ _ Hx Hsx) as [[_ Hs']|[->|Hlow]]; subst; [done|lia|lia].
Qed.

(** What is undone and redone when the parent [par] of a new head reaches the
    LIB. *)
Definition switch_spec p (pending : list string) (par : string)
  (undos redos : list (ForkableBlock O)) : Prop :=
  forall k, path (forkDB p) par k (LIBID (forkDB p)) ->
  exists un r rs ru, pending = un ++ r /\ k = ru ++ rs ++ r /\
    Forall2 (blk_of (heap p) (forkDB p)) un undos /\
    Forall2 (blk_of (heap p) (forkDB p)) (reverse rs) redos /\
    Forall (sent (heap p) (forkDB p)) (rs ++ r) /\
    Forall (fun x => ~ sent (heap p) (forkDB p) x) ru.

Lemma filter_sent_split hp db a b fbs :
  Forall2 (blk_of hp db) (a ++ b) fbs -> Forall (sent hp db) a -> Forall (fun x => ~ sent hp db x) b ->
  Forall2 (blk_of hp db) a (filter (fun fb => sentAsNew fb = true) fbs).
Proof.
  intros HF Ha Hb. apply Forall2_app_inv_l in HF as (fa & fb & H1 & H2 & ->).
  rewrite filter_app.
  assert (Ea : filter (fun fb => sentAsNew fb = true) fa = fa).
  { clear -H1 Ha. induction H1 as [|x f a fa Hx _ IH]; [done|].
    apply Forall_cons in Ha as [Hs Ha]. rewrite filter_cons, decide_True by by eapply blk_sent.
    by rewrite IH. }
  assert (Eb : filter (fun fb => sentAsNew fb = true) fb = []).
  { clear -H2 Hb. induction H2 as [|x f b fb Hx _ IH]; [done|].
    apply Forall_cons in Hb as [Hs Hb]. rewrite filter_cons, decide_False; [by apply IH|].
    intros E. apply Hs. by eapply blk_sent. }
  by rewrite Ea, Eb, app_nil_r.
Qed.

Lemma switch_run v0 pending p lst par :
  Inv v0 pending p -> lastBlockSent p = Some lst ->
  exists undos redos rj, sentChainSwitchSegments p (Id lst) par = Ok (undos, redos, rj) /\
    switch_spec p pending par undos redos.
Proof.
  intros HI Hlst. pose proof (I_db _ _ _ _ HI) as Hd.
  pose proof (I_last _ _ _ _ HI) as Hlast. rewrite Hlst in Hlast. destruct Hlast as [Hpath Hsent].
  assert (Hid : Id lst <> "").
  { destruct pending as [|a pending].
    - assert (Id lst = LIBID (forkDB p)) as -> by by inversion Hpath. apply (d_lib _ _ _ Hd).
    - apply path_cons_head in Hpath as (_ & q & Hq & _). apply (db_link_dec _ _ _ _ _ Hd Hq). }
  unfold sentChainSwitchSegments. destruct (decide (Id lst = par)) as [<-|Hne].
  { exists [], [], None. split; [done|]. intros k Hk.
    assert (k = pending) as -> by (by eapply db_path_unique).
    exists [], pending, [], []. rewrite reverse_nil. repeat split; try constructor. done. }
  destruct (db_rooted unum unum_pos _ _ (Id lst) Hd) as (l1 & y1 & H1).
  destruct (db_rooted unum unum_pos _ _ par Hd) as (l2 & y2 & H2).
  destruct (ChainSwitchSegments_Ok _ _ _ _ _ _ _ H1 H2) as [[[undo redo] j] E].
  rewrite E. cbn [mbind outcome_bind].
  assert (exists ub rb, Forall2 (blk_of (heap p) (forkDB p)) undo ub /\
    Forall2 (blk_of (heap p) (forkDB p)) redo rb) as (ub & rb & Hub & Hrb).
  { destruct (ChainSwitchSegments_cases _ _ _ _ _ _ (db_links_empty _ _ _ Hd) Hid E)
      as [(_ & Hu & Hr & _)|(-> & -> & _)]; [|by exists [], []].
    destruct (path_blocks _ _ _ _ _ _ Hd Hu) as [ub Hub].
    destruct (path_blocks _ _ _ _ _ _ Hd Hr) as [rb Hrb].
    exists ub, (reverse rb). split; [done|]. rewrite <- (reverse_involutive redo).
    by apply Forall2_reverse. }
  rewrite (sentChainSegment_undo p undo ub Hub). cbn [mbind outcome_bind].
  rewrite (sentChainSegment_redo p redo rb Hrb). cbn [mbind outcome_bind].
  do 3 eexists. split; [done|]. intros k Hk.
  destruct (switch_junction _ _ _ _ _ _ _ _ _ Hd Hid Hpath Hk E) as (r & -> & ->).
  apply path_app_inv in Hpath as Hpr. destruct Hpr as (z & _ & Hzr).
  destruct (sent_split _ _ _ _ _ HI Hk) as (ru & rs & Ek & Hrs & Hru).
  apply Forall_app in Hsent as [_ Hsr].
  assert (exists rs', rs = rs' ++ r /\ reverse redo = ru ++ rs') as (rs' & -> & Er).
  { apply app_eq_inv in Ek as [(m & E1 & E2)|(m & E1 & E2)].
    - exists m. by rewrite E1.
    - destruct m as [|a m]; [exists []; by rewrite E1, !app_nil_r|].
      exfalso. subst ru r. apply Forall_app in Hru as [_ Hru].
      apply Forall_cons in Hru as [Hn _]. by apply Forall_cons in Hsr as [? _]. }
  exists undo, r, rs', ru. rewrite Er. split; [done|]. split; [by rewrite app_assoc|].
  split; [done|]. split; [|done].
  rewrite <- (reverse_involutive redo), Er, reverse_app in Hrb.
  eapply filter_sent_split; [exact Hrb| |].
  - apply Forall_reverse. by apply Forall_app in Hrs as [? _].
  - by apply Forall_reverse.
Qed.

(** ** Insertion *)

Lemma Forall2_impl_r {A B} (P Q : A -> B -> Prop) l k :
  Forall2 P l k -> (forall a b, b ∈ k -> P a b -> Q a b) -> Forall2 Q l k.
Proof.
  induction 1 as [|a b l k Hab _ IH]; intros Hi; constructor; [apply Hi; [left|done]|].
  apply IH. intros a' b' Hb. apply Hi. by right.
Qed.

Lemma heap_sub_fb hp hp' db x y fb : db_ok hp db -> hp ⊆ hp' -> links db !! x = Some y ->
  fb_of hp' db x fb <-> fb_of hp db x fb.
Proof.
  intros Hd Hsub Hx. destruct (d_link _ _ _ Hd _ _ Hx) as (fb' & (l & Ho & Hl) & _).
  assert (Hl' : hp' !! l = Some fb') by by eapply lookup_weaken.
  split; intros (k & Ho' & Hk); simplify_eq; exists l; done.
Qed.

Lemma heap_sub_sent hp hp' db x y : db_ok hp db -> hp ⊆ hp' -> links db !! x = Some y ->
  sent hp' db x <-> sent hp db x.
Proof.
  intros Hd Hsub Hx. split; intros (fb & Hfb & Hs); exists fb; (split; [|done]);
    by apply (heap_sub_fb _ _ _ _ _ _ Hd Hsub Hx).
Qed.

Lemma db_ok_sub hp hp' db : db_ok hp db -> hp ⊆ hp' -> db_ok hp' db.
Proof.
  intros Hd Hsub. split; [|apply Hd..]. intros x y Hx.
  destruct (d_link _ _ _ Hd _ _ Hx) as (fb & Hfb & Hr). exists fb. split; [|done].
  by apply (heap_sub_fb _ _ _ _ _ _ Hd Hsub Hx).
Qed.

Lemma path_linked db x l y a : path db x l y -> a ∈ l -> exists b, links db !! a = Some b.
Proof. intros Hp Ha. by destruct (path_dom _ _ _ _ _ Hp Ha) as [b Hb]; exists b. Qed.

Lemma Inv_heap v0 pending p hp : Inv v0 pending p -> heap p ⊆ hp ->
  Inv v0 pending (set_heap hp p).
Proof.
  intros HI Hsub. pose proof (I_db _ _ _ _ HI) as Hd. split; cbn; try apply HI.
  - by eapply db_ok_sub.
  - intros x y Hx Hs. apply (heap_sub_sent _ _ _ _ _ Hd Hsub Hx) in Hs.
    destruct (I_closed _ _ _ _ HI _ _ Hx Hs) as [[[z Hz] Hs']|?]; [left|by right].
    split; [by exists z|]. by apply (heap_sub_sent _ _ _ _ _ Hd Hsub Hz).
  - pose proof (I_last _ _ _ _ HI) as Hlast. destruct (lastBlockSent p) as [lst|].
    + destruct Hlast as [Hp HF]. split; [done|]. apply Forall_forall. intros x Hx.
      destruct (path_linked _ _ _ _ _ Hp Hx) as [y Hy].
      rewrite Forall_forall in HF. by apply (heap_sub_sent _ _ _ _ _ Hd Hsub Hy), HF.
    + destruct Hlast as [-> Hn]. split; [done|]. intros x y Hx Hs.
      by apply (Hn _ _ Hx), (heap_sub_sent _ _ _ _ _ Hd Hsub Hx).
Qed.

(** The database after a new block [b], held at [l], is added. *)
Section Add.
Context (hp : Heap) (db : ForkDB loc) (b : Block) (o : option O) (l : loc).
Hypothesis Hd : db_ok hp db.
Hypothesis Hb : good b.
Hypothesis Hl : hp !! l = Some (mkForkableBlock b o false).
Hypothesis Hnew : links db !! Id b = None.

Definition added : ForkDB loc := AddLink_db db (AsRef (Some b)) (ParentId b) (Some l).

Lemma added_new : addlink_new db (AsRef (Some b)) (ParentId b).
Proof.
  split; [|split].
  - cbn. pose proof (g_dec _ _ Hb). intros E. rewrite <- E in *. lia.
  - apply (g_id _ _ Hb).
  - by apply link_None.
Qed.

Lemma added_eq : added = mkForkDB (<[Id b := ParentId b]> (links db))
  (<[Id b := Number b]> (nums db)) (<[Id b := Some l]> (objects db)) (libRef db).
Proof. unfold added, AddLink_db. by rewrite (AddLink_added _ _ _ _ added_new). Qed.

Lemma added_links x y : links added !! x = Some y <->
  (x = Id b /\ y = ParentId b) \/ (links db !! x = Some y).
Proof.
  rewrite added_eq. cbn. destruct (decide (x = Id b)) as [->|Hne].
  - rewrite lookup_insert_eq, Hnew. split; [intros [= <-]; by left|]. by intros [[_ ->]|?].
  - rewrite lookup_insert_ne by done. split; [by right|]. by intros [[-> _]|?].
Qed.

Lemma added_object_new : object added (Id b) = Some l.
Proof. rewrite added_eq. unfold object. cbn. by rewrite lookup_insert_eq. Qed.

Lemma added_old x y : links db !! x = Some y -> object added x = object db x /\ link added x = link db x.
Proof.
  intros Hx. assert (x <> Id b) by congruence. rewrite added_eq. unfold object, link. cbn.
  by rewrite !lookup_insert_ne.
Qed.

Lemma added_fb x y fb : links db !! x = Some y -> fb_of hp added x fb <-> fb_of hp db x fb.
Proof.
  intros Hx. destruct (added_old _ _ Hx) as [E _]. unfold fb_of. by rewrite E.
Qed.

Lemma added_fb_new : fb_of hp added (Id b) (mkForkableBlock b o false).
Proof. exists l. split; [apply added_object_new|done]. Qed.

Lemma added_sent x y : links db !! x = Some y -> sent hp added x <-> sent hp db x.
Proof.
  intros Hx. split; intros (fb & Hfb & Hs); exists fb; (split; [|done]); by apply (added_fb _ _ _ Hx).
Qed.

Lemma added_unsent : ~ sent hp added (Id b).
Proof. intros (fb & Hfb & Hs). by rewrite <- (fb_of_fun _ _ _ _ _ added_fb_new Hfb) in Hs. Qed.

Lemma added_path x k y : path db x k y -> path added x k y.
Proof. by apply AddLink_path. Qed.

Lemma added_path_inv x k y : path added x k y -> (Id b ∉ k) -> path db x k y.
Proof.
  clear Hd Hl unum_pos.
  induction 1 as [x|x q k y Hx Hp IH]; intros Hn; [constructor|].
  apply added_links in Hx as [[-> _]|Hx]; [set_solver|]. econstructor; [done|]. apply IH. set_solver.
Qed.

Lemma added_ok : db_ok hp added.
Proof.
  split.
  - intros x y Hx. apply added_links in Hx as [[-> ->]|Hx].
    + exists (mkForkableBlock b o false). split; [apply added_fb_new|done].
    + destruct (d_link _ _ _ Hd _ _ Hx) as (fb & Hfb & Hr). exists fb. split; [|done].
      by eapply added_fb.
  - intros x n. rewrite added_eq. cbn. destruct (decide (x = Id b)) as [->|Hne].
    + rewrite lookup_insert_eq. intros [= <-]. split; apply Hb.
    + rewrite lookup_insert_ne by done. apply (d_num _ _ _ Hd).
  - intros x y Hx. apply added_links in Hx. rewrite added_eq. cbn.
    destruct (decide (x = Id b)) as [->|Hne]; [by rewrite lookup_insert_eq|].
    rewrite lookup_insert_ne by done. destruct Hx as [[-> _]|Hx]; [done|].
    by eapply (d_numd _ _ _ Hd).
  - unfold LIBID, LIBNum. rewrite added_eq. cbn. apply (d_lib _ _ _ Hd).
Qed.

Lemma added_LIBID : LIBID added = LIBID db.
Proof. unfold LIBID. by rewrite added_eq. Qed.

Lemma added_node nb x y : links db !! x = Some y -> node_of db nb x -> node_of added nb x.
Proof.
  intros Hx (H1 & H2 & H3). destruct (added_old _ _ Hx) as [E1 E2]. unfold node_of. by rewrite E1, E2.
Qed.

Lemma added_blk x fb : blk_of hp db x fb -> blk_of hp added x fb.
Proof.
  intros (H1 & H2 & H3). split; [by eapply added_fb|]. split; [done|]. apply added_links. by right.
Qed.

Lemma added_memo memo : memo_ok db memo -> memo_ok added memo.
Proof.
  destruct memo as [[|b0 chain]|]; try done. cbn. rewrite added_LIBID. intros Hm E.
  destruct (Hm E) as (x & k & Hp & HF). exists x, k. split; [by rewrite added_LIBID; apply added_path|].
  apply (Forall2_impl_r _ _ _ _ HF). intros nb a Ha Hn. rewrite elem_of_reverse in Ha.
  destruct (path_linked _ _ _ _ _ Hp Ha) as [c Hc]. by eapply added_node.
Qed.
End Add.

Lemma Inv_add v0 pending p b o l :
  Inv v0 pending p -> good b -> heap p !! l = Some (mkForkableBlock b o false) ->
  links (forkDB p) !! Id b = None -> Inv v0 pending (set_forkDB (added (forkDB p) b l) p).
Proof.
  intros HI Hb Hl Hnew. pose proof (I_db _ _ _ _ HI) as Hd.
  pose proof (added_LIBID (forkDB p) b l Hb Hnew) as EL.
  pose proof (fun x y => added_sent (heap p) (forkDB p) b l Hb Hnew x y) as Hsent.
  pose proof (added_unsent (heap p) (forkDB p) b o l Hb Hl Hnew) as Hun.
  split; cbn -[added].
  - by eapply added_ok.
  - intros x y Hx Hs. apply added_links in Hx as [[-> _]|Hx]; [done| |done|done].
    rewrite EL. apply (Hsent _ _ Hx) in Hs.
    assert (LIBNum (added (forkDB p) b l) = LIBNum (forkDB p)) as ->.
    { unfold LIBNum. by rewrite added_eq. }
    destruct (I_closed _ _ _ _ HI _ _ Hx Hs) as [[[z Hz] Hs']|?]; [left|by right].
    split; [exists z; apply added_links; auto|]. by apply (Hsent _ _ Hz).
  - pose proof (I_last _ _ _ _ HI) as Hlast. destruct (lastBlockSent p) as [lst|].
    + destruct Hlast as [Hp HF]. rewrite EL. split; [by apply added_path|].
      apply Forall_forall. intros x Hx. rewrite Forall_forall in HF.
      destruct (path_linked _ _ _ _ _ Hp Hx) as [y Hy]. by apply (Hsent _ _ Hy), HF.
    + destruct Hlast as [-> Hn]. split; [done|]. intros x y Hx Hs.
      apply added_links in Hx as [[-> _]|Hx]; [done| |done|done].
      by apply (Hn _ _ Hx), (Hsent _ _ Hx).
  - by apply added_memo, HI.
  - rewrite EL. apply HI.
  - rewrite EL. apply HI.
Qed.

(** ** The longest chain *)

Definition chain_of db (b : Block) (ch : option (list (ForkBlock loc))) : Prop :=
  match ch with
  | Some ((_ :: _) as chain) => exists k, chain_at db (Id b) (Id b :: k) chain
  | _ => True
  end.

Lemma chain_of_memo db b ch : chain_of db b ch -> memo_ok db ch.
Proof. destruct ch as [[|b0 chain]|]; try done. intros (k & Hk) _. by exists (Id b), (Id b :: k). Qed.

Lemma chain_at_extend hp db b l x k chain : db_ok hp db -> good b ->
  links db !! Id b = Some (ParentId b) -> object db (Id b) = Some l ->
  chain_at db x k chain -> x = ParentId b ->
  chain_at db (Id b) (Id b :: k) (chain ++ [mkForkBlock (Id b) (Number b) (ParentId b) (Some l)]).
Proof.
  intros Hd Hb Hx Ho [Hp HF] ->. split; [by econstructor|].
  rewrite reverse_cons. apply Forall2_app; [done|]. repeat constructor; cbn; [done|].
  by rewrite (link_Some _ _ _ Hx).
Qed.

Lemma chain_at_last db x k chain nb : chain_at db x k chain -> last chain = Some nb -> BlockID nb = x.
Proof.
  intros [Hp HF] Hl. apply last_Some in Hl as [c ->].
  apply Forall2_app_inv_l in HF as (k1 & k2 & _ & H2 & Ek).
  inversion H2 as [|? a ? k3 [Ha _] H3]; subst. inversion H3; subst.
  apply (f_equal reverse) in Ek. rewrite reverse_involutive, reverse_app in Ek.
  rewrite Ek in Hp. by pose proof (path_head _ _ _ _ _ Hp).
Qed.

(** The chain is found whenever the links of [b] lead to the LIB. *)
Definition reached db (b : Block) (ch : option (list (ForkBlock loc))) : Prop :=
  0 <= GetProtocolFirstStreamableBlock ->
  forall k, path db (Id b) (Id b :: k) (LIBID db) -> exists nb c, ch = Some (nb :: c).

Lemma uncut hp db (n : Z) x l y : db_ok hp db -> path db x l y -> n = unum x ->
  Forall (fun a => LIBNum db <= unum a) l ->
  Forall (fun nb => cut db (BlockNum nb) = false) (seg_nodes db n l) /\
  (end_num db n l = unum y \/ end_num db n l = 0).
Proof.
  intros Hd Hp. revert n. induction Hp as [x|x q l y Hx Hp IH]; intros n -> HF.
  { split; [constructor|by left]. }
  apply Forall_cons in HF as [Hle HF]. cbn [seg_nodes end_num]. rewrite (link_Some _ _ _ Hx).
  assert (Hc : cut db (unum x) = false).
  { unfold cut. apply andb_false_iff. right. apply Z.ltb_ge. lia. }
  destruct (nums db !! q) as [m|] eqn:Eq.
  - assert (num db q = unum q) as ->.
    { unfold num. rewrite Eq. by apply (d_num _ _ _ Hd) in Eq as [-> _]. }
    destruct (IH _ eq_refl HF) as [H1 H2].
    split; [by constructor|done].
  - assert (num db q = 0) as -> by (unfold num; by rewrite Eq).
    inversion Hp as [|? w ? ? Hw Hp']; subst; [split; [by repeat constructor|by right]|].
    destruct (d_numd _ _ _ Hd _ _ Hw) as [m Hm]. congruence.
Qed.

Lemma ReversibleSegment_reached hp db b seg r : db_ok hp db -> good b ->
  ReversibleSegment db (AsRef (Some b)) = Ok (seg, r) -> reached db b seg.
Proof.
  intros Hd Hb E H0 k Hp. pose proof (d_lib _ _ _ Hd) as (HL & HL0).
  assert (HF : Forall (fun a => LIBNum db <= unum a) (Id b :: k)).
  { apply Forall_forall. intros a Ha. pose proof (db_path_elem _ _ _ _ _ _ _ Hd Hp Ha). lia. }
  destruct (uncut _ _ _ _ _ _ Hd Hp (g_num _ _ Hb) HF) as [H1 H2].
  rewrite (ReversibleSegment_reaches db (AsRef (Some b)) (Id b :: k)) in E.
  - injection E as <- _. destruct (reverse _) as [|nb c] eqn:Er; [|eauto].
    apply (f_equal length) in Er. by rewrite length_reverse in Er.
  - split; [exact Hp|]. split; [by eapply db_path_NoDup|]. split; [|split; [exact H1|]].
    + intros Hin. pose proof (db_path_elem _ _ _ _ _ _ _ Hd Hp Hin). lia.
    + unfold cut. cbn [AsRef Num]. destruct H2 as [->| ->]; apply andb_false_iff.
      * right. apply Z.ltb_ge. lia.
      * left. apply Z.ltb_ge. lia.
Qed.

Lemma compute_run (cfg : Config) v0 pending p b l : plain cfg -> Inv v0 pending p -> good b ->
  links (forkDB p) !! Id b = Some (ParentId b) -> object (forkDB p) (Id b) = Some l ->
  exists ch, computeNewLongestChain cfg l b p = (Ok ch, set_lastLongestChain ch p) /\
    chain_of (forkDB p) b ch /\ reached (forkDB p) b ch.
Proof.
  intros Hpl HI Hb Hx Ho. pose proof (I_db _ _ _ _ HI) as Hd.
  unfold computeNewLongestChain. rewrite bind_mget.
  assert (Hrec : exists ch, (('(seg, _) ← mlift (ReversibleSegment (forkDB p)
      (targetChainBlock cfg p (AsRef (Some b)))); mret seg) : M (Forkable O _) _) p = (Ok ch, p) /\
    chain_of (forkDB p) b ch /\ reached (forkDB p) b ch).
  { unfold targetChainBlock. destruct Hpl as [_ ->]. cbn [negb andb].
    rewrite bool_decide_true by done. cbn [negb andb].
    destruct (ReversibleSegment_Ok (forkDB p) (AsRef (Some b))) as [[seg r] E].
    exists seg. split; [by erewrite bind_mlift_Ok by exact E|].
    split; [|by eapply ReversibleSegment_reached].
    pose proof (ReversibleSegment_answer _ _ _ E) as HA. destruct seg as [[|nb seg]|]; try done.
    destruct r; [|destruct HA as [HA _]; by rewrite (HasLIB_ok unum _ _ Hd) in HA].
    destruct HA as (k & (Hp & _) & Es). cbn [AsRef ID] in Hp.
    destruct k as [|a k]; [done|].
    pose proof (path_head _ _ _ _ _ Hp) as ->. exists k. split; [done|]. rewrite Es.
    apply Forall2_reverse. by eapply seg_nodes_of. }
  pose proof (I_memo _ _ _ _ HI) as Hm.
  destruct (lastLongestChain p) as [[|first rest]|] eqn:EM;
    [destruct Hrec as (ch & E & Hc); exists ch; by erewrite bind_Ok by exact E| |
     destruct Hrec as (ch & E & Hc); exists ch; by erewrite bind_Ok by exact E].
  destruct (last (first :: rest)) as [lst|] eqn:El; [|by apply last_None in El].
  destruct (bool_decide (ParentId b = BlockID lst) && bool_decide (LIBID (forkDB p) = PreviousBlockID first))
    eqn:Ec; [|destruct Hrec as (ch & E & Hc); exists ch; by erewrite bind_Ok by exact E].
  apply andb_true_iff in Ec as [E1%bool_decide_eq_true E2%bool_decide_eq_true].
  destruct (Hm (eq_sym E2)) as (x & k & Hk).
  pose proof (chain_at_last _ _ _ _ _ Hk El) as Ex.
  exists (Some ((first :: rest) ++ [mkForkBlock (Id b) (Number b) (ParentId b) (Some l)])).
  split; [done|]. split; [|by intros ? ? ?; eexists _, _].
  exists k. eapply chain_at_extend; eauto. congruence.
Qed.
End Step.
