(* ===== verification/ForkableSend.v ===== *)
(** * Sending a new longest chain and moving the LIB

    The last two phases of [ProcessBlock] under the invariant, then the whole
    of it. *)

From S2P Require Import Prelude Loops GoStrings Types ForkDB ForkDBFacts Forkable Consumer ForkableFacts.
From S2P Require Import ForkableInv ForkableStep.

(** ** The accounting of unlinkable blocks *)

Section Unlinkable.
Context {O HS : Type}.
Implicit Types (p : Forkable O HS).

Definition tooMany : error := EMsg "too many consecutive unlinkable blocks".

Lemma checkUnlinkable_run (cfg : Config) now later ch p :
  exists r n since, checkUnlinkable cfg now later ch p = (r, set_unlinkable n since p) /\
    (r = Ok tt \/ r = Err tooMany /\ ch = None).
Proof.
  unfold checkUnlinkable. destruct (_ || _).
  2: { exists (Ok tt), (consecutiveUnlinkableBlocks p), (unlinkableBlocksSince p).
       split; [by destruct p|by left]. }
  rewrite bind_mget. cbv zeta. destruct (_ && HasLIB _) eqn:E.
  - destruct ch as [ch|]; [by rewrite (bool_decide_true (is_Some (Some ch))) in E by eauto|].
    rewrite bind_mmodify. cbv beta.
    match goal with |- context [if ?c then merr _ else _] => destruct c end;
      do 3 eexists; (split; [reflexivity|]); [by right|by left].
  - do 3 eexists. split; [done|by left].
Qed.

End Unlinkable.

Section Send.
Context {O : Type} `{Protocol} (unum : string -> Z) (unum_pos : forall x, 0 <= unum x).

Notation Fk := (Forkable O (list (event O))).
Notation Heap := (gmap loc (ForkableBlock O)).
Implicit Types (p q : Fk) (hp : Heap) (db : ForkDB loc).

Notation db_ok := (db_ok unum).
Notation Inv := (Inv unum).
Notation good := (good unum).

(** ** Marking a run of IDs as sent *)

Section Mark.
Context (hp : Heap) (db : ForkDB loc) (xs : list string) (ls : list loc).
Hypothesis Hd : db_ok hp db.
Hypothesis Hxs : Forall2 (fun x l => object db x = Some l /\ is_Some (links db !! x)) xs ls.

Lemma marked_fb x fb : fb_of hp db x fb -> exists fb', fb_of (mark_all ls hp) db x fb' /\
  fb_Block fb' = fb_Block fb /\ (sentAsNew fb = true \/ x ∈ xs -> sentAsNew fb' = true).
Proof.
  intros (l & Ho & Hl). destruct (decide (l ∈ ls)) as [Hin|Hin].
  - exists (mark fb). split; [exists l; split; [done|]|done].
    rewrite mark_all_lookup, decide_True by done. by rewrite Hl.
  - exists fb. split; [exists l; split; [done|]; rewrite mark_all_lookup, decide_False by done; done|].
    split; [done|]. intros [Hs|Hx]; [done|]. exfalso. apply Hin.
    apply list_elem_of_lookup in Hx as [i Hi].
    destruct (Forall2_lookup_l _ _ _ _ _ Hxs Hi) as (l' & Hl' & Ho' & _).
    assert (l' = l) as <- by congruence. by eapply list_elem_of_lookup_2.
Qed.

Lemma marked_sent x y : links db !! x = Some y ->
  sent (mark_all ls hp) db x <-> sent hp db x \/ x ∈ xs.
Proof.
  intros Hx. split.
  - intros (fb' & (l & Ho & Hl) & Hs). rewrite mark_all_lookup in Hl.
    destruct (decide (l ∈ ls)) as [Hin|Hin].
    2: { left. exists fb'. split; [by exists l|done]. }
    right. apply list_elem_of_lookup in Hin as [i Hi].
    destruct (Forall2_lookup_r _ _ _ _ _ Hxs Hi) as (z & Hz & Hoz & [w Hw]).
    destruct (d_link _ _ _ Hd _ _ Hx) as (f1 & (l1 & H1 & H1') & _ & Hid1 & _).
    destruct (d_link _ _ _ Hd _ _ Hw) as (f2 & (l2 & H2 & H2') & _ & Hid2 & _).
    simplify_eq. by eapply list_elem_of_lookup_2.
  - intros HH. destruct (d_link _ _ _ Hd _ _ Hx) as (fb & Hfb & _).
    destruct (marked_fb _ _ Hfb) as (fb' & Hfb' & _ & Hs). exists fb'. split; [done|]. apply Hs.
    destruct HH as [(fb1 & Hfb1 & Hs1)|?]; [left|by right].
    by rewrite (fb_of_fun _ _ _ _ _ Hfb Hfb1).
Qed.

Lemma marked_ok : db_ok (mark_all ls hp) db.
Proof.
  split; [|apply Hd..]. intros x y Hx. destruct (d_link _ _ _ Hd _ _ Hx) as (fb & Hfb & Hr).
  destruct (marked_fb _ _ Hfb) as (fb' & Hfb' & Eb & _). exists fb'. by rewrite Eb.
Qed.
End Mark.

(** ** Sending *)

Lemma lib_sent_id v0 pending p : Inv v0 pending p -> lib_sent p = lastLIBSeen p.
Proof.
  intros HI. unfold lib_sent, IsEmpty. pose proof (I_seen _ _ _ _ HI) as E.
  rewrite bool_decide_false; [by rewrite andb_false_r|]. rewrite E.
  apply (d_lib _ _ _ (I_db _ _ _ _ HI)).
Qed.

(** The unsent nodes at the top of the chain, with their blocks and pointers. *)
Lemma unsent_nodes hp db chain xs fbs : db_ok hp db ->
  Forall2 (node_of db) chain xs -> Forall2 (blk_of hp db) xs fbs ->
  Forall (fun x => ~ sent hp db x) xs -> NoDup xs ->
  exists ls, Forall3 (fun nb fb l => Object nb = Some l /\ hp !! l = Some fb /\ sentAsNew fb = false)
      chain fbs ls /\ NoDup ls /\
    Forall2 (fun x l => object db x = Some l /\ is_Some (links db !! x)) xs ls.
Proof.
  intros Hd HF. revert fbs. induction HF as [|nb x chain xs (Hid & Ho & _) HF IH];
    intros fbs HB Hu Hnd; inversion HB as [|? fb ? fbs' Hfb HB']; subst.
  { exists []. repeat constructor. }
  apply Forall_cons in Hu as [Hux Hu]. apply NoDup_cons in Hnd as [Hnx Hnd].
  destruct (IH _ HB' Hu Hnd) as (ls & H3 & Hls & H2). pose proof Hfb as Hfb0.
  destruct Hfb as ((l & Hol & Hl) & Hidf & Hx). exists (l :: ls). split; [|split].
  - constructor; [|done]. rewrite Ho. split; [done|]. split; [done|].
    destruct (sentAsNew fb) eqn:E; [|done]. exfalso. apply Hux. by apply (blk_sent _ _ _ _ Hfb0).
  - constructor; [|done]. intros Hin. apply Hnx. apply list_elem_of_lookup in Hin as [i Hi].
    destruct (Forall2_lookup_r _ _ _ _ _ H2 Hi) as (z & Hz & Hoz & [w Hw]).
    destruct (linked_block _ _ _ _ _ Hd Hw) as (fz & (lz & Hoz' & Hlz) & Hidz & _).
    assert (lz = l) as -> by congruence. assert (fz = fb) as -> by congruence.
    rewrite <- Hidf, Hidz. by eapply list_elem_of_lookup_2.
  - constructor; [|done]. split; [done|]. eauto.
Qed.

Lemma sent_nodes p chain xs fbs :
  Forall2 (node_of (forkDB p)) chain xs -> Forall2 (blk_of (heap p) (forkDB p)) xs fbs ->
  Forall (sent (heap p) (forkDB p)) xs ->
  Forall (fun nb => exists fb, node_at p nb fb /\ sentAsNew fb = true) chain.
Proof.
  intros HF. revert fbs. induction HF as [|nb x chain xs (Hid & Ho & _) HF IH];
    intros fbs HB Hs; inversion HB as [|? fb ? fbs' Hfb HB']; subst; [done|].
  apply Forall_cons in Hs as [Hsx Hs]. constructor; [|by eapply IH].
  exists fb. split; [|by apply (blk_sent _ _ _ _ Hfb)]. destruct Hfb as ((l & Hol & Hl) & _).
  exists l. by rewrite Ho.
Qed.

(** What the switch and the longest chain amount to, once [b] is added. *)
Record switched p (b : Block) (o : option O) (pending k un r rs ru : list string)
  (undos redos : list (ForkableBlock O)) : Prop := {
  s_new : fb_of (heap p) (forkDB p) (Id b) (mkForkableBlock b o false);
  s_path : path (forkDB p) (Id b) (Id b :: k) (LIBID (forkDB p));
  s_pending : pending = un ++ r;
  s_k : k = ru ++ rs ++ r;
  s_undos : Forall2 (blk_of (heap p) (forkDB p)) un undos;
  s_redos : Forall2 (blk_of (heap p) (forkDB p)) (reverse rs) redos;
  s_sent : Forall (sent (heap p) (forkDB p)) (rs ++ r);
  s_unsent : Forall (fun x => ~ sent (heap p) (forkDB p) x) ru;
}.

Lemma processNewBlocks_run (cfg : Config) p b o pending k un r rs ru undos redos chain q :
  plain cfg -> db_ok (heap p) (forkDB p) ->
  switched p b o pending k un r rs ru undos redos ->
  chain_at (forkDB p) (Id b) (Id b :: k) chain ->
  heap q = heap p -> forkDB q = forkDB p ->
  exists evs ls fbs, processNewBlocks cfg recorder chain q =
      (Ok tt, set_lastBlockSent (Some b) (set_heap (mark_all ls (heap p)) (push evs q))) /\
    Forall2 (ev_is StepNew (fun _ => ID (lib_sent q))) evs (fb_Block <$> fbs) /\
    Forall2 (blk_of (heap p) (forkDB p)) (reverse (Id b :: ru)) fbs /\
    Forall2 (fun x l => object (forkDB p) x = Some l /\ is_Some (links (forkDB p) !! x))
      (reverse (Id b :: ru)) ls.
Proof.
  intros Hpl Hd HS [Hp HF] Eh Ed. pose proof (s_k _ _ _ _ _ _ _ _ _ _ _ HS) as Ek.
  replace (reverse (Id b :: k)) with (reverse (rs ++ r) ++ reverse (Id b :: ru)) in HF
    by (rewrite Ek, <- reverse_app; done).
  apply Forall2_app_inv_r in HF as (cA & cB & HA & HB & ->).
  rewrite Ek in Hp. change (Id b :: ru ++ rs ++ r) with ((Id b :: ru) ++ (rs ++ r)) in Hp.
  pose proof (db_path_NoDup _ _ _ _ _ _ Hd Hp) as Hnd.
  apply path_app_inv in Hp as (z & Hp1 & Hp2).
  destruct (path_blocks _ _ _ _ _ _ Hd Hp1) as [fB HfB]. apply Forall2_reverse in HfB.
  revert HfB. generalize (reverse fB). clear fB. intros fB HfB.
  destruct (path_blocks _ _ _ _ _ _ Hd Hp2) as [fA HfA]. apply Forall2_reverse in HfA.
  destruct (unsent_nodes _ _ cB _ _ Hd HB HfB) as (ls & H3 & Hls & H2).
  { apply Forall_reverse. constructor; [|apply HS]. intros Hs.
    pose proof (s_new _ _ _ _ _ _ _ _ _ _ _ HS) as Hn. destruct Hs as (fb & Hfb & Hs).
    by rewrite <- (fb_of_fun _ _ _ _ _ Hn Hfb) in Hs. }
  { rewrite reverse_Permutation. by apply NoDup_app in Hnd as [? _]. }
  assert (HlastB : last fB = Some (mkForkableBlock b o false)).
  { rewrite reverse_cons in HfB. apply Forall2_app_inv_l in HfB as (f1 & f2 & _ & Hf2 & ->).
    inversion Hf2 as [|? fb ? f3 (Hfb & _) Hf3]; subst. inversion Hf3; subst.
    rewrite last_snoc. f_equal. eapply fb_of_fun; [exact Hfb|apply HS]. }
  unfold processNewBlocks. destruct (last (cA ++ cB)) as [hd|] eqn:El.
  2: { apply last_None in El. apply app_eq_nil in El as [_ ->].
       apply Forall2_length in HB. by rewrite length_reverse in HB. }
  destruct (processNewBlocks_send cfg hd cB fB ls q Hpl) as (evs & Hevs & E); [|done|].
  { by rewrite Eh. }
  exists evs, ls, fB. split; [|done].
  rewrite (mfor_app cA cB _ q q).
  - etransitivity; [exact E|]. by rewrite HlastB, Eh.
  - apply processNewBlocks_skip. rewrite <- Eh, <- Ed in HfA. rewrite <- Ed in HA.
    eapply sent_nodes; [exact HA|exact HfA|]. rewrite Eh, Ed. apply Forall_reverse, HS.
Qed.
Lemma path_next db x l z a y : path db x l z -> a ∈ l -> links db !! a = Some y -> y ∈ l \/ y = z.
Proof.
  intros Hp Ha Hy. destruct (path_split _ _ _ _ _ Hp Ha) as (l1 & l2 & -> & _ & H2).
  apply path_cons_head in H2 as (_ & q & Hq & H2). simplify_eq.
  destruct l2 as [|c l2]; [right; by inversion H2|].
  pose proof (path_head _ _ _ _ _ H2) as ->. left. set_solver.
Qed.

(** The three groups of events turn the view of the old head into the view of
    the new one. *)
Lemma switched_consume p b o pending k un r rs ru undos redos lib (e1 e2 e3 : list (event O)) fbs :
  db_ok (heap p) (forkDB p) -> switched p b o pending k un r rs ru undos redos ->
  lib = LIBID (forkDB p) ->
  Forall2 (ev_is StepUndo (fun _ => lib)) e1 (fb_Block <$> undos) ->
  Forall2 (ev_is StepNew (fun _ => lib)) e2 (fb_Block <$> redos) ->
  Forall2 (ev_is StepNew (fun _ => lib)) e3 (fb_Block <$> fbs) ->
  Forall2 (blk_of (heap p) (forkDB p)) (reverse (Id b :: ru)) fbs ->
  consume (mkView lib pending) (e1 ++ e2 ++ e3) = Some (mkView lib (Id b :: k)).
Proof.
  intros Hd HS -> H1 H2 H3 HB. pose proof (s_path _ _ _ _ _ _ _ _ _ _ _ HS) as Hp.
  pose proof (s_k _ _ _ _ _ _ _ _ _ _ _ HS) as ->.
  pose proof (s_pending _ _ _ _ _ _ _ _ _ _ _ HS) as ->.
  change (Id b :: ru ++ rs ++ r) with ((Id b :: ru) ++ (rs ++ r)) in Hp |- *.
  apply path_app_inv in Hp as (z & Hp1 & Hp2).
  apply path_app_inv in Hp2 as (z' & Hp2 & Hp3).
  rewrite consume_app. pose proof (blk_ids _ _ _ _ (s_undos _ _ _ _ _ _ _ _ _ _ _ HS)) as <-.
  rewrite (consume_undo _ _ _ _ H1). cbn [mbind option_bind].
  rewrite consume_app, (consume_new _ _ _ _ H2).
  2: { pose proof (Forall2_reverse _ _ _ (s_redos _ _ _ _ _ _ _ _ _ _ _ HS)) as Hrd.
       rewrite reverse_involutive in Hrd.
       pose proof (path_chained _ _ _ _ _ _ Hp2 Hrd) as Hc. rewrite reverse_involutive in Hc.
       unfold tip. cbn. by rewrite (path_head_default _ _ _ _ Hp3). }
  cbn [mbind option_bind].
  rewrite (blk_ids _ _ _ _ (s_redos _ _ _ _ _ _ _ _ _ _ _ HS)), reverse_involutive.
  rewrite (consume_new _ _ _ _ H3).
  2: { apply Forall2_reverse in HB as HB'. rewrite reverse_involutive in HB'.
       pose proof (path_chained _ _ _ _ _ _ Hp1 HB') as Hc. rewrite reverse_involutive in Hc.
       unfold tip. cbn [v_pending v_final]. rewrite (path_head_default (forkDB p) z (rs ++ r)); [done|].
       by eapply path_app. }
  by rewrite (blk_ids _ _ _ _ HB), reverse_involutive.
Qed.

Lemma send_run (cfg : Config) v0 pending p b o k un r rs ru undos redos rj chain :
  plain cfg -> Inv v0 pending p ->
  switched p b o pending k un r rs ru undos redos ->
  chain_at (forkDB p) (Id b) (Id b :: k) chain ->
  exists q, sendChain cfg recorder b undos redos rj chain p = (Ok tt, q) /\
    Inv v0 (Id b :: k) q /\ lastBlockSent q = Some b /\ forkDB q = forkDB p /\
    lastLongestChain q = lastLongestChain p.
Proof.
  intros Hpl HI HS Hc. pose proof (I_db _ _ _ _ HI) as Hd.
  destruct (processBlocks_run b (preproc <$> undos) undos StepUndo rj 0 p) as (e1 & E1 & H1).
  destruct (processBlocks_run b (preproc <$> redos) redos StepNew None 0 (push e1 p)) as (e2 & E2 & H2).
  destruct (processNewBlocks_run cfg p b o pending k un r rs ru undos redos chain
    (push e2 (push e1 p)) Hpl Hd HS Hc eq_refl eq_refl) as (e3 & ls & fbs & E3 & H3 & HB & Hls).
  eexists. split.
  { unfold sendChain. rewrite !matchFilter_plain by (done || set_solver).
    erewrite bind_Ok by exact E1. erewrite bind_Ok by exact E2. exact E3. }
  split; [|done].
  assert (Hxs : forall x, x ∈ reverse (Id b :: ru) -> x ∈ Id b :: k).
  { intros x. rewrite elem_of_reverse, (s_k _ _ _ _ _ _ _ _ _ _ _ HS). set_solver. }
  assert (Hall : Forall (sent (mark_all ls (heap p)) (forkDB p)) (Id b :: k)).
  { apply Forall_forall. intros x Hx.
    destruct (path_linked _ _ _ _ _ (s_path _ _ _ _ _ _ _ _ _ _ _ HS) Hx) as [y Hy].
    apply (marked_sent _ _ _ _ Hd Hls _ _ Hy). rewrite elem_of_reverse.
    rewrite (s_k _ _ _ _ _ _ _ _ _ _ _ HS) in Hx.
    pose proof (s_sent _ _ _ _ _ _ _ _ _ _ _ HS) as Hs. rewrite Forall_forall in Hs.
    apply elem_of_cons in Hx as [->|Hx]; [right; by left|].
    apply elem_of_app in Hx as [Hx|Hx]; [right; by right|left; by apply Hs]. }
  pose proof (lib_sent_id _ _ _ HI) as Elib.
  assert (Eid : ID (lib_sent p) = LIBID (forkDB p)) by (rewrite Elib; apply HI).
  split; cbn -[reverse].
  - by eapply marked_ok.
  - intros x y Hx Hs. apply (marked_sent _ _ _ _ Hd Hls _ _ Hx) in Hs as [Hs|Hs].
    + destruct (I_closed _ _ _ _ HI _ _ Hx Hs) as [[[z Hz] Hs']|?]; [left|by right].
      split; [by exists z|]. apply (marked_sent _ _ _ _ Hd Hls _ _ Hz). by left.
    + destruct (path_next _ _ _ _ _ _ (s_path _ _ _ _ _ _ _ _ _ _ _ HS) (Hxs _ Hs) Hx)
        as [Hy|Hy]; [left|right; by left].
      destruct (path_linked _ _ _ _ _ (s_path _ _ _ _ _ _ _ _ _ _ _ HS) Hy) as [z Hz].
      split; [by exists z|]. rewrite Forall_forall in Hall. by apply Hall.
  - split; [apply HS|done].
  - apply HI.
  - apply HI.
  - rewrite !reverse_app, !reverse_involutive, <- !app_assoc, consume_app, (I_view _ _ _ _ HI).
    cbn [mbind option_bind].
    eapply switched_consume; [exact Hd|exact HS|done| | | |exact HB]; rewrite <- Eid; done.
Qed.
(** ** Moving the LIB *)

Lemma chain_at_first hp db x l b0 chain : db_ok hp db -> chain_at db x l (b0 :: chain) ->
  PreviousBlockID b0 = LIBID db.
Proof.
  intros Hd [Hp HF]. remember (reverse l) as l' eqn:El. destruct l' as [|a l']; [inversion HF|].
  apply (f_equal reverse) in El. rewrite reverse_involutive, reverse_cons in El. subst l.
  apply path_snoc_inv in Hp as [_ Hl]. inversion HF as [|? ? ? ? (_ & _ & Hprev)]; subst.
  by rewrite Hprev, (link_Some _ _ _ Hl).
Qed.

(** The LIB the new head [b] asks for. *)
Lemma new_lib hp db b l : db_ok hp db -> good b -> path db (Id b) l (LIBID db) ->
  exists ref, BlockInCurrentChain db (AsRef (Some b)) (LibNum b) = Ok ref /\
    (ID ref <> "" -> exists l1, path db (Id b) l1 (ID ref) /\ 0 <= Num ref <= unum (ID ref) /\
       (forall k, k <> [] -> path db (ID ref) k (LIBID db) -> unum (LIBID db) < Num ref)).
Proof.
  intros Hd Hb Hl. unfold BlockInCurrentChain. cbn [AsRef Num ID].
  destruct (Z.eqb_spec (Number b) (LibNum b)) as [E|E].
  { exists (AsRef (Some b)). split; [done|]. intros _. exists []. cbn. split; [constructor|].
    pose proof (g_num _ _ Hb). pose proof (g_lib _ _ Hb). split; [lia|].
    intros k Hk Hp. pose proof (db_path_dec _ _ _ _ _ _ Hd Hp Hk). lia. }
  destruct (chain_loop_terminates db (LibNum b) (Id b)) as [ref Hr];
    [by eapply db_heights|apply Hb|].
  exists ref. rewrite Hr. split; [done|]. intros Hid.
  apply chain_loop_answer in Hr; [|by apply (h_empty _ (db_heights _ unum_pos _ _ Hd))].
  destruct Hr as [(-> & _)|(l1 & Hl1 & En & Hle & Hcase)]; [done|].
  exists l1. split; [done|]. rewrite En. pose proof (g_lib _ _ Hb) as Hlib.
  pose proof (g_num _ _ Hb) as Hnum. split.
  { destruct Hle as [(k & Hk & Hle)| ->].
    - apply (d_num _ _ _ Hd) in Hk as [-> _]. lia.
    - assert (ID ref = Id b) as -> by by inversion Hl1. lia. }
  intros k Hk Hp. destruct Hcase as [[_ Hn]|(pn & Hpn & Hlt)].
  - apply (d_num _ _ _ Hd) in Hn as [-> _]. by eapply db_path_dec.
  - apply (d_num _ _ _ Hd) in Hpn as [-> _]. destruct k as [|a k]; [done|].
    apply path_cons_head in Hp as (-> & q & Hq & Hp). rewrite (link_Some _ _ _ Hq) in Hlt.
    pose proof (db_path_le _ _ _ _ _ _ Hd Hp). lia.
Qed.

Lemma purge_cutoff_le db k : 0 <= LIBNum db -> purge_cutoff db k <= LIBNum db.
Proof.
  intros Hp. unfold purge_cutoff. destruct (Z.ltb_spec (LIBNum db) (u64 k)); [done|].
  pose proof (u64_range k) as Hk. unfold is_u64 in Hk. unfold u64_sub. unfold u64 at 1.
  pose proof (Z.mod_le (LIBNum db - u64 k) two64). unfold two64 in *. lia.
Qed.

(** The database once the LIB has moved to [ref] and the old blocks are purged. *)
Section Moved.
Context (hp : Heap) (db : ForkDB loc) (ref : BlockRef) (kept : Z).
Hypothesis Hd : db_ok hp db.
Hypothesis Href : 0 <= Num ref <= unum (ID ref).
Hypothesis Hid : ID ref <> "".

Definition moved : ForkDB loc := (PurgeBeforeLIB (MoveLIB db ref) kept).2.

Lemma moved_links x y : links moved !! x = Some y ->
  links db !! x = Some y /\ object moved x = object db x /\ link moved x = link db x.
Proof.
  intros Hx. pose proof Hx as Hx'. apply purge_links in Hx as [Hx _]. split; [done|].
  split; [by apply (purge_object _ _ _ _ Hx')|by apply (purge_link _ _ _ _ Hx')].
Qed.

(** The blocks above the new LIB are all kept. *)
Lemma moved_keeps x y : links db !! x = Some y -> Num ref <= unum x -> links moved !! x = Some y.
Proof.
  intros Hx Hle. apply purge_links. split; [done|].
  change (num (MoveLIB db ref) x) with (num db x). rewrite (db_num _ _ _ _ _ Hd Hx).
  pose proof (purge_cutoff_le (MoveLIB db ref) kept ltac:(apply Href)) as Hc.
  unfold LIBNum in Hc. cbn in Hc. lia.
Qed.

Lemma moved_dropped x y : links db !! x = Some y -> links moved !! x = None -> unum x < Num ref.
Proof.
  intros Hx Hn. destruct (Z.lt_ge_cases (unum x) (Num ref)) as [?|Hge]; [done|].
  rewrite (moved_keeps _ _ Hx Hge) in Hn. done.
Qed.

Lemma moved_fb x y fb : links moved !! x = Some y -> fb_of hp moved x fb <-> fb_of hp db x fb.
Proof. intros Hx. destruct (moved_links _ _ Hx) as (_ & E & _). unfold fb_of. by rewrite E. Qed.

Lemma moved_sent x y : links moved !! x = Some y -> sent hp moved x <-> sent hp db x.
Proof.
  intros Hx. split; intros (fb & Hfb & Hs); exists fb; (split; [|done]); by apply (moved_fb _ _ _ Hx).
Qed.

Lemma moved_ok : db_ok hp moved.
Proof.
  split.
  - intros x y Hx. destruct (moved_links _ _ Hx) as (Hx' & _).
    destruct (d_link _ _ _ Hd _ _ Hx') as (fb & Hfb & Hr). exists fb. split; [|done].
    by apply (moved_fb _ _ _ Hx).
  - intros x n Hn. unfold moved in Hn. rewrite purge_nums in Hn.
    destruct (links _ !! x) as [y|] eqn:Ex; [|done]. apply moved_links in Ex as (Ex & _).
    injection Hn as <-. split; [by apply (db_num _ _ _ _ _ Hd Ex)|by apply (db_link_dec _ _ _ _ _ Hd Ex)].
  - intros x y Hx. unfold moved. rewrite purge_nums. unfold moved in Hx. rewrite Hx. eauto.
  - done.
Qed.

Lemma moved_path x l : path db x l (ID ref) -> path moved x l (ID ref).
Proof.
  intros Hp. apply purge_path; [exact (path_ext db (MoveLIB db ref) _ _ _ eq_refl Hp)|]. apply Forall_forall. intros a Ha.
  pose proof (db_path_elem _ _ _ _ _ _ _ Hd Hp Ha) as Hlt.
  destruct (path_linked _ _ _ _ _ Hp Ha) as [y Hy].
  change (num (MoveLIB db ref) a) with (num db a). rewrite (db_num _ _ _ _ _ Hd Hy).
  pose proof (purge_cutoff_le (MoveLIB db ref) kept ltac:(apply Href)) as Hc.
  unfold LIBNum in Hc. cbn in Hc. lia.
Qed.
End Moved.

Lemma Inv_moved v0 v pending l1 p ref kept :
  Inv v0 pending p -> 0 <= Num ref <= unum (ID ref) -> ID ref <> "" -> ID ref <> LIBID (forkDB p) ->
  unum (LIBID (forkDB p)) < Num ref ->
  Forall (sent (heap p) (forkDB p)) l1 ->
  (forall lst, lastBlockSent p = Some lst -> path (forkDB p) (Id lst) l1 (ID ref)) ->
  (exists lst, lastBlockSent p = Some lst) ->
  (forall b0 c, lastLongestChain p = Some (b0 :: c) -> PreviousBlockID b0 = LIBID (forkDB p)) ->
  forall q, heap q = heap p -> forkDB q = moved (forkDB p) ref kept ->
    lastBlockSent q = lastBlockSent p -> lastLongestChain q = lastLongestChain p ->
    ID (lastLIBSeen q) = ID ref -> consume v0 (reverse (hstate q)) = Some v ->
    v = mkView (ID ref) l1 -> Inv v0 l1 q.
Proof.
  intros HI Href Hid Hne Hlow Hl1 Hp [lst Hlst] Hm q Eh Ed Els Em Eseen Hv ->.
  pose proof (I_db _ _ _ _ HI) as Hd.
  split; rewrite ?Eh, ?Ed.
  - by apply moved_ok.
  - intros x y Hx Hs. destruct (moved_links _ _ _ _ _ Hx) as (Hx' & _).
    apply (moved_sent _ _ _ _ _ _ Hx) in Hs.
    change (LIBID (moved (forkDB p) ref kept)) with (ID ref).
    change (LIBNum (moved (forkDB p) ref kept)) with (Num ref).
    destruct (d_lib _ _ _ Hd) as (_ & HL).
    destruct (I_closed _ _ _ _ HI _ _ Hx' Hs) as [[[z Hz] Hs']|[->|?]]; [|right; right; lia..].
    destruct (links (moved (forkDB p) ref kept) !! y) as [w|] eqn:Ey.
    + left. split; [done|]. by apply (moved_sent _ _ _ _ _ _ Ey).
    + right. right. by eapply (moved_dropped (heap p) (forkDB p) ref kept).
  - rewrite Els, Hlst. assert (Hp' := moved_path _ _ _ kept Hd Href _ _ (Hp _ Hlst)).
    split; [exact Hp'|]. apply Forall_forall. intros x Hx.
    destruct (path_linked _ _ _ _ _ Hp' Hx) as [y Hy]. apply (moved_sent _ _ _ _ _ _ Hy).
    rewrite Forall_forall in Hl1. by apply Hl1.
  - rewrite Em. destruct (lastLongestChain p) as [[|b0 c]|]; try done. cbn -[moved]. intros E.
    exfalso. apply Hne. rewrite <- (Hm _ _ eq_refl), E. done.
  - exact Eseen.
  - exact Hv.
Qed.

(** The blocks of the stalled segment. *)
Lemma stalled_blocks p l n lst : db_ok (heap p) (forkDB p) ->
  last (reverse (seg_nodes (forkDB p) n l)) = Some lst -> BlockNum lst = n ->
  exists fbs, Forall2 (node_at p) (stalledInSegment (forkDB p) (reverse (seg_nodes (forkDB p) n l))) fbs /\
    Forall (fun b => (Id b ∉ l) /\ unum (Id b) <= n) (fb_Block <$> fbs).
Proof.
  intros Hd Hlst Hn.
  assert (Hall : Forall (fun nb => exists fb, node_at p nb fb /\
     (Id (fb_Block fb) ∉ l) /\ unum (Id (fb_Block fb)) <= n)
     (stalledInSegment (forkDB p) (reverse (seg_nodes (forkDB p) n l)))).
  { apply Forall_forall. intros nb Hnb.
    destruct (reverse (seg_nodes (forkDB p) n l)) as [|first rest] eqn:Es; [by cbn in Hlst|].
    apply (stalledInSegment_elem _ _ _ _ _ (proj1 (d_lib _ _ _ Hd)) Hlst) in Hnb
      as (Hl & Hb & Hex & _ & Hle).
    destruct (linked_block _ _ _ _ _ Hd Hl) as (fb & (k & Hk1 & Hk2) & Hid & _).
    exists fb. split; [exists k; split; [rewrite Hb; exact Hk1|exact Hk2]|]. rewrite Hid.
    rewrite <- Es in Hex. rewrite fmap_reverse, seg_nodes_ids, elem_of_reverse in Hex.
    split; [exact Hex|]. rewrite (db_num _ _ _ _ _ Hd Hl) in Hle. lia. }
  induction Hall as [|nb ns (fb & Hfb & Hr) _ (fbs & IH1 & IH2)]; [by exists []|].
  exists (fb :: fbs). split; by constructor.
Qed.

Lemma last_reverse_seg db n x l : x :: l <> [] ->
  last (reverse (seg_nodes db n (x :: l))) = Some (node db x n (link db x)).
Proof. intros _. cbn [seg_nodes]. by rewrite reverse_cons, last_snoc. Qed.

Lemma advance_run (cfg : Config) v0 pending p b : plain cfg -> Inv v0 pending p ->
  lastBlockSent p = Some b -> good b ->
  (forall b0 c, lastLongestChain p = Some (b0 :: c) -> PreviousBlockID b0 = LIBID (forkDB p)) ->
  exists q pending', advanceLIB cfg recorder b None p = (Ok tt, q) /\ Inv v0 pending' q /\
    lastBlockSent q = Some b /\
    (is_Some (links (forkDB p) !! Id b) -> is_Some (links (forkDB q) !! Id b)).
Proof.
  intros Hpl HI Hb Hgood Hm. pose proof (I_db _ _ _ _ HI) as Hd.
  pose proof (I_last _ _ _ _ HI) as Hlast. rewrite Hb in Hlast. destruct Hlast as [Hp Hsent].
  destruct (new_lib _ _ _ _ Hd Hgood Hp) as (ref & Eref & Href).
  unfold advanceLIB. rewrite bind_mget. cbv beta. rewrite Hb, (HasLIB_ok unum _ _ Hd). cbn [negb].
  erewrite bind_mlift_Ok by exact Eref. case_decide as Hid; [by exists p, pending|].
  destruct (Href Hid) as (l1 & Hl1 & Hrange & Habove).
  destruct (HasNew_cases (forkDB p) ref (HasLIB_ok unum _ _ Hd))
    as [E|(k & Hne & (Hk & _) & Hk0 & E)];
    (erewrite bind_mlift_Ok by exact E); [by exists p, pending|].
  cbn [negb andb]. rewrite !bind_mmodify.
  assert (Epend : pending = l1 ++ k).
  { eapply db_path_unique; [exact Hd|exact Hp|by eapply path_app]. }
  set (p2 := set_forkDB _ _).
  destruct (path_blocks _ _ _ _ _ _ Hd Hk) as [fbs Hfbs].
  assert (Hnodes : Forall2 (node_at p2) (reverse (seg_nodes (forkDB p) (Num ref) k)) (reverse fbs)).
  { apply Forall2_reverse. apply (nodes_at p k); [by eapply seg_nodes_of|done]. }
  destruct (processIrreversibleSegment_run cfg (AsRef (Some b)) _ _ p2 Hpl Hnodes) as (e1 & E1 & H1).
  destruct k as [|x k]; [done|]. pose proof (path_head _ _ _ _ _ Hk) as ->.
  rewrite last_reverse_seg in E1 by done.
  destruct (stalled_blocks p (ID ref :: k) (Num ref) _ Hd (last_reverse_seg _ _ _ _ Hk0) eq_refl)
    as (sfbs & Hs1 & Hs2).
  destruct (processStalledSegment_run cfg (AsRef (Some b)) _ sfbs
    (set_lastLIBSeen (ForkBlock_AsRef (node (forkDB p) (ID ref) (Num ref) (link (forkDB p) (ID ref))))
      (push e1 p2)) Hpl Hs1) as (e2 & E2 & H2).
  eexists _, l1. split; [erewrite bind_Ok by exact E1; exact E2|]. split; [|split; [exact Hb|]].
  2: { intros [y Hy]. exists y. apply (moved_keeps (heap p) (forkDB p) ref (keptFinalBlocks cfg) Hd Hrange _ _ Hy).
       pose proof (db_path_le _ _ _ _ _ _ Hd Hl1). lia. }
  eapply (Inv_moved v0 _ pending l1 p ref (keptFinalBlocks cfg) HI Hrange Hid Hne);
    try reflexivity; [by apply (Habove _ Hk0)| | |by exists b|exact Hm|].
  - rewrite Epend in Hsent. by apply Forall_app in Hsent as [? _].
  - intros lst Hl. rewrite Hb in Hl. injection Hl as <-. exact Hl1.
  - cbn -[reverse]. rewrite !reverse_app, !reverse_involutive, <- !app_assoc, consume_app.
    rewrite (I_view _ _ _ _ HI). cbn [mbind option_bind]. rewrite consume_app, Epend.
    pose proof (blk_ids _ _ _ _ Hfbs) as Ek.
    assert (ID ref :: k = reverse (Id <$> (fb_Block <$> reverse fbs))) as ->
      by by rewrite !fmap_reverse, reverse_involutive.
    rewrite (consume_irreversible _ _ _ _ H1). cbn [mbind option_bind].
    rewrite !fmap_reverse, Ek, last_reverse. cbn [head default].
    apply (consume_stalled _ _ _ _ H2). eapply Forall_impl; [exact Hs2|].
    intros c [Hc1 Hc2]. split; [set_solver|]. intros Hin.
    pose proof (db_path_elem _ _ _ _ _ _ _ Hd Hl1 Hin). lia.
Qed.

(** ** The whole of [ProcessBlock] *)

Lemma Inv_unlinkable v0 pending p n since : Inv v0 pending p -> Inv v0 pending (set_unlinkable n since p).
Proof. intros HI. by split; apply HI. Qed.

Lemma Inv_memo v0 pending p ch : Inv v0 pending p -> memo_ok (forkDB p) ch ->
  Inv v0 pending (set_lastLongestChain ch p).
Proof. intros HI Hm. by split; try apply HI. Qed.

(** What the code computed before the block was added, read after it. *)
Lemma switched_added p b o l pending undos redos k :
  db_ok (heap p) (forkDB p) -> good b -> heap p !! l = Some (mkForkableBlock b o false) ->
  links (forkDB p) !! Id b = None -> switch_spec p pending (ParentId b) undos redos ->
  path (added (forkDB p) b l) (Id b) (Id b :: k) (LIBID (forkDB p)) ->
  exists un r rs ru,
    switched (set_forkDB (added (forkDB p) b l) p) b o pending k un r rs ru undos redos.
Proof.
  intros Hd Hb Hl Hnew HS Hp.
  pose proof (added_ok unum _ _ _ _ _ Hd Hb Hl Hnew) as Hd'.
  assert (Hk : path (forkDB p) (ParentId b) k (LIBID (forkDB p))).
  { pose proof (db_path_NoDup _ _ _ _ _ _ Hd' Hp) as Hnd. apply NoDup_cons in Hnd as [Hn _].
    apply path_cons_head in Hp as (_ & q & Hq & Hp).
    apply (added_links unum) in Hq as [[_ ->]|Hq]; [|congruence|done|done].
    eapply (added_path_inv unum); [exact Hb|exact Hnew|exact Hp|exact Hn]. }
  destruct (HS _ Hk) as (un & r & rs & ru & Ep & Ek & Hu & Hr & Hs & Hns).
  assert (Hsent : forall x, x ∈ k -> sent (heap p) (added (forkDB p) b l) x <-> sent (heap p) (forkDB p) x).
  { intros x Hx. destruct (path_linked _ _ _ _ _ Hk Hx) as [y Hy]. by eapply (added_sent unum). }
  exists un, r, rs, ru. split; cbn -[added].
  - by eapply (added_fb_new unum).
  - by rewrite (added_LIBID unum).
  - done.
  - done.
  - eapply Forall2_impl; [exact Hu|]. intros. by apply (added_blk unum).
  - eapply Forall2_impl; [exact Hr|]. intros. by apply (added_blk unum).
  - rewrite Forall_forall in Hs |- *. intros x Hx. apply Hsent; [|by apply Hs]. subst k. set_solver.
  - rewrite Forall_forall in Hns |- *. intros x Hx Hc. apply (Hns _ Hx), Hsent; [|done]. subst k. set_solver.
Qed.

Lemma switch_spec_none v0 pending p par : Inv v0 pending p -> lastBlockSent p = None ->
  switch_spec p pending par [] [].
Proof.
  intros HI Hn k Hk. pose proof (I_last _ _ _ _ HI) as Hlast. rewrite Hn in Hlast.
  destruct Hlast as [-> Hno]. exists [], [], [], k. rewrite reverse_nil, !app_nil_r.
  repeat split; try constructor. apply Forall_forall. intros x Hx.
  destruct (path_linked _ _ _ _ _ Hk Hx) as [y Hy]. by eapply Hno.
Qed.

(** The outcome of a step: the new state keeps the invariant, its head is the
    old one or the block, stays in the database, and it is the block if the block is higher than the
    old head and its links lead to the LIB. *)
Record stepped (cfg : Config) v0 p (b : Block) (r : outcome unit) q : Prop := {
  st_inv : exists pending, Inv v0 pending q;
  st_res : r = Ok tt \/ r = Err tooMany;
  st_head : lastBlockSent q = lastBlockSent p \/ lastBlockSent q = Some b;
  st_linked : (forall h, lastBlockSent p = Some h -> is_Some (links (forkDB p) !! Id h)) ->
    forall h, lastBlockSent q = Some h -> is_Some (links (forkDB q) !! Id h);
  st_adopts : 0 <= GetProtocolFirstStreamableBlock ->
    triggersNewLongestChain cfg p b = true -> links (forkDB p) !! Id b = None ->
    LIBNum (forkDB p) <= Number b ->
    (exists k, path (forkDB p) (ParentId b) k (LIBID (forkDB p))) ->
    r = Ok tt /\ lastBlockSent q = Some b;
}.

(** From the insertion on. *)
Lemma afterAddLink_run (cfg : Config) now later v0 pending p b o l undos redos rj : plain cfg ->
  Inv v0 pending p -> good b -> heap p !! l = Some (mkForkableBlock b o false) ->
  links (forkDB p) !! Id b = None ->
  (triggersNewLongestChain cfg p b = true -> switch_spec p pending (ParentId b) undos redos) ->
  exists r q, afterAddLink cfg recorder now later b o l (triggersNewLongestChain cfg p b) undos redos rj
      (set_forkDB (added (forkDB p) b l) p) = (r, q) /\ stepped cfg v0 p b r q.
Proof.
  intros Hpl HI Hb Hl Hnew HS. pose proof (I_db _ _ _ _ HI) as Hd.
  pose proof (Inv_add unum v0 pending p b o l HI Hb Hl Hnew) as HI3.
  set (p3 := set_forkDB _ p) in *. pose proof (I_db _ _ _ _ HI3) as Hd3.
  assert (Hlink : links (forkDB p3) !! Id b = Some (ParentId b)) by (apply (added_links unum); auto).
  assert (Hobj : object (forkDB p3) (Id b) = Some l) by (by eapply (added_object_new unum)).
  assert (EL : LIBID (forkDB p3) = LIBID (forkDB p)) by (by eapply (added_LIBID unum)).
  destruct (compute_run unum cfg v0 pending p3 b l Hpl HI3 Hb Hlink Hobj)
    as (ch & Ech & Hch & Hreach).
  pose proof (Inv_memo _ _ _ ch HI3 (chain_of_memo _ _ _ Hch)) as HI4.
  destruct (checkUnlinkable_run cfg now later ch (set_lastLongestChain ch p3))
    as (r & n & since & Ec & Hr).
  pose proof (Inv_unlinkable _ _ _ n since HI4) as HI5.
  set (p5 := set_unlinkable n since (set_lastLongestChain ch p3)) in *.
  unfold afterAddLink. rewrite bind_mget. cbv beta.
  rewrite (HasLIB_ok unum (heap p3) _ Hd3). erewrite bind_Ok by exact Ech.
  assert (Hstop : r = Ok tt \/ r = Err tooMany ->
    (triggersNewLongestChain cfg p b = true -> ch = None \/ ch = Some []) ->
    stepped cfg v0 p b r p5).
  { intros Hr' Hno. split; [by exists pending|done|by left| |].
    { intros Hh h Eh. destruct (Hh h Eh) as [y Hy]. exists y. apply (added_links unum); auto. }
    intros H0 Ht _ _ (k & Hk).
    destruct (Hreach H0 k) as (nb & c & ->); [|by destruct (Hno Ht)].
    rewrite EL. econstructor; [done|]. by apply added_path. }
  destruct Hr as [->|[-> ->]].
  2: { erewrite bind_Err by exact Ec. do 2 eexists. split; [done|]. apply Hstop; auto. }
  erewrite bind_Ok by exact Ec.
  destruct ch as [[|nb c]|];
    [exists (Ok tt), p5; split; [done|apply Hstop; auto]| |
     exists (Ok tt), p5; split; [done|apply Hstop; auto]].
  destruct (triggersNewLongestChain cfg p b) eqn:Et; cbn [negb];
    [|exists (Ok tt), p5; split; [done|apply Hstop; [by left|done]]].
  destruct Hch as [k Hk]. pose proof Hk as [Hp _].
  destruct (switched_added p b o l pending undos redos k Hd Hb Hl Hnew (HS eq_refl))
    as (un & r' & rs & ru & Hsw); [by rewrite <- EL|].
  destruct (send_run cfg v0 pending p5 b o k un r' rs ru undos redos rj (nb :: c) Hpl HI5)
    as (q & Eq & HIq & Hlq & Hfq & Hmq); [by destruct Hsw|done|].
  erewrite bind_Ok by exact Eq.
  destruct (advance_run cfg v0 _ q b Hpl HIq Hlq Hb) as (q' & pending' & Eq' & HIq' & Hlq' & Hkq').
  { intros b0 c'. rewrite Hmq, Hfq. intros [= -> ->]. by eapply chain_at_first. }
  exists (Ok tt), q'. split; [exact Eq'|]. split; [by exists pending'|by left|by right| |done].
  intros _ h Eh. rewrite Hlq' in Eh. injection Eh as <-. apply Hkq'. rewrite Hfq. by exists (ParentId b).
Qed.

Lemma set_forkDB_same p : set_forkDB (forkDB p) p = p.
Proof. by destruct p. Qed.

Lemma ProcessBlock_run (cfg : Config) now later v0 pending p b o : plain cfg ->
  Inv v0 pending p -> good b -> includeInitialLIB cfg = false \/ lastBlockSent p <> None ->
  exists r q, ProcessBlock cfg recorder now later b o p = (r, q) /\ stepped cfg v0 p b r q.
Proof.
  intros Hpl HI Hb Hincl. unfold ProcessBlock.
  rewrite decide_False by (pose proof (g_dec _ _ Hb); intros E; rewrite <- E in *; lia).
  rewrite bind_mget. cbv beta zeta.
  destruct ((Number b <? LIBNum (forkDB p)) && bool_decide (is_Some (lastBlockSent p))) eqn:Elow.
  { exists (Ok tt), p. split; [done|]. split; [by exists pending|by left|by left|done|].
    intros _ _ _ Hle. apply andb_true_iff in Elow as [Elow%Z.ltb_lt _]. lia. }
  replace (includeInitialLIB cfg && negb (bool_decide (is_Some (lastBlockSent p))) &&
    bool_decide (Id b = LIBID (forkDB p))) with false.
  2: { symmetry. destruct Hincl as [->|Hn]; [done|].
       rewrite (bool_decide_true (is_Some (lastBlockSent p))); [by rewrite andb_false_r|].
       by apply not_eq_None_Some. }
  set (l := fresh (dom (heap p))). set (fb := mkForkableBlock b o false).
  erewrite bind_Ok by reflexivity. fold l.
  assert (Hfresh : heap p !! l = None) by (apply not_elem_of_dom, is_fresh).
  set (p1 := set_heap (<[l:=fb]> (heap p)) p).
  assert (HI1 : Inv v0 pending p1) by (apply Inv_heap; [done|by apply insert_subseteq]).
  assert (Hl : heap p1 !! l = Some fb) by apply lookup_insert_eq.
  assert (Hseg : exists undos redos rj,
    (match lastBlockSent p with
     | Some lst => if matchFilter cfg StepUndo && triggersNewLongestChain cfg p b
                   then mlift (sentChainSwitchSegments p (Id lst) (ParentId b))
                   else mret ([], [], None)
     | None => mret ([], [], None)
     end : M Fk _) p1 = (Ok (undos, redos, rj), p1) /\
    (triggersNewLongestChain cfg p1 b = true -> switch_spec p1 pending (ParentId b) undos redos)).
  { rewrite (matchFilter_plain cfg) by (done || set_solver). cbn [andb].
    change (triggersNewLongestChain cfg p1 b) with (triggersNewLongestChain cfg p b).
    destruct (lastBlockSent p) as [lst|] eqn:Els.
    2: { exists [], [], None. split; [done|]. intros _. by eapply switch_spec_none. }
    destruct (triggersNewLongestChain cfg p b); [|by exists [], [], None].
    destruct (switch_run unum unum_pos v0 pending p lst (ParentId b) HI Els) as (u & rd & rj & E & HS).
    exists u, rd, rj. unfold mlift. rewrite E. split; [done|]. intros _ k Hk.
    destruct (HS k Hk) as (un & r & rs & ru & E1 & E2 & H1 & H2 & H3 & H4).
    assert (Hsub : heap p ⊆ heap p1) by by apply insert_subseteq.
    pose proof (I_db _ _ _ _ HI) as Hd.
    assert (Hblk : forall x fb', blk_of (heap p) (forkDB p) x fb' -> blk_of (heap p1) (forkDB p1) x fb').
    { intros x fb' (F1 & F2 & F3). split; [|done]. by apply (heap_sub_fb _ _ _ _ _ _ _ Hd Hsub F3). }
    assert (Hsent : forall x, x ∈ k -> sent (heap p1) (forkDB p1) x <-> sent (heap p) (forkDB p) x).
    { intros x Hx. destruct (path_linked _ _ _ _ _ Hk Hx) as [y Hy].
      by apply (heap_sub_sent _ _ _ _ _ _ Hd Hsub Hy). }
    exists un, r, rs, ru. split; [done|]. split; [done|].
    split; [by eapply Forall2_impl; [exact H1|]|]. split; [by eapply Forall2_impl; [exact H2|]|].
    rewrite Forall_forall in H3. rewrite Forall_forall in H4. rewrite !Forall_forall.
    split; intros x Hx; [apply Hsent; [|by apply H3]|intros Hc; apply (H4 _ Hx), Hsent; [|done]];
      subst k; set_solver. }
  destruct Hseg as (undos & redos & rj & Eseg & HS). erewrite bind_Ok by exact Eseg. cbv beta iota.
  rewrite bind_mget. cbv beta.
  change (triggersNewLongestChain cfg p b) with (triggersNewLongestChain cfg p1 b).
  destruct (links (forkDB p1) !! Id b) as [y|] eqn:Elink.
  - destruct (db_link_dec _ _ _ _ _ (I_db _ _ _ _ HI1) Elink) as (_ & _ & Hy).
    unfold AddLink. cbn [AsRef ID]. rewrite decide_False.
    2: { intros [E|E]; [|by apply (g_id _ _ Hb)]. pose proof (g_dec _ _ Hb). rewrite <- E in *. lia. }
    rewrite decide_True by by rewrite (link_Some _ _ _ Elink).
    rewrite bind_mmodify, set_forkDB_same. exists (Ok tt), p1. split; [done|].
    split; [by exists pending|by left|by left|done|]. intros _ _ Hn. cbn in Elink. congruence.
  - pose proof (added_eq unum (forkDB p1) b l Hb Elink) as Ea. unfold added, AddLink_db in Ea.
    pose proof (AddLink_added _ _ _ (Some l) (added_new unum (forkDB p1) b Hb Elink)) as EA.
    destruct (afterAddLink_run cfg now later v0 pending p1 b o l undos redos rj Hpl HI1 Hb Hl Elink HS)
      as (r & q & E & Hst).
    exists r, q. split; [|by destruct Hst; split].
    etransitivity; [|exact E]. rewrite EA. cbn [AddLink]. rewrite bind_mmodify.
    unfold added, AddLink_db. by rewrite EA.
Qed.
End Send.
