(* ===== verification/ForkableProps.v ===== *)
(** * The properties of the forkable

    The events of a forkable, replayed by a consumer of [Consumer.v], always
    fit its view of the chain, and higher blocks that connect to the LIB become
    the head; the other theorems are about what each call sends or refuses. *)

From S2P Require Import Prelude Loops GoStrings Types ForkDB ForkDBFacts Forkable Consumer ForkableFacts.
From S2P Require Import ForkableInv ForkableStep ForkableSend.

(** A block with the clock readings and the object it is processed with. *)
Record Input (O : Type) := mkInput { i_now : Z; i_later : Z; i_block : Block; i_obj : option O }.
Arguments mkInput {O}. Arguments i_now {O}. Arguments i_later {O}.
Arguments i_block {O}. Arguments i_obj {O}.

Section Feed.
Context {O : Type} `{Protocol}.
Notation Fk := (Forkable O (list (event O))).

(** Processing blocks one after the other, up to the first error. *)
Definition feed (cfg : Config) (inputs : list (Input O)) : M Fk unit :=
  mfor inputs (fun i => ProcessBlock cfg recorder (i_now i) (i_later i) (i_block i) (i_obj i)).

(** The events sent so far, oldest first. *)
Definition events (p : Fk) : list (event O) := reverse (hstate p).

(** The consumer's view is the chain from the head to the LIB. *)
Definition follows (v0 : View) (p : Fk) : Prop :=
  exists pending, consume v0 (events p) = Some (mkView (LIBID (forkDB p)) pending) /\
    match lastBlockSent p with
    | Some h => path (forkDB p) (Id h) pending (LIBID (forkDB p))
    | None => pending = []
    end.

Context (unum : string -> Z) (unum_pos : forall x, 0 <= unum x).

Lemma Inv_follows v0 pending p : Inv unum v0 pending p -> follows v0 p.
Proof.
  intros HI. exists pending. split; [apply HI|].
  pose proof (I_last _ _ _ _ HI) as Hl. destruct (lastBlockSent p); [apply Hl|by destruct Hl].
Qed.

Lemma feed_run cfg v0 : plain cfg -> forall inputs pending (p : Fk),
  Inv unum v0 pending p -> Forall (fun i => good unum (i_block i)) inputs ->
  includeInitialLIB cfg = false \/ lastBlockSent p <> None ->
  exists r q, feed cfg inputs p = (r, q) /\ (r = Ok tt \/ r = Err tooMany) /\
    exists pending', Inv unum v0 pending' q.
Proof.
  intros Hpl. induction inputs as [|i inputs IH]; intros pending p HI Hg Hinc.
  { exists (Ok tt), p. eauto. }
  apply Forall_cons in Hg as [Hi Hg]. unfold feed. cbn [mfor].
  destruct (ProcessBlock_run unum unum_pos cfg (i_now i) (i_later i) v0 pending p (i_block i)
    (i_obj i) Hpl HI Hi Hinc) as (r & q & E & Hst).
  destruct (st_inv _ _ _ _ _ _ _ Hst) as [pending' HI'].
  destruct (st_res _ _ _ _ _ _ _ Hst) as [->| ->].
  - erewrite bind_Ok by exact E. apply (IH pending'); [done|done|].
    destruct Hinc as [?|Hn]; [by left|right].
    destruct (st_head _ _ _ _ _ _ _ Hst) as [->| ->]; [done|done].
  - erewrite bind_Err by exact E. do 2 eexists. eauto.
Qed.

(** ** The states the options leave *)

Lemma Inv_exclusive lib : ID lib <> "" -> Num lib = unum (ID lib) ->
  Inv unum (mkView (ID lib) []) [] (New (O := O) (HS := list (event O)) [] [WithExclusiveLIB lib]).2.
Proof.
  intros Hid Hnum. split; cbn.
  - split; cbn; try done.
    + intros x n Hx. apply lookup_insert_Some in Hx as [[<- <-]|[_ Hx]]; [done|by rewrite lookup_empty in Hx].
    + split; [done|]. unfold LIBNum, LIBID. cbn. rewrite Hnum. pose proof (unum_pos (ID lib)). lia.
  - intros x y Hx. by rewrite lookup_empty in Hx.
  - split; [done|]. intros x y Hx. by rewrite lookup_empty in Hx.
  - done.
  - done.
  - done.
Qed.

Lemma Inv_inclusive cfg lib now later b o : plain cfg -> includeInitialLIB cfg = true ->
  ID lib <> "" -> Num lib = unum (ID lib) -> good unum b -> Id b = ID lib ->
  exists q, ProcessBlock cfg recorder now later b o
      (New (O := O) (HS := list (event O)) [] [WithInclusiveLIB lib]).2 = (Ok tt, q) /\
    Inv unum (mkView (ParentId b) []) [] q /\ lastBlockSent q = Some b.
Proof.
  intros Hpl Hinc Hid Hnum Hb Hbl. unfold ProcessBlock.
  rewrite decide_False by (pose proof (g_dec _ _ Hb); intros E; rewrite <- E in *; lia).
  rewrite bind_mget. cbv beta zeta. cbn [New foldl fmap fst snd WithInclusiveLIB lastBlockSent
    set_forkDB forkDB].
  rewrite andb_false_r, Hinc. cbn [andb negb bool_decide].
  rewrite (bool_decide_true (Id b = _)) by exact Hbl.
  rewrite (bool_decide_false (is_Some None)) by by intros [? ?]. cbn [andb negb].
  unfold processInitialInclusiveIrreversibleBlock.
  erewrite bind_Ok by reflexivity. cbv beta zeta.
  set (l := fresh _). set (fb := mkForkableBlock b o false). set (p1 := set_heap _ _).
  assert (Hl : heap p1 !! l = Some fb) by apply lookup_insert_eq.
  set (nb := mkForkBlock (Id b) (Number b) "" (Some l)).
  destruct (processNewBlock_send cfg nb fb l nb p1 Hpl eq_refl Hl eq_refl) as (e1 & H1 & E1).
  erewrite bind_Ok.
  2: { unfold processNewBlocks. cbn [last mfor]. erewrite bind_Ok by exact E1. reflexivity. }
  set (p2 := set_lastBlockSent _ _).
  destruct (processIrreversibleSegment_run cfg (AsRef (Some b)) [nb] [mark fb] p2 Hpl)
    as (e2 & E2 & H2).
  { repeat constructor. exists l. split; [done|]. cbn. by rewrite lookup_alter_eq, lookup_insert_eq. }
  eexists. split; [exact E2|]. split; [|done].
  cbn in H2. inversion H2 as [|ev2 ? ? ? Hev2 H2']; subst. inversion H2'; subst.
  assert (HL : LIBID (forkDB p2) = Id b) by (symmetry; exact Hbl).
  split; cbn -[reverse].
  - split; cbn; try done.
    + intros x n Hx. apply lookup_insert_Some in Hx as [[<- <-]|[_ Hx]]; [done|by rewrite lookup_empty in Hx].
    + split; [done|]. unfold LIBNum, LIBID. cbn. rewrite Hnum. pose proof (unum_pos (ID lib)). lia.
  - intros x y Hx. by rewrite lookup_empty in Hx.
  - rewrite Hbl. split; [constructor|constructor].
  - done.
  - exact Hbl.
  - cbn. rewrite (ev_is_consume _ _ _ _ _ H1). unfold consume_step. rewrite decide_True by done.
    rewrite decide_True.
    2: { split; [done|]. right. split; [done|]. f_equal. symmetry. exact Hbl. }
    cbn. rewrite (ev_is_consume _ _ _ _ _ Hev2). unfold consume_step.
    rewrite decide_False by done. rewrite decide_False by done. rewrite decide_True by done.
    rewrite decide_True by done. cbn. by rewrite Hbl.
Qed.
End Feed.

(** ** The example chain: 5a is replaced by 5b and 6b, which makes 4a final *)

#[local] Instance proto0 : Protocol := {| GetProtocolFirstStreamableBlock := 0 |}.

Definition ex_num (s : string) : Z :=
  match s with
  | String.String c _ => Z.of_nat (Ascii.nat_of_ascii c - 48)
  | EmptyString => 0
  end.

Lemma ex_num_pos s : 0 <= ex_num s.
Proof. destruct s; cbn; lia. Qed.

Definition ex_block (id parent : string) (lib : Z) : Block :=
  mkBlock (ex_num id) id parent None lib 0 0 "" 0 (ex_num parent) None.

Definition ex_input (x : string * string * Z) : Input unit :=
  mkInput 0 0 (ex_block x.1.1 x.1.2 x.2) None.

Definition ex_inputs : list (Input unit) :=
  ex_input <$> [("4a", "3a", 3); ("5a", "4a", 3); ("5b", "4a", 3); ("6b", "5b", 4); ("7b", "6b", 5)].

Lemma ex_inputs_good : Forall (fun i => good ex_num (i_block i)) ex_inputs.
Proof. repeat constructor; try discriminate; vm_compute; congruence. Qed.

Definition ex_lib : BlockRef := NewBlockRef "3a" 3.

Definition ex_start : Forkable unit (list (event unit)) := (New [] [WithExclusiveLIB ex_lib]).2.

(** The step and the ID of an event. *)
Definition summary (ev : event unit) : Z * string :=
  (match ev.2 with IForkable fo => fo_step fo | _ => 0 end, Id ev.1).

Lemma plain_default : plain default_Config.
Proof. done. Qed.

(** ** Properties *)

(** C1: a forkable that starts above an irreversible block, sends every step
    and receives any sequence of consistent blocks (gaps, forks, duplicates and
    old blocks included) never panics and never loops, its only error being the
    one on unlinkable blocks; a consumer that replays the events sent finds
    that every new block extends its tip, every undone block is its tip and is
    not final, final blocks come in the order of its chain, stalled blocks are
    outside of it and cursors carry its last final block; and the chain it ends
    with is the one of the links from the head to the LIB. *)
Theorem Forkable_follows {O} `{Protocol} (unum : string -> Z) cfg lib (inputs : list (Input O)) :
  (forall x, 0 <= unum x) -> plain cfg -> includeInitialLIB cfg = false ->
  ID lib <> "" -> Num lib = unum (ID lib) ->
  Forall (fun i => good unum (i_block i)) inputs ->
  exists r q, feed cfg inputs (New [] [WithExclusiveLIB lib]).2 = (r, q) /\
    (r = Ok tt \/ r = Err tooMany) /\ follows (mkView (ID lib) []) q.
Proof.
  intros Hpos Hpl Hinc Hid Hnum Hg.
  destruct (feed_run unum Hpos cfg (mkView (ID lib) []) Hpl inputs [] _
    (Inv_exclusive unum Hpos lib Hid Hnum) Hg (or_introl Hinc)) as (r & q & E & Hr & p' & HI).
  exists r, q. split; [exact E|]. split; [exact Hr|]. by eapply Inv_follows.
Qed.

Lemma Forkable_follows_witness :
  (exists r q, feed default_Config ex_inputs ex_start = (r, q) /\
     (r = Ok tt \/ r = Err tooMany) /\ follows (mkView "3a" []) q) /\
  summary <$> events (feed default_Config ex_inputs ex_start).2 =
    [(1, "4a"); (1, "5a"); (2, "5a"); (1, "5b"); (1, "6b"); (16, "4a"); (1, "7b");
     (16, "5b"); (32, "5a")].
Proof.
  split; [|vm_compute; reflexivity].
  exact (Forkable_follows ex_num default_Config ex_lib ex_inputs ex_num_pos plain_default eq_refl
    ltac:(discriminate) eq_refl ex_inputs_good).
Defined.

(** C8: with an inclusive LIB, the LIB block received first is sent as new and
    as irreversible, and the forkable then keeps a consumer that started on the
    LIB's parent on the chain in the same way. *)
Theorem Forkable_inclusive_follows {O} `{Protocol} (unum : string -> Z) cfg lib
  (first : Input O) (inputs : list (Input O)) :
  (forall x, 0 <= unum x) -> plain cfg -> includeInitialLIB cfg = true ->
  ID lib <> "" -> Num lib = unum (ID lib) -> Id (i_block first) = ID lib ->
  Forall (fun i => good unum (i_block i)) (first :: inputs) ->
  exists r q, feed cfg (first :: inputs) (New [] [WithInclusiveLIB lib]).2 = (r, q) /\
    (r = Ok tt \/ r = Err tooMany) /\ follows (mkView (ParentId (i_block first)) []) q.
Proof.
  intros Hpos Hpl Hinc Hid Hnum Hfirst Hg. apply Forall_cons in Hg as [Hf Hg].
  destruct (Inv_inclusive unum Hpos cfg lib (i_now first) (i_later first) (i_block first)
    (i_obj first) Hpl Hinc Hid Hnum Hf Hfirst) as (q1 & E1 & HI1 & Hl1).
  destruct (feed_run unum Hpos cfg _ Hpl inputs [] q1 HI1 Hg) as (r & q & E & Hr & p' & HI).
  { right. by rewrite Hl1. }
  exists r, q. split; [|split; [exact Hr|by eapply Inv_follows]].
  unfold feed. cbn [mfor]. erewrite bind_Ok by exact E1. exact E.
Qed.

Lemma Forkable_inclusive_follows_witness :
  let cfg := (New (O := unit) (HS := list (event unit)) [] [WithInclusiveLIB ex_lib]).1 in
  let start := (New [] [WithInclusiveLIB ex_lib]).2 in
  let first := ex_input ("3a", "2a", 2) in
  (exists r q, feed cfg (first :: ex_inputs) start = (r, q) /\
     (r = Ok tt \/ r = Err tooMany) /\ follows (mkView "2a" []) q) /\
  summary <$> events (feed cfg (first :: ex_inputs) start).2 =
    [(1, "3a"); (16, "3a"); (1, "4a"); (1, "5a"); (2, "5a"); (1, "5b"); (1, "6b"); (16, "4a");
     (1, "7b"); (16, "5b"); (32, "5a")].
Proof.
  split; [|vm_compute; reflexivity].
  apply (Forkable_inclusive_follows ex_num _ ex_lib (ex_input ("3a", "2a", 2)) ex_inputs ex_num_pos);
    [done|reflexivity|discriminate|reflexivity|reflexivity|].
  constructor; [|exact ex_inputs_good]. repeat constructor; try discriminate; vm_compute; congruence.
Defined.

(** C9: once fed, the forkable adopts as its head every new block that is
    higher than the head (or every block, with the option), that is not below
    the LIB and whose parent is the LIB or is linked to it. *)
Theorem Forkable_adopts {O} `{Protocol} (unum : string -> Z) cfg lib (inputs : list (Input O)) p i :
  (forall x, 0 <= unum x) -> plain cfg -> includeInitialLIB cfg = false ->
  ID lib <> "" -> Num lib = unum (ID lib) ->
  Forall (fun i => good unum (i_block i)) inputs -> good unum (i_block i) ->
  feed cfg inputs (New [] [WithExclusiveLIB lib]).2 = (Ok tt, p) ->
  0 <= GetProtocolFirstStreamableBlock ->
  triggersNewLongestChain cfg p (i_block i) = true ->
  links (forkDB p) !! Id (i_block i) = None -> LIBNum (forkDB p) <= Number (i_block i) ->
  (exists k, path (forkDB p) (ParentId (i_block i)) k (LIBID (forkDB p))) ->
  exists q, feed cfg [i] p = (Ok tt, q) /\ lastBlockSent q = Some (i_block i).
Proof.
  intros Hpos Hpl Hinc Hid Hnum Hg Hi E H0 Ht Hnew Hnotlow Hpath.
  destruct (feed_run unum Hpos cfg (mkView (ID lib) []) Hpl inputs [] _
    (Inv_exclusive unum Hpos lib Hid Hnum) Hg (or_introl Hinc)) as (r & q & E' & _ & pd & HI).
  rewrite E' in E. injection E as -> ->.
  destruct (ProcessBlock_run unum Hpos cfg (i_now i) (i_later i) (mkView (ID lib) []) pd p
    (i_block i) (i_obj i) Hpl HI Hi (or_introl Hinc)) as (r' & q' & Eq & Hst).
  destruct (st_adopts _ _ _ _ _ _ _ Hst H0 Ht Hnew Hnotlow Hpath) as [-> Hl].
  exists q'. split; [|exact Hl]. unfold feed. cbn [mfor]. by erewrite bind_Ok by exact Eq.
Qed.

Lemma Forkable_adopts_witness :
  let p := (feed default_Config (take 2 ex_inputs) ex_start).2 in
  let i := ex_input ("6a", "5a", 4) in
  exists q, feed default_Config [i] p = (Ok tt, q) /\ lastBlockSent q = Some (i_block i).
Proof.
  apply (Forkable_adopts ex_num default_Config ex_lib (take 2 ex_inputs)
           (feed default_Config (take 2 ex_inputs) ex_start).2 (ex_input ("6a", "5a", 4))).
  - exact ex_num_pos.
  - done.
  - reflexivity.
  - discriminate.
  - reflexivity.
  - apply Forall_take, ex_inputs_good.
  - repeat constructor; try discriminate; vm_compute; congruence.
  - vm_compute. reflexivity.
  - vm_compute. discriminate.
  - vm_compute. reflexivity.
  - vm_compute. reflexivity.
  - vm_compute. discriminate.
  - exists ["5a"; "4a"]. repeat (econstructor; [vm_compute; reflexivity|]). constructor.
Defined.

(** Whatever the configuration, the blocks, the state and the outcome (errors
    and panics included), [ProcessBlock] never removes an event and sends only
    steps that the filter selects. *)
Theorem ProcessBlock_filter {O} `{Protocol} cfg now later b o (p : Forkable O (list (event O))) :
  exists evs, hstate (ProcessBlock cfg recorder now later b o p).2 = evs ++ hstate p /\
    Forall (fun ev => exists fo, ev.2 = IForkable fo /\ matchFilter cfg (fo_step fo) = true) evs.
Proof. apply ProcessBlock_emits. Qed.

Section Rejects.
Context {O HS : Type} `{Protocol} (cfg : Config) (h : Handler O HS).
Implicit Types (p q : Forkable O HS).




End Rejects.


(** When the handler refuses a new block its error comes out of
    [processNewBlocks] at once: the block is neither marked as sent nor made the
    head, and the rest of the chain is not offered. *)
Theorem processNewBlocks_error {O HS} `{Protocol} cfg (h : Handler O HS) p nb chain l fb e hs :
  Object nb = Some l -> heap p !! l = Some fb -> sentAsNew fb = false ->
  matchFilter cfg StepNew = true ->
  (forall fo, fo_block fo = Some (ForkBlock_AsRef nb) -> fo_step fo = StepNew ->
     h (fb_Block fb) (IForkable fo) (hstate p) = (Some e, hs)) ->
  processNewBlocks cfg h (nb :: chain) p = (Err e, set_hstate hs p).
Proof.
  intros Ho Hl Hs Hm Hh. unfold processNewBlocks.
  destruct (last (nb :: chain)) as [hd|] eqn:El; [|by apply last_None in El].
  cbn [mfor]. apply bind_Err. unfold processNewBlock.
  erewrite bind_Ok by (unfold read_fb, fb_at; rewrite Ho, Hl; reflexivity). rewrite Hs, Hm.
  apply bind_Err. rewrite bind_mget. unfold call_handler. by rewrite Hh.
Qed.

Lemma processNewBlocks_error_witness :
  let h : Handler unit nat := fun b _ n => (Some (EMsg "refused"), S n) in
  let fb := mkForkableBlock (ex_block "4a" "3a" 3) None false in
  let p := set_heap {[ 0%nat := fb ]} (New 7%nat [WithExclusiveLIB ex_lib]).2 in
  let nb := mkForkBlock "4a" 4 "3a" (Some 0%nat) in
  processNewBlocks default_Config h [nb; nb] p = (Err (EMsg "refused"), set_hstate 8%nat p).
Proof.
  apply (processNewBlocks_error default_Config (fun b _ n => (Some (EMsg "refused"), S n))
    (set_heap {[ 0%nat := mkForkableBlock (ex_block "4a" "3a" 3) None false ]}
       (New 7%nat [WithExclusiveLIB ex_lib]).2) _ _ 0%nat
    (mkForkableBlock (ex_block "4a" "3a" 3) None false)); try reflexivity.
Defined.



