(* ===== verification/ForkableQueries.v ===== *)
(** * Reading the forkable ([forkable/forkable.go])

    The queries answered under the read lock: blocks by number or hash, the
    replay of the blocks a subscriber misses from a number or a cursor, and the
    head and LIB information.  Go iterates its maps in an unspecified order; the
    order is an argument where the result depends on it. *)

From S2P Require Import Prelude Loops GoStrings Types ForkDB Forkable.

Section Queries.
Context {O HS : Type} `{Protocol}.
Implicit Types (p : Forkable O HS).

(** [x.( *ForkableBlock).Block] for an object of the database. *)
Definition block_of p (o : option loc) : outcome Block := fb_Block <$> fb_at p o.

Fixpoint collect {A B} (f : A -> outcome B) (l : list A) : outcome (list B) :=
  match l with
  | [] => Ok []
  | a :: l' => b ← f a; bs ← collect f l'; Ok (b :: bs)
  end.

(** ** Blocks by number or hash *)

Definition AllBlocksAt (order : list (string * Z)) p (n : Z) : outcome (list Block) :=
  collect (fun '(id, _) => block_of p (object (forkDB p) id))
    (filter (fun '(_, m) => m = n) order).

Definition CanonicalBlockAt p (n : Z) : outcome (option Block) :=
  match lastBlockSent p with
  | None => Ok None
  | Some lst =>
      blkref ← BlockInCurrentChain (forkDB p) (NewBlockRef (Id lst) (Number lst)) n;
      if decide (ID blkref = "") then Ok None
      else
        match objects (forkDB p) !! ID blkref with
        | Some o => b ← block_of p o; Ok (Some b)
        | None => Ok None
        end
  end.

Definition GetBlockByHash p (id : string) : outcome (option Block) :=
  match object (forkDB p) id with
  | None => Ok None
  | Some l => b ← block_of p (Some l); Ok (Some b)
  end.

Fixpoint GetBlockByHashSuffix (order : list (string * option loc)) p (suffix : string)
  : outcome (option Block) :=
  match order with
  | [] => Ok None
  | (key, o) :: order' =>
      if HasSuffix key suffix then b ← block_of p o; Ok (Some b)
      else GetBlockByHashSuffix order' p suffix
  end.

(** ** Replays *)

Definition wrapBlockForkableObject (blk : ForkableBlock O) (step : Z) (head_ lib : BlockRef)
  (reorgJunctionBlock : option BlockRef) : Block * iface O :=
  (fb_Block blk,
   IForkable (mkForkableObject step 0 0 [] reorgJunctionBlock (Some head_)
     (Some (AsRef (Some (fb_Block blk)))) (Some lib) (fb_Obj blk))).

(** [sort.Slice] by number, as one of the sorted orders. *)
Definition num_le (a b : ForkableBlock O) : Prop := Number (fb_Block a) <= Number (fb_Block b).

#[export] Instance num_le_dec : RelDecision num_le.
Proof. intros a b. unfold num_le. apply _. Defined.

Definition blocksFromNumWithForks (order : list (string * Z)) p (startNum : Z)
  : outcome (list (Block * iface O)) :=
  if negb (HasLIB (forkDB p)) then Err (EMsg "no lib")
  else
    wantedBlocks ← collect (fun '(id, _) => fb_at p (object (forkDB p) id))
                     (filter (fun '(_, num) => startNum <= num) order);
    Ok ((fun blk => (fb_Block blk, match fb_Obj blk with Some o => IUser o | None => INil end))
          <$> merge_sort num_le wantedBlocks).

Definition headSegment p (headRef : BlockRef) : outcome (list (ForkBlock loc)) :=
  '(seg, reachLIB) ← CompleteSegment (forkDB p) headRef;
  if negb reachLIB then Err (EMsg "head segment does not reach LIB") else Ok (default [] seg).

(** The events of the segment blocks a selection keeps. *)
Definition sendSeg p (f : ForkBlock loc -> option (Z * BlockRef)) (head_ : BlockRef)
  (seg : list (ForkBlock loc)) : outcome (list (Block * iface O)) :=
  collect (fun '(b, (step, lib)) =>
             fb ← fb_at p (Object b); Ok (wrapBlockForkableObject fb step head_ lib None))
    (omap (fun b => (fun sl => (b, sl)) <$> f b) seg).

Fixpoint dropUntilNum (n : Z) (seg : list (ForkBlock loc)) : list (ForkBlock loc) :=
  match seg with
  | [] => []
  | b :: seg' => if BlockNum b =? n then b :: seg' else dropUntilNum n seg'
  end.

Definition blocksFromNum p (n : Z) : outcome (list (Block * iface O)) :=
  if negb (HasLIB (forkDB p)) then Err (EMsg "no lib")
  else
    match lastBlockSent p with
    | None => Err (EMsg "no head")
    | Some hd =>
        let headRef := AsRef (Some hd) in
        seg ← headSegment p headRef;
        out ← sendSeg p (fun b =>
                let ref := ForkBlock_AsRef b in
                let lib := if Num ref <? Num (libRef (forkDB p)) then ref else libRef (forkDB p) in
                Some (if Num ref <=? LIBNum (forkDB p) then StepNewIrreversible else StepNew, lib))
                headRef (dropUntilNum n seg);
        match out with
        | [] => Err (EMsg "no block found in complete segment")
        | _ => Ok out
        end
    end.

Definition Linkable p (blk : Block) : outcome bool :=
  if negb (HasLIB (forkDB p)) then Ok false
  else
    let targetLib := LIBNum (forkDB p) in
    match links (forkDB p) !! Id blk with
    | Some _ =>
        r ← BlockInCurrentChain (forkDB p) (AsRef (Some blk)) targetLib;
        Ok (negb (IsEmpty (Some r)))
    | None =>
        match links (forkDB p) !! ParentId blk with
        | Some prevID =>
            match nums (forkDB p) !! prevID with
            | Some prevNum =>
                r ← BlockInCurrentChain (forkDB p) (NewBlockRef prevID prevNum) targetLib;
                Ok (negb (IsEmpty (Some r)))
            | None => Ok false
            end
        | None => Ok false
        end
    end.

Definition blockIn (id : string) (array : list (ForkBlock loc)) : bool :=
  existsb (fun b => bool_decide (id = BlockID b)) array.

(** What a non-forked cursor misses from a block of the head segment. *)
Definition resumeStep (db : ForkDB loc) (cursorStep : Z) (block lib : BlockRef) (b : ForkBlock loc)
  : option (Z * BlockRef) :=
  if BlockNum b <=? Num lib then None
  else if BlockNum b <=? LIBNum db then
    Some (if Num block <? BlockNum b then StepNewIrreversible else StepIrreversible,
          ForkBlock_AsRef b)
  else if (Num block <? BlockNum b) ||
          (Matches cursorStep StepUndo && (BlockNum b =? Num block))
  then Some (StepNew, libRef db)
  else None.

(** The loop that goes back from a forked cursor to the segment: the blocks to
    undo and the ID it stops on. *)
Definition undos_body p (seg : list (ForkBlock loc)) (block : BlockRef) (cursorStep : Z)
  (s : string * list (ForkableBlock O))
  : (string * list (ForkableBlock O)) + outcome (string * list (ForkableBlock O)) :=
  let '(blockID, undos) := s in
  match BlockForID (forkDB p) blockID with
  | None => inr (Err (EMsg "cannot find block with ID"))
  | Some found =>
      match fb_at p (Object found) with
      | Ok fb =>
          let alreadyUndone := bool_decide (blockID = ID block) && (cursorStep =? StepUndo) in
          let undos' := if alreadyUndone then undos else undos ++ [fb] in
          let prev := PreviousBlockID found in
          if blockIn prev seg then inr (Ok (prev, undos')) else inl (prev, undos')
      | Err e => inr (Err e)
      | Panic w => inr (Panic w)
      | Diverge => inr Diverge
      end
  end.

Definition joined {A} (r : outcome (outcome A)) : outcome A := r ≫= fun x => x.

(** [cursor.Block] and [cursor.LIB]; each level of the recursion moves the block
    one step down the head segment, so that its length bounds the depth. *)
Fixpoint blocksFromCursor_fuel (fuel : nat) p (step : Z) (block_ lib_ : option BlockRef)
  : outcome (list (Block * iface O)) :=
  match fuel with
  | Datatypes.O => Diverge
  | Datatypes.S fuel' =>
      if negb (HasLIB (forkDB p)) then Err (EMsg "no lib")
      else
        let head_ := AsRef (lastBlockSent p) in
        seg ← headSegment p head_;
        match seg with
        | [] => Err (EMsg "no complete segment")
        | first :: _ =>
            lib ← deref lib_;
            if Num lib <? BlockNum first
            then Err (EMsg "complete segment does not include cursor LIB")
            else
            block ← deref block_;
            if blockIn (ID block) seg && blockIn (ID lib) seg
            then sendSeg p (resumeStep (forkDB p) step block lib) head_ seg
            else
              '(blockID, undos) ←
                joined (of_fuel (loop (undos_body p seg block step) (walk_fuel (forkDB p))
                                   (ID block, [])));
              match BlockForID (forkDB p) blockID with
              | None => Panic "invalid memory address or nil pointer dereference"
              | Some junction =>
                  let preprocessedUndos :=
                    (fun fb => wrapBlockForkableObject fb StepUndo head_ lib
                                 (Some (ForkBlock_AsRef junction))) <$> undos in
                  newBlocks ← blocksFromCursor_fuel fuel' p StepNew
                                (Some (NewBlockRef blockID (BlockNum junction))) (Some lib);
                  Ok (preprocessedUndos ++ newBlocks)
              end
        end
  end.

Definition blocksFromCursor p (cursor : Cursor) : outcome (list (Block * iface O)) :=
  blocksFromCursor_fuel (Datatypes.S (walk_fuel (forkDB p))) p (Step cursor) (cBlock cursor)
    (LIB cursor).

(** The forked case of [blocksThroughCursor] sends its branch up to the block
    with the cursor's number. *)
Fixpoint throughCursor p (startBlock : Z) (step : Z) (block : BlockRef) (lib_ : option BlockRef)
  (head_ : BlockRef)
  (seg : list (ForkBlock loc)) : outcome (bool * list (Block * iface O)) :=
  match seg with
  | [] => Ok (false, [])
  | b :: seg' =>
      if BlockNum b <? startBlock then throughCursor p startBlock step block lib_ head_ seg'
      else
        lib ← deref lib_;
        fb ← fb_at p (Object b);
        let stepType := if BlockNum b <=? Num lib then StepNewIrreversible else StepNew in
        let n := Number (fb_Block fb) in
        let out :=
          if (n <? Num block) || ((n =? Num block) && negb (Matches step StepUndo))
          then [wrapBlockForkableObject fb stepType head_ lib None] else [] in
        if n =? Num block then Ok (true, out)
        else
          '(matched, rest) ← throughCursor p startBlock step block lib_ head_ seg';
          Ok (matched, out ++ rest)
  end.

Definition blocksThroughCursor p (startBlock : Z) (cursor : Cursor)
  : outcome (list (Block * iface O)) :=
  if negb (HasLIB (forkDB p)) then Err (EMsg "no lib")
  else
    let head_ := AsRef (lastBlockSent p) in
    seg ← headSegment p head_;
    match seg with
    | [] => Err (EMsg "no complete segment")
    | first :: _ =>
        if startBlock <? BlockNum first then Err (EMsg "startBlock not contained in segment")
        else
          block ← deref (cBlock cursor);
          if blockIn (ID block) seg
          then
            sendSeg p (fun b =>
              if BlockNum b <? startBlock then None
              else Some (if BlockNum b <=? Num (libRef (forkDB p)) then StepNewIrreversible
                         else StepNew, libRef (forkDB p))) head_ seg
          else
            cseg ← headSegment p block;
            match cseg with
            | [] => Err (EMsg "no complete segment")
            | first' :: _ =>
                if startBlock <? BlockNum first'
                then Err (EMsg "complete segment does not include startBlock")
                else
                  '(matched, out) ←
                    throughCursor p startBlock (Step cursor) block (LIB cursor) head_ cseg;
                  if negb matched
                  then Err (EMsg "error in blocksThroughCursor, cannot match requested block")
                  else
                    backToCanonical ← blocksFromCursor p cursor;
                    Ok (out ++ backToCanonical)
            end
    end.

(** The callbacks run under the read lock, on the blocks only. *)
Definition CallWithBlocksFromNum {S} (order : list (string * Z)) p (n : Z)
  (callback : list (Block * iface O) -> S -> S) (withForks : bool) (s : S) : outcome S :=
  blocks ← (if withForks then blocksFromNumWithForks order p n else blocksFromNum p n);
  Ok (callback blocks s).

Definition CallWithBlocksFromCursor {S} p (cursor : Cursor)
  (callback : list (Block * iface O) -> S -> S) (s : S) : outcome S :=
  blks ← blocksFromCursor p cursor; Ok (callback blks s).

Definition CallWithBlocksThroughCursor {S} p (startBlock : Z) (cursor : Cursor)
  (callback : list (Block * iface O) -> S -> S) (s : S) : outcome S :=
  blks ← blocksThroughCursor p startBlock cursor; Ok (callback blks s).

(** ** Head information *)

Definition ForkDBHasLib p : bool := HasLIB (forkDB p).

Definition HeadInfo p : outcome (Z * string * option Z * Z) :=
  match lastBlockSent p with
  | None => Err (EMsg "cannot get head info")
  | Some b => t ← Time (Some b); Ok (Number b, Id b, t, LibNum b)
  end.

Definition AllIDs p : list string := (map_to_list (links (forkDB p))).*1.

Definition HeadNum p : Z := match lastBlockSent p with Some b => Number b | None => 0 end.

Definition LowestBlockNum p : outcome Z :=
  match lastBlockSent p with
  | None => Ok 0
  | Some b =>
      '(segment, reachLib) ← CompleteSegment (forkDB p) (AsRef (Some b));
      if reachLib : bool then
        match default [] segment with
        | first :: _ => Ok (BlockNum first)
        | [] => Panic "index out of range [0] with length 0"
        end
      else Ok 0
  end.
End Queries.
