(* ===== verification/Resume.v ===== *)
(** * Resuming from a cursor or a number

    The replays of [ForkableQueries.v] over a sound state: the segment of the
    head is cut at the consumer's tip and at the LIB, every part gets its own
    step, and the consumer ends with the view of the forkable. *)

From S2P Require Import Prelude Loops GoStrings Types ForkDB ForkDBFacts Forkable Consumer ForkableFacts.
From S2P Require Import ForkableInv ForkableQueries.

Section Resume.
Context {O : Type} `{Protocol} (unum : string -> Z) (unum_pos : forall x, 0 <= unum x).

Notation Fk := (Forkable O (list (event O))).
Implicit Types (p : Fk).

(** ** Sending the parts of a segment *)

Lemma collect_app {A B} (f : A -> outcome B) l k bs cs :
  collect f l = Ok bs -> collect f k = Ok cs -> collect f (l ++ k) = Ok (bs ++ cs).
Proof.
  revert bs. induction l as [|a l IH]; intros bs Hl Hk; cbn in *; [by injection Hl as <-|].
  apply outcome_bind_Ok in Hl as (b & Hb & Hl). apply outcome_bind_Ok in Hl as (bs' & Hl & [=<-]).
  rewrite Hb. cbn. by rewrite (IH bs' Hl Hk).
Qed.

Lemma sendSeg_app p f h l k e1 e2 :
  sendSeg p f h l = Ok e1 -> sendSeg p f h k = Ok e2 -> sendSeg p f h (l ++ k) = Ok (e1 ++ e2).
Proof. unfold sendSeg. rewrite omap_app. apply collect_app. Qed.

Lemma sendSeg_none p f h l : Forall (fun b => f b = None) l -> sendSeg p f h l = Ok [].
Proof. induction 1 as [|b l Hb _ IH]; [done|]. unfold sendSeg in *. cbn. by rewrite Hb. Qed.

Lemma sendSeg_some p f h step lib l fbs :
  Forall2 (fun nb fb => node_at p nb fb /\
    exists r, f nb = Some (step, r) /\ ID r = lib (fb_Block fb)) l fbs ->
  exists evs, sendSeg p f h l = Ok evs /\ Forall2 (ev_is step lib) evs (fb_Block <$> fbs).
Proof.
  induction 1 as [|nb fb l fbs ((k & Ho & Hl) & r & Hf & Hr) _ (evs & IH & HF)]; [by exists []|].
  assert (E : fb_at p (Object nb) = Ok fb) by (unfold fb_at; by rewrite Ho, Hl).
  unfold sendSeg in *. cbn. rewrite Hf. cbn. rewrite E. cbn. rewrite IH.
  eexists (_ :: evs). split; [done|]. constructor; [|done]. split; [done|]. cbn. by rewrite <- Hr.
Qed.

(** ** The nodes of the head segment *)

Section Sound.
Context (p : Fk) (Hd : db_ok unum (heap p) (forkDB p)).

Definition numbered_node (nb : ForkBlock loc) (x : string) : Prop :=
  node_of (forkDB p) nb x /\ BlockNum nb = unum x.

Lemma seg_nodes_numbered n l x y : path (forkDB p) x l y -> n = unum x ->
  Forall2 numbered_node (seg_nodes (forkDB p) n l) l.
Proof.
  intros Hp. revert n. induction Hp as [x|x q l y Hx Hp IH]; intros n Hn; [constructor|].
  cbn [seg_nodes]. rewrite (link_Some _ _ _ Hx). constructor; [|].
  { split; [|done]. split; [done|]. split; [done|]. cbn. symmetry. by apply link_Some. }
  destruct l as [|z l]; [constructor|]. apply IH.
  apply path_cons_head in Hp as (-> & q' & Hq & _). by eapply db_num.
Qed.

(** One part of the segment, all of it sent with the same step. *)
Lemma send_part f h step lib nodes l x y :
  path (forkDB p) x l y -> Forall2 numbered_node nodes l ->
  (forall nb z, numbered_node nb z -> z ∈ l -> exists r, f nb = Some (step, r) /\ ID r = lib z) ->
  exists evs fbs, sendSeg p f h (reverse nodes) = Ok evs /\
    Forall2 (blk_of (heap p) (forkDB p)) l fbs /\
    Forall2 (ev_is step (fun b => lib (Id b))) evs (fb_Block <$> reverse fbs).
Proof.
  intros Hp HF Hf. destruct (path_blocks _ _ _ _ _ _ Hd Hp) as (fbs & HB).
  destruct (sendSeg_some p f h step (fun b => lib (Id b)) (reverse nodes) (reverse fbs))
    as (evs & E & HE).
  { apply Forall2_reverse.
    assert (HN : Forall2 (fun nb z => numbered_node nb z /\
      exists r, f nb = Some (step, r) /\ ID r = lib z) nodes l).
    { clear -HF Hf. apply Forall2_same_length_lookup. split; [by eapply Forall2_length|].
      intros i nb z Hn Hz. pose proof (Forall2_lookup_lr _ _ _ _ _ _ HF Hn Hz) as Hnz.
      split; [done|]. apply Hf; [done|]. by eapply list_elem_of_lookup_2. }
    clear HF Hp Hf. revert nodes HN.
    induction HB as [|z fb l fbs ((k & H1 & H2) & Hid & _) _ IH]; intros nodes HN;
      inversion HN as [|nb ? nodes' ? [Hnb (r & Hr & Hl)] HN']; subst; constructor; [|by eapply IH].
    split; [exists k; by destruct Hnb as [(_ & -> & _) _]|]. by exists r. }
  eauto.
Qed.

Lemma send_nothing f h nodes l :
  Forall2 numbered_node nodes l -> (forall nb z, numbered_node nb z -> z ∈ l -> f nb = None) ->
  sendSeg p f h (reverse nodes) = Ok [].
Proof.
  intros HF Hf. apply sendSeg_none. apply Forall_forall. intros nb Hin.
  rewrite elem_of_reverse in Hin. apply list_elem_of_lookup in Hin as [i Hi].
  destruct (Forall2_lookup_l _ _ _ _ _ HF Hi) as (z & Hz & Hn).
  eapply Hf; [exact Hn|]. by eapply list_elem_of_lookup_2.
Qed.

(** ** The two cuts of the canonical chain

    The canonical chain, from the head down to [cl], the consumer's final block,
    is cut at the LIB and at the consumer's tip, which is above or below it. *)
Notation db := (forkDB p).

Lemma blk_ids_reverse l fbs : Forall2 (blk_of (heap p) db) l fbs ->
  Id <$> (fb_Block <$> reverse fbs) = reverse l.
Proof. intros HB. by rewrite !fmap_reverse, (blk_ids _ _ _ _ HB). Qed.

Lemma resume_upper f h nodes u w lo below hd tip_ cl :
  path db hd u tip_ -> path db tip_ w (LIBID db) -> path db (LIBID db) lo cl ->
  Forall2 numbered_node nodes (u ++ w ++ lo ++ below) ->
  (forall nb z, numbered_node nb z -> z ∈ u -> exists r, f nb = Some (StepNew, r) /\ ID r = LIBID db) ->
  (forall nb z, numbered_node nb z -> z ∈ w -> f nb = None) ->
  (forall nb z, numbered_node nb z -> z ∈ lo ->
     exists r, f nb = Some (StepIrreversible, r) /\ ID r = z) ->
  (forall nb z, numbered_node nb z -> z ∈ below -> f nb = None) ->
  exists evs, sendSeg p f h (reverse nodes) = Ok evs /\
    consume (mkView cl (w ++ lo)) evs = Some (mkView (LIBID db) (u ++ w)).
Proof.
  intros Hu Hw Hlo HF Fu Fw Flo Fb.
  apply Forall2_app_inv_r in HF as (n1 & n' & H1 & HF & ->).
  apply Forall2_app_inv_r in HF as (n2 & n'' & H2 & HF & ->).
  apply Forall2_app_inv_r in HF as (n3 & n4 & H3 & H4 & ->).
  destruct (send_part f h StepNew (fun _ => LIBID db) n1 u _ _ Hu H1 Fu) as (e1 & f1 & E1 & B1 & V1).
  destruct (send_part f h StepIrreversible (fun z => z) n3 lo _ _ Hlo H3 Flo)
    as (e3 & f3 & E3 & B3 & V3).
  pose proof (send_nothing f h n2 w H2 Fw) as E2. pose proof (send_nothing f h n4 below H4 Fb) as E4.
  exists ((([] ++ e3) ++ []) ++ e1). split.
  { rewrite !reverse_app. repeat apply sendSeg_app; done. }
  cbn [app]. rewrite app_nil_r, consume_app. pose proof (blk_ids_reverse _ _ B3) as I3.
  pose proof (consume_irreversible cl w _ _ V3) as C3. rewrite I3, reverse_involutive in C3.
  rewrite C3, last_reverse, (path_head_default _ _ _ _ Hlo). cbn [mbind option_bind].
  rewrite (consume_new _ w _ _ V1).
  - by rewrite (blk_ids_reverse _ _ B1), reverse_involutive.
  - unfold tip. cbn. rewrite (path_head_default _ _ _ _ Hw). by eapply path_chained.
Qed.

Lemma resume_lower f h nodes up u w below hd top tip_ cl :
  path db hd up (top) -> path db (top) u tip_ -> path db tip_ w cl ->
  Forall2 numbered_node nodes (up ++ u ++ w ++ below) ->
  (forall nb z, numbered_node nb z -> z ∈ up -> exists r, f nb = Some (StepNew, r) /\ ID r = top) ->
  (forall nb z, numbered_node nb z -> z ∈ u ->
     exists r, f nb = Some (StepNewIrreversible, r) /\ ID r = z) ->
  (forall nb z, numbered_node nb z -> z ∈ w ->
     exists r, f nb = Some (StepIrreversible, r) /\ ID r = z) ->
  (forall nb z, numbered_node nb z -> z ∈ below -> f nb = None) ->
  exists evs, sendSeg p f h (reverse nodes) = Ok evs /\
    consume (mkView cl w) evs = Some (mkView (top) up).
Proof.
  intros Hup Hu Hw HF Fup Fu Fw Fb.
  apply Forall2_app_inv_r in HF as (n1 & n' & H1 & HF & ->).
  apply Forall2_app_inv_r in HF as (n2 & n'' & H2 & HF & ->).
  apply Forall2_app_inv_r in HF as (n3 & n4 & H3 & H4 & ->).
  destruct (send_part f h StepNew (fun _ => top) n1 up _ _ Hup H1 Fup) as (e1 & f1 & E1 & B1 & V1).
  destruct (send_part f h StepNewIrreversible (fun z => z) n2 u _ _ Hu H2 Fu)
    as (e2 & f2 & E2 & B2 & V2).
  destruct (send_part f h StepIrreversible (fun z => z) n3 w _ _ Hw H3 Fw)
    as (e3 & f3 & E3 & B3 & V3).
  pose proof (send_nothing f h n4 below H4 Fb) as E4.
  exists ((([] ++ e3) ++ e2) ++ e1). split.
  { rewrite !reverse_app. repeat apply sendSeg_app; done. }
  cbn [app]. rewrite !consume_app.
  pose proof (consume_irreversible cl [] _ _ V3) as C3. cbn [app] in C3.
  rewrite (blk_ids_reverse _ _ B3), reverse_involutive in C3.
  rewrite C3, last_reverse, (path_head_default _ _ _ _ Hw). cbn [mbind option_bind].
  rewrite (consume_final _ _ _ V2) by by eapply path_chained.
  rewrite (blk_ids_reverse _ _ B2), last_reverse, (path_head_default _ _ _ _ Hu). cbn [mbind option_bind].
  rewrite (consume_new _ [] _ _ V1); [|by eapply path_chained].
  by rewrite (blk_ids_reverse _ _ B1), reverse_involutive, app_nil_r.
Qed.

(** ** A cursor on the canonical chain *)

Section Canonical.
Context (hd cl : string) (up lo below : list string) (bot : string) (nodes : list (ForkBlock loc)).
Context (Hup : path db hd up (LIBID db)) (Hlo : path db (LIBID db) lo cl)
        (Hbelow : path db cl below bot) (HL : LIBNum db = unum (LIBID db))
        (HN : Forall2 numbered_node nodes (up ++ lo ++ below)).

Lemma locate tip_ : tip_ ∈ up ++ lo ++ [cl] ->
  (exists u w, up = u ++ w /\ path db hd u tip_ /\ path db tip_ w (LIBID db)) \/
  (exists u w, lo = u ++ w /\ path db (LIBID db) u tip_ /\ path db tip_ w cl).
Proof.
  intros Hin. rewrite !elem_of_app, list_elem_of_singleton in Hin.
  destruct Hin as [Hin|[Hin| ->]].
  - destruct (path_split _ _ _ _ _ Hup Hin) as (u & w & E & H1 & H2). left. by exists u, (tip_ :: w).
  - destruct (path_split _ _ _ _ _ Hlo Hin) as (u & w & E & H1 & H2). right. by exists u, (tip_ :: w).
  - right. exists lo, []. rewrite app_nil_r. split_and!; [done|done|constructor].
Qed.

Lemma path_above a l b z : path db a l b -> z ∈ l -> unum b < unum z <= unum a.
Proof.
  intros Hp Hz. split; [by eapply db_path_elem|].
  destruct (path_split _ _ _ _ _ Hp Hz) as (l1 & l2 & _ & H1 & _). by eapply db_path_le.
Qed.

(** What each number range is sent as. *)
Lemma resumeStep_cases step block lib nb z :
  numbered_node nb z -> Num lib = unum cl -> Matches step StepUndo = false ->
  Num block = unum (ID block) ->
  (unum z <= unum cl -> resumeStep db step block lib nb = None) /\
  (unum cl < unum z <= unum (LIBID db) -> exists r, ID r = z /\ resumeStep db step block lib nb =
     Some (if unum (ID block) <? unum z then StepNewIrreversible else StepIrreversible, r)) /\
  (unum cl < unum z -> unum (LIBID db) < unum z -> resumeStep db step block lib nb =
     if unum (ID block) <? unum z then Some (StepNew, libRef db) else None).
Proof.
  intros [(Hid & _) Hnum] Hlib Hst Hb. unfold resumeStep. rewrite Hnum, Hlib, Hst, HL, Hb. cbn [andb].
  split_and!; intros; zcases; cbn [orb]; try lia; try done.
  all: exists (ForkBlock_AsRef nb); by split.
Qed.

Lemma resume_canonical step block lib h pend :
  Num lib = unum cl -> Matches step StepUndo = false -> Num block = unum (ID block) ->
  ID block ∈ up ++ lo ++ [cl] -> path db (ID block) pend cl ->
  exists evs, sendSeg p (resumeStep db step block lib) h (reverse nodes) = Ok evs /\
    consume (mkView cl pend) evs = Some (mkView (LIBID db) up).
Proof.
  intros Hlib Hst Hb Hin Hpend. pose proof (db_path_le _ _ _ _ _ _ Hd Hlo) as Hcl.
  pose proof (fun nb z Hnz => resumeStep_cases step block lib nb z Hnz Hlib Hst Hb) as HS.
  destruct (locate _ Hin) as [(u & w & E & Hu & Hw)|(u & w & E & Hu & Hw)].
  - rewrite (db_path_unique _ _ _ _ _ _ _ Hd Hpend (path_app _ _ _ _ _ _ Hw Hlo)).
    rewrite E in HN |- *. rewrite <- app_assoc in HN.
    pose proof (db_path_le _ _ _ _ _ _ Hd Hw).
    eapply (resume_upper _ _ _ _ _ _ _ _ _ _ Hu Hw Hlo HN); intros nb z Hnz Hz;
      destruct (HS nb z Hnz) as (S1 & S2 & S3).
    + pose proof (path_above _ _ _ _ Hu Hz). rewrite S3 by lia.
      destruct (Z.ltb_spec (unum (ID block)) (unum z)); [eauto|lia].
    + pose proof (path_above _ _ _ _ Hw Hz). rewrite S3 by lia.
      destruct (Z.ltb_spec (unum (ID block)) (unum z)); [lia|done].
    + pose proof (path_above _ _ _ _ Hlo Hz). destruct S2 as (r & Hr & ->); [lia|].
      destruct (Z.ltb_spec (unum (ID block)) (unum z)); [lia|eauto].
    + pose proof (path_above _ _ _ _ Hbelow Hz). apply S1. lia.
  - rewrite (db_path_unique _ _ _ _ _ _ _ Hd Hpend Hw).
    rewrite E in HN. rewrite <- app_assoc in HN.
    pose proof (db_path_le _ _ _ _ _ _ Hd Hw). pose proof (db_path_le _ _ _ _ _ _ Hd Hu).
    eapply (resume_lower _ _ _ _ _ _ _ _ _ _ _ Hup Hu Hw HN); intros nb z Hnz Hz;
      destruct (HS nb z Hnz) as (S1 & S2 & S3).
    + pose proof (path_above _ _ _ _ Hup Hz). rewrite S3 by lia.
      destruct (Z.ltb_spec (unum (ID block)) (unum z)); [eauto|lia].
    + pose proof (path_above _ _ _ _ Hu Hz). destruct S2 as (r & Hr & ->); [lia|].
      destruct (Z.ltb_spec (unum (ID block)) (unum z)); [eauto|lia].
    + pose proof (path_above _ _ _ _ Hw Hz). destruct S2 as (r & Hr & ->); [lia|].
      destruct (Z.ltb_spec (unum (ID block)) (unum z)); [lia|eauto].
    + pose proof (path_above _ _ _ _ Hbelow Hz). apply S1. lia.
Qed.

(** The cursor of an undone block that is still on the chain, above the LIB. *)
Lemma resume_undone step block lib h pend :
  Num lib = unum cl -> Matches step StepUndo = true -> Num block = unum (ID block) ->
  ID block ∈ up -> path db (ID block) (ID block :: pend) cl ->
  exists evs, sendSeg p (resumeStep db step block lib) h (reverse nodes) = Ok evs /\
    consume (mkView cl pend) evs = Some (mkView (LIBID db) up).
Proof.
  intros Hlib Hst Hb Hin Hpend. pose proof (db_path_le _ _ _ _ _ _ Hd Hlo) as Hcl.
  destruct (path_split _ _ _ _ _ Hup Hin) as (u & w & E & Hu & Hw).
  pose proof (db_path_unique _ _ _ _ _ _ _ Hd Hpend (path_app _ _ _ _ _ _ Hw Hlo)) as Ep.
  injection Ep as ->. rewrite E in HN |- *.
  apply path_cons_head in Hw as (_ & par & Hpar & Hw).
  pose proof (path_snoc _ _ _ _ _ Hu Hpar) as Hu'.
  assert (EN : (u ++ ID block :: w) ++ lo ++ below = (u ++ [ID block]) ++ w ++ lo ++ below)
    by by rewrite <- !app_assoc.
  rewrite EN in HN. clear EN. replace (u ++ ID block :: w) with ((u ++ [ID block]) ++ w) in *
    by by rewrite <- app_assoc.
  destruct (db_link_dec _ _ _ _ _ Hd Hpar) as (Hdec & _).
  pose proof (db_path_le _ _ _ _ _ _ Hd Hw).
  eapply (resume_upper _ _ _ _ _ _ _ _ _ _ Hu' Hw Hlo HN); intros nb z [(Hid & _) Hnum] Hz;
    unfold resumeStep; rewrite Hnum, Hlib, Hst, HL, Hb; cbn [andb].
  - apply elem_of_app in Hz as [Hz|Hz%list_elem_of_singleton].
    + pose proof (path_above _ _ _ _ Hu Hz). zcases; try lia; cbn; eauto.
    + rewrite Hz. zcases; try lia; cbn; eauto.
  - pose proof (path_above _ _ _ _ Hw Hz). zcases; try lia; done.
  - pose proof (path_above _ _ _ _ Hlo Hz). zcases; try lia; exists (ForkBlock_AsRef nb); by split.
  - pose proof (path_above _ _ _ _ Hbelow Hz). zcases; try lia; done.
Qed.
End Canonical.

(** ** Leaving a fork *)

Lemma blockIn_spec x nodes l : Forall2 numbered_node nodes l ->
  blockIn x (reverse nodes) = bool_decide (x ∈ l).
Proof.
  intros HF. unfold blockIn.
  assert (E : forall ns : list (ForkBlock loc), existsb (fun b => bool_decide (x = BlockID b)) ns =
    bool_decide (x ∈ BlockID <$> ns)).
  { induction ns as [|nb ns IH]; cbn; [by rewrite bool_decide_false by set_solver|].
    rewrite IH. repeat case_bool_decide; set_solver. }
  rewrite E, fmap_reverse. apply bool_decide_ext. rewrite elem_of_reverse.
  enough (BlockID <$> nodes = l) as -> by done. clear E.
  induction HF as [|nb z ns l [(Hid & _) _] _ IH]; [done|]. cbn. by rewrite Hid, IH.
Qed.

(** The first ID of a path that is on the chain [l]. *)
Lemma junction (l : list string) x k y : path db x k y -> y ∈ l -> x ∉ l ->
  exists u j w, k = u ++ w /\ path db x u j /\ path db j w y /\ u <> [] /\ j ∈ l /\
    Forall (fun z => z ∉ l) u.
Proof.
  induction 1 as [x|x q k y Hx Hp IH]; intros Hy Hl; [done|].
  destruct (decide (q ∈ l)) as [Hq|Hq].
  - exists [x], q, k. split_and!; [done|by econstructor; [|constructor]|done|done|done|].
    by repeat constructor.
  - destruct (IH Hy Hq) as (u & j & w & -> & Hu & Hw & _ & Hj & HF).
    exists (x :: u), j, w. split_and!; try done; [by econstructor|by constructor].
Qed.

Lemma BlockForID_linked x q : links db !! x = Some q ->
  BlockForID db x = Some (node db x (unum x) q).
Proof. intros Hx. unfold BlockForID. by rewrite Hx, (db_num _ _ _ _ _ Hd Hx). Qed.

Lemma undos_run seg (l : list string) block step u x j fbs acc fuel :
  (forall z, blockIn z seg = bool_decide (z ∈ l)) ->
  path db x u j -> Forall2 (blk_of (heap p) db) u fbs -> u <> [] -> j ∈ l ->
  Forall (fun z => z ∉ l) u -> (step =? StepUndo) && bool_decide (ID block ∈ u) = false ->
  (length u <= fuel)%nat ->
  loop (undos_body p seg block step) fuel (x, acc) = Some (Ok (j, acc ++ fbs)).
Proof.
  intros Hseg Hp. revert fbs acc fuel. induction Hp as [x|x q u j Hx Hp IH];
    intros fbs acc fuel HB Hne Hj HF Hst Hfuel; [done|].
  inversion HB as [|? fb ? fbs' ((k & Ho & Hk) & Hid & _) HB']; subst.
  destruct fuel as [|fuel]; [cbn in Hfuel; lia|]. cbn [loop].
  unfold undos_body at 1. rewrite (BlockForID_linked _ _ Hx). unfold fb_at. cbn [Object node].
  rewrite Ho, Hk.
  assert (E : bool_decide (Id (fb_Block fb) = ID block) && (step =? StepUndo) = false).
  { apply andb_false_iff in Hst as [->|Hst]; [apply andb_false_r|].
    apply bool_decide_eq_false in Hst. rewrite bool_decide_false by set_solver. done. }
  rewrite E. cbn [PreviousBlockID]. rewrite Hseg. apply Forall_cons in HF as [_ HF].
  destruct u as [|z u].
  - inversion Hp; subst. inversion HB'; subst. by rewrite bool_decide_true.
  - pose proof (path_head _ _ _ _ _ Hp) as ->. rewrite bool_decide_false by by apply Forall_cons in HF as [? _].
    rewrite (IH _ _ _ HB'); [by rewrite <- app_assoc|done|done|done| |cbn in Hfuel |- *; lia].
    apply andb_false_iff in Hst as [->|Hst]; [done|]. apply bool_decide_eq_false in Hst.
    rewrite bool_decide_false by set_solver. apply andb_false_r.
Qed.

(** ** The replays *)

(** The segment of a block above the LIB goes down through [cl], a stored block
    at or under the LIB. *)
Lemma segment_through ref cl up lo : Num ref = unum (ID ref) -> path db (ID ref) up (LIBID db) ->
  path db (LIBID db) lo cl -> is_Some (links db !! cl) ->
  exists below bot nodes first, path db cl (cl :: below) bot /\
  Forall2 numbered_node nodes (up ++ lo ++ cl :: below) /\
  headSegment p ref = Ok (reverse nodes) /\
  head (reverse nodes) = Some first /\ BlockNum first <= unum cl.
Proof.
  intros Hn Hup Hlo [q Hq]. pose proof (path_app _ _ _ _ _ _ Hup Hlo) as Hc.
  destruct (db_rooted unum unum_pos _ _ (ID ref) Hd) as (l & y & HR). pose proof HR as (Hp & _ & _ & Hy).
  assert (exists below, l = up ++ lo ++ cl :: below /\ path db cl (cl :: below) y) as (below & -> & Hb).
  { destruct (path_compare _ _ _ _ _ _ Hc Hp) as [(r & -> & Hr)|(r & E & Hr)].
    - inversion Hr as [|? ? r' ? Hq' Hr']; simplify_eq. exists r'.
      rewrite <- app_assoc. split; [done|]. by econstructor.
    - inversion Hr; simplify_eq. }
  exists below, y, (seg_nodes db (Num ref) (up ++ lo ++ cl :: below)).
  pose proof (seg_nodes_numbered _ _ _ _ Hp Hn) as HN.
  destruct (last (seg_nodes db (Num ref) (up ++ lo ++ cl :: below))) as [first|] eqn:El.
  2: { apply last_None in El. rewrite El in HN. apply Forall2_nil_inv_l in HN.
       by destruct up, lo. }
  exists first. split_and!; [done|done| |by rewrite head_reverse|].
  - unfold headSegment. rewrite (CompleteSegment_rooted _ ref _ _ HR). cbn [mbind outcome_bind].
    rewrite bool_decide_true; [done|].
    destruct lo as [|z lo']; [inversion Hlo; subst; set_solver|].
    pose proof (path_head _ _ _ _ _ Hlo) as ->. set_solver.
  - apply last_Some in El as [ns En]. rewrite En in HN.
    apply Forall2_app_inv_l in HN as (l1 & l2 & _ & H2 & El2).
    inversion H2 as [|? z ? ? [_ Hz] H2']; subst. inversion H2'; subst. rewrite Hz.
    assert (Hin : z ∈ cl :: below).
    { change (cl :: below) with ([cl] ++ below) in El2 |- *.
      destruct below as [|b' below' _] using rev_ind.
      - rewrite app_nil_r, !app_assoc in El2. apply app_inj_tail in El2 as [_ <-]. set_solver.
      - rewrite !app_assoc in El2. apply app_inj_tail in El2 as [_ <-]. set_solver. }
    destruct (path_split _ _ _ _ _ Hb Hin) as (l3 & l4 & _ & H4 & _).
    by eapply db_path_le.
Qed.

Section Head.
Context (hdb : Block) (Hlast : lastBlockSent p = Some hdb) (Hhn : Number hdb = unum (Id hdb)).
Context (cl : string) (up lo : list string) (Hup : path db (Id hdb) up (LIBID db))
        (Hlo : path db (LIBID db) lo cl) (Hcl : is_Some (links db !! cl))
        (HL : LIBNum db = unum (LIBID db)).

(** The block of a cursor whose final block is [cl], and whether it is undone. *)
Definition resumable (step : Z) (block lib : BlockRef) (pend : list string) : Prop :=
  ID lib = cl /\ Num lib = unum cl /\ Num block = unum (ID block) /\
  path db (ID block) pend cl /\ step ∈ [StepNew; StepUndo; StepNewIrreversible] /\
  (step = StepUndo -> pend <> [] /\ (ID block ∈ up ++ lo -> LIBNum db < Num block)).

Definition resumed (step : Z) (pend : list string) : View :=
  mkView cl (if decide (step = StepUndo) then tail pend else pend).

Lemma resume_fast below bot nodes step block lib pend :
  path db cl (cl :: below) bot -> Forall2 numbered_node nodes (up ++ lo ++ cl :: below) ->
  resumable step block lib pend -> ID block ∈ up ++ lo ++ cl :: below ->
  exists evs, sendSeg p (resumeStep db step block lib) (AsRef (Some hdb)) (reverse nodes) = Ok evs /\
    consume (resumed step pend) evs = Some (mkView (LIBID db) up).
Proof.
  intros Hb HN (Hlid & Hlib & Hbn & Hpend & Hst & Hundo) Hin. unfold resumed.
  assert (Hin' : ID block ∈ up ++ lo ++ [cl]).
  { rewrite !elem_of_app, elem_of_cons in Hin. rewrite !elem_of_app, list_elem_of_singleton.
    destruct Hin as [?|[?|[?|Hin]]]; auto.
    apply path_cons_head in Hb as (_ & q & Hq & Hb).
    pose proof (path_above _ _ _ _ Hb Hin). destruct (db_link_dec _ _ _ _ _ Hd Hq).
    pose proof (db_path_le _ _ _ _ _ _ Hd Hpend). lia. }
  destruct (decide (step = StepUndo)) as [->|Hne].
  - destruct (Hundo eq_refl) as [Hpne Habove].
    destruct pend as [|z pend]; [done|]. pose proof (path_head _ _ _ _ _ Hpend) as ->. cbn [tail].
    assert (Hblock : ID block ∈ up).
    { apply elem_of_app in Hin' as [?|Hin']; [done|exfalso].
      pose proof (db_path_dec _ _ _ _ _ _ Hd Hpend ltac:(done)).
      apply elem_of_app in Hin' as [Hlo'|Hcl']; [|apply list_elem_of_singleton in Hcl'; rewrite Hcl' in *; lia].
      pose proof (path_above _ _ _ _ Hlo Hlo'). rewrite elem_of_app in Habove.
      specialize (Habove (or_intror Hlo')). lia. }
    by eapply resume_undone.
  - eapply resume_canonical; try done.
    repeat (apply elem_of_cons in Hst as [->|Hst]; [done|]). by apply elem_of_nil in Hst.
Qed.

Lemma blocksFromCursor_canonical fuel step block lib pend below bot nodes first :
  path db cl (cl :: below) bot -> Forall2 numbered_node nodes (up ++ lo ++ cl :: below) ->
  headSegment p (AsRef (Some hdb)) = Ok (reverse nodes) ->
  head (reverse nodes) = Some first -> BlockNum first <= unum cl ->
  resumable step block lib pend -> ID block ∈ up ++ lo ++ cl :: below ->
  exists evs, blocksFromCursor_fuel (S fuel) p step (Some block) (Some lib) = Ok evs /\
    consume (resumed step pend) evs = Some (mkView (LIBID db) up).
Proof.
  intros Hb HN Hseg Hfirst Hle Hres Hin. pose proof Hres as (Hlid & Hlib & _).
  cbn [blocksFromCursor_fuel]. rewrite (HasLIB_ok _ _ _ Hd), Hlast. cbn [negb]. rewrite Hseg.
  cbn [mbind outcome_bind].
  destruct (reverse nodes) as [|f rest] eqn:Er; [done|]. injection Hfirst as ->. cbn [deref mbind outcome_bind].
  rewrite Hlib. destruct (Z.ltb_spec (unum cl) (BlockNum first)); [lia|].
  rewrite <- Er, !(blockIn_spec _ _ _ HN), Hlid, !bool_decide_true by (done || set_solver).
  cbn [andb]. by eapply resume_fast.
Qed.

(** The undo events of a branch bring the consumer back to its junction. *)
Lemma undos_start seg (l : list string) block step u j fbs fuel :
  (forall z, blockIn z seg = bool_decide (z ∈ l)) ->
  path db (ID block) u j -> Forall2 (blk_of (heap p) db) u fbs -> u <> [] -> j ∈ l ->
  Forall (fun z => z ∉ l) u -> (length u <= fuel)%nat ->
  loop (undos_body p seg block step) fuel (ID block, []) =
    Some (Ok (j, if decide (step = StepUndo) then tail fbs else fbs)).
Proof.
  intros Hseg Hp HB Hne Hj HF Hfuel. destruct (decide (step = StepUndo)) as [->|Hst].
  2: { apply (undos_run seg l block step u (ID block) j fbs [] fuel); try done.
       by rewrite (proj2 (Z.eqb_neq _ _) Hst). }
  inversion Hp as [|? q u' ? Hx Hp']; subst; [done|].
  inversion HB as [|? fb ? fbs' ((k & Ho & Hk) & Hid & _) HB']; subst.
  destruct fuel as [|fuel]; [cbn in Hfuel; lia|]. cbn [loop]. unfold undos_body at 1.
  rewrite (BlockForID_linked _ _ Hx). unfold fb_at. cbn [Object node]. rewrite Ho, Hk.
  rewrite bool_decide_true by done. cbn [andb]. change (StepUndo =? StepUndo) with true. cbv iota zeta.
  cbn [PreviousBlockID]. rewrite Hseg. apply Forall_cons in HF as [_ HF].
  destruct u' as [|z u'].
  - inversion Hp'; subst. inversion HB'; subst. by rewrite bool_decide_true.
  - pose proof (path_head _ _ _ _ _ Hp') as ->.
    rewrite bool_decide_false by by apply Forall_cons in HF as [? _].
    rewrite (undos_run seg l block StepUndo _ _ _ _ [] _ Hseg Hp' HB'); try done; [|cbn in Hfuel |- *; lia].
    rewrite bool_decide_false; [apply andb_false_r|]. intros Hin.
    pose proof (db_path_NoDup _ _ _ _ _ _ Hd Hp) as Hnd. by apply NoDup_cons in Hnd as [? _].
Qed.

Lemma blocksFromCursor_forked step block lib pend below bot nodes first :
  path db cl (cl :: below) bot -> Forall2 numbered_node nodes (up ++ lo ++ cl :: below) ->
  headSegment p (AsRef (Some hdb)) = Ok (reverse nodes) ->
  head (reverse nodes) = Some first -> BlockNum first <= unum cl ->
  resumable step block lib pend -> ID block ∉ up ++ lo ++ cl :: below ->
  exists evs, blocksFromCursor_fuel (S (walk_fuel db)) p step (Some block) (Some lib) = Ok evs /\
    consume (resumed step pend) evs = Some (mkView (LIBID db) up).
Proof.
  intros Hb HN Hseg Hfirst Hle Hres Hout. pose proof Hres as (Hlid & Hlib & Hbn & Hpend & Hst & Hundo).
  set (l := up ++ lo ++ cl :: below) in *.
  destruct (junction l _ _ _ Hpend ltac:(set_solver) Hout) as (u & j & w & -> & Hu & Hw & Hune & Hj & HF).
  destruct (path_blocks _ _ _ _ _ _ Hd Hu) as (fbs & HB).
  assert (Hjl : is_Some (links db !! j)).
  { pose proof (path_app _ _ _ _ _ _ Hup (path_app _ _ _ _ _ _ Hlo Hb)) as Hall. by eapply path_dom. }
  destruct Hjl as [qj Hqj].
  destruct (blocksFromCursor_canonical (Nat.pred (walk_fuel db)) StepNew (NewBlockRef j (unum j)) lib w
    below bot nodes first Hb HN Hseg Hfirst Hle) as (evs & E & C).
  { split_and!; try done; set_solver. }
  { done. }
  cbn [blocksFromCursor_fuel]. rewrite (HasLIB_ok _ _ _ Hd), Hlast. cbn [negb]. rewrite Hseg.
  cbn [mbind outcome_bind].
  destruct (reverse nodes) as [|f rest] eqn:Er; [done|]. injection Hfirst as ->. cbn [deref mbind outcome_bind].
  rewrite Hlib. destruct (Z.ltb_spec (unum cl) (BlockNum first)); [lia|].
  rewrite <- Er, (blockIn_spec _ _ _ HN), bool_decide_false by done. cbn [andb].
  rewrite (undos_start _ l block step u j fbs (walk_fuel db)); try done;
    [|by intros z; apply blockIn_spec|].
  2: { pose proof (path_length _ _ _ _ Hu (db_path_NoDup _ _ _ _ _ _ Hd Hu)). unfold walk_fuel. lia. }
  unfold of_fuel, joined. cbn [mbind outcome_bind]. rewrite (BlockForID_linked _ _ Hqj).
  change (NewBlockRef j (BlockNum (node db j (unum j) qj))) with (NewBlockRef j (unum j)).
  assert (Ef : S (Nat.pred (walk_fuel db)) = walk_fuel db) by done. rewrite Ef in E. rewrite E. cbn [mbind outcome_bind]. eexists. split; [done|]. rewrite consume_app.
  set (undos := if decide (step = StepUndo) then tail fbs else fbs).
  assert (Hv : resumed step (u ++ w) = mkView cl ((Id <$> (fb_Block <$> undos)) ++ w)).
  { unfold resumed, undos. pose proof (blk_ids _ _ _ _ HB) as HI.
    destruct (decide (step = StepUndo)); [|by rewrite HI].
    destruct u as [|z u]; [done|]. destruct fbs as [|fb fbs]; [done|]. cbn in HI |- *. by injection HI as _ ->. }
  rewrite Hv. rewrite (consume_undo cl w _ (fb_Block <$> undos)); [exact C|].
  clear -Hlid. induction undos as [|fb undos IH]; constructor; [|exact IH].
  split; [done|]. split; [done|]. cbn. by rewrite Hlid.
Qed.

Lemma blocksFromCursor_run step block lib hb pend :
  resumable step block lib pend ->
  exists evs, blocksFromCursor p (mkCursor step (Some block) (Some lib) hb) = Ok evs /\
    consume (resumed step pend) evs = Some (mkView (LIBID db) up).
Proof.
  intros Hres. destruct (segment_through (AsRef (Some hdb)) cl up lo Hhn Hup Hlo Hcl) as (below & bot & nodes & first & Hb & HN & Hseg & Hf & Hle).
  unfold blocksFromCursor. cbn [Step cBlock LIB].
  destruct (decide (ID block ∈ up ++ lo ++ cl :: below)).
  - by eapply blocksFromCursor_canonical.
  - by eapply blocksFromCursor_forked.
Qed.
End Head.

(** *** From a number at or below the LIB *)
Lemma dropUntilNum_at nodes a x below :
  Forall2 numbered_node nodes (a ++ x :: below) -> Forall (fun z => unum z < unum x) below ->
  exists kept, dropUntilNum (unum x) (reverse nodes) = reverse kept /\
    Forall2 numbered_node kept (a ++ [x]).
Proof.
  intros HF Hlt. apply Forall2_app_inv_r in HF as (n1 & n' & H1 & HF & ->).
  inversion HF as [|nb ? n2 ? Hnb H2]; subst. exists (n1 ++ [nb]). split.
  2: { apply Forall2_app; [done|]. constructor; [done|constructor]. }
  assert (E : forall ns rest, Forall (fun b => BlockNum b <> unum x) ns ->
    dropUntilNum (unum x) (ns ++ rest) = dropUntilNum (unum x) rest).
  { clear. intros ns rest HF. induction HF as [|b ns Hb _ IH]; [done|]. cbn.
    destruct (Z.eqb_spec (BlockNum b) (unum x)); done. }
  rewrite !reverse_app, reverse_cons, <- app_assoc, E.
  - cbn. destruct Hnb as [_ ->]. by rewrite Z.eqb_refl.
  - apply Forall_reverse. clear -H2 Hlt. induction H2 as [|b z n2 below [_ Hb] _ IH]; [constructor|].
    apply Forall_cons in Hlt as [Hz Hlt]. constructor; [lia|]. by apply IH.
Qed.

Lemma blocksFromNum_run hdb up lo x q : lastBlockSent p = Some hdb -> Number hdb = unum (Id hdb) ->
  path db (Id hdb) up (LIBID db) -> path db (LIBID db) lo x -> links db !! x = Some q ->
  LIBNum db = unum (LIBID db) ->
  exists evs, blocksFromNum p (unum x) = Ok evs /\
    consume (mkView q []) evs = Some (mkView (LIBID db) up).
Proof.
  intros Hlast Hhn Hup Hlo Hx HL.
  destruct (segment_through (AsRef (Some hdb)) x up lo Hhn Hup Hlo (mk_is_Some _ _ Hx))
    as (below & bot & nodes & first & Hb & HN & Hseg & _).
  pose proof (path_cons_head _ _ _ _ _ Hb) as (_ & q' & Hq' & Hb').
  rewrite Hx in Hq'. injection Hq' as <-.
  destruct (db_link_dec _ _ _ _ _ Hd Hx) as [Hdec _].
  rewrite app_assoc in HN. destruct (dropUntilNum_at _ _ _ _ HN) as (kept & Ek & HK).
  { apply Forall_forall. intros z Hz. pose proof (path_above _ _ _ _ Hb' Hz). lia. }
  rewrite <- (app_nil_r ((up ++ lo) ++ [x])), <- !app_assoc in HK.
  pose proof (path_snoc _ _ _ _ _ Hlo Hx) as Hlo'. rewrite (app_assoc lo) in HK.
  edestruct (fun f h => resume_lower f h kept up (lo ++ [x]) [] [] (Id hdb) (LIBID db) q q Hup Hlo' (path_nil _ _) HK)
    as (evs & E & C).
  5: { exists evs. unfold blocksFromNum. rewrite (HasLIB_ok _ _ _ Hd), Hlast. cbn [negb].
       rewrite Hseg. cbn [mbind outcome_bind]. rewrite Ek. rewrite E. cbn [mbind outcome_bind].
       split; [|exact C]. destruct evs; [|done]. exfalso. cbn in C. injection C as Eq _.
       pose proof (db_path_dec _ _ _ _ _ _ Hd Hlo' ltac:(by destruct lo)). rewrite Eq in *. lia. }
  - intros nb z [(Hid & _) Hnum] Hz. pose proof (path_above _ _ _ _ Hup Hz). cbn. rewrite Hnum, HL.
    change (Num (libRef db)) with (LIBNum db). rewrite HL. zcases; try lia. by eexists.
  - intros nb z [(Hid & _) Hnum] Hz. destruct (path_split _ _ _ _ _ Hlo' Hz) as (l1 & l2 & _ & H1 & _).
    cbn. rewrite Hnum. change (Num (libRef db)) with (LIBNum db). rewrite HL.
    pose proof (db_path_le _ _ _ _ _ _ Hd H1).
    zcases; try lia; eexists; (split; [done|]); [done|].
    destruct l1 as [|a l1]; [by inversion H1|].
    pose proof (db_path_dec _ _ _ _ _ _ Hd H1 ltac:(done)). lia.
  - intros nb z _ Hz. by apply elem_of_nil in Hz.
  - intros nb z _ Hz. by apply elem_of_nil in Hz.
Qed.
End Sound.
End Resume.
