(* ===== verification/ResumeProps.v ===== *)
(** * Properties of the replays

    A subscriber that comes back with a cursor, or that starts at a final block,
    gets from the forkable the events that bring its view to the forkable's. *)

From S2P Require Import Prelude Loops GoStrings Types ForkDB ForkDBFacts Forkable Consumer ForkableFacts.
From S2P Require Import ForkableInv ForkableStep ForkableSend ForkableProps ForkableQueries Resume.

Section Reached.
Context {O : Type} `{Protocol}.
Notation Fk := (Forkable O (list (event O))).

(** [p] is what a forkable becomes that started above [lib] and received
    [inputs], numbered by [unum]. *)
Record reached (unum : string -> Z) cfg lib (inputs : list (Input O)) (p : Fk) : Prop := {
  r_pos : forall x, 0 <= unum x;
  r_plain : plain cfg;
  r_exclusive : includeInitialLIB cfg = false;
  r_lib : ID lib <> "" /\ Num lib = unum (ID lib);
  r_good : Forall (fun i => good unum (i_block i)) inputs;
  r_fed : (feed cfg inputs (New [] [WithExclusiveLIB lib]).2).2 = p;
}.

Context (unum : string -> Z).

Lemma feed_head cfg v0 : (forall x, 0 <= unum x) -> plain cfg -> includeInitialLIB cfg = false ->
  forall inputs pending (p : Fk),
  Inv unum v0 pending p -> Forall (fun i => good unum (i_block i)) inputs ->
  (forall h, lastBlockSent p = Some h -> good unum h) ->
  exists pending', Inv unum v0 pending' (feed cfg inputs p).2 /\
    forall h, lastBlockSent (feed cfg inputs p).2 = Some h -> good unum h.
Proof.
  intros Hpos Hpl Hinc. induction inputs as [|i inputs IH]; intros pending p HI Hg Hh; [by exists pending|].
  apply Forall_cons in Hg as [Hi Hg]. unfold feed. cbn [mfor].
  destruct (ProcessBlock_run unum Hpos cfg (i_now i) (i_later i) v0 pending p (i_block i)
    (i_obj i) Hpl HI Hi (or_introl Hinc)) as (r & q & E & Hst).
  destruct (st_inv _ _ _ _ _ _ _ Hst) as [pending' HI'].
  assert (Hq : forall h, lastBlockSent q = Some h -> good unum h).
  { intros h Eh. destruct (st_head _ _ _ _ _ _ _ Hst) as [E'|E']; rewrite E' in Eh;
      [by apply Hh|by injection Eh as <-]. }
  destruct (st_res _ _ _ _ _ _ _ Hst) as [->| ->].
  - erewrite bind_Ok by exact E. exact (IH pending' q HI' Hg Hq).
  - erewrite bind_Err by exact E. by exists pending'.
Qed.

Lemma reached_Inv cfg lib inputs (p : Fk) : reached unum cfg lib inputs p ->
  exists pending, Inv unum (mkView (ID lib) []) pending p /\
    forall h, lastBlockSent p = Some h -> good unum h.
Proof.
  intros [Hpos Hpl Hinc [Hid Hnum] Hg <-].
  destruct (feed_head cfg (mkView (ID lib) []) Hpos Hpl Hinc inputs [] _
    (Inv_exclusive unum Hpos lib Hid Hnum) Hg) as (pending & HI & Hh); [done|]. eauto.
Qed.

(** A cursor the database can resume from: its final block [fin] is stored and
    final, its block was above [fin] through [pend], and a block it has undone is
    not final on the current chain. *)
Record resumable_cursor (p : Fk) (c : Cursor) (block fin : BlockRef) (pend : list string) : Prop := {
  rc_block : cBlock c = Some block /\ Num block = unum (ID block);
  rc_fin : LIB c = Some fin /\ Num fin = unum (ID fin);
  rc_linked : is_Some (links (forkDB p) !! ID fin);
  rc_final : anc (forkDB p) (LIBID (forkDB p)) (ID fin);
  rc_pend : path (forkDB p) (ID block) pend (ID fin);
  rc_step : Step c ∈ [StepNew; StepUndo; StepNewIrreversible];
  rc_undo : Step c = StepUndo -> pend <> [] /\
    forall h, lastBlockSent p = Some h -> anc (forkDB p) (Id h) (ID block) ->
      LIBNum (forkDB p) < Num block;
}.
End Reached.

(** ** The example: a client left on 6a, which a longer branch replaced *)

#[local] Existing Instance proto0.

Definition kept10 : Config := mkConfig StepsAll BlockRefEmpty false false 10 false 0 0 0.

Definition fork_inputs : list (Input unit) :=
  ex_input <$> [("4a", "3a", 3); ("5a", "4a", 3); ("6a", "5a", 4); ("5b", "4a", 4);
                ("6b", "5b", 4); ("7b", "6b", 4)].

Definition fork_state : Forkable unit (list (event unit)) := (feed kept10 fork_inputs ex_start).2.

Definition ex_cursor : Cursor :=
  mkCursor StepNew (Some (NewBlockRef "6a" 6)) (Some (NewBlockRef "4a" 4)) (Some (NewBlockRef "6a" 6)).

Lemma fork_reached : reached ex_num kept10 ex_lib fork_inputs fork_state.
Proof.
  split; [apply ex_num_pos|done|done|by split| |reflexivity].
  repeat constructor; try discriminate; vm_compute; congruence.
Qed.

Ltac walk := repeat first [apply path_nil | eapply path_cons; [vm_compute; reflexivity|]].

Lemma ex_cursor_resumable :
  resumable_cursor ex_num fork_state ex_cursor (NewBlockRef "6a" 6) (NewBlockRef "4a" 4) ["6a"; "5a"].
Proof.
  split; try by split.
  - vm_compute. eauto.
  - exists []. assert (LIBID (forkDB fork_state) = "4a") as -> by (vm_compute; reflexivity). constructor.
  - walk.
  - vm_compute. left.
Qed.

Definition summaries (r : outcome (list (event unit))) : outcome (list (Z * string)) :=
  match r with Ok evs => Ok (map summary evs) | Err e => Err e | Panic w => Panic w | Diverge => Diverge end.

(** ** Properties *)

Lemma resume_Inv {O} `{Protocol} (unum : string -> Z) v0 up (p : Forkable O (list (event O))) hd c block fin pend :
  (forall x, 0 <= unum x) -> Inv unum v0 up p -> (forall h, lastBlockSent p = Some h -> good unum h) ->
  lastBlockSent p = Some hd -> LIBNum (forkDB p) = unum (LIBID (forkDB p)) ->
  resumable_cursor unum p c block fin pend ->
  exists evs, blocksFromCursor p c = Ok evs /\
    consume (mkView (ID fin) (if decide (Step c = StepUndo) then tail pend else pend)) evs =
      Some (mkView (LIBID (forkDB p)) up) /\
    path (forkDB p) (Id hd) up (LIBID (forkDB p)).
Proof.
  intros Hpos HI Hh Hlast HL [[Hcb Hbn] [Hcl Hln] Hlk (lo & Hlo) Hp Hst Hu].
  pose proof (I_last _ _ _ _ HI) as Hup. rewrite Hlast in Hup. destruct Hup as [Hup _].
  pose proof (I_db _ _ _ _ HI) as Hd.
  destruct (blocksFromCursor_run unum Hpos p Hd hd Hlast (g_num _ _ (Hh _ Hlast)) (ID fin) up lo Hup Hlo
    Hlk HL (Step c) block fin (HeadBlock c) pend) as (evs & E & C).
  { split_and!; try done. intros Es. destruct (Hu Es) as [Hne Habove]. split; [done|].
    intros Hin. apply (Habove hd Hlast).
    destruct (path_split _ _ _ _ _ (path_app _ _ _ _ _ _ Hup Hlo) Hin) as (l1 & l2 & _ & H1 & _).
    by exists l1. }
  exists evs. split; [|by split]. rewrite <- E. destruct c; cbn in *. by subst.
Qed.

(** C10: a client that disconnected with a cursor (its final block stored, its
    block anywhere above it, forked or not) receives from [blocksFromCursor]
    exactly what its view needs: the blocks of its branch undone down to the
    fork, then the final blocks it missed, announced as final if it had them and
    as new and final if not, then the new ones; it ends with the LIB and the
    chain of the forkable. *)
Theorem blocksFromCursor_resumes {O} `{Protocol} (unum : string -> Z) cfg lib inputs
  (p : Forkable O (list (event O))) hd c block fin pend :
  reached unum cfg lib inputs p -> lastBlockSent p = Some hd ->
  LIBNum (forkDB p) = unum (LIBID (forkDB p)) ->
  resumable_cursor unum p c block fin pend ->
  exists evs pending, blocksFromCursor p c = Ok evs /\
    consume (mkView (ID fin) (if decide (Step c = StepUndo) then tail pend else pend)) evs =
      Some (mkView (LIBID (forkDB p)) pending) /\
    path (forkDB p) (Id hd) pending (LIBID (forkDB p)).
Proof.
  intros HR Hlast HL Hc. destruct (reached_Inv _ _ _ _ _ HR) as (up & HI & Hh).
  destruct (resume_Inv unum _ up p hd c block fin pend (r_pos _ _ _ _ _ HR) HI Hh Hlast HL Hc)
    as (evs & E & C & P). eauto.
Qed.

Lemma blocksFromCursor_resumes_witness :
  (exists evs pending, blocksFromCursor fork_state ex_cursor = Ok evs /\
     consume (mkView "4a" ["6a"; "5a"]) evs = Some (mkView "4a" pending) /\
     path (forkDB fork_state) "7b" pending "4a") /\
  summaries (blocksFromCursor fork_state ex_cursor) =
    Ok [(2, "6a"); (2, "5a"); (1, "5b"); (1, "6b"); (1, "7b")].
Proof.
  split; [|vm_compute; reflexivity].
  exact (blocksFromCursor_resumes ex_num kept10 ex_lib fork_inputs fork_state (ex_block "7b" "6b" 4) ex_cursor
    (NewBlockRef "6a" 6) (NewBlockRef "4a" 4) ["6a"; "5a"] fork_reached
    ltac:(vm_compute; reflexivity) ltac:(vm_compute; reflexivity) ex_cursor_resumable).
Defined.

(** C26: a client that asks for the number of a final block still stored starts
    on that block's parent: [blocksFromNum] sends it the final blocks from that
    number as new and final, in order, then the blocks above the LIB as new, up
    to the head. *)
Theorem blocksFromNum_starts {O} `{Protocol} (unum : string -> Z) cfg lib inputs
  (p : Forkable O (list (event O))) hd x parent :
  reached unum cfg lib inputs p -> lastBlockSent p = Some hd ->
  LIBNum (forkDB p) = unum (LIBID (forkDB p)) ->
  anc (forkDB p) (LIBID (forkDB p)) x -> links (forkDB p) !! x = Some parent ->
  exists evs pending, blocksFromNum p (unum x) = Ok evs /\
    consume (mkView parent []) evs = Some (mkView (LIBID (forkDB p)) pending) /\
    path (forkDB p) (Id hd) pending (LIBID (forkDB p)).
Proof.
  intros HR Hlast HL (lo & Hlo) Hx.
  pose proof (r_pos _ _ _ _ _ HR) as Hpos. destruct (reached_Inv _ _ _ _ _ HR) as (up & HI & Hh).
  pose proof (I_last _ _ _ _ HI) as Hup. rewrite Hlast in Hup. destruct Hup as [Hup _].
  destruct (blocksFromNum_run unum Hpos p (I_db _ _ _ _ HI) hd up lo x parent Hlast
    (g_num _ _ (Hh _ Hlast)) Hup Hlo Hx HL) as (evs & E & C). eauto.
Qed.

Lemma blocksFromNum_starts_witness :
  (exists evs pending, blocksFromNum fork_state 4 = Ok evs /\
     consume (mkView "3a" []) evs = Some (mkView "4a" pending) /\
     path (forkDB fork_state) "7b" pending "4a") /\
  summaries (blocksFromNum fork_state 4) =
    Ok [(17, "4a"); (1, "5b"); (1, "6b"); (1, "7b")].
Proof.
  split; [|vm_compute; reflexivity].
  exact (blocksFromNum_starts ex_num kept10 ex_lib fork_inputs fork_state (ex_block "7b" "6b" 4) "4a" "3a"
    fork_reached ltac:(vm_compute; reflexivity) ltac:(vm_compute; reflexivity)
    (ex_intro _ [] (path_nil _ _)) ltac:(vm_compute; reflexivity)).
Defined.

(** ** Where the replays part from the live events *)

(** The block 5a was undone, the client left, and 5a then became canonical again
    and final: it is announced as final to a client that does not have it, while
    the client would have needed it as new. *)
Definition undone_inputs : list (Input unit) :=
  ex_input <$> [("4a", "3a", 3); ("5a", "4a", 4); ("5b", "4a", 4); ("6b", "5b", 4);
                ("6a", "5a", 4); ("7a", "6a", 5)].

Definition undone_state : Forkable unit (list (event unit)) := (feed kept10 undone_inputs ex_start).2.

Definition undone_cursor : Cursor :=
  mkCursor StepUndo (Some (NewBlockRef "5a" 5)) (Some (NewBlockRef "4a" 4)) (Some (NewBlockRef "6b" 6)).

Lemma undone_then_final :
  summaries (blocksFromCursor undone_state undone_cursor) = Ok [(16, "5a"); (1, "6a"); (1, "7a")] /\
  match blocksFromCursor undone_state undone_cursor with
  | Ok evs => consume (mkView "4a" []) evs = None
  | _ => False
  end.
Proof. split; vm_compute; reflexivity. Qed.

(** The chain has no block 5 and a head whose LIB number is 5: the LIB becomes
    6a under the number 5.  6a was sent as final; a client that comes back with
    a cursor on 7a is not told, and the two views part. *)
Definition gap_inputs : list (Input unit) :=
  ex_input <$> [("4a", "3a", 3); ("6a", "4a", 4); ("7a", "6a", 5)].

Definition gap_state : Forkable unit (list (event unit)) := (feed kept10 gap_inputs ex_start).2.

Definition gap_cursor : Cursor :=
  mkCursor StepNew (Some (NewBlockRef "7a" 7)) (Some (NewBlockRef "4a" 4)) (Some (NewBlockRef "7a" 7)).

Lemma skipped_lib_number :
  libRef (forkDB gap_state) = NewBlockRef "6a" 5 /\
  (summary <$> events gap_state) = [(1, "4a"); (1, "6a"); (16, "4a"); (1, "7a"); (16, "6a")] /\
  blocksFromCursor gap_state gap_cursor = Ok [].
Proof. split_and!; vm_compute; reflexivity. Qed.

(** [Linkable] looks the parent's parent up: a block on top of the LIB is not
    linkable, a block two above it is. *)
Lemma Linkable_above_lib :
  LIBID (forkDB fork_state) = "4a" /\
  Linkable fork_state (ex_block "5c" "4a" 4) = Ok false /\
  Linkable fork_state (ex_block "6c" "5b" 4) = Ok true.
Proof. split_and!; vm_compute; reflexivity. Qed.

(** A forkable that only processed its inclusive LIB has a head outside of the
    database: the query for the lowest block panics. *)
Definition inclusive_state : Forkable unit (list (event unit)) :=
  (ProcessBlock (mkConfig StepsAll BlockRefEmpty false false 0 true 0 0 0) recorder 0 0
     (ex_block "3a" "2a" 2) None (New [] [WithInclusiveLIB ex_lib]).2).2.

Lemma LowestBlockNum_panics :
  HeadNum inclusive_state = 3 /\ is_Panic (LowestBlockNum inclusive_state) = true.
Proof. split; vm_compute; reflexivity. Qed.

(** [InitLIB] numbers the LIB without an object: asking for the blocks at its
    number panics. *)
Lemma AllBlocksAt_panics :
  is_Panic (AllBlocksAt (map_to_list (nums (forkDB ex_start))) ex_start 3) = true.
Proof. vm_compute. reflexivity. Qed.
