(* ===== verification/ResumeThrough.v ===== *)
(** * Passing through a cursor ([blocksThroughCursor])

    A client without a state asks for the blocks from a number up to the block of
    a cursor, on its branch, and then for what brings it to the head.  The events
    carry the LIB of the forkable, or of the cursor, even on blocks below it: it
    is the cursor made of the event that tells the client what is final. *)

From S2P Require Import Prelude Loops GoStrings Types ForkDB ForkDBFacts Forkable Consumer ForkableFacts.
From S2P Require Import ForkableInv ForkableStep ForkableSend ForkableProps ForkableQueries Resume ResumeProps.

(** An event with the LIB of its cursor. *)
Definition as_cursor {O} (ev : event O) : event O :=
  match ev.2 with
  | IForkable fo =>
      (ev.1, IForkable (mkForkableObject (fo_step fo) (StepCount fo) (StepIndex fo) (StepBlocks fo)
        (fo_reorgJunctionBlock fo) (headBlock fo) (fo_block fo) (LIB (FO_Cursor (Some fo))) (fo_Obj fo)))
  | _ => ev
  end.

Section Through.
Context {O : Type} `{Protocol} (unum : string -> Z) (unum_pos : forall x, 0 <= unum x).
Context (p : Forkable O (list (event O))) (Hd : db_ok unum (heap p) (forkDB p)).
Notation db := (forkDB p).
Notation numbered := (numbered_node unum p).

(** A selection with the LIB of the cursors. *)
Definition cursor_lib (f : ForkBlock loc -> option (Z * BlockRef)) (b : ForkBlock loc) : option (Z * BlockRef) :=
  (fun '(step, lib) => (step, if BlockNum b <? Num lib then ForkBlock_AsRef b else lib)) <$> f b.

(** A node of the database and the block it holds. *)
Definition held (b : ForkBlock loc) : Prop :=
  exists fb, node_at p b fb /\ AsRef (Some (fb_Block fb)) = ForkBlock_AsRef b.

Lemma numbered_held nb x q : numbered nb x -> links db !! x = Some q -> held nb.
Proof.
  intros [(Hid & Ho & _) Hn] Hx. destruct (d_link _ _ _ Hd _ _ Hx) as (fb & (k & H1 & H2) & Hg & He & _).
  exists fb. split; [exists k; by rewrite Ho|]. unfold AsRef, ForkBlock_AsRef.
  by rewrite Hid, Hn, (g_num _ _ Hg), He.
Qed.

Lemma path_held x l y nodes : path db x l y -> Forall2 numbered nodes l -> Forall held nodes.
Proof.
  intros Hp. revert nodes. induction Hp as [x|x q l y Hx Hp IH]; intros nodes HF; inversion HF; subst; constructor.
  - by eapply numbered_held.
  - by apply IH.
Qed.

Lemma sendSeg_as_cursor f h nodes evs : Forall held nodes ->
  sendSeg p (cursor_lib f) h nodes = Ok evs ->
  exists evs', sendSeg p f h nodes = Ok evs' /\ as_cursor <$> evs' = evs.
Proof.
  intros HF. revert evs. unfold sendSeg. induction HF as [|b nodes (fb & (k & Ho & Hk) & Hr) _ IH]; intros evs E.
  { injection E as <-. by exists []. }
  cbn in E |- *. unfold cursor_lib at 1 in E.
  destruct (f b) as [[step lib]|]; cbn in E |- *; [|by apply IH].
  unfold fb_at in *. rewrite Ho, Hk in *. cbn in E |- *.
  apply outcome_bind_Ok in E as (evs0 & E0 & [=<-]). destruct (IH _ E0) as (evs' & -> & <-).
  eexists. split; [done|]. rewrite fmap_cons. f_equal.
  unfold as_cursor, wrapBlockForkableObject. cbn. cbn in Hr.
  assert (En : Number (fb_Block fb) = BlockNum b) by by injection Hr. rewrite Hr, En.
  by destruct (BlockNum b <? Num lib).
Qed.

(** *** From a final block of the canonical chain *)

(** The selection of the canonical case, and of the forked one on the blocks it
    reaches: from [start], up to the blocks [upto] keeps, the final ones by [lib]. *)
Definition from_start (start : Z) (lib : BlockRef) (upto : ForkBlock loc -> bool) (b : ForkBlock loc)
  : option (Z * BlockRef) :=
  if BlockNum b <? start then None
  else if upto b then Some (if BlockNum b <=? Num lib then StepNewIrreversible else StepNew, lib) else None.

(** A run over the segment that goes down through [top], the final block, and
    [x], the first block asked: the view of a client that starts there. *)
Lemma start_run lib upto h hd up top lo x q below bot nodes :
  ID lib = top -> Num lib = unum top -> path db hd up top -> path db top lo x -> links db !! x = Some q ->
  path db x (x :: below) bot -> Forall2 numbered nodes (up ++ lo ++ x :: below) ->
  (forall nb z, numbered nb z -> z ∈ up ++ lo ++ [x] -> upto nb = true) ->
  exists evs, sendSeg p (from_start (unum x) lib upto) h (reverse nodes) = Ok evs /\
    consume (mkView q []) (as_cursor <$> evs) = Some (mkView top up).
Proof.
  intros Hlid Hlib Hup Hlo Hx Hb HN Hupto.
  pose proof (path_cons_head _ _ _ _ _ Hb) as (_ & q' & Hq' & Hb'). rewrite Hx in Hq'. injection Hq' as <-.
  pose proof (path_snoc _ _ _ _ _ Hlo Hx) as Hlo'.
  pose proof (path_held _ _ _ _ (path_app _ _ _ _ _ _ Hup (path_app _ _ _ _ _ _ Hlo Hb)) HN) as Hheld.
  assert (Hxl : forall z, z ∈ lo ++ [x] -> unum x <= unum z <= unum top /\ (unum z = unum top -> z = top)).
  { intros z Hz. destruct (path_split _ _ _ _ _ Hlo' Hz) as (l1 & l2 & E & H1 & H2).
    pose proof (db_path_le _ _ _ _ _ _ Hd H1). split; [split; [|done]|].
    - apply elem_of_app in Hz as [Hz|Hz%list_elem_of_singleton]; [|by subst].
      pose proof (path_above unum p Hd _ _ _ _ Hlo Hz). lia.
    - intros Ez. destruct l1 as [|a l1]; [by inversion H1|].
      pose proof (db_path_dec _ _ _ _ _ _ Hd H1 ltac:(done)). lia. }
  replace (up ++ lo ++ x :: below) with (up ++ (lo ++ [x]) ++ [] ++ below) in HN by by rewrite <- !app_assoc.
  destruct (resume_lower unum p Hd (cursor_lib (from_start (unum x) lib upto)) h nodes up (lo ++ [x]) [] below
    hd top q q Hup Hlo' (path_nil _ _) HN) as (evs & E & C).
  - intros nb z Hnz Hz. rewrite <- Hlid. pose proof (path_above unum p Hd _ _ _ _ Hup Hz).
    pose proof (db_path_le _ _ _ _ _ _ Hd Hlo).
    unfold cursor_lib, from_start. rewrite (Hupto _ _ Hnz) by set_solver. destruct Hnz as [_ ->]. rewrite Hlib.
    zcases; try lia. cbn. zcases; try lia. by eexists.
  - intros nb z Hnz Hz. destruct (Hxl z Hz) as [Hle Heq].
    unfold cursor_lib, from_start. rewrite (Hupto _ _ Hnz) by set_solver. destruct Hnz as [(Hid & _) ->]. rewrite Hlib.
    zcases; try lia. cbn. zcases; try lia; eexists; (split; [done|]); [done|].
    rewrite Hlid. symmetry. apply Heq. lia.
  - intros nb z _ Hz. by apply elem_of_nil in Hz.
  - intros nb z [_ Hn] Hz. unfold cursor_lib, from_start. pose proof (path_above unum p Hd _ _ _ _ Hb' Hz).
    destruct (db_link_dec _ _ _ _ _ Hd Hx). rewrite Hn. zcases; try lia. done.
  - destruct (sendSeg_as_cursor _ _ _ _ (proj2 (Forall_reverse _ _) Hheld) E) as (evs' & E' & <-). eauto.
Qed.

(** A block above [x] that the head leads to is on the segment that goes down
    through [x]. *)
Lemma on_segment hd l x below bot y : path db hd (l ++ x :: below) bot -> path db x (x :: below) bot ->
  unum x <= unum y -> anc db hd y -> y ∈ l ++ x :: below.
Proof.
  intros Hall Hb Hle (k & Hk). pose proof (db_path_dec _ _ _ _ _ _ Hd Hb ltac:(done)).
  destruct (path_compare _ _ _ _ _ _ Hk Hall) as [(r & El & Hr)|(r & El & Hr)].
  - destruct r as [|z r]; [inversion Hr; subst; lia|]. pose proof (path_head _ _ _ _ _ Hr) as ->.
    rewrite El. set_solver.
  - pose proof (db_path_le _ _ _ _ _ _ Hd Hr). lia.
Qed.

(** *** The branch of the cursor *)

Definition reaches (step : Z) (block : BlockRef) (b : ForkBlock loc) : bool :=
  (BlockNum b <? Num block) || ((BlockNum b =? Num block) && negb (Matches step StepUndo)).

Lemma throughCursor_run start step block lib h nodes lst :
  Forall held (nodes ++ [lst]) -> Forall (fun b => BlockNum b < Num block) nodes ->
  BlockNum lst = Num block -> start <= Num block ->
  exists out, throughCursor p start step block (Some lib) h (nodes ++ [lst]) = Ok (true, out) /\
    sendSeg p (from_start start lib (reaches step block)) h (nodes ++ [lst]) = Ok out.
Proof.
  intros HF Hlt Hl Hs. induction nodes as [|b nodes IH].
  - apply Forall_cons in HF as [(fb & (k & Ho & Hk) & Hr) _]. cbn [app throughCursor].
    assert (Efb : fb_at p (Object lst) = Ok fb) by by unfold fb_at; rewrite Ho, Hk.
    unfold sendSeg. cbn [omap list_omap fmap option_fmap option_map].
    assert (En : Number (fb_Block fb) = BlockNum lst) by by injection Hr.
    unfold from_start, reaches. rewrite Efb, Hl. cbn [deref mbind outcome_bind]. rewrite En, Hl.
    rewrite Z.ltb_irrefl, Z.eqb_refl. destruct (Z.ltb_spec (Num block) start); [lia|]. cbn [orb andb].
    destruct (negb _); (eexists; split; [done|]); [|done]. cbn. by rewrite Efb.
  - apply Forall_cons in HF as [(fb & (k & Ho & Hk) & Hr) HF]. apply Forall_cons in Hlt as [Hb Hlt].
    destruct (IH HF Hlt) as (out & E1 & E2). cbn [app throughCursor].
    assert (Efb : fb_at p (Object b) = Ok fb) by by unfold fb_at; rewrite Ho, Hk.
    assert (En : Number (fb_Block fb) = BlockNum b) by by injection Hr.
    assert (Es : sendSeg p (from_start start lib (reaches step block)) h (b :: nodes ++ [lst]) =
      if BlockNum b <? start then Ok out else
      Ok (wrapBlockForkableObject fb (if BlockNum b <=? Num lib then StepNewIrreversible else StepNew) h lib None :: out)).
    { unfold sendSeg in *. cbn [omap list_omap]. unfold from_start at 1, reaches at 1.
      destruct (Z.ltb_spec (BlockNum b) start); cbn [fmap option_fmap option_map]; [exact E2|].
      destruct (Z.ltb_spec (BlockNum b) (Num block)); [|lia]. cbn [orb fmap option_fmap option_map collect].
      rewrite Efb. cbn [mbind outcome_bind]. by rewrite E2. }
    rewrite Es, E1. destruct (BlockNum b <? start); [eauto|]. rewrite Efb.
    cbn [deref mbind outcome_bind]. rewrite En. destruct (Z.ltb_spec (BlockNum b) (Num block)); [|lia].
    destruct (Z.eqb_spec (BlockNum b) (Num block)); [lia|]. cbn [orb mbind outcome_bind]. eauto.
Qed.

Lemma reaches_undo step : step ∈ [StepNew; StepUndo; StepNewIrreversible] ->
  Matches step StepUndo = bool_decide (step = StepUndo).
Proof.
  intros Hs. repeat (apply elem_of_cons in Hs as [->|Hs]; [by vm_compute|]). by apply elem_of_nil in Hs.
Qed.

Lemma branch_run step block lib h pend lo x q below bot nodes :
  Num block = unum (ID block) -> Num lib = unum (ID lib) -> path db (ID block) pend (ID lib) ->
  path db (ID lib) lo x -> links db !! x = Some q -> path db x (x :: below) bot ->
  Forall2 numbered nodes (pend ++ lo ++ x :: below) ->
  step ∈ [StepNew; StepUndo; StepNewIrreversible] -> (step = StepUndo -> pend <> []) ->
  exists out, throughCursor p (unum x) step block (Some lib) h (reverse nodes) = Ok (true, out) /\
    consume (mkView q []) (as_cursor <$> out) =
      Some (mkView (ID lib) (if decide (step = StepUndo) then tail pend else pend)).
Proof.
  intros Hbn Hlib Hpend Hlo Hx Hb HN Hst Hundo. pose proof (reaches_undo _ Hst) as Hm.
  pose proof (path_app _ _ _ _ _ _ Hpend (path_app _ _ _ _ _ _ Hlo Hb)) as Hall.
  pose proof (path_held _ _ _ _ Hall HN) as Hheld.
  assert (Hxb : unum x <= Num block).
  { rewrite Hbn. eapply (db_path_le _ _ _ _ _ _ Hd), path_app; [exact Hpend|exact Hlo]. }
  destruct (pend ++ lo ++ x :: below) as [|z rest] eqn:Er; [by destruct pend, lo|].
  apply path_cons_head in Hall as (-> & q0 & Hq0 & Hrest).
  inversion HN as [|nb ? nodes' ? [(Hnid & _) Hnb] HN']; subst.
  destruct (db_link_dec _ _ _ _ _ Hd Hq0) as [Hdec _].
  assert (Hlt : forall nb' z, numbered nb' z -> z ∈ rest -> BlockNum nb' < Num block).
  { intros nb' z [_ ->] Hz. pose proof (path_above unum p Hd _ _ _ _ Hrest Hz). lia. }
  rewrite reverse_cons. destruct (throughCursor_run (unum x) step block lib h (reverse nodes') nb) as (out & E1 & E2).
  { apply Forall_app. apply Forall_cons in Hheld as [? ?]. by split; [apply Forall_reverse|constructor]. }
  { apply Forall_reverse, Forall_forall. intros nb' Hin. apply list_elem_of_lookup in Hin as [i Hi].
    destruct (Forall2_lookup_l _ _ _ _ _ HN' Hi) as (z & Hz & Hn). eapply Hlt; [done|].
    by eapply list_elem_of_lookup_2. }
  { lia. } { done. }
  exists out. split; [done|]. destruct (decide (step = StepUndo)) as [->|Hne].
  - destruct pend as [|z pend]; [by destruct Hundo|]. cbn [app tail] in Er |- *. injection Er as -> <-.
    apply path_cons_head in Hpend as (_ & q1 & Hq1 & Hpend). rewrite Hq0 in Hq1. injection Hq1 as <-.
    destruct (start_run lib (reaches StepUndo block) h q0 pend (ID lib) lo x q below bot nodes')
      as (evs & Ee & C); try done.
    { intros nb' z Hn Hz. unfold reaches. rewrite (proj2 (Z.ltb_lt _ _)); [done|]. apply (Hlt _ _ Hn). set_solver. }
    assert (En : sendSeg p (from_start (unum x) lib (reaches StepUndo block)) h [nb] = Ok []).
    { apply sendSeg_none. repeat constructor. unfold from_start, reaches.
      rewrite Hnb, <- Hbn, Z.ltb_irrefl, Z.eqb_refl. by destruct (_ <? _). }
    pose proof (sendSeg_app _ _ _ _ _ _ _ Ee En) as Ea.
    rewrite E2, app_nil_r in Ea. by injection Ea as ->.
  - rewrite bool_decide_false in Hm by done. rewrite <- Er in HN.
    destruct (start_run lib (reaches step block) h (ID block) pend (ID lib) lo x q below bot (nb :: nodes'))
      as (evs & Ee & C); try done.
    { intros nb' z [_ Hn] Hz. unfold reaches. rewrite Hm, Hn. apply orb_true_iff.
      assert (Hz' : z ∈ BlockID nb :: rest) by (rewrite Hnid, <- Er; set_solver).
      apply elem_of_cons in Hz' as [->|Hz'].
      - right. rewrite Hnid, Hbn, Z.eqb_refl. done.
      - left. apply Z.ltb_lt. pose proof (path_above unum p Hd _ _ _ _ Hrest Hz'). lia. }
    rewrite reverse_cons in Ee. rewrite Ee in E2. by injection E2 as <-.
Qed.
End Through.

(** What a client is sent through a cursor, over a forkable that follows. *)
Lemma through_Inv {O} `{Protocol} (unum : string -> Z) v0 up (p : Forkable O (list (event O))) hd c block fin pend x q :
  (forall x, 0 <= unum x) -> Inv unum v0 up p -> (forall h, lastBlockSent p = Some h -> good unum h) ->
  lastBlockSent p = Some hd -> LIBNum (forkDB p) = unum (LIBID (forkDB p)) ->
  resumable_cursor unum p c block fin pend ->
  anc (forkDB p) (ID fin) x -> links (forkDB p) !! x = Some q ->
  anc (forkDB p) (Id hd) (ID block) \/ anc (forkDB p) (ID block) (LIBID (forkDB p)) ->
  exists out back held, blocksThroughCursor p (unum x) c = Ok (out ++ back) /\
    consume (mkView q []) (as_cursor <$> out) = Some held /\
    consume held back = Some (mkView (LIBID (forkDB p)) up) /\
    path (forkDB p) (Id hd) up (LIBID (forkDB p)) /\
    (back = [] /\ anc (forkDB p) (Id hd) (ID block) \/
     blocksFromCursor p c = Ok back /\
     held = mkView (ID fin) (if decide (Step c = StepUndo) then tail pend else pend)).
Proof.
  intros Hpos HI Hh Hlast HL Hc (lo2 & Hlo2) Hx Hbr.
  destruct (resume_Inv unum v0 up p hd c block fin pend Hpos HI Hh Hlast HL Hc) as (back & Eback & Cback & Hup).
  destruct Hc as [[Hcb Hbn] [Hcl Hln] _ (lo1 & Hlo1) Hpend Hst Hundo].
  pose proof (I_db _ _ _ _ HI) as Hd. pose proof (path_app _ _ _ _ _ _ Hlo1 Hlo2) as Hlo.
  destruct (segment_through unum Hpos p Hd (AsRef (Some hd)) x up (lo1 ++ lo2) (g_num _ _ (Hh _ Hlast)) Hup Hlo
    (mk_is_Some _ _ Hx)) as (below & bot & nodes & first & Hb & HN & Hseg & Hf & Hle).
  unfold blocksThroughCursor. rewrite (HasLIB_ok _ _ _ Hd), Hlast. cbn [negb]. rewrite Hseg.
  cbn [mbind outcome_bind]. destruct (reverse nodes) as [|f rest] eqn:Er; [done|]. injection Hf as ->.
  destruct (Z.ltb_spec (unum x) (BlockNum first)); [lia|]. rewrite <- Er.
  rewrite Hcb. cbn [deref mbind outcome_bind]. rewrite (blockIn_spec unum Hpos p Hd _ _ _ HN). case_bool_decide as Hin.
  - destruct (start_run unum Hpos p Hd (libRef (forkDB p)) (fun _ => true) (AsRef (Some hd)) (Id hd) up _ (lo1 ++ lo2) x q
      below bot nodes eq_refl HL Hup Hlo Hx Hb HN) as (out & E & C); [done|].
    exists out, [], (mkView (LIBID (forkDB p)) up). rewrite app_nil_r. split_and!; try done.
    left. split; [done|]. destruct (path_split _ _ _ _ _ (path_app _ _ _ _ _ _ Hup (path_app _ _ _ _ _ _ Hlo Hb)) Hin)
      as (l1 & l2 & _ & H1 & _). by exists l1.
  - assert (Hreach : anc (forkDB p) (ID block) (LIBID (forkDB p))).
    { destruct Hbr as [Hbr|]; [exfalso; apply Hin|done]. rewrite app_assoc.
      eapply (on_segment unum Hpos p Hd); [rewrite <- app_assoc; by eapply path_app, path_app|exact Hb| |exact Hbr].
      pose proof (db_path_le _ _ _ _ _ _ Hd Hlo2). pose proof (db_path_le _ _ _ _ _ _ Hd Hpend). lia. }
    destruct Hreach as (pend1 & Hp1).
    pose proof (db_path_unique _ _ _ _ _ _ _ Hd Hpend (path_app _ _ _ _ _ _ Hp1 Hlo1)) as ->.
    destruct (segment_through unum Hpos p Hd block x pend1 (lo1 ++ lo2) Hbn Hp1 Hlo (mk_is_Some _ _ Hx))
      as (below' & bot' & nodes' & first' & Hb' & HN' & Hseg' & Hf' & Hle').
    rewrite Hseg'. cbn [mbind outcome_bind]. destruct (reverse nodes') as [|f' rest'] eqn:Er'; [done|].
    injection Hf' as ->. destruct (Z.ltb_spec (unum x) (BlockNum first')); [lia|]. rewrite <- Er'.
    replace (pend1 ++ (lo1 ++ lo2) ++ x :: below') with ((pend1 ++ lo1) ++ lo2 ++ x :: below') in HN'
      by by rewrite <- !app_assoc.
    destruct (branch_run unum Hpos p Hd (Step c) block fin (AsRef (Some hd)) (pend1 ++ lo1) lo2 x q below' bot' nodes')
      as (out & E & C); try done; [by intros Es; destruct (Hundo Es)|].
    rewrite Hcl, E. cbn [mbind outcome_bind negb]. rewrite Eback. cbn [mbind outcome_bind].
    eexists out, back, _. split_and!; try done. by right.
Qed.

(** The block of the cursor is on the chain of the head: it does not matter where
    its final block is. *)
Lemma through_chain {O} `{Protocol} (unum : string -> Z) v0 up (p : Forkable O (list (event O))) hd c block x q :
  (forall x, 0 <= unum x) -> Inv unum v0 up p -> (forall h, lastBlockSent p = Some h -> good unum h) ->
  lastBlockSent p = Some hd -> LIBNum (forkDB p) = unum (LIBID (forkDB p)) -> cBlock c = Some block ->
  anc (forkDB p) (LIBID (forkDB p)) x -> links (forkDB p) !! x = Some q ->
  anc (forkDB p) (Id hd) (ID block) -> unum x <= unum (ID block) ->
  exists out, blocksThroughCursor p (unum x) c = Ok out /\
    consume (mkView q []) (as_cursor <$> out) = Some (mkView (LIBID (forkDB p)) up).
Proof.
  intros Hpos HI Hh Hlast HL Hcb (lo & Hlo) Hx Hhd Hxb.
  pose proof (I_db _ _ _ _ HI) as Hd. pose proof (I_last _ _ _ _ HI) as Hup. rewrite Hlast in Hup. destruct Hup as [Hup _].
  destruct (segment_through unum Hpos p Hd (AsRef (Some hd)) x up lo (g_num _ _ (Hh _ Hlast)) Hup Hlo
    (mk_is_Some _ _ Hx)) as (below & bot & nodes & first & Hb & HN & Hseg & Hf & Hle).
  unfold blocksThroughCursor. rewrite (HasLIB_ok _ _ _ Hd), Hlast. cbn [negb]. rewrite Hseg.
  cbn [mbind outcome_bind]. destruct (reverse nodes) as [|f rest] eqn:Er; [done|]. injection Hf as ->.
  destruct (Z.ltb_spec (unum x) (BlockNum first)); [lia|]. rewrite <- Er.
  rewrite Hcb. cbn [deref mbind outcome_bind]. rewrite (blockIn_spec unum Hpos p Hd _ _ _ HN). rewrite bool_decide_true.
  - exact (start_run unum Hpos p Hd (libRef (forkDB p)) (fun _ => true) (AsRef (Some hd)) (Id hd) up _ lo x q
      below bot nodes eq_refl HL Hup Hlo Hx Hb HN (fun _ _ _ _ => eq_refl)).
  - rewrite app_assoc. eapply (on_segment unum Hpos p Hd); [rewrite <- app_assoc; by eapply path_app, path_app|exact Hb|done|exact Hhd].
Qed.

(** ** Properties *)

(** C11: a client that starts at a final block still stored and asks to pass through
    a cursor the database can resume gets, when the block of the cursor is on the
    chain of the head, that chain from its start; else the branch of the cursor
    from its start up to where the cursor left, then the replay from the cursor,
    which undoes it.  By the cursors of the events, it holds a chain at every
    moment, the view of the cursor where it passes it, and ends with the LIB and
    the chain of the forkable. *)
Theorem blocksThroughCursor_passes {O} `{Protocol} (unum : string -> Z) cfg lib inputs
  (p : Forkable O (list (event O))) hd c block fin pend x q :
  reached unum cfg lib inputs p -> lastBlockSent p = Some hd ->
  LIBNum (forkDB p) = unum (LIBID (forkDB p)) ->
  resumable_cursor unum p c block fin pend ->
  anc (forkDB p) (ID fin) x -> links (forkDB p) !! x = Some q ->
  anc (forkDB p) (Id hd) (ID block) \/ anc (forkDB p) (ID block) (LIBID (forkDB p)) ->
  exists out back held pending, blocksThroughCursor p (unum x) c = Ok (out ++ back) /\
    consume (mkView q []) (as_cursor <$> out) = Some held /\
    consume held back = Some (mkView (LIBID (forkDB p)) pending) /\
    path (forkDB p) (Id hd) pending (LIBID (forkDB p)) /\
    (back = [] /\ anc (forkDB p) (Id hd) (ID block) \/
     blocksFromCursor p c = Ok back /\
     held = mkView (ID fin) (if decide (Step c = StepUndo) then tail pend else pend)).
Proof.
  intros HR Hlast HL Hc Hfin Hx Hbr. destruct (reached_Inv _ _ _ _ _ HR) as (up & HI & Hh).
  destruct (through_Inv unum _ up p hd c block fin pend x q (r_pos _ _ _ _ _ HR) HI Hh Hlast HL Hc Hfin Hx Hbr)
    as (out & back & held & E). by exists out, back, held, up.
Qed.

Lemma blocksThroughCursor_passes_witness :
  (exists out back held pending, blocksThroughCursor fork_state 4 ex_cursor = Ok (out ++ back) /\
     consume (mkView "3a" []) (as_cursor <$> out) = Some held /\
     consume held back = Some (mkView "4a" pending) /\
     path (forkDB fork_state) "7b" pending "4a" /\
     (back = [] /\ anc (forkDB fork_state) "7b" "6a" \/
      blocksFromCursor fork_state ex_cursor = Ok back /\ held = mkView "4a" ["6a"; "5a"])) /\
  summaries (blocksThroughCursor fork_state 4 ex_cursor) =
    Ok [(17, "4a"); (1, "5a"); (1, "6a"); (2, "6a"); (2, "5a"); (1, "5b"); (1, "6b"); (1, "7b")].
Proof.
  split; [|vm_compute; reflexivity].
  exact (blocksThroughCursor_passes ex_num kept10 ex_lib fork_inputs fork_state (ex_block "7b" "6b" 4) ex_cursor
    (NewBlockRef "6a" 6) (NewBlockRef "4a" 4) ["6a"; "5a"] "4a" "3a" fork_reached
    ltac:(vm_compute; reflexivity) ltac:(vm_compute; reflexivity) ex_cursor_resumable
    (ex_intro _ [] (path_nil _ _)) ltac:(vm_compute; reflexivity)
    (or_intror (ex_intro _ ["6a"; "5a"] (rc_pend _ _ _ _ _ _ ex_cursor_resumable)))).
Defined.
