(* ===== verification/Cursors.v ===== *)
(** * Cursors ([cursor.go])

    The printed form of a cursor and its parser.  The references of a cursor
    are interfaces: a method call on a nil one panics.  The opaque encoding is
    an external library: two functions, [decode] undoing [encode]. *)

From S2P Require Import Prelude GoStrings Types.
From Stdlib Require Import Ascii.

Module Cursors.

Definition IsOnFinalBlock (c : Cursor) : outcome bool :=
  b ← deref (cBlock c); l ← deref (LIB c); Ok (Num b =? Num l).

Definition no_id (r : option BlockRef) : bool :=
  match r with None => true | Some r => bool_decide (ID r = "") end.

Definition Cursor_IsEmpty (c : option Cursor) : bool :=
  match c with
  | None => true
  | Some c => no_id (cBlock c) || no_id (HeadBlock c) || no_id (LIB c)
  end.

Definition Cursor_Equals (c cc : option Cursor) : outcome bool :=
  if Cursor_IsEmpty c then Ok (Cursor_IsEmpty cc)
  else
    match c, cc with
    | Some c, Some cc =>
        b ← deref (cBlock c); b' ← deref (cBlock cc);
        if negb (bool_decide (ID b = ID b')) then Ok false
        else
          h ← deref (HeadBlock c); h' ← deref (HeadBlock cc);
          if negb (bool_decide (ID h = ID h')) then Ok false
          else l ← deref (LIB c); l' ← deref (LIB cc); Ok (bool_decide (ID l = ID l'))
    | _, _ => Panic "invalid memory address or nil pointer dereference"
    end.

Definition Cursor_String (c : Cursor) : outcome string :=
  b ← deref (cBlock c); h ← deref (HeadBlock c); l ← deref (LIB c);
  Ok (if decide (ID h = ID b) then
        Join ["c1"; fmt_int (Step c); fmt_d (Num b); ID b; fmt_d (Num l); ID l] ":"
      else if decide (ID b = ID l) then
        Join ["c2"; fmt_int (Step c); fmt_d (Num b); ID b; fmt_d (Num h); ID h] ":"
      else
        Join ["c3"; fmt_int (Step c); fmt_d (Num b); ID b; fmt_d (Num h); ID h;
              fmt_d (Num l); ID l] ":").

Definition wrapErr {A} (msg : string) (m : outcome A) : outcome A :=
  match m with Err e => Err (EWrap msg e) | r => r end.

Definition readCursorBlockRef (numStr id : string) : outcome BlockRef :=
  num ← wrapErr "invalid block num" (ParseUint numStr 64); Ok (NewBlockRef id num).

Definition cursor_steps : list Z := [StepNew; StepUndo; StepIrreversible; StepNewIrreversible].

Definition readCursorStep (part : string) : outcome Z :=
  step ← wrapErr "invalid cursor step" (ParseInt part);
  if decide (step ∈ cursor_steps) then Ok step else Err (EMsg "invalid step").

(** [parts[i]]. *)
Definition index (parts : list string) (i : nat) : outcome string :=
  match parts !! i with Some p => Ok p | None => Panic "index out of range" end.

Definition FromString (cur : string) : outcome Cursor :=
  let parts := Split ":" cur in
  let stepAt i := p ← index parts i; readCursorStep p in
  let refAt i j := n ← index parts i; id ← index parts j; readCursorBlockRef n id in
  if (length parts <? 6)%nat then Err (EMsg "invalid cursor: too short")
  else
    prefix ← index parts 0;
    if decide (prefix = "c1") then
      if negb (length parts =? 6)%nat then Err (EMsg "invalid cursor: invalid number of segments")
      else
        step ← wrapErr "invalid step segment" (stepAt 1%nat);
        blkRef ← wrapErr "invalid block ref segments" (refAt 2%nat 3%nat);
        libRef ← wrapErr "invalid block ref segments" (refAt 4%nat 5%nat);
        Ok (mkCursor step (Some blkRef) (Some libRef) (Some blkRef))
    else if decide (prefix = "c2") then
      if negb (length parts =? 6)%nat then Err (EMsg "invalid cursor: invalid number of segments")
      else
        step ← wrapErr "invalid step segment" (stepAt 1%nat);
        blkRef ← wrapErr "invalid block ref segments" (refAt 2%nat 3%nat);
        headBlkRef ← wrapErr "invalid head block ref segments" (refAt 4%nat 5%nat);
        Ok (mkCursor step (Some blkRef) (Some blkRef) (Some headBlkRef))
    else if decide (prefix = "c3") then
      if negb (length parts =? 8)%nat then Err (EMsg "invalid cursor: invalid number of segments")
      else
        step ← wrapErr "invalid step segment" (stepAt 1%nat);
        blkRef ← wrapErr "invalid block ref segments" (refAt 2%nat 3%nat);
        headBlkRef ← wrapErr "invalid head block ref segments" (refAt 4%nat 5%nat);
        libRef ← wrapErr "invalid block ref segments" (refAt 6%nat 7%nat);
        Ok (mkCursor step (Some blkRef) (Some libRef) (Some headBlkRef))
    else Err (EMsg "invalid cursor: invalid prefix").

Section Opaque.
Context (encode : string -> string) (decode : string -> outcome string).

Definition ToOpaque (c : Cursor) : outcome string := s ← Cursor_String c; Ok (encode s).

Definition CursorFromOpaque (in_ : string) : outcome Cursor :=
  payload ← wrapErr "unable to decode" (decode in_); FromString payload.
End Opaque.

(** ** Facts *)

(** The cursors whose printed form is faithful: a readable step, references
    with 64 bit numbers and IDs without a colon, and equal numbers where the
    printed form shares an ID. *)
Record printable (step : Z) (b l h : BlockRef) : Prop := {
  pr_step : step ∈ cursor_steps;
  pr_b : is_u64 (Num b) /\ free_of ":" (ID b) = true;
  pr_l : is_u64 (Num l) /\ free_of ":" (ID l) = true;
  pr_h : is_u64 (Num h) /\ free_of ":" (ID h) = true;
  pr_hb : ID h = ID b -> h = b;
  pr_bl : ID h <> ID b -> ID b = ID l -> l = b;
}.

Lemma readCursorStep_printed step : step ∈ cursor_steps -> readCursorStep (fmt_int step) = Ok step.
Proof.
  intros Hs. unfold cursor_steps in Hs.
  repeat (apply elem_of_cons in Hs as [->|Hs]; [reflexivity|]). by apply elem_of_nil in Hs.
Qed.

Lemma readCursorBlockRef_printed r : is_u64 (Num r) ->
  readCursorBlockRef (fmt_d (Num r)) (ID r) = Ok r.
Proof. intros Hr. unfold readCursorBlockRef. rewrite ParseUint_fmt_d by done. by destruct r. Qed.

Lemma step_free step : step ∈ cursor_steps -> free_of ":" (fmt_int step) = true.
Proof.
  intros Hs. unfold cursor_steps in Hs.
  repeat (apply elem_of_cons in Hs as [->|Hs]; [reflexivity|]). by apply elem_of_nil in Hs.
Qed.

Lemma num_free n : is_u64 n -> free_of ":" (fmt_d n) = true.
Proof. intros Hn. apply fmt_d_free; [done|]. apply Hn. Qed.

Lemma Split_parts parts : parts <> [] -> Forall (fun p => free_of ":" p = true) parts ->
  Split ":" (Join parts ":") = parts.
Proof. apply Split_Join. Qed.

Lemma roundtrip step b l h : printable step b l h ->
  exists s, Cursor_String (mkCursor step (Some b) (Some l) (Some h)) = Ok s /\
    FromString s = Ok (mkCursor step (Some b) (Some l) (Some h)).
Proof.
  intros [Hs [Hb1 Hb2] [Hl1 Hl2] [Hh1 Hh2] Hhb Hbl]. eexists. split; [reflexivity|].
  cbn [Step]. unfold FromString.
  pose proof (step_free _ Hs). pose proof (num_free _ Hb1). pose proof (num_free _ Hl1).
  pose proof (num_free _ Hh1).
  case_decide as E1; [|case_decide as E2];
    (rewrite Split_parts; [|done|by repeat constructor]); cbn -[fmt_d fmt_int];
    repeat first [rewrite decide_True by done | rewrite decide_False by done];
    rewrite readCursorStep_printed by done; cbn [wrapErr mbind outcome_bind];
    rewrite !readCursorBlockRef_printed by done; cbn [wrapErr mbind outcome_bind].
  - by rewrite (Hhb E1).
  - by rewrite (Hbl E1 E2).
  - done.
Qed.

Lemma readCursorStep_cases s :
  (exists v, readCursorStep s = Ok v /\ v ∈ cursor_steps) \/ exists e, readCursorStep s = Err e.
Proof.
  unfold readCursorStep. destruct (ParseInt_cases s) as [(v & ->)|[e ->]]; cbn; [|eauto].
  case_decide; eauto.
Qed.

Lemma readCursorBlockRef_cases n id :
  (exists r, readCursorBlockRef n id = Ok r /\ is_u64 (Num r)) \/
  exists e, readCursorBlockRef n id = Err e.
Proof.
  unfold readCursorBlockRef. destruct (ParseUint_cases n 64) as [(v & -> & Hv)|[e ->]]; cbn; eauto.
Qed.

(** *** The grammar of the printed cursors *)

Inductive step_segment : string -> Z -> Prop :=
  | read_step p step : ParseInt p = Ok step -> step ∈ cursor_steps -> step_segment p step.

Inductive ref_segments : string -> string -> BlockRef -> Prop :=
  | read_ref n id num : ParseUint n 64 = Ok num -> ref_segments n id (NewBlockRef id num).

(** A block that is the head, a block that is the LIB, three different blocks. *)
Inductive cursor_segments : list string -> Cursor -> Prop :=
  | segments_c1 st step bn bi b ln li l :
      step_segment st step -> ref_segments bn bi b -> ref_segments ln li l ->
      cursor_segments ["c1"; st; bn; bi; ln; li] (mkCursor step (Some b) (Some l) (Some b))
  | segments_c2 st step bn bi b hn hi h :
      step_segment st step -> ref_segments bn bi b -> ref_segments hn hi h ->
      cursor_segments ["c2"; st; bn; bi; hn; hi] (mkCursor step (Some b) (Some b) (Some h))
  | segments_c3 st step bn bi b hn hi h ln li l :
      step_segment st step -> ref_segments bn bi b -> ref_segments hn hi h -> ref_segments ln li l ->
      cursor_segments ["c3"; st; bn; bi; hn; hi; ln; li] (mkCursor step (Some b) (Some l) (Some h)).

Lemma readCursorStep_segment p step : readCursorStep p = Ok step <-> step_segment p step.
Proof.
  unfold readCursorStep. split.
  - intros E. destruct (ParseInt p) as [v| | |] eqn:Ep; cbn in E; try done. case_decide; [|done].
    injection E as <-. by constructor.
  - intros [p' step' -> Hs]. cbn. by rewrite decide_True.
Qed.

Lemma readCursorBlockRef_segments n id r : readCursorBlockRef n id = Ok r <-> ref_segments n id r.
Proof.
  unfold readCursorBlockRef. split.
  - intros E. destruct (ParseUint n 64) as [v| | |] eqn:En; cbn in E; try done. injection E as <-. by constructor.
  - intros [n' id' num ->]. done.
Qed.

Lemma ref_segments_u64 n id r : ref_segments n id r -> is_u64 (Num r).
Proof. intros [n' id' num E]. cbn. destruct (ParseUint_cases n' 64) as [(v & Ev & Hv)|[e Ee]]; [|congruence].
  rewrite E in Ev. by injection Ev as ->.
Qed.

(** The parser follows the grammar. *)
Lemma FromString_segments s c : FromString s = Ok c <-> cursor_segments (Split ":" s) c.
Proof.
  unfold FromString. split.
  - destruct (Split ":" s) as [|p0 [|p1 [|p2 [|p3 [|p4 [|p5 parts]]]]]]; try done. cbn. intros E.
    repeat case_decide; try done; subst p0.
    all: destruct parts as [|p6 [|p7 [|p8 parts]]]; cbn in E; try done.
    all: repeat match type of E with
      | context [wrapErr _ (readCursorStep ?p)] => let v := fresh "step" in let Ev := fresh "Es" in
          destruct (readCursorStep p) as [v| | |] eqn:Ev; cbn in E; try done; apply readCursorStep_segment in Ev
      | context [wrapErr _ (readCursorBlockRef ?n ?i)] => let v := fresh "r" in let Ev := fresh "Er" in
          destruct (readCursorBlockRef n i) as [v| | |] eqn:Ev; cbn in E; try done; apply readCursorBlockRef_segments in Ev
      end.
    all: injection E as <-; by constructor.
  - intros Hc. inversion Hc as [? ? ? ? ? ? ? ? Hs Hb Hl|? ? ? ? ? ? ? ? Hs Hb Hh|? ? ? ? ? ? ? ? ? ? ? Hs Hb Hh Hl]; subst; cbn;
      apply readCursorStep_segment in Hs as ->; cbn;
      repeat match goal with Hr : ref_segments _ _ _ |- _ => apply readCursorBlockRef_segments in Hr; rewrite Hr; clear Hr; cbn end; done.
Qed.

Lemma FromString_step s c : FromString s = Ok c -> Step c ∈ cursor_steps.
Proof. intros [? ? ? ? ? ? ? ? Hs|? ? ? ? ? ? ? ? Hs|? ? ? ? ? ? ? ? ? ? ? Hs]%FromString_segments; by destruct Hs. Qed.

(** No segment is read past the last one. *)
Lemma FromString_total s : (exists c, FromString s = Ok c) \/ exists e, FromString s = Err e.
Proof.
  unfold FromString. destruct (Split ":" s) as [|p0 [|p1 [|p2 [|p3 [|p4 [|p5 parts]]]]]]; cbn; try (right; by eexists).
  repeat case_decide; try (right; by eexists).
  all: destruct parts as [|p6 [|p7 [|p8 parts]]]; cbn; try (right; by eexists).
  all: repeat match goal with
    | |- context [wrapErr _ (readCursorStep ?p)] => destruct (readCursorStep_cases p) as [(? & -> & _)|[e ->]]; cbn; [|right; by eexists]
    | |- context [wrapErr _ (readCursorBlockRef ?n ?i)] => destruct (readCursorBlockRef_cases n i) as [(? & -> & _)|[e ->]]; cbn; [|right; by eexists]
    end.
  all: left; by eexists.
Qed.

(** ** Properties *)

(** C35: printing a printable cursor and reading it back, directly or through the
    opaque encoding, gives the same cursor, in each of the three formats.  A cursor
    is printable when its step is one of the four that are read, its references have
    64 bit numbers and IDs without a colon, and the references that the format merges
    because they share an ID are the same; [stalled_cursor_unreadable] and
    [colon_unreadable] show cursors that are not. *)
Theorem Cursor_roundtrip (encode : string -> string) decode step b l h :
  (forall s, decode (encode s) = Ok s) -> printable step b l h ->
  let c := mkCursor step (Some b) (Some l) (Some h) in
  (exists s, Cursor_String c = Ok s /\ FromString s = Ok c) /\
  exists o, ToOpaque encode c = Ok o /\ CursorFromOpaque decode o = Ok c.
Proof.
  intros Hcodec Hpr c. destruct (roundtrip step b l h Hpr) as (s & E1 & E2).
  split; [by exists s|]. exists (encode s). unfold ToOpaque, CursorFromOpaque, c.
  rewrite E1. split; [done|]. rewrite Hcodec. exact E2.
Qed.

Lemma Cursor_roundtrip_witness :
  let c := mkCursor StepUndo (Some (NewBlockRef "aa" 10)) (Some (NewBlockRef "cc" 8))
             (Some (NewBlockRef "bb" 11)) in
  ((exists s, Cursor_String c = Ok s /\ FromString s = Ok c) /\
   exists o, ToOpaque (String "x") c = Ok o /\
     CursorFromOpaque (fun s => Ok (str_drop 1 s)) o = Ok c) /\
  Cursor_String c = Ok "c3:2:10:aa:11:bb:8:cc".
Proof.
  split; [|reflexivity].
  apply (Cursor_roundtrip (String "x") (fun s => Ok (str_drop 1 s)) StepUndo (NewBlockRef "aa" 10)
    (NewBlockRef "cc" 8) (NewBlockRef "bb" 11)).
  - intros s. f_equal. apply str_drop_1.
  - split; [|vm_compute; intuition congruence..| |].
    + right. left.
    + discriminate.
    + discriminate.
Defined.

(** C36: the parser never reads past the segments of its string, and accepts exactly
    the strings of the grammar: a prefix that tells the format, a step of the four
    that a cursor may carry, and the number and the ID of each block reference, in the
    order block and LIB (c1), block and head (c2), block, head and LIB (c3); what it
    accepts has references with 64 bit numbers. *)
Theorem FromString_sound s :
  match FromString s with
  | Ok c => cursor_segments (Split ":" s) c /\ Step c ∈ cursor_steps /\
      exists b l h, cBlock c = Some b /\ LIB c = Some l /\ HeadBlock c = Some h /\
        is_u64 (Num b) /\ is_u64 (Num l) /\ is_u64 (Num h)
  | Err _ => forall c, ~ cursor_segments (Split ":" s) c
  | Panic _ | Diverge => False
  end.
Proof.
  pose proof (FromString_segments s) as Hg. destruct (FromString_total s) as [[c E]|[e E]]; rewrite E in Hg |- *.
  - pose proof (proj1 (Hg c) eq_refl) as Hc. split; [done|]. split; [by eapply FromString_step|].
    destruct Hc; do 3 eexists; split_and!; eauto using ref_segments_u64.
  - intros c Hc. by apply Hg in Hc.
Qed.

(** A colon in an ID is one segment more. *)
Lemma colon_unreadable : exists s,
  Cursor_String (mkCursor StepNew (Some (NewBlockRef "a:b" 1)) (Some (NewBlockRef "c" 0)) (Some (NewBlockRef "a:b" 1))) = Ok s /\
  FromString s = Err (EMsg "invalid cursor: invalid number of segments").
Proof. exists "c1:1:1:a:b:0:c". by split. Qed.

(** A cursor on a stalled block prints, but the printed form is refused. *)
Theorem stalled_cursor_unreadable b l h :
  exists s, Cursor_String (mkCursor StepStalled (Some b) (Some l) (Some h)) = Ok s /\
    forall c, FromString s = Ok c -> Step c <> StepStalled.
Proof.
  eexists. split; [reflexivity|]. intros c Hc E. pose proof (FromString_step _ _ Hc) as Hin.
  rewrite E in Hin. unfold cursor_steps in Hin. vm_compute in Hin.
  repeat (apply elem_of_cons in Hin as [?|Hin]; [done|]). by apply elem_of_nil in Hin.
Qed.
End Cursors.
