(* ===== verification/Gates.v ===== *)
(** * Gates, gators and filters
    ([gates.go], [gator.go], [forkable/gates.go], [preprocess.go], [recentblockgetter.go])

    Handlers that hold blocks back until one passes.  A gate is a record next
    to the state of the handler behind it; the wall clock is an argument. *)

From S2P Require Import Prelude GoStrings Types.

Module Gates.

Inductive GateType := GateInclusive | GateExclusive.

#[export] Instance GateType_eq_dec : EqDecision GateType.
Proof. solve_decision. Defined.

Definition GateType_String (g : GateType) : string :=
  match g with GateInclusive => "inclusive" | GateExclusive => "exclusive" end.

(** What the four holding gates share: the target is a number or an ID. *)
Record Gate (T : Type) := mkGate {
  target : T;
  gateType : GateType;
  MaxHoldOff : Z;
  maxHoldOffCount : Z;
  passed : bool;
}.
Arguments mkGate {T}. Arguments target {T}. Arguments gateType {T}. Arguments MaxHoldOff {T}.
Arguments maxHoldOffCount {T}. Arguments passed {T}.

Definition newGate {T} (t : T) (ty : GateType) : Gate T := mkGate t ty 15000 0 false.

(** The constructors, which apply their options to a closed gate. *)
Definition GateOption (T : Type) : Type := Gate T -> Gate T.

Definition with_options {T} (opts : list (GateOption T)) (g : Gate T) : Gate T := foldl (fun g opt => opt g) g opts.

(** The four gates. *)
Definition BlockNumGate : Type := Gate Z.
Definition BlockIDGate : Type := Gate string.
Definition IrreversibleBlockNumGate : Type := Gate Z.
Definition IrreversibleBlockIDGate : Type := Gate string.

Definition NewBlockNumGate (blockNum : Z) (ty : GateType) (opts : list (GateOption Z)) : BlockNumGate :=
  with_options opts (newGate blockNum ty).
Definition NewBlockIDGate (blockID : string) (ty : GateType) (opts : list (GateOption string)) : BlockIDGate :=
  with_options opts (newGate blockID ty).
Definition NewIrreversibleBlockNumGate (blockNum : Z) (ty : GateType) (opts : list (GateOption Z)) : IrreversibleBlockNumGate :=
  with_options opts (newGate blockNum ty).
Definition NewIrreversibleBlockIDGate (blockID : string) (ty : GateType) (opts : list (GateOption string)) : IrreversibleBlockIDGate :=
  with_options opts (newGate blockID ty).

(** A filter has no state but its number. *)
Record MinimalBlockNumFilter := NewMinimalBlockNumFilter { minimalBlockNum : Z }.

Section Gates.
Context {O HS : Type} `{Protocol} (handler : Handler O HS).

(** [g.handler.ProcessBlock(blk, obj)] from a state that pairs the gate with the
    handler's. *)
Definition forward {G} (blk : Block) (obj : iface O) : M (G * HS) unit := fun '(g, hs) =>
  match handler blk obj hs with
  | (Some e, hs') => (Err e, (g, hs'))
  | (None, hs') => (Ok tt, (g, hs'))
  end.

(** The part the gates have in common: hold the block back and count it, or
    let it through when the gate is inclusive. *)
Definition hold_or_open {T} (opens force : bool) (blk : Block) (obj : iface O)
  : M (Gate T * HS) unit := fun '(g, hs) =>
  let ty := if force then GateInclusive else gateType g in
  if opens || force then
    let g' := mkGate (target g) ty (MaxHoldOff g) (maxHoldOffCount g) true in
    match ty with
    | GateInclusive => forward blk obj (g', hs)
    | GateExclusive => (Ok tt, (g', hs))
    end
  else if MaxHoldOff g =? 0 then
    (Ok tt, (mkGate (target g) ty (MaxHoldOff g) (maxHoldOffCount g) false, hs))
  else
    let n := i64 (maxHoldOffCount g + 1) in
    let g' := mkGate (target g) ty (MaxHoldOff g) n false in
    if MaxHoldOff g <? n then (Err (EMsg "maximum blocks held off busted"), (g', hs))
    else (Ok tt, (g', hs)).

Definition BlockNumGate_ProcessBlock (blk : Block) (obj : iface O) : M (BlockNumGate * HS) unit := fun s =>
  if passed s.1 then forward blk obj s
  else
    hold_or_open (target s.1 <=? Number blk)
      ((target s.1 <? GetProtocolFirstStreamableBlock) &&
       (Number blk =? GetProtocolFirstStreamableBlock)) blk obj s.

Definition zeroID : string := "0000000000000000000000000000000000000000000000000000000000000000".

Definition BlockIDGate_ProcessBlock (blk : Block) (obj : iface O) : M (BlockIDGate * HS) unit := fun s =>
  if passed s.1 then forward blk obj s
  else
    hold_or_open (bool_decide (Id blk = target s.1))
      ((bool_decide (target s.1 = "") || bool_decide (target s.1 = zeroID)) && (Number blk =? 2))
      blk obj s.

Definition IrreversibleBlockNumGate_ProcessBlock (blk : Block) (obj : iface O)
  : M (Gate Z * HS) unit := fun s =>
  if passed s.1 then forward blk obj s
  else
    match obj with
    | IForkable fobj =>
        if negb (fo_step fobj =? StepIrreversible) then (Ok tt, s)
        else
          hold_or_open (target s.1 <=? Number blk)
            (((target s.1 =? 0) || (target s.1 =? 1)) && (Number blk =? 2)) blk obj s
    | _ => (Panic "interface conversion: interface {} is not *forkable.ForkableObject", s)
    end.

(** The ID variant does not look at the step. *)
Definition IrreversibleBlockIDGate_ProcessBlock (blk : Block) (obj : iface O)
  : M (IrreversibleBlockIDGate * HS) unit := fun s =>
  if passed s.1 then forward blk obj s
  else
    hold_or_open (bool_decide (Id blk = target s.1))
      ((bool_decide (target s.1 = "") || bool_decide (target s.1 = zeroID)) && (Number blk =? 2))
      blk obj s.

(** *** Time *)

(** [time.Time.Sub] saturates. *)
Definition time_Sub (a b : Z) : Z := Z.max (- two63) (Z.min (two63 - 1) (a - b)).

(** [blk.Time()] of a non-nil block. *)
Definition blk_time (blk : Block) : outcome Z :=
  t ← Time (Some blk);
  match t with Some t => Ok t | None => Panic "invalid timestamp" end.

Record RealtimeGate := mkRealtimeGate { rg_timeToRealtime : Z; rg_passed : bool }.

Definition NewRealtimeGate (timeToRealtime : Z) : RealtimeGate := mkRealtimeGate timeToRealtime false.

Definition RealtimeGate_ProcessBlock (now : Z) (blk : Block) (obj : iface O)
  : M (RealtimeGate * HS) unit := fun '(g, hs) =>
  if rg_passed g then forward blk obj (g, hs)
  else
    match blk_time blk with
    | Ok t =>
        let p := time_Sub now t <? rg_timeToRealtime g in
        let g' := mkRealtimeGate (rg_timeToRealtime g) p in
        if negb p then (Ok tt, (g', hs)) else forward blk obj (g', hs)
    | Err e => (Err e, (g, hs))
    | Panic w => (Panic w, (g, hs))
    | Diverge => (Diverge, (g, hs))
    end.

(** The tripper runs [tripFunc] once; [trips] counts its calls. *)
Record RealtimeTripper := mkRealtimeTripper {
  rt_passed : bool;
  trips : nat;
  timeToRealtime : Z;
  lastBlockSeenAt : Z;
}.

Definition NewRealtimeTripper (d : Z) : RealtimeTripper := mkRealtimeTripper false 0 d 0.

Definition RealtimeTripper_ProcessBlock (now : Z) (blk : Block) (obj : iface O)
  : M (RealtimeTripper * HS) unit := fun '(t, hs) =>
  if rt_passed t then forward blk obj (t, hs)
  else
    match blk_time blk with
    | Ok bt =>
        let p := time_Sub now bt <? timeToRealtime t in
        forward blk obj
          (mkRealtimeTripper p (if p then S (trips t) else trips t) (timeToRealtime t) now, hs)
    | Err e => (Err e, (t, hs))
    | Panic w => (Panic w, (t, hs))
    | Diverge => (Diverge, (t, hs))
    end.

Definition MinimalBlockNumFilter_ProcessBlock (blk : Block) (obj : iface O)
  : M (MinimalBlockNumFilter * HS) unit := fun s =>
  if Number blk <? minimalBlockNum s.1 then (Ok tt, s) else forward blk obj s.
End Gates.

(** ** Gators *)

Record TimeThresholdGator := mkTimeThresholdGator { tg_passed : bool; threshold : Z }.

Definition NewTimeThresholdGator (d : Z) : TimeThresholdGator := mkTimeThresholdGator false d.

(** [Timestamp.AsTime] of a nil timestamp is the epoch. *)
Definition TimeThresholdGator_Pass (now : Z) (g : TimeThresholdGator) (block : Block)
  : bool * TimeThresholdGator :=
  if tg_passed g then (true, g)
  else
    let p := time_Sub now (default 0 (Timestamp block)) <? threshold g in
    (p, mkTimeThresholdGator p (threshold g)).

Record BlockNumberGator := mkBlockNumberGator { ng_passed : bool; ng_blockNum : Z; exclusive : bool }.

Definition NewBlockNumberGator (n : Z) : BlockNumberGator := mkBlockNumberGator false n false.
Definition NewExclusiveBlockNumberGator (n : Z) : BlockNumberGator := mkBlockNumberGator false n true.

Definition BlockNumberGator_Pass (g : BlockNumberGator) (block : Block) : bool * BlockNumberGator :=
  if ng_passed g then (true, g)
  else
    let p := ng_blockNum g <=? Number block in
    let g' := mkBlockNumberGator p (ng_blockNum g) (exclusive g) in
    if p && exclusive g then (false, g') else (p, g').

(** ** The preprocessor *)

Section Preprocessor.
Context {O HS : Type} (handler : Handler O HS) (preprocFunc : Block -> outcome (option O)).

Definition call (blk : Block) (obj : iface O) : M HS unit := fun hs =>
  match handler blk obj hs with
  | (Some e, hs') => (Err e, hs')
  | (None, hs') => (Ok tt, hs')
  end.

Definition of_user (o : option O) : iface O := match o with Some x => IUser x | None => INil end.

Definition Preprocessor_ProcessBlock (blk : Block) (obj : iface O) : M HS unit :=
  obj' ← (match obj with
          | INil => o ← mlift (preprocFunc blk); mret (of_user o)
          | _ => mret obj
          end : M HS (iface O));
  obj'' ← (match iface_WrappedObject obj' with
           | Some None =>
               newWrappedObj ← mlift (preprocFunc blk);
               step ← mlift (iface_Step obj');
               mret (IPreprocessed (mkPreprocessed (iface_Cursor obj') step
                       (iface_ReorgJunctionBlock obj') newWrappedObj))
           | _ => mret obj'
           end : M HS (iface O));
  call blk obj''.
End Preprocessor.

(** ** The recent block getter *)

Record RecentBlockGetter := mkRecentBlockGetter {
  counter : Z;
  mostRecentBlock : option Block;
  sampleSize : Z;
}.

Definition NewRecentBlockGetter (n : Z) : RecentBlockGetter := mkRecentBlockGetter 0 None n.

Definition RecentBlockGetter_ProcessBlock (blk : Block) : M RecentBlockGetter unit := fun g =>
  let keep (newer : bool) :=
    let g' := mkRecentBlockGetter (i64 (counter g + 1))
                (if newer then Some blk else mostRecentBlock g) (sampleSize g) in
    if sampleSize g <=? counter g' then (Err (EMsg "done"), g') else (Ok tt, g') in
  match mostRecentBlock g with
  | None => keep true
  | Some b =>
      match blk_time blk, blk_time b with
      | Ok t, Ok t' => keep (t' <? t)
      | _, _ => (Panic "invalid timestamp", g)
      end
  end.

Definition LatestBlock (g : RecentBlockGetter) : option Block := mostRecentBlock g.

(** ** Facts *)

(** Offering a list of blocks to a gate, stopping at the first error. *)
Definition offer {O S} (step : Block -> iface O -> M S unit) (l : list (Block * iface O)) : M S unit :=
  mfor l (fun x => step x.1 x.2).

Section Facts.
Context {O : Type} `{Protocol}.
Notation HS := (list (Block * iface O)).

Lemma offer_forward {G} (step : Block -> iface O -> M (G * HS) unit) g :
  (forall b o hs, step b o (g, hs) = forward recorder b o (g, hs)) ->
  forall l hs, offer step l (g, hs) = (Ok tt, (g, reverse l ++ hs)).
Proof.
  intros Hs. induction l as [|[b o] l IH]; intros hs; [done|].
  unfold offer in *. cbn [mfor]. unfold mbind, M_bind. rewrite Hs. cbn [forward recorder fst snd].
  rewrite IH. by rewrite reverse_cons, <- app_assoc.
Qed.

(** Blocks that do not open a gate are held back and counted. *)
Lemma offer_hold {T} (step : Block -> iface O -> M (Gate T * HS) unit) l : forall (g : Gate T) hs,
  passed g = false ->
  (forall b o, (b, o) ∈ l -> forall g' hs, passed g' = false -> target g' = target g ->
     gateType g' = gateType g ->
     step b o (g', hs) = hold_or_open recorder false false b o (g', hs)) ->
  0 <= maxHoldOffCount g -> is_i64 (maxHoldOffCount g + Z.of_nat (length l)) ->
  (MaxHoldOff g = 0 \/ maxHoldOffCount g + Z.of_nat (length l) <= MaxHoldOff g) ->
  exists n, offer step l (g, hs) =
    (Ok tt, (mkGate (target g) (gateType g) (MaxHoldOff g) n false, hs)).
Proof.
  induction l as [|[b o] l IH]; intros g hs Hp Hs Hc Hi Hm.
  { exists (maxHoldOffCount g). destruct g; cbn in *. by subst. }
  unfold offer in *. cbn [mfor]. unfold mbind, M_bind. cbn [fst snd].
  rewrite (Hs b o (list_elem_of_here _ _) g hs Hp eq_refl eq_refl). unfold hold_or_open. cbn [orb].
  cbn [length] in *. destruct (Z.eqb_spec (MaxHoldOff g) 0) as [E|E].
  - destruct (IH (mkGate (target g) (gateType g) (MaxHoldOff g) (maxHoldOffCount g) false) hs)
      as [n En]; cbn; try done; [|unfold is_i64, two63 in *; lia|by left|by exists n].
    intros b' o' Hin g' hs' H1 H2 H3. apply Hs; [by right|done..].
  - assert (Ei : i64 (maxHoldOffCount g + 1) = maxHoldOffCount g + 1)
      by (apply i64_small; unfold is_i64, two63 in *; lia).
    rewrite Ei. destruct (Z.ltb_spec (MaxHoldOff g) (maxHoldOffCount g + 1)); [lia|].
    destruct (IH (mkGate (target g) (gateType g) (MaxHoldOff g) (maxHoldOffCount g + 1) false) hs)
      as [n En]; cbn; try done; [|lia|unfold is_i64, two63 in *; lia|right; lia|by exists n].
    intros b' o' Hin g' hs' H1 H2 H3. apply Hs; [by right|done..].
Qed.

Lemma offer_app {S} (step : Block -> iface O -> M S unit) l1 l2 s s' :
  offer step l1 s = (Ok tt, s') -> offer step (l1 ++ l2) s = offer step l2 s'.
Proof.
  unfold offer. revert s. induction l1 as [|a l1 IH]; intros s E; [by injection E as <-|].
  cbn [mfor app] in *. unfold mbind, M_bind in *.
  destruct (step a.1 a.2 s) as [[[]|e|w|] s1]; try done. by apply IH.
Qed.

(** The blocks a gate lets through from the one that opens it on. *)
Definition opened (ty : GateType) (b : Block * iface O) (l : list (Block * iface O)) :=
  match ty with GateInclusive => b :: l | GateExclusive => l end.

Lemma offer_open {T} (step : Block -> iface O -> M (Gate T * HS) unit) (g : Gate T) force before b o
  after :
  passed g = false -> maxHoldOffCount g = 0 -> Z.of_nat (length before) < two63 ->
  (MaxHoldOff g = 0 \/ Z.of_nat (length before) <= MaxHoldOff g) ->
  (forall b' o', (b', o') ∈ before -> forall g' hs, passed g' = false -> target g' = target g ->
     gateType g' = gateType g ->
     step b' o' (g', hs) = hold_or_open recorder false false b' o' (g', hs)) ->
  (forall g' hs, passed g' = false -> target g' = target g ->
     step b o (g', hs) = hold_or_open recorder true force b o (g', hs)) ->
  (forall b' o' g' hs, passed g' = true -> step b' o' (g', hs) = forward recorder b' o' (g', hs)) ->
  exists g', offer step (before ++ (b, o) :: after) (g, []) =
    (Ok tt, (g', reverse (opened (if force then GateInclusive else gateType g) (b, o) after))) /\
    passed g' = true.
Proof.
  intros Hp Hc Hlen Hmax Hbefore Hopen Hpass.
  destruct (offer_hold step before g [] Hp Hbefore) as [n En]; rewrite ?Hc; try lia.
  { unfold is_i64, two63 in *. lia. }
  rewrite (offer_app _ _ _ _ _ En). unfold offer. cbn [mfor]. unfold mbind, M_bind. cbn [fst snd].
  rewrite Hopen by done. unfold hold_or_open. cbn [orb target gateType MaxHoldOff maxHoldOffCount].
  set (ty := if force then GateInclusive else gateType g).
  set (g1 := mkGate (target g) ty (MaxHoldOff g) n true).
  assert (Hrest : forall hs, offer step after (g1, hs) = (Ok tt, (g1, reverse after ++ hs))).
  { apply offer_forward. intros. by apply Hpass. }
  unfold offer in Hrest. exists g1. destruct ty eqn:Ety; cbn [forward recorder fst snd].
  - rewrite Hrest. unfold opened. by rewrite reverse_cons.
  - rewrite Hrest. by rewrite app_nil_r.
Qed.
End Facts.

(** ** Properties *)

(** A new block number gate forwards nothing while the blocks stay below its
    number (within its hold-off limit), then opens at the first block at or
    above it: that block goes through if the gate is inclusive, or if the gate
    is below the first streamable block and this is that block, and every later
    block goes through. *)
Theorem BlockNumGate_opens {O} `{Protocol} (n : Z) ty (before : list (Block * iface O)) b o after :
  Forall (fun x => Number x.1 < n /\ Number x.1 <> GetProtocolFirstStreamableBlock) before ->
  Z.of_nat (length before) <= 15000 -> n <= Number b ->
  let force := (n <? GetProtocolFirstStreamableBlock) && (Number b =? GetProtocolFirstStreamableBlock) in
  exists g', offer (BlockNumGate_ProcessBlock recorder) (before ++ (b, o) :: after) (newGate n ty, [])
    = (Ok tt, (g', reverse (opened (if force then GateInclusive else ty) (b, o) after))) /\
    passed g' = true.
Proof.
  intros Hbefore Hlen Hb force.
  apply (offer_open _ (newGate n ty) force);
    [done|done|unfold two63; lia|right; exact Hlen|..].
   - intros b' o' Hin g' hs Hg' Ht _. rewrite Forall_forall in Hbefore.
    destruct (Hbefore _ Hin) as [H1 H2]. cbn in H1, H2. unfold BlockNumGate_ProcessBlock. cbn [fst].
    rewrite Hg', Ht. cbn [newGate target]. destruct (Z.leb_spec n (Number b')); [lia|].
    destruct (Z.eqb_spec (Number b') GetProtocolFirstStreamableBlock); [lia|]. by rewrite andb_false_r.
  - intros g' hs Hg' Ht. unfold BlockNumGate_ProcessBlock. cbn [fst]. rewrite Hg', Ht.
    cbn [newGate target]. destruct (Z.leb_spec n (Number b)); [done|lia].
  - intros b' o' g' hs Hg'. unfold BlockNumGate_ProcessBlock. cbn [fst]. by rewrite Hg'.
Qed.

#[local] Instance proto0 : Protocol := {| GetProtocolFirstStreamableBlock := 0 |}.

Definition numbered (n : Z) : Block * iface unit :=
  (mkBlock n "" "" None 0 0 0 "" 0 0 None, INil).

Lemma BlockNumGate_opens_witness :
  exists g', offer (BlockNumGate_ProcessBlock recorder)
      ([numbered 5; numbered 6] ++ numbered 7 :: [numbered 8]) (newGate 7 GateExclusive, []) =
    (Ok tt, (g', reverse (opened GateExclusive (numbered 7) [numbered 8]))) /\ passed g' = true.
Proof.
  refine (BlockNumGate_opens 7 GateExclusive [numbered 5; numbered 6] (numbered 7).1 INil [numbered 8]
    _ _ _); [repeat constructor; cbn; lia|cbn; lia|cbn; lia].
Defined.

(** The gate documented to open when its block ID passes as irreversible
    opens on the same block sent with any other step, an undo included. *)
Theorem IrreversibleBlockIDGate_any_step {O HS} (h : Handler O HS) id b (fo : ForkableObject O) hs :
  Id b = id ->
  IrreversibleBlockIDGate_ProcessBlock h b (IForkable fo) (newGate id GateInclusive, hs) =
  forward h b (IForkable fo) (mkGate id GateInclusive 15000 0 true, hs).
Proof.
  intros <-. unfold IrreversibleBlockIDGate_ProcessBlock, hold_or_open. cbn [fst passed newGate target].
  rewrite bool_decide_true by done. cbn. by destruct (_ && _).
Qed.

Lemma IrreversibleBlockIDGate_any_step_witness :
  let b := mkBlock 5 "5a" "4a" None 3 0 0 "" 0 4 None in
  let undo := IForkable (mkForkableObject StepUndo 0 0 [] None None None None (Some 1%nat)) in
  IrreversibleBlockIDGate_ProcessBlock recorder b undo (newGate "5a" GateInclusive, []) =
  forward recorder b undo (mkGate "5a" GateInclusive 15000 0 true, []).
Proof. exact (IrreversibleBlockIDGate_any_step recorder "5a"
  (mkBlock 5 "5a" "4a" None 3 0 0 "" 0 4 None)
  (mkForkableObject StepUndo 0 0 [] None None None None (Some 1%nat)) [] eq_refl). Defined.
End Gates.
