(* ===== verification/Buffers.v ===== *)
(** * The block buffer and the tail lock ([buffer.go], [taillock.go])

    The buffer is a doubly linked list of blocks with a map from block ID to
    list element; an element is a token, so that deleting one leaves another
    element with an equal block alone.  The gauge is the exported metric. *)

From S2P Require Import Prelude Types.

Module Buffer.

Record Buffer := mkBuffer {
  blist : list (nat * Block);
  elements : gmap string nat;
  countMetric : Z;
  nextToken : nat;
}.

Definition NewBuffer : Buffer := mkBuffer [] ∅ 0 0.

(** The block held by a list element. *)
Definition elem_value (b : Buffer) (t : nat) : option Block :=
  snd <$> List.find (fun x => Nat.eqb x.1 t) (blist b).

Definition list_Remove (l : list (nat * Block)) (t : nat) : list (nat * Block) :=
  filter (fun x => x.1 <> t) l.

Definition PopTail (b : Buffer) : option Block * Buffer :=
  match blist b with
  | [] => (None, b)
  | (t, blk) :: _ =>
      (Some blk, mkBuffer (list_Remove (blist b) t) (delete (Id blk) (elements b))
                   (countMetric b - 1) (nextToken b))
  end.

Definition AppendHead (blk : Block) (b : Buffer) : Buffer :=
  match elements b !! Id blk with
  | Some _ => b
  | None =>
      mkBuffer (blist b ++ [(nextToken b, blk)]) (<[Id blk := nextToken b]> (elements b))
        (countMetric b + 1) (S (nextToken b))
  end.

Definition Head (b : Buffer) : option Block := snd <$> last (blist b).
Definition Tail (b : Buffer) : option Block := snd <$> head (blist b).
Definition AllBlocks (b : Buffer) : list Block := (blist b).*2.

(** A negative count makes the slice bounds panic. *)
Definition HeadBlocks (count : Z) (b : Buffer) : outcome (list Block) :=
  let all := AllBlocks b in
  if Z.of_nat (length all) <=? count then Ok all
  else if count <? 0 then Panic "slice bounds out of range"
  else Ok (drop (length all - Z.to_nat count) all).

Definition Len (b : Buffer) : nat := length (blist b).

Definition GetByID (id : string) (b : Buffer) : option Block :=
  elements b !! id ≫= elem_value b.

Definition Exists (id : string) (b : Buffer) : bool := bool_decide (is_Some (GetByID id b)).

Definition Delete (blk : Block) (b : Buffer) : Buffer :=
  mkBuffer (match elements b !! Id blk with Some t => list_Remove (blist b) t | None => blist b end)
    (delete (Id blk) (elements b)) (countMetric b - 1) (nextToken b).

Definition TruncateTail (low : Z) (b : Buffer) : list Block * Buffer :=
  let truncated := filter (fun x => Number x.2 <= low) (blist b) in
  (truncated.*2,
   mkBuffer (foldl list_Remove (blist b) truncated.*1)
     (foldl (fun m blk => delete (Id blk) m) (elements b) truncated.*2)
     (countMetric b - Z.of_nat (length truncated)) (nextToken b)).

Definition Contains (blockNum : Z) (b : Buffer) : bool :=
  existsb (fun x => Number x.2 =? blockNum) (blist b).

(** ** The invariant and the operations as steps *)

Record ok (b : Buffer) : Prop := {
  ok_tokens : NoDup (blist b).*1;
  ok_ids : NoDup (Id <$> AllBlocks b);
  ok_map : forall id t, elements b !! id = Some t <-> exists blk, (t, blk) ∈ blist b /\ Id blk = id;
  ok_next : forall t blk, (t, blk) ∈ blist b -> (t < nextToken b)%nat;
}.

Inductive step : Buffer -> Buffer -> Prop :=
  | step_append blk b : step b (AppendHead blk b)
  | step_pop b : step b (PopTail b).2
  | step_delete blk b : step b (Delete blk b)
  | step_truncate low b : step b (TruncateTail low b).2.

Inductive reachable : Buffer -> Prop :=
  | reach_new : reachable NewBuffer
  | reach_step b b' : reachable b -> step b b' -> reachable b'.

Lemma list_Remove_elem l t x : x ∈ list_Remove l t <-> x ∈ l /\ x.1 <> t.
Proof. unfold list_Remove. rewrite list_elem_of_filter. tauto. Qed.

Lemma token_unique b t x y : ok b -> (t, x) ∈ blist b -> (t, y) ∈ blist b -> x = y.
Proof.
  intros Hok Hx Hy. pose proof (ok_tokens _ Hok) as Hn.
  induction (blist b) as [|[s z] l IH]; [set_solver|]. cbn in Hn. apply NoDup_cons in Hn as [H1 H2].
  apply elem_of_cons in Hx as [Ex|Hx], Hy as [Ey|Hy]; simplify_eq; [done| | |by apply IH];
    exfalso; apply H1, list_elem_of_fmap; eexists (_, _); (split; [|done]); done.
Qed.

Lemma id_unique b x y : ok b -> x ∈ blist b -> y ∈ blist b -> Id x.2 = Id y.2 -> x = y.
Proof.
  intros Hok Hx Hy E. pose proof (ok_ids _ Hok) as Hn. unfold AllBlocks in Hn.
  induction (blist b) as [|z l IH]; [set_solver|]. cbn in Hn. apply NoDup_cons in Hn as [H1 H2].
  assert (Hin : forall w, w ∈ l -> Id w.2 ∈ Id <$> l.*2).
  { intros w Hw. apply list_elem_of_fmap. exists w.2. split; [done|]. apply list_elem_of_fmap. eauto. }
  apply elem_of_cons in Hx as [->|Hx], Hy as [->|Hy]; [done| | |by apply IH].
  - exfalso. apply H1. rewrite E. by apply Hin.
  - exfalso. apply H1. rewrite <- E. by apply Hin.
Qed.

(** Removing a sublist of the elements and their map entries keeps a buffer
    sound. *)
Lemma remove_ok b (P : nat * Block -> Prop) `{forall x, Decision (P x)} els n :
  ok b ->
  (forall id t, els !! id = Some t <-> elements b !! id = Some t /\
     forall blk, (t, blk) ∈ blist b -> P (t, blk)) ->
  ok (mkBuffer (filter P (blist b)) els n (nextToken b)).
Proof.
  intros Hok Hels.
  assert (Hsub : sublist (filter P (blist b)) (blist b)) by apply sublist_filter.
  split; cbn.
  - eapply sublist_NoDup; [by apply (ok_tokens _ Hok)|]. by apply fmap_sublist.
  - eapply sublist_NoDup; [by apply (ok_ids _ Hok)|]. unfold AllBlocks. by repeat apply fmap_sublist.
  - intros id t. rewrite Hels, (ok_map _ Hok). split.
    + intros [(blk & Hin & Hid) HP]. exists blk. split; [|done].
      apply list_elem_of_filter. split; [by apply HP|done].
    + intros (blk & Hin & Hid). apply list_elem_of_filter in Hin as [HP Hin]. split; [by exists blk|].
      intros blk' Hin'. by rewrite (token_unique _ _ _ _ Hok Hin' Hin).
  - intros t blk Hin. apply list_elem_of_filter in Hin as [_ Hin]. by eapply ok_next.
Qed.

Lemma foldl_list_Remove (ts : list nat) (l : list (nat * Block)) : foldl list_Remove l ts = filter (fun x => x.1 ∉ ts) l.
Proof.
  revert l. induction ts as [|t ts IH]; intros l; cbn [foldl].
  - induction l as [|x l IH]; [done|]. rewrite filter_cons, decide_True by set_solver. by f_equal.
  - rewrite IH. unfold list_Remove. rewrite list_filter_filter.
    apply list_filter_iff. intros x. set_solver.
Qed.

Lemma foldl_delete (bs : list Block) (m : gmap string nat) id :
  foldl (fun m blk => delete (Id blk) m) m bs !! id =
  if decide (id ∈ Id <$> bs) then None else m !! id.
Proof.
  revert m. induction bs as [|blk bs IH]; intros m; [done|]. cbn [foldl]. rewrite IH. cbn [fmap list_fmap].
  destruct (decide (id = Id blk)) as [->|Hne].
  - rewrite lookup_delete_eq. rewrite (decide_True (P := Id blk ∈ Id blk :: _)) by left.
    by case_decide.
  - rewrite lookup_delete_ne by done. repeat case_decide; set_solver.
Qed.

Lemma AppendHead_ok blk b : ok b -> ok (AppendHead blk b).
Proof.
  intros Hok. unfold AppendHead. destruct (elements b !! Id blk) as [t|] eqn:E; [done|].
  assert (Hnew : forall x, x ∈ blist b -> Id x.2 <> Id blk).
  { intros [t x] Hx Hid. assert (Ht : elements b !! Id blk = Some t)
      by (apply (ok_map _ Hok); by exists x). congruence. }
  split; cbn.
  - rewrite fmap_app. apply NoDup_app. split; [apply Hok|]. split; [|apply NoDup_singleton].
    intros t Ht Hn. apply list_elem_of_singleton in Hn as ->.
    apply list_elem_of_fmap in Ht as ([t x] & Et & Hin). pose proof (ok_next _ Hok _ _ Hin). cbn in Et. lia.
  - unfold AllBlocks. cbn. rewrite !fmap_app. apply NoDup_app. split; [apply Hok|].
    split; [|apply NoDup_singleton]. intros id Hid Hn. apply list_elem_of_singleton in Hn as ->.
    apply list_elem_of_fmap in Hid as (x & Ex & Hin). apply list_elem_of_fmap in Hin as (y & -> & Hin).
    by apply (Hnew _ Hin).
  - intros id t. destruct (decide (id = Id blk)) as [->|Hne].
    + rewrite lookup_insert_eq. split.
      * intros [= <-]. exists blk. split; [set_solver|done].
      * intros (x & Hin & Hid). apply elem_of_app in Hin as [Hin|Hin]; [by destruct (Hnew _ Hin)|].
        apply list_elem_of_singleton in Hin. by injection Hin as -> ->.
    + rewrite lookup_insert_ne by done. rewrite (ok_map _ Hok). split; intros (x & Hin & Hid); exists x.
      * split; [set_solver|done].
      * split; [|done]. apply elem_of_app in Hin as [Hin|Hin]; [done|].
        apply list_elem_of_singleton in Hin. injection Hin as -> ->. congruence.
  - intros t x Hin. apply elem_of_app in Hin as [Hin|Hin]; [pose proof (ok_next _ Hok _ _ Hin); lia|].
    apply list_elem_of_singleton in Hin. injection Hin as -> ->. lia.
Qed.

Lemma Delete_ok blk b : ok b -> ok (Delete blk b).
Proof.
  intros Hok. unfold Delete. destruct (elements b !! Id blk) as [t|] eqn:E.
  - apply (ok_map _ Hok) in E as (x & Hin & Hid).
    apply (remove_ok b (fun y => y.1 <> t)); [done|]. intros id s.
    rewrite lookup_delete_Some. split.
    + intros [Hne Hs]. split; [done|]. intros y Hy Est. cbn in Est. subst s.
      apply (ok_map _ Hok) in Hs as (z & Hz & Ez).
      pose proof (token_unique _ _ _ _ Hok Hz Hin) as ->. congruence.
    + intros [Hs Hn]. split; [|done]. intros <-. apply (ok_map _ Hok) in Hs as (z & Hz & Ez).
      pose proof (id_unique _ (s, z) (t, x) Hok Hz Hin ltac:(cbn; congruence)) as Eq.
      injection Eq as -> ->. by apply (Hn x).
  - assert (El : delete (Id blk) (elements b) = elements b) by by apply delete_id.
    rewrite El. destruct Hok as [H1 H2 H3 H4]. by split.
Qed.

Lemma PopTail_ok b : ok b -> ok (PopTail b).2.
Proof.
  intros Hok. unfold PopTail. destruct (blist b) as [|[t blk] l] eqn:El; [done|]. cbn [snd].
  assert (Hin : (t, blk) ∈ blist b) by (rewrite El; left).
  assert (E : elements b !! Id blk = Some t) by (apply (ok_map _ Hok); by exists blk).
  pose proof (Delete_ok blk b Hok) as Hd. unfold Delete in Hd. rewrite E, El in Hd. exact Hd.
Qed.

Lemma filter_ext_in {A} (P Q : A -> Prop) `{forall x, Decision (P x), forall x, Decision (Q x)} (l : list A) :
  (forall x, x ∈ l -> P x <-> Q x) -> filter P l = filter Q l.
Proof.
  induction l as [|x l IH]; intros Hpq; [done|]. rewrite !filter_cons.
  rewrite IH by (intros y Hy; apply Hpq; by right).
  destruct (decide (P x)), (decide (Q x)); try done; exfalso;
    pose proof (Hpq x (list_elem_of_here _ _)); tauto.
Qed.

Lemma TruncateTail_list low b : ok b ->
  blist (TruncateTail low b).2 = filter (fun x => low < Number x.2) (blist b).
Proof.
  intros Hok. unfold TruncateTail. cbn. rewrite foldl_list_Remove. apply filter_ext_in.
  intros [t x] Hx. cbn. split.
  - intros Hn. destruct (Z.lt_ge_cases low (Number x)) as [?|Hle]; [done|]. exfalso. apply Hn.
    apply list_elem_of_fmap. exists (t, x). split; [done|]. by apply list_elem_of_filter.
  - intros Hlt Hn. apply list_elem_of_fmap in Hn as ([s y] & Es & Hin). cbn in Es. subst s.
    apply list_elem_of_filter in Hin as [Hle Hin].
    rewrite (token_unique _ _ _ _ Hok Hin Hx) in Hle. cbn in Hle. lia.
Qed.

Lemma TruncateTail_ok low b : ok b -> ok (TruncateTail low b).2.
Proof.
  intros Hok. pose proof (TruncateTail_list low b Hok) as El.
  set (els := elements (TruncateTail low b).2).
  assert (E : (TruncateTail low b).2 =
    mkBuffer (filter (fun x => low < Number x.2) (blist b)) els
      (countMetric (TruncateTail low b).2) (nextToken b)) by (rewrite <- El; done).
  rewrite E. apply remove_ok; [done|]. intros id t. unfold els, TruncateTail. cbn [snd elements].
  rewrite foldl_delete. destruct (decide _) as [Hin|Hin].
  - split; [done|]. intros [Hs HP]. exfalso. apply (ok_map _ Hok) in Hs as (x & Hx & Hid).
    pose proof (HP x Hx) as Hlt. cbn in Hlt.
    apply list_elem_of_fmap in Hin as (y & Ey & Hin).
    apply list_elem_of_fmap in Hin as ([s z] & Ez & Hin). cbn in Ez. subst z.
    apply list_elem_of_filter in Hin as [Hle Hin]. cbn in Hle.
    pose proof (id_unique _ (t, x) (s, y) Hok Hx Hin ltac:(cbn; congruence)) as Eq.
    injection Eq as -> ->. lia.
  - split; [|tauto]. intros Hs. split; [done|]. intros x Hx. cbn.
    destruct (Z.lt_ge_cases low (Number x)) as [?|Hle]; [done|]. exfalso. apply Hin.
    apply (ok_map _ Hok) in Hs as (y & Hy & Hid).
    pose proof (token_unique _ _ _ _ Hok Hx Hy) as ->.
    apply list_elem_of_fmap. exists y. split; [done|]. apply list_elem_of_fmap. exists (t, y).
    split; [done|]. by apply list_elem_of_filter.
Qed.

Lemma reachable_ok b : reachable b -> ok b.
Proof.
  induction 1 as [|b b' _ IH Hs].
  - split; cbn; try constructor; [done| |set_solver].
    intros (x & Hin & _). set_solver.
  - destruct Hs; eauto using AppendHead_ok, PopTail_ok, Delete_ok, TruncateTail_ok.
Qed.

Lemma GetByID_Some b id blk : ok b -> GetByID id b = Some blk <-> blk ∈ AllBlocks b /\ Id blk = id.
Proof.
  intros Hok. unfold GetByID, AllBlocks.
  assert (Hval : forall t x, (t, x) ∈ blist b -> elem_value b t = Some x).
  { intros t x Hin. unfold elem_value. destruct (List.find _ _) as [[s y]|] eqn:E.
    - apply List.find_some in E as [Hy Es]. apply Nat.eqb_eq in Es. cbn in Es. subst s.
      apply list_elem_of_In in Hy. cbn. by rewrite (token_unique _ _ _ _ Hok Hy Hin).
    - exfalso. apply list_elem_of_In in Hin. apply (List.find_none _ _ E) in Hin. cbn in Hin.
      by rewrite Nat.eqb_refl in Hin. }
  split.
  - destruct (elements b !! id) as [t|] eqn:E; [|done]. cbn.
    apply (ok_map _ Hok) in E as (x & Hin & Hid). rewrite (Hval _ _ Hin). intros [= ->].
    split; [|done]. apply list_elem_of_fmap. by exists (t, blk).
  - intros [Hin Hid]. apply list_elem_of_fmap in Hin as ([t x] & Ex & Hin). cbn in Ex. subst x.
    assert (E : elements b !! id = Some t) by (apply (ok_map _ Hok); by exists blk).
    rewrite E. cbn. by apply Hval.
Qed.

(** ** Properties *)

(** In every buffer reached by appending, popping, deleting and truncating,
    the list and the map hold the same blocks, one per ID: [GetByID] and
    [Exists] find exactly the blocks of [AllBlocks], and appending puts a new
    block last and leaves a known one in place. *)
Theorem Buffer_coherent b : reachable b ->
  NoDup (Id <$> AllBlocks b) /\
  (forall id blk, GetByID id b = Some blk <-> blk ∈ AllBlocks b /\ Id blk = id) /\
  (forall id, Exists id b = true <-> id ∈ Id <$> AllBlocks b) /\
  (forall blk, AllBlocks (AppendHead blk b) =
     if Exists (Id blk) b then AllBlocks b else AllBlocks b ++ [blk]).
Proof.
  intros Hr. pose proof (reachable_ok _ Hr) as Hok.
  assert (Hex : forall id, Exists id b = true <-> id ∈ Id <$> AllBlocks b).
  { intros id. unfold Exists. rewrite bool_decide_eq_true. split.
    - intros [blk E]. apply (GetByID_Some _ _ _ Hok) in E as [Hin <-]. apply list_elem_of_fmap. eauto.
    - intros Hin. apply list_elem_of_fmap in Hin as (blk & -> & Hin). exists blk.
      by apply (GetByID_Some _ _ _ Hok). }
  split; [apply Hok|]. split; [intros; by apply GetByID_Some|]. split; [exact Hex|].
  intros blk. destruct (Exists (Id blk) b) eqn:E.
  - apply Hex in E. apply list_elem_of_fmap in E as (x & Ex & Hin).
    apply list_elem_of_fmap in Hin as ([t y] & Ey & Hin). cbn in Ey. subst y.
    assert (Et : elements b !! Id blk = Some t) by (apply (ok_map _ Hok); by exists x).
    unfold AppendHead. by rewrite Et.
  - unfold AppendHead. destruct (elements b !! Id blk) as [t|] eqn:Et.
    + exfalso. apply (ok_map _ Hok) in Et as (x & Hin & Hid).
      assert (Exists (Id blk) b = true); [|congruence]. apply Hex. rewrite <- Hid.
      apply list_elem_of_fmap. exists x. split; [done|]. apply list_elem_of_fmap. by exists (t, x).
    + unfold AllBlocks. cbn. by rewrite fmap_app.
Qed.

Definition ex_buf : Buffer :=
  AppendHead (mkBlock 3 "3a" "" None 0 0 0 "" 0 0 None)
    (AppendHead (mkBlock 2 "2a" "" None 0 0 0 "" 0 0 None) NewBuffer).

Lemma ex_buf_reachable : reachable ex_buf.
Proof. repeat (eapply reach_step; [|apply step_append]). apply reach_new. Qed.

Lemma Buffer_coherent_witness : NoDup (Id <$> AllBlocks ex_buf) /\ Id <$> AllBlocks ex_buf = ["2a"; "3a"].
Proof. split; [exact (proj1 (Buffer_coherent ex_buf ex_buf_reachable))|reflexivity]. Defined.

(** [TruncateTail] removes and returns, in order, exactly the blocks at or
    below the given number; [PopTail] removes and returns the oldest block; and
    [Delete] removes exactly the block with the ID of its argument. *)
Theorem Buffer_removals b low blk : reachable b ->
  (TruncateTail low b).1 = filter (fun x => Number x <= low) (AllBlocks b) /\
  AllBlocks (TruncateTail low b).2 = filter (fun x => low < Number x) (AllBlocks b) /\
  AllBlocks b = option_list (PopTail b).1 ++ AllBlocks (PopTail b).2 /\
  ((PopTail b).1 = None <-> AllBlocks b = []) /\
  (forall x, x ∈ AllBlocks (Delete blk b) <-> x ∈ AllBlocks b /\ Id x <> Id blk).
Proof.
  intros Hr. pose proof (reachable_ok _ Hr) as Hok. unfold AllBlocks.
  assert (Hf : forall (P : Block -> Prop) `{forall x, Decision (P x)} (l : list (nat * Block)),
    (filter (fun x => P x.2) l).*2 = filter P l.*2).
  { intros P HP l. induction l as [|[t x] l IH]; [done|]. cbn [fmap list_fmap]. rewrite !filter_cons.
    cbn [snd]. destruct (decide (P x)); cbn; by rewrite IH. }
  split; [exact (Hf (fun x => Number x <= low) _ (blist b))|].
  split; [rewrite (TruncateTail_list _ _ Hok); exact (Hf (fun x => low < Number x) _ (blist b))|].
  split; [|split].
  - unfold PopTail. destruct (blist b) as [|[t x] l] eqn:El; [cbn; by rewrite El|]. cbn -[list_Remove]. f_equal.
    pose proof (ok_tokens _ Hok) as Hn. rewrite El in Hn. cbn in Hn. apply NoDup_cons in Hn as [Hn _].
    unfold list_Remove.
    rewrite filter_cons, decide_False by (cbn; tauto).
    rewrite (filter_ext_in _ (fun _ => True)).
    + clear. induction l as [|y l IH]; [done|]. rewrite filter_cons, decide_True by done. rewrite !fmap_cons. by f_equal.
    + intros [s y] Hy. cbn. split; [done|]. intros _ ->. apply Hn. apply list_elem_of_fmap. by exists (t, y).
  - unfold PopTail. by destruct (blist b) as [|[t x] l].
  - intros x. unfold Delete. cbn [blist]. rewrite !list_elem_of_fmap.
    destruct (elements b !! Id blk) as [t|] eqn:E.
    + apply (ok_map _ Hok) in E as (z & Hz & Hid). split.
      * intros ([s y] & -> & Hin). apply list_Remove_elem in Hin as [Hin Hne]. split; [by eexists|].
        cbn in *. intros Eq.
        pose proof (id_unique _ (s, y) (t, z) Hok Hin Hz ltac:(cbn; congruence)) as Eqq.
        by injection Eqq as -> ->.
      * intros [([s y] & -> & Hin) Hne]. exists (s, y). split; [done|]. apply list_Remove_elem.
        split; [done|]. cbn in *. intros ->. by rewrite (token_unique _ _ _ _ Hok Hin Hz) in Hne.
    + split; [|tauto]. intros ([s y] & -> & Hin). split; [by eexists|]. cbn. intros Eq.
      assert (elements b !! Id blk = Some s) by (apply (ok_map _ Hok); by exists y). congruence.
Qed.

Lemma Buffer_removals_witness :
  (TruncateTail 2 ex_buf).1 = filter (fun x => Number x <= 2) (AllBlocks ex_buf) /\
  Id <$> (TruncateTail 2 ex_buf).1 = ["2a"].
Proof.
  split; [|reflexivity].
  exact (proj1 (Buffer_removals ex_buf 2 (mkBlock 2 "2a" "" None 0 0 0 "" 0 0 None) ex_buf_reachable)).
Defined.

(** Deleting a block that is not in the buffer leaves the blocks alone but
    takes one off the exported count. *)
Theorem Delete_absent_count b blk : elements b !! Id blk = None ->
  AllBlocks (Delete blk b) = AllBlocks b /\ countMetric (Delete blk b) = countMetric b - 1.
Proof. intros E. unfold Delete, AllBlocks. cbn. by rewrite E. Qed.

Lemma Delete_absent_count_witness :
  let blk := mkBlock 9 "9z" "" None 0 0 0 "" 0 0 None in
  AllBlocks (Delete blk ex_buf) = AllBlocks ex_buf /\ countMetric (Delete blk ex_buf) = 2 - 1.
Proof. exact (Delete_absent_count ex_buf (mkBlock 9 "9z" "" None 0 0 0 "" 0 0 None) eq_refl). Defined.
End Buffer.
