(* ===== verification/TailLocks.v ===== *)
(** * The tail lock ([taillock.go])

    A reference count per block number; each lock hands out a release function
    that works once.  The release functions are the entries of [releases], with
    whether they were called. *)

From S2P Require Import Prelude Types.

Module TailLock.

Record TailLock := mkTailLock {
  inflights : gmap Z Z;
  releases : list (Z * bool);
}.

Definition NewTailLock : TailLock := mkTailLock ∅ [].

Definition add (blockNum : Z) (m : gmap Z Z) : gmap Z Z :=
  match m !! blockNum with
  | Some x => <[blockNum := x + 1]> m
  | None => <[blockNum := 1]> m
  end.

(** [logger.Fatal] ends the program. *)
Definition remove (blockNum : Z) (m : gmap Z Z) : outcome (gmap Z Z) :=
  match m !! blockNum with
  | Some x => Ok (if x =? 1 then delete blockNum m else <[blockNum := x - 1]> m)
  | None => Panic "error on promises handling in buffer"
  end.

(** Locks a number and returns the index of the release function. *)
Definition Lock (blockNum : Z) : M TailLock nat := fun g =>
  (Ok (length (releases g)),
   mkTailLock (add blockNum (inflights g)) (releases g ++ [(blockNum, false)])).

(** The release function: a [sync.Once] around [remove]. *)
Definition release (i : nat) : M TailLock unit := fun g =>
  match releases g !! i with
  | Some (blockNum, false) =>
      match remove blockNum (inflights g) with
      | Ok m => (Ok tt, mkTailLock m (<[i := (blockNum, true)]> (releases g)))
      | Err e => (Err e, g)
      | Panic w => (Panic w, g)
      | Diverge => (Diverge, g)
      end
  | _ => (Ok tt, g)
  end.

Definition LowerBound (g : TailLock) : Z :=
  match merge_sort Z.le (map_to_list (inflights g)).*1 with
  | [] => 0
  | n :: _ => n
  end.

(** ** What is promised: the bound is the lowest number still locked *)

Definition outstanding (g : TailLock) : list Z :=
  omap (fun x => if x.2 : bool then None else Some x.1) (releases g).

Definition count (n : Z) (l : list Z) : Z := Z.of_nat (length (filter (fun x => x = n) l)).

Definition counted (g : TailLock) : Prop := forall n,
  inflights g !! n = if count n (outstanding g) =? 0 then None else Some (count n (outstanding g)).

Inductive reachable : TailLock -> Prop :=
  | reach_new : reachable NewTailLock
  | reach_lock n g : reachable g -> reachable (Lock n g).2
  | reach_release i g : reachable g -> reachable (release i g).2.

Lemma count_nonneg n l : 0 <= count n l.
Proof. unfold count. lia. Qed.

Lemma count_app n l k : count n (l ++ k) = count n l + count n k.
Proof. unfold count. rewrite filter_app, length_app. lia. Qed.

Lemma count_one n m : count n [m] = if decide (m = n) then 1 else 0.
Proof. unfold count. rewrite filter_cons. by case_decide. Qed.

Lemma count_pos n l : 0 < count n l <-> n ∈ l.
Proof.
  unfold count. split.
  - intros Hc. destruct (filter (fun x => x = n) l) as [|x k] eqn:E; [cbn in Hc; lia|].
    assert (Hx : x ∈ filter (fun x => x = n) l) by (rewrite E; left).
    by apply list_elem_of_filter in Hx as [-> Hx].
  - intros Hin. assert (Hn : n ∈ filter (fun x => x = n) l) by by apply list_elem_of_filter.
    destruct (filter _ l); [set_solver|cbn; lia].
Qed.

Lemma add_lookup n k m : (forall x, m !! x <> Some 0) ->
  add n m !! k = if decide (k = n) then Some (default 0 (m !! k) + 1) else m !! k.
Proof.
  intros _. unfold add. destruct (m !! n) as [x|] eqn:E; case_decide as Hk; subst;
    rewrite ?lookup_insert_eq, ?lookup_insert_ne by done; rewrite ?E; done.
Qed.

Lemma counted_nonzero g x : counted g -> inflights g !! x <> Some 0.
Proof. intros Hc. rewrite Hc. destruct (Z.eqb_spec (count x (outstanding g)) 0); congruence. Qed.

Lemma Lock_counted n g : counted g -> counted (Lock n g).2.
Proof.
  intros Hc k. unfold Lock, outstanding. cbn.
  rewrite add_lookup by (intros x; by apply counted_nonzero). rewrite (Hc k), omap_app, count_app.
  change (omap _ [(n, false)]) with [n]. rewrite count_one. fold (outstanding g).
  pose proof (count_nonneg k (outstanding g)).
  repeat case_decide; subst; try done;
    repeat match goal with |- context [?a =? ?b] => destruct (Z.eqb_spec a b) end; cbn; try lia; f_equal; lia.
Qed.

Lemma release_outstanding (l : list (Z * bool)) i n : l !! i = Some (n, false) ->
  omap (fun x => if x.2 : bool then None else Some x.1) l ≡ₚ
  n :: omap (fun x => if x.2 : bool then None else Some x.1) (<[i := (n, true)]> l).
Proof.
  revert i. induction l as [|[m d] l IH]; intros i E; [done|].
  destruct i as [|i]; cbn in E; [by injection E as -> ->|]. cbn.
  destruct d; cbn; rewrite (IH _ E); [done|]. by rewrite Permutation_swap.
Qed.

Lemma release_counted i g : counted g -> exists g', release i g = (Ok tt, g') /\ counted g'.
Proof.
  intros Hc. unfold release. destruct (releases g !! i) as [[n []]|] eqn:E; [by exists g| |by exists g].
  pose proof (release_outstanding _ _ _ E) as Hp. fold (outstanding g) in Hp.
  set (out' := omap _ (<[i := (n, true)]> (releases g))) in *.
  assert (Hcount : forall k, count k (outstanding g) = (if decide (n = k) then 1 else 0) + count k out').
  { intros k. unfold count at 1. rewrite Hp. rewrite filter_cons. unfold count. case_decide; cbn; lia. }
  unfold remove. pose proof (Hc n) as Hn. pose proof (Hcount n) as Hcn.
  rewrite decide_True in Hcn by done. pose proof (count_nonneg n out').
  destruct (Z.eqb_spec (count n (outstanding g)) 0); [lia|]. rewrite Hn.
  eexists. split; [done|]. intros k. unfold outstanding. cbn. fold out'. fold (outstanding g).
  pose proof (Hc k) as Hk. pose proof (Hcount k) as Hck.
  destruct (decide (n = k)) as [<-|Hne].
  - destruct (Z.eqb_spec (count n (outstanding g)) 1).
    + rewrite lookup_delete_eq. destruct (Z.eqb_spec (count n out') 0); [done|lia].
    + rewrite lookup_insert_eq. destruct (Z.eqb_spec (count n out') 0); [lia|]. f_equal. lia.
  - replace (count k out') with (count k (outstanding g)) by lia. rewrite <- Hk.
    destruct (_ =? 1); by rewrite ?lookup_delete_ne, ?lookup_insert_ne by done.
Qed.

Lemma reachable_counted g : reachable g -> counted g.
Proof.
  induction 1 as [|n g _ IH|i g _ IH].
  - intros n. done.
  - by apply Lock_counted.
  - destruct (release_counted i g IH) as (g' & E & Hg'). by rewrite E.
Qed.

(** ** Property *)

(** C39: after any sequence of locks and releases, repeated releases included,
    a release never meets the fatal error, and the lower bound is 0 when nothing
    is locked and otherwise the lowest number locked and not released. *)
Theorem LowerBound_lowest g : reachable g ->
  (forall i, exists g', release i g = (Ok tt, g')) /\
  (outstanding g = [] -> LowerBound g = 0) /\
  (outstanding g <> [] -> LowerBound g ∈ outstanding g /\
     forall n, n ∈ outstanding g -> LowerBound g <= n).
Proof.
  intros Hr. pose proof (reachable_counted _ Hr) as Hc.
  split; [intros i; destruct (release_counted i g Hc) as (g' & E & _); eauto|].
  assert (Hkeys : forall n, n ∈ merge_sort Z.le (map_to_list (inflights g)).*1 <-> n ∈ outstanding g).
  { intros n. rewrite merge_sort_Permutation, list_elem_of_fmap, <- count_pos.
    pose proof (count_nonneg n (outstanding g)) as Hnn. split.
    - intros ([k x] & -> & Hin). apply elem_of_map_to_list in Hin. cbn. rewrite Hc in Hin.
      destruct (Z.eqb_spec (count k (outstanding g)) 0); [done|].
      pose proof (count_nonneg k (outstanding g)). lia.
    - intros Hp. exists (n, count n (outstanding g)). split; [done|]. apply elem_of_map_to_list.
      rewrite Hc. by destruct (Z.eqb_spec (count n (outstanding g)) 0); [lia|]. }
  pose proof (StronglySorted_merge_sort Z.le (map_to_list (inflights g)).*1) as Hs.
  unfold LowerBound. split.
  - intros E. destruct (merge_sort _ _) as [|n l] eqn:Em; [done|]. exfalso.
    assert (Hn : n ∈ outstanding g) by (apply Hkeys; left). rewrite E in Hn. set_solver.
  - intros Hne. destruct (merge_sort Z.le (map_to_list (inflights g)).*1) as [|n l] eqn:Em.
    { exfalso. destruct (outstanding g) as [|m out]; [done|].
      pose proof (proj2 (Hkeys m) (list_elem_of_here _ _)). set_solver. }
    split; [apply Hkeys; left|]. intros m Hm. apply Hkeys in Hm.
    apply elem_of_cons in Hm as [->|Hm]; [lia|].
    apply StronglySorted_inv in Hs as [_ Hs]. rewrite Forall_forall in Hs. by apply Hs.
Qed.

Definition ex_lock : TailLock :=
  (release 0 (release 0 (Lock 9 (Lock 7 (Lock 5 NewTailLock).2).2).2).2).2.

Lemma LowerBound_lowest_witness :
  LowerBound ex_lock ∈ outstanding ex_lock /\ outstanding ex_lock = [7; 9] /\ LowerBound ex_lock = 7.
Proof.
  split; [|split; reflexivity].
  assert (Hr : reachable ex_lock) by repeat constructor.
  destruct (LowerBound_lowest ex_lock Hr) as (_ & _ & Hl). apply Hl. discriminate.
Defined.
End TailLock.
