(* ===== verification/Trackers.v ===== *)
(** * The tracker of heads ([tracker.go])

    The getters are code of the embedding program: computations over an
    abstract world [W].  The responses of the parallel getter come in an
    arbitrary order, which is an argument. *)

From S2P Require Import Prelude Types.

Module Tracker.

(** The names of the usual targets; any string is one. *)
Definition Target : Type := string.
Definition FileSourceHeadTarget : Target := "filesource-head".
Definition LiveSourceHeadTarget : Target := "livesource-head".
Definition LiveSourceTailTarget : Target := "livesource-tail".
Definition NetworkHeadTarget : Target := "network-head".
Definition NetworkLIBTarget : Target := "network-lib".
Definition BlockStreamHeadTarget : Target := "bstream-head".
Definition BlockStreamLIBTarget : Target := "bstream-lib".
Definition HubHeadTarget : Target := "hub-head".
Definition HubLIBTarget : Target := "hub-lib".

Section Tracker.
Context {W : Type} `{Protocol}.

Definition BlockRefGetter : Type := M W (option BlockRef).

Record Tracker := mkTracker {
  getters : gmap string (list BlockRefGetter);
  nearBlocksCount : Z;
}.

Definition NewTracker (n : Z) : Tracker := mkTracker ∅ (i64 n).

Definition AddGetter (target : string) (f : BlockRefGetter) (t : Tracker) : Tracker :=
  mkTracker (<[target := default [] (getters t !! target) ++ [f]]> (getters t)) (nearBlocksCount t).

Definition SetNearBlocksCount (count : Z) (t : Tracker) : Tracker := mkTracker (getters t) count.

(** The copy has its own map and slices. *)
Definition Clone (t : Tracker) : Tracker :=
  mkTracker ((fun gs => foldl (fun acc g => acc ++ [g]) [] gs) <$> getters t) (nearBlocksCount t).

Definition IsNearManualCheck (t : Tracker) (from to : Z) : bool :=
  (to <? u64 (nearBlocksCount t)) || (i64 (i64 to - i64 from) <=? nearBlocksCount t).

Fixpoint firstOf (fs : list BlockRefGetter) : M W (option (option BlockRef)) :=
  match fs with
  | [] => mret None
  | f :: fs' => fun w =>
      match f w with
      | (Ok ref, w') => (Ok (Some ref), w')
      | (Err _, w') => firstOf fs' w'
      | (Panic m, w') => (Panic m, w')
      | (Diverge, w') => (Diverge, w')
      end
  end.

Definition ErrGetterUndefined : error := ESentinel "no getter defined".

Definition Get (t : Tracker) (target : string) : M W (option BlockRef) :=
  match default [] (getters t !! target) with
  | [] => merr (EWrap "tracker getter" ErrGetterUndefined)
  | gs =>
      r ← firstOf gs;
      match r with
      | Some ref => mret ref
      | None => merr (EMsg "tracking fetch errors in order")
      end
  end.

Definition IsNearWithResults (t : Tracker) (from to : string)
  : M W (option BlockRef * option BlockRef * bool) :=
  toRef ← Get t to;
  toNum ← mlift (Num <$> deref toRef);
  if toNum <? u64 (nearBlocksCount t) then mret (None, toRef, true)
  else
    fromRef ← Get t from;
    fromNum ← mlift (Num <$> deref fromRef);
    mret (fromRef, toRef, i64 (i64 toNum - i64 fromNum) <=? nearBlocksCount t).

Definition IsNear (t : Tracker) (from to : string) : M W bool :=
  r ← IsNearWithResults t from to; mret r.2.

Definition GetRelativeBlock (t : Tracker) (n : Z) (target : string) : M W Z :=
  if n <? 0 then
    blk ← Get t target;
    num ← mlift (Num <$> deref blk);
    if num <? u64 (i64 (- n)) then mret GetProtocolFirstStreamableBlock
    else mret (u64 (i64 (i64 num + n)))
  else if u64 n <? GetProtocolFirstStreamableBlock then mret GetProtocolFirstStreamableBlock
  else mret (u64 n).

(** The responses, in the order of their arrival; the context is done when the
    list ends before every getter answered. *)
Fixpoint highestOf (left : nat) (errs : nat) (highest : option BlockRef)
  (resps : list (outcome (option BlockRef))) : outcome (nat * option BlockRef) :=
  match left, resps with
  | O, _ => Ok (errs, highest)
  | S _, [] => Err (ESentinel "context done")
  | S left', resp :: resps' =>
      match resp with
      | Ok ref =>
          match highest with
          | None => highestOf left' errs ref resps'
          | Some h =>
              r ← deref ref;
              highestOf left' errs (Some (if Num h <? Num r then r else h)) resps'
          end
      | Err _ => highestOf left' (S errs) highest resps'
      | Panic w => Panic w
      | Diverge => Diverge
      end
  end.

Definition HighestBlockRefGetter (getters_ : nat) (resps : list (outcome (option BlockRef)))
  : outcome (option BlockRef) :=
  '(errs, highest) ← highestOf getters_ 0 None resps;
  if (errs =? getters_)%nat then Err (EMsg "all parallel getters failed") else Ok highest.

(** [attempt] is incremented by the loop and once more after a failure;
    [ctxErr] reads the context.  Without a limit the loop may never end. *)
Fixpoint retry (fuel : nat) (attempts attempt : Z) (ctxErr : W -> bool) (next : BlockRefGetter)
  : BlockRefGetter :=
  match fuel with
  | O => fun w => (Diverge, w)
  | S fuel' => fun w =>
      if negb ((attempts =? -1) || (attempt <=? attempts)) then (Err (EMsg "retryable block ref getter failed"), w)
      else if ctxErr w then (Err (EMsg "retryable block ref getter failed"), w)
      else
        match next w with
        | (Ok ref, w') => (Ok ref, w')
        | (Err _, w') => retry fuel' attempts (attempt + 1 + 1) ctxErr next w'
        | (Panic m, w') => (Panic m, w')
        | (Diverge, w') => (Diverge, w')
        end
  end.

Definition RetryableBlockRefGetter (fuel : nat) (attempts : Z) (ctxErr : W -> bool)
  (next : BlockRefGetter) : BlockRefGetter := retry fuel attempts 0 ctxErr next.
End Tracker.
Arguments Tracker : clear implicits.
Arguments BlockRefGetter : clear implicits.

(** ** Facts *)

Definition better (hi : option BlockRef) (b : BlockRef) : option BlockRef :=
  Some (match hi with Some h => if Num h <? Num b then b else h | None => b end).

Definition answers (resps : list (outcome (option BlockRef))) : list BlockRef :=
  omap (fun r => match r with Ok ref => ref | _ => None end) resps.

Definition answered (r : outcome (option BlockRef)) : Prop :=
  (exists b, r = Ok (Some b)) \/ exists e, r = Err e.

Lemma highestOf_best l : forall errs hi, Forall answered l ->
  highestOf (length l) errs hi l =
  Ok ((errs + (length l - length (answers l)))%nat, foldl better hi (answers l)) /\
  (length (answers l) <= length l)%nat.
Proof.
  induction l as [|r l IH]; intros errs hi Hl; [cbn; by rewrite Nat.add_0_r|].
  apply Forall_cons in Hl as [[(b & ->)|(e & ->)] Hl]; cbn [length highestOf].
  - change (answers (Ok (Some b) :: l)) with (b :: answers l). cbn [length foldl].
    destruct (IH errs (better hi b) Hl) as [E Hle]. split; [|lia].
    destruct hi as [h|]; cbn [deref mbind outcome_bind]; unfold better in E; rewrite E; done.
  - change (answers (Err e :: l)) with (answers l).
    destruct (IH (S errs) hi Hl) as [E Hle]. split; [|lia]. rewrite E. f_equal. f_equal. lia.
Qed.

Lemma best_spec bs : forall hi h, foldl better hi bs = Some h ->
  (hi = Some h \/ h ∈ bs) /\ (forall b, b ∈ bs \/ hi = Some b -> Num b <= Num h).
Proof.
  induction bs as [|b bs IH]; intros hi h E; cbn [foldl] in E.
  { split; [by left|]. intros b [?|E']; [set_solver|]. rewrite E in E'. injection E' as ->. lia. }
  destruct (IH _ _ E) as [H1 H2]. unfold better in H1, H2. destruct hi as [c|].
  - pose proof (H2 _ (or_intror eq_refl)) as H3.
    revert H1 H2 H3. destruct (Z.ltb_spec (Num c) (Num b)); cbv iota; intros H1 H2 H3.
    + split; [destruct H1 as [[= ->]|H1]; set_solver|]. intros d [Hd|[= ->]]; [|lia].
      apply elem_of_cons in Hd as [->|Hd]; [lia|]. apply H2. by left.
    + split; [destruct H1 as [[= ->]|H1]; set_solver|]. intros d [Hd|[= ->]]; [|lia].
      apply elem_of_cons in Hd as [->|Hd]; [lia|]. apply H2. by left.
  - pose proof (H2 _ (or_intror eq_refl)) as H3.
    split; [destruct H1 as [[= ->]|H1]; set_solver|]. intros d [Hd|?]; [|done].
    apply elem_of_cons in Hd as [->|Hd]; [lia|]. apply H2. by left.
Qed.

Lemma best_None bs : forall hi, foldl better hi bs = None -> hi = None /\ bs = [].
Proof.
  induction bs as [|b bs IH]; intros hi E; [done|]. cbn in E. by apply IH in E as [? _].
Qed.

Lemma answers_elem l b : b ∈ answers l <-> Ok (Some b) ∈ l.
Proof.
  unfold answers. rewrite list_elem_of_omap. split; [|by exists (Ok (Some b))].
  intros ([[c|]|e|w|] & Hin & E); try done. by injection E as ->.
Qed.

Lemma answers_nil l : Forall answered l -> answers l = [] -> Forall (fun r => is_Err r = true) l.
Proof.
  induction 1 as [|r l [(b & ->)|(e & ->)] _ IH]; intros E; [constructor|done|].
  constructor; [done|]. by apply IH.
Qed.

(** ** Properties *)

(** The parallel getter does not depend on the order in which the getters
    answer: when all of them have answered it fails exactly when all of them
    failed, and otherwise returns a reference one of them returned, whose number
    is the highest of those returned. *)
Theorem HighestBlockRefGetter_highest (resps : list (outcome (option BlockRef))) :
  Forall answered resps -> resps <> [] ->
  (Forall (fun r => is_Err r = true) resps /\
     is_Err (HighestBlockRefGetter (length resps) resps) = true) \/
  (exists h, HighestBlockRefGetter (length resps) resps = Ok (Some h) /\ Ok (Some h) ∈ resps /\
     forall b, Ok (Some b) ∈ resps -> Num b <= Num h).
Proof.
  intros HF Hne. unfold HighestBlockRefGetter.
  destruct (highestOf_best resps 0 None HF) as [-> Hle]. cbn [mbind outcome_bind Nat.add].
  destruct (foldl better None (answers resps)) as [h|] eqn:E.
  - right. apply best_spec in E as [[?|Hin] Hmax]; [done|].
    destruct (answers resps) as [|a l] eqn:Ea; [set_solver|].
    destruct (Nat.eqb_spec (length resps - length (a :: l)) (length resps)); [cbn in *; lia|].
    exists h. split; [done|]. split; [apply answers_elem; by rewrite Ea|].
    intros b Hb. apply Hmax. left. rewrite <- Ea. by apply answers_elem.
  - left. apply best_None in E as [_ E]. split; [by apply answers_nil|].
    rewrite E. cbn [length]. by rewrite Nat.sub_0_r, Nat.eqb_refl.
Qed.

Lemma HighestBlockRefGetter_highest_witness :
  let resps := [Ok (Some (NewBlockRef "7a" 7)); Err (EMsg "down"); Ok (Some (NewBlockRef "9a" 9))] in
  (exists h, HighestBlockRefGetter 3 resps = Ok (Some h) /\ Ok (Some h) ∈ resps /\
     forall b, Ok (Some b) ∈ resps -> Num b <= Num h) /\
  HighestBlockRefGetter 3 resps = Ok (Some (NewBlockRef "9a" 9)).
Proof.
  split; [|reflexivity].
  destruct (HighestBlockRefGetter_highest
    [Ok (Some (NewBlockRef "7a" 7)); Err (EMsg "down"); Ok (Some (NewBlockRef "9a" 9))]) as [[_ Hf]|Hh].
  - do 3 (apply Forall_cons; split; [unfold answered; eauto|]). constructor.
  - discriminate.
  - discriminate Hf.
  - exact Hh.
Defined.

(** The retrying getter makes only half of the attempts it is given: a
    getter that always fails is called [attempts / 2 + 1] times. *)
Theorem RetryableBlockRefGetter_half (n : nat) :
  let failing : BlockRefGetter nat := fun calls => (Err (EMsg "down"), S calls) in
  exists e, RetryableBlockRefGetter (S (S n)) (Z.of_nat n) (fun _ => false) failing 0%nat =
    (Err e, (n / 2 + 1)%nat).
Proof.
  cbv zeta. unfold RetryableBlockRefGetter.
  assert (Hgo : forall fuel attempt calls, 0 <= attempt -> (1 <= fuel /\ S n < Z.to_nat attempt + fuel)%nat ->
    exists e, retry fuel (Z.of_nat n) attempt (fun _ => false)
      (fun calls : nat => (Err (EMsg "down"), S calls)) calls =
    (Err e, if Z.of_nat n <? attempt then calls else (calls + (n - Z.to_nat attempt) / 2 + 1)%nat)).
  { induction fuel as [|fuel IH]; intros attempt calls Ha Hf; [lia|cbn [retry]].
    destruct (Z.eqb_spec (Z.of_nat n) (-1)); [lia|]. cbn [orb].
    destruct (Z.leb_spec attempt (Z.of_nat n)) as [Hle|Hgt]; cbn [negb].
    - destruct (Z.ltb_spec (Z.of_nat n) attempt); [lia|].
      destruct (IH (attempt + 1 + 1) (S calls)) as [e E]; [lia|lia|]. exists e. rewrite E. f_equal.
      destruct (Z.ltb_spec (Z.of_nat n) (attempt + 1 + 1)).
      + rewrite (Nat.div_small (n - Z.to_nat attempt) 2) by lia. lia.
      + replace (n - Z.to_nat attempt)%nat with (1 * 2 + (n - Z.to_nat (attempt + 1 + 1)))%nat by lia.
        rewrite Nat.div_add_l by lia. lia.
    - destruct (Z.ltb_spec (Z.of_nat n) attempt); [|lia]. eexists. done. }
  destruct (Hgo (S (S n)) 0 0%nat) as [e E]; [lia|lia|]. exists e. rewrite E. f_equal.
  destruct (Z.ltb_spec (Z.of_nat n) 0); [lia|]. cbn [Z.to_nat]. rewrite Nat.sub_0_r. lia.
Qed.

(** A relative block may resolve below the first streamable block, which
    bounds the result only when the offset exceeds the head number. *)
Theorem GetRelativeBlock_below_first :
  let p : Protocol := {| GetProtocolFirstStreamableBlock := 5 |} in
  let t := AddGetter "head" (fun w : unit => (Ok (Some (NewBlockRef "10a" 10)), w)) (NewTracker 1) in
  GetRelativeBlock t (-8) "head" tt = (Ok 2, tt) /\ GetRelativeBlock t (-11) "head" tt = (Ok 5, tt).
Proof. split; reflexivity. Qed.
End Tracker.
