(* ===== verification/OneBlockFiles.v ===== *)
(** * One-block files ([oneblockfile.go], [oneblock_source.go],
    [single_block_fetcher.go], [reader.go])

    A one-block file holds one block; its name carries the block's number, the
    ends of its ID and of its parent's ID and its LIB number.  The object store
    ([dstore]), the [dbin] container and the protobuf codec are outside of the
    repository: they are the type classes [Store] and [DBin]. *)

From S2P Require Import Prelude GoStrings Types.
From Stdlib Require Import Ascii.

(** [dstore.Store]: [WalkFrom prefix from] gives the names the store passes to
    its callback, in its order, and the error it ends with when the callback
    never stops it; [OpenObject] is the content of an object. *)
Class Store := {
  WalkFrom : string -> string -> list string * option error;
  Walk : string -> list string * option error;
  OpenObject : string -> outcome string;
}.

Definition StopIteration : error := ESentinel "dstore.StopIteration".
Definition ErrNotFound : error := ESentinel "dstore.ErrNotFound".
Definition EOF : error := ESentinel "io.EOF".

(** The message of [bstream.proto] that leaves the payload out. *)
Record BlockMeta := mkBlockMeta {
  bm_Number : Z;
  bm_Id : string;
  bm_ParentId : string;
  bm_Timestamp : option Z;
  bm_LibNum : Z;
  bm_ParentNum : Z;
}.

Definition ToBlocKMeta (b : Block) : BlockMeta :=
  mkBlockMeta (Number b) (Id b) (ParentId b) (Timestamp b) (LibNum b) (ParentNum b).

(** [dbin.Reader] over a string and [proto.Unmarshal]: [ReadHeader] gives the
    content type and what follows, [ReadMessage] the bytes of the next message,
    the error it returns next to them and the rest. *)
Class DBin := {
  ReadHeader : string -> outcome (string * string);
  ReadMessage : string -> string * option error * string;
  UnmarshalBlock : string -> outcome Block;
  UnmarshalBlockMeta : string -> outcome BlockMeta;
  LookupEnv : string -> bool;
}.

Module OneBlockFiles.

(** ** Names *)

Record OneBlockFile := mkOneBlockFile {
  CanonicalName : string;
  Filenames : gmap string bool;
  obf_ID : string;
  obf_Num : Z;
  obf_LibNum : Z;
  PreviousID : string;
  MemoizeData : string;
  Deleted : bool;
}.

Definition ToBstreamBlock (f : OneBlockFile) : Block :=
  mkBlock (obf_Num f) (obf_ID f) (PreviousID f) None (obf_LibNum f) 0 0 "" 0 0 None.

Definition OneBlockFile_String (f : OneBlockFile) : string :=
  "#" +:+ fmt_d (obf_Num f) +:+ " (ID " +:+ obf_ID f +:+ ", ParentID " +:+ PreviousID f +:+ ")".

(** The five results of [ParseFilename]: number, ID suffix, parent ID suffix,
    LIB number, canonical name. *)
Definition ParseFilename (filename : string) : outcome (Z * string * string * Z * string) :=
  match Split "-" filename with
  | [p0; p1; p2; p3; p4] =>
      blockNum ← match ParseUint p0 32 with Err _ => Err (EMsg "failed parsing") | r => r end;
      libNum ← match ParseUint p3 32 with
               | Err _ => Err (EMsg "failed parsing lib num") | r => r end;
      Ok (blockNum, p1, p2, libNum, Join [p0; p1; p2; p3] "-")
  | _ => Err (EMsg "wrong filename format")
  end.

Definition NewOneBlockFile (fileName : string) : outcome OneBlockFile :=
  '(blockNum, blockID, previousBlockID, libNum, canonicalName) ← ParseFilename fileName;
  Ok (mkOneBlockFile canonicalName {[fileName := true]} blockID blockNum libNum previousBlockID
        "" false).

Definition MustNewOneBlockFile (fileName : string) : outcome OneBlockFile :=
  match NewOneBlockFile fileName with Err _ => Panic "wrong filename" | r => r end.

Definition TruncateBlockID (in_ : string) : string :=
  if (String.length in_ <=? 16)%nat then in_ else str_drop (String.length in_ - 16) in_.

Definition BlockFileNameWithSuffix (block : Block) (suffix : string) : string :=
  Join [fmt_010d (Number block); TruncateBlockID (Id block); TruncateBlockID (ParentId block);
        fmt_d (LibNum block); suffix] "-".

Definition BlockFileName (block : Block) : string := BlockFileNameWithSuffix block "generated".

(** ** Reading *)

Section Reading.
Context `{Protocol} `{DBin}.

Definition readMessage {T} (src : string) (decoder : string -> outcome T) : outcome (T * string) :=
  let '(message, err, rest) := ReadMessage src in
  match message with
  | String _ _ => t ← decoder message; Ok (t, rest)
  | EmptyString =>
      match err with
      | Some e => if decide (e = EOF) then Err EOF else Err (EMsg "failed reading next dbin message")
      | None => Err (EMsg "failed reading next dbin message")
      end
  end.

(** [supportLegacy]: the block is completed in place when it has no payload. *)
Definition set_payload (b : Block) (url : string) : Block :=
  mkBlock (Number b) (Id b) (ParentId b) (Timestamp b) (LibNum b) (PayloadKind b)
    (PayloadVersion b) (PayloadBuffer b) (HeadNum b)
    (if GetProtocolFirstStreamableBlock <? Number b then u64_sub (Number b) 1 else ParentNum b)
    (Some (mkAny url (PayloadBuffer b))).

Definition legacy_url (kind : Z) : outcome string :=
  if kind =? 1 then Ok "type.googleapis.com/sf.antelope.type.v1.Block"
  else if kind =? 2 then Ok "type.googleapis.com/sf.ethereum.type.v2.Block"
  else if kind =? 5 then Ok "type.googleapis.com/sf.cosmos.type.v1.Block"
  else if kind =? 3 then
    if LookupEnv "ACCEPT_SOLANA_LEGACY_BLOCK_FORMAT" || LookupEnv "ACCEPT_LEGACY_BLOCK_FORMAT"
    then Ok "type.googleapis.com/sf.solana.type.v1.Block"
    else Err (EMsg "old block format from Solana protocol not supported, migrate your blocks")
  else if kind =? 4 then
    if LookupEnv "ACCEPT_LEGACY_BLOCK_FORMAT"
    then Ok "type.googleapis.com/sf.near.type.v1.Block"
    else Err (EMsg "old block format from NEAR protocol not supported, migrate your blocks")
  else Ok "".

Definition supportLegacy (b : Block) : outcome Block :=
  match Payload b with
  | Some _ => Ok b
  | None => url ← legacy_url (PayloadKind b); Ok (set_payload b url)
  end.

Definition supportLegacyMeta (b : BlockMeta) : outcome BlockMeta :=
  if (bm_ParentNum b =? 0) && (u64_add GetProtocolFirstStreamableBlock 15 <? bm_Number b)
  then Err (EMsg "old block format without a properly populated parent num are not supported, migrate your blocks")
  else Ok b.

(** [%s]: the cause is printed, not wrapped. *)
Definition flatten {A} (msg : string) (m : outcome A) : outcome A :=
  match m with Err _ => Err (EMsg msg) | r => r end.

Definition Read (src : string) : outcome (Block * string) :=
  readMessage src (fun message =>
    blk ← flatten "unable to read block proto" (UnmarshalBlock message);
    flatten "support legacy block" (supportLegacy blk)).

Definition ReadAsBlockMeta (src : string) : outcome (BlockMeta * string) :=
  readMessage src (fun message =>
    meta ← flatten "unable to read block proto" (UnmarshalBlockMeta message);
    flatten "support legacy block meta" (supportLegacyMeta meta)).

Definition NewDBinBlockReaderWithValidation (data : string)
  (validateHeaderFunc : option (string -> option error)) : outcome string :=
  '(contentType, rest) ← flatten "unable to read file header" (ReadHeader data);
  match validateHeaderFunc with
  | Some v => match v contentType with Some e => Err e | None => Ok rest end
  | None => Ok rest
  end.

Definition NewDBinBlockReader (data : string) : outcome string :=
  NewDBinBlockReaderWithValidation data None.

Definition wrap {A} (msg : string) (m : outcome A) : outcome A :=
  match m with Err e => Err (EWrap msg e) | r => r end.

(** A reader error other than [io.EOF] is fatal; [io.EOF] leaves a nil result. *)
Definition first_message {T} (msg : string) (m : outcome (T * string)) : outcome (option T) :=
  match m with
  | Ok (t, _) => Ok (Some t)
  | Err e => if decide (e = EOF) then Ok None else Err (EWrap msg e)
  | Panic w => Panic w
  | Diverge => Diverge
  end.

Definition DecodeOneblockfileData (data : string) : outcome (option Block) :=
  blockReader ← wrap "unable to create block reader" (NewDBinBlockReader data);
  first_message "block reader failed" (Read blockReader).

Definition decodeOneblockfileToBlockMeta (data : string) : outcome (option BlockMeta) :=
  blockReader ← wrap "unable to create block reader" (NewDBinBlockReader data);
  first_message "block meta reader failed" (ReadAsBlockMeta blockReader).
End Reading.

(** ** The store *)

Section Store.
Context `{Protocol} `{DBin} `{Store}.
Context (NormalizeBlockID : string -> string).

Definition OneBlockDownloaderFromStore (obf : OneBlockFile) : outcome string :=
  match map_to_list (Filenames obf) with
  | [] => Err (EMsg "no filename for this oneBlockFile")
  | (filename, _) :: _ => wrap "fetching from block store" (OpenObject filename)
  end.

(** [Data] keeps what it downloaded in the file it is called on. *)
Definition Data (downloader : OneBlockFile -> outcome string) : M OneBlockFile string := fun f =>
  match MemoizeData f with
  | EmptyString =>
      match downloader f with
      | Ok data =>
          (Ok data, mkOneBlockFile (CanonicalName f) (Filenames f) (obf_ID f) (obf_Num f)
                      (obf_LibNum f) (PreviousID f) data (Deleted f))
      | Err e => (Err e, f)
      | Panic w => (Panic w, f)
      | Diverge => (Diverge, f)
      end
  | memo => (Ok memo, f)
  end.

(** The walk of [listOneBlocks] over the names the store lists. *)
Fixpoint list_walk (to : Z) (names : list string) (ended : option error)
  : outcome (list OneBlockFile) :=
  match names with
  | [] => match ended with Some e => Err e | None => Ok [] end
  | filename :: names' =>
      match NewOneBlockFile filename with
      | Ok obf =>
          if negb (to =? 0) && (to <? obf_Num obf) then Ok []
          else rest ← list_walk to names' ended; Ok (obf :: rest)
      | _ => list_walk to names' ended
      end
  end.

Definition listOneBlocks (from to : Z) : outcome (list OneBlockFile) :=
  let '(names, ended) := WalkFrom "" (fmt_010d from) in list_walk to names ended.

Fixpoint find_walk (check : OneBlockFile -> bool) (names : list string) (ended : option error)
  : outcome (option OneBlockFile) :=
  match names with
  | [] => match ended with Some e => Err e | None => Ok None end
  | filename :: names' =>
      match NewOneBlockFile filename with
      | Ok obf => if check obf then Ok (Some obf) else find_walk check names' ended
      | _ => find_walk check names' ended
      end
  end.

Definition findOneBlockFile (check : OneBlockFile -> bool) : outcome (option OneBlockFile) :=
  let '(names, ended) := Walk "" in find_walk check names ended.

(** *** [oneBlocksSource] *)
Section Source.
Context {HS : Type} (handler : option Block -> HS -> option error * HS).

(** The downloader is the one of the store. *)
Record oneBlocksSource := mkOneBlocksSource {
  oneBlockFiles : list OneBlockFile;
  skipperFunc : option (string -> bool);
}.

Definition OneBlocksSourceOption : Type := oneBlocksSource -> oneBlocksSource.

Definition OneBlocksSourceWithSkipperFunc (f : string -> bool) : OneBlocksSourceOption := fun s =>
  mkOneBlocksSource (oneBlockFiles s) (Some f).

Fixpoint run_files (skip_ : option (string -> bool)) (files : list OneBlockFile) : M HS unit :=
  match files with
  | [] => mret tt
  | file :: files =>
      if match skip_ with Some skip => skip (obf_ID file) | None => false end
      then run_files skip_ files
      else
        data ← mlift (OneBlockDownloaderFromStore file);
        blk ← mlift (DecodeOneblockfileData data);
        _ ← (fun hs => match handler blk hs with
                       | (Some e, hs') => (Err e, hs')
                       | (None, hs') => (Ok tt, hs')
                       end);
        run_files skip_ files
  end.

Definition run (s : oneBlocksSource) : M HS unit := run_files (skipperFunc s) (oneBlockFiles s).

Definition NewOneBlocksSource (lowestBlockNum : Z) (options : list OneBlocksSourceOption) : outcome oneBlocksSource :=
  let src := foldl (fun s opt => opt s) (mkOneBlocksSource [] None) options in
  files ← listOneBlocks lowestBlockNum 0;
  Ok (mkOneBlocksSource files (skipperFunc src)).

(** [Run]: the result of [run] is the error the source is shut down with. *)
Definition Run (s : oneBlocksSource) : M HS unit := run s.
End Source.

(** *** [single_block_fetcher.go] *)
Definition memo_data (obf : OneBlockFile) : outcome string :=
  (Data OneBlockDownloaderFromStore obf).1.

Fixpoint fetch_first {T} (canonicalID : string) (decode : string -> outcome (option T))
  (obfs : list OneBlockFile) : outcome (option T) :=
  match obfs with
  | [] => Err ErrNotFound
  | obf :: obfs' =>
      if HasSuffix canonicalID (obf_ID obf) then data ← memo_data obf; decode data
      else fetch_first canonicalID decode obfs'
  end.

Definition FetchBlockFromOneBlockStore (num : Z) (id : string) : outcome (option Block) :=
  match listOneBlocks num (u64_add num 1) with
  | Ok obfs => fetch_first (NormalizeBlockID id) DecodeOneblockfileData obfs
  | Err _ => Err ErrNotFound
  | Panic w => Panic w
  | Diverge => Diverge
  end.

Definition FetchBlockMetaFromOneBlockStore (num : Z) (id : string) : outcome (option BlockMeta) :=
  match listOneBlocks num (u64_add num 1) with
  | Ok obfs => fetch_first (NormalizeBlockID id) decodeOneblockfileToBlockMeta obfs
  | Err _ => Err ErrNotFound
  | Panic w => Panic w
  | Diverge => Diverge
  end.

Definition FetchBlockMetaByHashFromOneBlockStore (id : string) : outcome (option BlockMeta) :=
  let canonicalID := NormalizeBlockID id in
  obf ← wrap "find one block file"
          (findOneBlockFile (fun file =>
             bool_decide (NormalizeBlockID (obf_ID file) = canonicalID)));
  match obf with
  | None => Ok None
  | Some obf =>
      data ← wrap "download one block data" (memo_data obf);
      decodeOneblockfileToBlockMeta data
  end.
End Store.

(** ** Properties *)

(** The file names of a block whose ID ends and suffix hold no dash. *)
Record nameable (b : Block) (suffix : string) : Prop := {
  n_num : is_u64 (Number b);
  n_lib : is_u64 (LibNum b);
  n_id : free_of "-" (TruncateBlockID (Id b)) = true;
  n_parent : free_of "-" (TruncateBlockID (ParentId b)) = true;
  n_suffix : free_of "-" suffix = true;
}.

Lemma Split_name b suffix : nameable b suffix ->
  Split "-" (BlockFileNameWithSuffix b suffix) =
  [fmt_010d (Number b); TruncateBlockID (Id b); TruncateBlockID (ParentId b);
   fmt_d (LibNum b); suffix].
Proof.
  intros [Hn Hl Hi Hp Hs]. unfold BlockFileNameWithSuffix. apply Split_Join; [done|].
  repeat constructor; try done.
  - apply fmt_010d_free; [done|]. apply Hn.
  - apply fmt_d_free; [done|]. apply Hl.
Qed.

Lemma ParseUint_32 s z : s <> EmptyString -> parse_digits s 0 = Some z ->
  ParseUint s 32 = if z <? 4294967296 then Ok z else Err (EMsg "value out of range").
Proof.
  intros Hs Hp. destruct (Z.ltb_spec z 4294967296).
  - by apply ParseUint_digits.
  - by eapply ParseUint_overflow.
Qed.

(** C37: a one-block file name reads back as the number, the ends of the two IDs
    and the LIB number of its block, whatever the suffix, as long as the two
    numbers fit 32 bits; beyond that the name the library writes is refused by
    its own parser. *)
Theorem FileName_roundtrip b suffix : nameable b suffix ->
  NewOneBlockFile (BlockFileNameWithSuffix b suffix) =
  if 4294967296 <=? Number b then Err (EMsg "failed parsing")
  else if 4294967296 <=? LibNum b then Err (EMsg "failed parsing lib num")
  else Ok (mkOneBlockFile
        (Join [fmt_010d (Number b); TruncateBlockID (Id b); TruncateBlockID (ParentId b);
               fmt_d (LibNum b)] "-")
        {[BlockFileNameWithSuffix b suffix := true]}
        (TruncateBlockID (Id b)) (Number b) (LibNum b) (TruncateBlockID (ParentId b)) "" false).
Proof.
  intros Hn. pose proof (Split_name b suffix Hn) as HS. destruct Hn as [Hn Hl _ _ _].
  unfold NewOneBlockFile, ParseFilename. rewrite HS.
  rewrite (ParseUint_32 _ _ (fmt_010d_nonempty _) (parse_fmt_010d _ Hn)).
  rewrite (ParseUint_32 _ _ (fmt_d_nonempty _) (parse_fmt_d _ Hl)).
  rewrite !Z.leb_antisym. destruct (Number b <? 4294967296); [|done].
  by destruct (LibNum b <? 4294967296).
Qed.

Lemma FileName_roundtrip_witness :
  let b := mkBlock 5000000000 "5000abcdef0123456789ab" "4fffab" None 7 0 0 "" 0 0 None in
  let c := mkBlock 12 "0x12a" "0x11a" None 7 0 0 "" 0 0 None in
  nameable b "x" /\
  NewOneBlockFile (BlockFileNameWithSuffix b "x") = Err (EMsg "failed parsing") /\
  NewOneBlockFile (BlockFileName c) =
    Ok (mkOneBlockFile "0000000012-0x12a-0x11a-7" {["0000000012-0x12a-0x11a-7-generated" := true]}
          "0x12a" 12 7 "0x11a" "" false).
Proof.
  assert (H1 : nameable (mkBlock 5000000000 "5000abcdef0123456789ab" "4fffab" None 7 0 0 "" 0 0 None) "x")
    by (split; try done; unfold is_u64, two64; cbn; lia).
  assert (H2 : nameable (mkBlock 12 "0x12a" "0x11a" None 7 0 0 "" 0 0 None) "generated")
    by (split; try done; unfold is_u64, two64; cbn; lia).
  cbv zeta. split; [exact H1|]. split.
  - exact (FileName_roundtrip _ _ H1).
  - exact (FileName_roundtrip _ _ H2).
Defined.
End OneBlockFiles.
