(* ===== verification/CursorResolver.v ===== *)
(** * Resolving a cursor from files ([cursor_resolver.go])

    A handler between the source of merged (final) blocks and a client that
    comes back with a cursor: it keeps the merged blocks until it meets the
    cursor's height, then brings the client from its branch to the merged chain.

    The kept objects are pointers whose cursor's step is overwritten just before
    they are sent: the kept list is updated with them.  A block's object is sent
    at most once, by the resolver or by the pass through, so that no receiver can
    see a later overwrite. *)

From S2P Require Import Prelude Loops GoStrings Types OneBlockFiles Consumer.
Import OneBlockFiles.

Module CursorResolver.

Definition ErrResolveCursor : string := "cannot resolve cursor".

(** The fields a run updates, and the state of the handler behind. *)
Record cursorResolver (O HS : Type) := mkResolver {
  mergedBlocksSeen : list (Block * iface O);
  resolved : bool;
  next : HS;
}.
Arguments mkResolver {O HS}. Arguments mergedBlocksSeen {O HS}.
Arguments resolved {O HS}. Arguments next {O HS}.

Section Resolver.
Context {O HS : Type} `{Protocol} `{DBin} `{Store}.
Context (handler : Handler O HS) (cursor : Cursor) (passThroughCursor : bool).
Notation R := (cursorResolver O HS).
Notation RM := (M R).

Definition newCursorResolverHandler (h0 : HS) : R := mkResolver [] false h0.

Definition set_resolved (f : R) : R := mkResolver (mergedBlocksSeen f) true (next f).

Definition see (blk : Block) (obj : iface O) (f : R) : R :=
  mkResolver (mergedBlocksSeen f ++ [(blk, obj)]) (resolved f) (next f).

Definition forward (blk : Block) (obj : iface O) : RM unit := fun f =>
  match handler blk obj (next f) with
  | (Some e, hs) => (Err e, mkResolver (mergedBlocksSeen f) (resolved f) hs)
  | (None, hs) => (Ok tt, mkResolver (mergedBlocksSeen f) (resolved f) hs)
  end.

Definition deref_num (r : option BlockRef) : outcome Z := x ← deref r; Ok (Num x).
Definition deref_id (r : option BlockRef) : outcome string := x ← deref r; Ok (ID x).

(** The in-place update [obj.cursor.Step = step]. *)
Definition set_step (step : Z) (w : wrappedObject O) : wrappedObject O :=
  mkWrapped (w_obj w)
    (mkCursor step (cBlock (w_cursor w)) (LIB (w_cursor w)) (HeadBlock (w_cursor w)))
    (w_reorgJunctionBlock w).

(** The loop over the kept blocks; [done] are those behind it. *)
Fixpoint sendMerged_from (done_ todo : list (Block * iface O)) (step exclusiveLow inclusiveHigh : Z)
  : RM unit :=
  match todo with
  | [] => mret tt
  | (blk, obj) :: todo' =>
      if (exclusiveLow <? Number blk) && (Number blk <=? inclusiveHigh) then
        match obj with
        | IWrapped w =>
            let obj' := IWrapped (set_step step w) in
            _ ← mmodify (fun f => mkResolver (done_ ++ (blk, obj') :: todo') (resolved f) (next f));
            _ ← forward blk obj';
            sendMerged_from (done_ ++ [(blk, obj')]) todo' step exclusiveLow inclusiveHigh
        | _ => mpanic "interface conversion: interface {} is not *bstream.wrappedObject"
        end
      else sendMerged_from (done_ ++ [(blk, obj)]) todo' step exclusiveLow inclusiveHigh
  end.

Definition sendMergedBlocksBetween (step exclusiveLow inclusiveHigh : Z) : RM unit :=
  f ← mget; sendMerged_from [] (mergedBlocksSeen f) step exclusiveLow inclusiveHigh.

(** A nil block (a file without a message) reaches the handler too, which then
    dereferences it. *)
Definition sendUndoBlocks (undoBlocks : list (option Block)) (reorgJunctionBlock : BlockRef)
  : RM unit :=
  mfor undoBlocks (fun blk =>
    match blk with
    | Some b =>
        forward b (IWrapped (mkWrapped None
          (mkCursor StepUndo (Some (AsRef blk)) (LIB cursor) (HeadBlock cursor))
          (Some reorgJunctionBlock)))
    | None => mpanic "invalid memory address or nil pointer dereference"
    end).

(** [oneBlocks]: the files by the end of their ID, the last listed winning; the
    upper bound is not used. *)
Definition oneBlocks (from upTo : Z) : outcome (gmap string OneBlockFile) :=
  let '(names, ended) := WalkFrom "" (fmt_010d from) in
  let out := foldl (fun m name =>
               match NewOneBlockFile name with Ok obf => <[obf_ID obf := obf]> m | _ => m end)
               ∅ names in
  match ended with Some e => Err e | None => Ok out end.

(** A block file without a message decodes to a nil block. *)
Definition download (file : OneBlockFile) : outcome (option Block) :=
  data ← memo_data file; DecodeOneblockfileData data.

Definition seenIrreversible (f : R) (id : string) : option (Block * iface O) :=
  List.find (fun x => HasSuffix (Id x.1) id) (mergedBlocksSeen f).

(** One round of the loop of [resolve]: the ID to look for and the blocks to
    undo so far. *)
Definition resolve_body (f : R) (files : gmap string OneBlockFile) (block lib : BlockRef) (step : Z)
  (s : string * list (option Block))
  : (string * list (option Block)) + outcome (list (option Block) * BlockRef) :=
  let '(previousID, undoBlocks) := s in
  match seenIrreversible f previousID with
  | Some (blk, _) => inr (Ok (undoBlocks, AsRef (Some blk)))
  | None =>
      match files !! previousID with
      | None => inr (Err (EWrap "missing link between blocks" (ESentinel ErrResolveCursor)))
      | Some forkedBlock =>
          if obf_Num forkedBlock <? Num lib
          then inr (Err (EWrap "block not linkable to canonical chain above final block"
                           (ESentinel ErrResolveCursor)))
          else if (obf_Num forkedBlock =? Num block) && (step =? StepUndo)
          then inl (PreviousID forkedBlock, undoBlocks)
          else
            match download forkedBlock with
            | Ok fullBlk => inl (PreviousID forkedBlock, undoBlocks ++ [fullBlk])
            | Err e => inr (Err (EWrap "downloading one-block-file" e))
            | Panic w => inr (Panic w)
            | Diverge => inr Diverge
            end
      end
  end.

Definition resolve : RM (list (option Block) * BlockRef) := fun f =>
  (block ← deref (cBlock cursor);
   lib ← deref (LIB cursor);
   files ← oneBlocks (Num lib) (Num block);
   r ← of_fuel (loop (resolve_body f files block lib (Step cursor)) (S (S (size files)))
                  (TruncateBlockID (ID block), []));
   r, f).

Definition ProcessBlock (blk : Block) (obj : iface O) : RM unit :=
  f ← mget;
  if resolved f then forward blk obj
  else
    libNum ← (if passThroughCursor then mlift (deref_num (LIB cursor)) else mret 0);
    if passThroughCursor && (Number blk <=? libNum) then
      block ← mlift (deref (cBlock cursor));
      _ ← (if (libNum =? Num block) && bool_decide (ID block = Id blk)
           then mmodify set_resolved else mret tt);
      forward blk obj
    else
      block ← mlift (deref (cBlock cursor));
      _ ← mmodify (see blk obj);
      if Number blk <? Num block then mret tt
      else if bool_decide (Id blk = ID block) then
        _ ← mmodify set_resolved;
        lib ← mlift (deref_num (LIB cursor));
        if passThroughCursor then sendMergedBlocksBetween StepNewIrreversible lib (Num block)
        else if Matches (Step cursor) StepUndo then
          _ ← (if 0 <? Num block
               then sendMergedBlocksBetween StepIrreversible lib (u64_sub (Num block) 1)
               else mret tt);
          forward blk obj
        else sendMergedBlocksBetween StepIrreversible lib (Num block)
      else if passThroughCursor
      then merr (EMsg "cannot resolve 'old cursor' from files in passthrough mode -- not implemented")
      else
        '(undoBlocks, reorgJunctionBlock) ← resolve;
        _ ← sendUndoBlocks undoBlocks reorgJunctionBlock;
        lib ← mlift (deref_num (LIB cursor));
        _ ← sendMergedBlocksBetween StepIrreversible lib (Num reorgJunctionBlock);
        _ ← sendMergedBlocksBetween StepNewIrreversible (Num reorgJunctionBlock) (Number blk);
        mmodify set_resolved.
End Resolver.

(** ** What a resumed client receives *)

Section Facts.
Context {O : Type} `{Protocol} `{DBin} `{Store}.
Notation R := (cursorResolver O (list (event O))).
Implicit Types (f : R) (l : list (Block * iface O)).

(** The object of a merged block: its cursor makes the block itself final. *)
Definition merged (x : Block * iface O) : Prop :=
  exists w, x.2 = IWrapped w /\ LIB (w_cursor w) = Some (AsRef (Some x.1)).

(** As the file source sends it. *)
Definition fresh_merged (x : Block * iface O) : Prop :=
  merged x /\ ev_step x.2 = Some StepNewIrreversible.

Definition within (lo hi : Z) (b : Block) : Prop := lo < Number b <= hi.

#[export] Instance within_dec lo hi b : Decision (within lo hi b).
Proof. unfold within. apply _. Defined.

Lemma forward_run f blk obj :
  forward recorder blk obj f =
  (Ok tt, mkResolver (mergedBlocksSeen f) (resolved f) ((blk, obj) :: next f)).
Proof. done. Qed.

Lemma sendMerged_run step lo hi todo : forall done_ f,
  mergedBlocksSeen f = done_ ++ todo -> Forall merged (done_ ++ todo) ->
  exists seen evs, sendMerged_from recorder done_ todo step lo hi f =
      (Ok tt, mkResolver seen (resolved f) (reverse evs ++ next f)) /\
    seen.*1 = (done_ ++ todo).*1 /\ Forall merged seen /\
    Forall2 (ev_is step Id) evs (filter (within lo hi) todo.*1).
Proof.
  induction todo as [|[blk obj] todo IH]; intros done_ f Hf HM.
  { exists (done_ ++ []), []. split_and!; [|done|done|constructor]. rewrite <- Hf. by destruct f. }
  cbn [sendMerged_from fmap list_fmap fst]. rewrite filter_cons.
  pose proof (proj1 (Forall_app _ _ _) HM) as [HMd HMt]. apply Forall_cons in HMt as [(w & Ew & Hw) HMt].
  cbn in Ew, Hw. subst obj.
  assert (Hin : ((lo <? Number blk) && (Number blk <=? hi) = true) <-> within lo hi blk).
  { unfold within. rewrite andb_true_iff, Z.ltb_lt, Z.leb_le. done. }
  destruct (_ && _).
  - rewrite decide_True by by apply Hin.
    set (obj' := IWrapped (set_step step w)).
    set (f' := mkResolver (done_ ++ (blk, obj') :: todo) (resolved f) ((blk, obj') :: next f)).
    erewrite bind_Ok by reflexivity. erewrite bind_Ok by (rewrite forward_run; reflexivity).
    assert (HM' : Forall merged ((done_ ++ [(blk, obj')]) ++ todo)).
    { apply Forall_app. split; [|done]. apply Forall_app. split; [done|].
      constructor; [|constructor]. by exists (set_step step w). }
    destruct (IH (done_ ++ [(blk, obj')]) f') as (seen & evs & E & Hs & Hm & HF);
      [cbn; by rewrite <- app_assoc|exact HM'|].
    exists seen, ((blk, obj') :: evs). split.
    { etransitivity; [exact E|]. by rewrite reverse_cons, <- app_assoc. }
    split; [by rewrite Hs, !fmap_app, <- app_assoc|]. split; [done|].
    constructor; [|exact HF]. split; [done|]. split; [done|]. cbn. by rewrite Hw.
  - rewrite decide_False by (intros Hc; apply Hin in Hc; done).
    destruct (IH (done_ ++ [(blk, IWrapped w)]) f) as (seen & evs & E & Hs & Hm & HF);
      [by rewrite <- app_assoc|by rewrite <- app_assoc|].
    exists seen, evs. split; [exact E|]. split; [|done]. by rewrite Hs, <- app_assoc.
Qed.

Lemma sendMergedBlocksBetween_run step lo hi f : Forall merged (mergedBlocksSeen f) ->
  exists seen evs, sendMergedBlocksBetween recorder step lo hi f =
      (Ok tt, mkResolver seen (resolved f) (reverse evs ++ next f)) /\
    seen.*1 = (mergedBlocksSeen f).*1 /\ Forall merged seen /\
    Forall2 (ev_is step Id) evs (filter (within lo hi) (mergedBlocksSeen f).*1).
Proof.
  intros HM. unfold sendMergedBlocksBetween. erewrite bind_Ok by reflexivity.
  by apply (sendMerged_run step lo hi (mergedBlocksSeen f) []).
Qed.

Lemma sendUndoBlocks_run c lib undo j f : LIB c = Some lib ->
  exists evs, sendUndoBlocks recorder c (Some <$> undo) j f =
      (Ok tt, mkResolver (mergedBlocksSeen f) (resolved f) (reverse evs ++ next f)) /\
    Forall2 (ev_is StepUndo (fun _ => ID lib)) evs undo.
Proof.
  intros Hl. revert f. induction undo as [|b undo IH]; intros f.
  { exists []. cbn. by destruct f. }
  set (obj := IWrapped (mkWrapped (None : option O) (mkCursor StepUndo (Some (AsRef (Some b))) (LIB c) (HeadBlock c)) (Some j))).
  destruct (IH (mkResolver (mergedBlocksSeen f) (resolved f) ((b, obj) :: next f))) as (evs & E & HF).
  exists ((b, obj) :: evs). split.
  - unfold sendUndoBlocks. rewrite fmap_cons. cbn [mfor].
    erewrite bind_Ok by (rewrite forward_run; reflexivity).
    etransitivity; [exact E|]. by rewrite reverse_cons, <- app_assoc.
  - constructor; [|done]. split; [done|]. split; [done|]. cbn. by rewrite Hl.
Qed.

(** ** The merged chain *)

Lemma filter_all {A} (P : A -> Prop) `{forall x, Decision (P x)} (l : list A) : Forall P l -> filter P l = l.
Proof. induction 1 as [|x l Hx _ IH]; [done|]. by rewrite filter_cons_True, IH. Qed.

Lemma filter_nothing {A} (P : A -> Prop) `{forall x, Decision (P x)} (l : list A) :
  Forall (fun x => ~ P x) l -> filter P l = [].
Proof. induction 1 as [|x l Hx _ IH]; [done|]. by rewrite filter_cons_False, IH. Qed.

Lemma filter_within lo hi (a b d : list Block) :
  Forall (fun x => Number x <= lo) a -> Forall (within lo hi) b -> Forall (fun x => hi < Number x) d ->
  filter (within lo hi) (a ++ b ++ d) = b.
Proof.
  intros Ha Hb Hd. rewrite !filter_app, (filter_all _ b) by done.
  rewrite (filter_nothing _ a), (filter_nothing _ d); [by rewrite app_nil_r| |];
    (eapply Forall_impl; [eassumption|]); unfold within; cbn; intros; lia.
Qed.

Definition increasing (bs : list Block) : Prop := StronglySorted (fun x y => Number x < Number y) bs.

Lemma increasing_split a x b : increasing (a ++ x :: b) ->
  Forall (fun y => Number y < Number x) a /\ Forall (fun y => Number x < Number y) b.
Proof.
  induction a as [|y a IH]; intros HS; inversion HS as [|? ? HS' HF]; subst; [by split|].
  destruct (IH HS') as [Hlo Hhi]. split; [|done]. constructor; [|done].
  apply Forall_app in HF as [_ HF]. by apply Forall_cons in HF as [? _].
Qed.

Lemma chained_app top (a : list Block) b : chained top (a ++ b) <->
  chained top a /\ chained (default top (last (Id <$> a))) b.
Proof.
  revert top. induction a as [|x a IH]; intros top; [cbn; tauto|]. cbn [app chained]. rewrite IH.
  rewrite fmap_cons, default_last_cons. tauto.
Qed.

Context (c : Cursor) (block fin : BlockRef) (Hb : cBlock c = Some block) (Hf : LIB c = Some fin).
Notation PB := (fun x => ProcessBlock recorder c false x.1 x.2).

(** Blocks below the cursor's height are kept. *)
Lemma keep_run l : forall seen hs, Forall (fun x => Number x.1 < Num block) l ->
  mfor l PB (mkResolver seen false hs) = (Ok tt, mkResolver (seen ++ l) false hs : R).
Proof.
  induction l as [|[b o] l IH]; intros seen hs HF; [by rewrite app_nil_r|].
  apply Forall_cons in HF as [Hlt HF]. cbn [mfor]. cbn in Hlt.
  erewrite (bind_Ok _ _ _ tt (mkResolver (seen ++ [(b, o)]) false hs)).
  - rewrite IH by done. by rewrite <- app_assoc.
  - unfold ProcessBlock. erewrite bind_Ok by reflexivity. cbn [resolved].
    erewrite bind_Ok by reflexivity. cbn [andb]. rewrite Hb. erewrite bind_Ok by reflexivity.
    erewrite bind_Ok by reflexivity. cbn [fst snd]. destruct (Z.ltb_spec (Number b) (Num block)); [done|lia].
Qed.

(** Once resolved, everything goes through. *)
Lemma through_run l : forall (f : R), resolved f = true ->
  mfor l PB f = (Ok tt, mkResolver (mergedBlocksSeen f) true (reverse l ++ next f)).
Proof.
  induction l as [|[b o] l IH]; intros f Hr; [destruct f; cbn in Hr; by rewrite Hr|]. cbn [mfor].
  erewrite bind_Ok.
  2: { unfold ProcessBlock. erewrite bind_Ok by reflexivity. rewrite Hr. apply forward_run. }
  rewrite IH by done. by rewrite reverse_cons, <- app_assoc.
Qed.

Lemma fresh_events l : Forall fresh_merged l -> Forall2 (ev_is StepNewIrreversible Id) l l.*1.
Proof.
  induction 1 as [|[b o] l [(w & E & Hw) Hs] _ IH]; constructor; [|done].
  cbn in E. subst o. split; [done|]. split; [done|]. cbn in *. by rewrite Hw.
Qed.

(** *** Going down the one-block files *)

Fixpoint descends (x : string) (bs : list Block) (y : string) : Prop :=
  match bs with
  | [] => x = y
  | b :: bs' => Id b = x /\ descends (ParentId b) bs' y
  end.

(** The files hold the branch [undo], no higher than the cursor's block, and no
    merged block could be mistaken for one of it by the end of its ID. *)
Record branch (files : gmap string OneBlockFile) (seen undo : list Block) (j : Block) : Prop := {
  b_path : descends (ID block) undo (Id j);
  b_files : Forall (fun b => Num fin <= Number b <= Num block /\ exists file,
    files !! TruncateBlockID (Id b) = Some file /\ obf_Num file = Number b /\
    PreviousID file = TruncateBlockID (ParentId b) /\ download file = Ok (Some b)) undo;
  b_junction : j ∈ seen /\ Number j <= Num block;
  b_unseen : Forall (fun b => Forall (fun m => HasSuffix (Id m) (TruncateBlockID (Id b)) = false) seen) undo;
  b_unique : forall m, m ∈ seen -> HasSuffix (Id m) (TruncateBlockID (Id j)) = true -> m = j;
}.

Lemma TruncateBlockID_suffix x : HasSuffix x (TruncateBlockID x) = true.
Proof.
  unfold TruncateBlockID. destruct (Nat.leb_spec (String.length x) 16).
  - rewrite <- (str_drop_0 x) at 2. apply HasSuffix_drop. lia.
  - apply HasSuffix_drop. lia.
Qed.

Lemma find_seen seen (id : string) (j : Block) :
  (exists o, (j, o) ∈ seen) -> HasSuffix (Id j) id = true ->
  (forall m, m ∈ seen.*1 -> HasSuffix (Id m) id = true -> m = j) ->
  exists o, List.find (fun x : event O => HasSuffix (Id x.1) id) seen = Some (j, o).
Proof.
  intros (o & Hin) Hj Hu. induction seen as [|[m o'] seen IH]; [by apply elem_of_nil in Hin|].
  cbn. destruct (HasSuffix (Id m) id) eqn:E.
  - rewrite (Hu m) by (done || set_solver). eauto.
  - apply elem_of_cons in Hin as [[= -> ->]|Hin]; [congruence|]. apply IH; [done|].
    intros m' Hm'. apply Hu. set_solver.
Qed.

Lemma find_unseen seen (id : string) :
  Forall (fun m => HasSuffix (Id m) id = false) seen.*1 ->
  List.find (fun x : event O => HasSuffix (Id x.1) id) seen = None.
Proof.
  induction seen as [|[m o] seen IH]; intros HF; [done|]. apply Forall_cons in HF as [Hm HF].
  cbn in *. rewrite Hm. by apply IH.
Qed.

(** The blocks the client still has. *)
Definition kept_undo (step : Z) (b : Block) : Prop := ~ (Number b = Num block /\ step = StepUndo).

#[export] Instance kept_undo_dec step b : Decision (kept_undo step b).
Proof. unfold kept_undo. apply _. Defined.

Lemma resolve_run (f : R) files step undo j : forall fuel acc,
  branch files (mergedBlocksSeen f).*1 undo j -> (length undo < fuel)%nat ->
  loop (resolve_body f files block fin step) fuel (TruncateBlockID (ID block), acc) =
  Some (Ok (acc ++ (Some <$> filter (kept_undo step) undo), AsRef (Some j))).
Proof.
  intros fuel acc [Hp HF [Hj _] Hun Hu] Hfuel. revert fuel acc Hfuel HF Hun Hp.
  generalize (ID block) as x. induction undo as [|b undo IH]; intros x fuel acc Hfuel HF Hun Hp;
    (destruct fuel as [|fuel]; [cbn in Hfuel; lia|]); cbn [loop]; unfold resolve_body at 1, seenIrreversible.
  - cbn in Hp. subst x. destruct (find_seen (mergedBlocksSeen f) (TruncateBlockID (Id j)) j) as (o & ->);
      [|by apply TruncateBlockID_suffix|done|by rewrite app_nil_r].
    apply list_elem_of_fmap in Hj as ([m o] & -> & Hin). by exists o.
  - destruct Hp as [<- Hp]. apply Forall_cons in HF as [([Hge _] & file & Hfile & Hn & Hprev & Hdl) HF].
    apply Forall_cons in Hun as [Hb1 Hun]. rewrite (find_unseen _ _ Hb1), Hfile, Hn.
    destruct (Z.ltb_spec (Number b) (Num fin)); [lia|]. rewrite Hprev.
    assert (Hk : ((Number b =? Num block) && (step =? StepUndo) = true) <-> ~ kept_undo step b).
    { unfold kept_undo. rewrite andb_true_iff, Z.eqb_eq, Z.eqb_eq. split; [tauto|].
      intros Hnn. by apply dec_stable in Hnn. }
    cbn in Hfuel. destruct (_ && _).
    + rewrite filter_cons_False by by apply Hk. apply IH; [lia|done|done|done].
    + rewrite filter_cons_True by (apply dec_stable; intros Hn'; apply Hk in Hn'; done).
      rewrite Hdl, IH by (done || lia). by rewrite fmap_cons, <- app_assoc.
Qed.

Lemma branch_size files seen undo j : branch files seen undo j -> NoDup (Number <$> undo) ->
  (length undo <= size files)%nat.
Proof.
  intros HB Hnd. pose proof (b_files _ _ _ _ HB) as HF.
  assert (Hk : NoDup ((fun b => TruncateBlockID (Id b)) <$> undo)).
  { clear HB. induction undo as [|b undo IH]; [constructor|]. rewrite fmap_cons in *.
    apply NoDup_cons in Hnd as [Hnb Hnd]. apply Forall_cons in HF as [(_ & file & Hfile & Hn & _) HF].
    constructor; [|by apply IH]. intros Hin. apply list_elem_of_fmap in Hin as (b' & E & Hin).
    rewrite Forall_forall in HF. destruct (HF _ Hin) as (_ & file' & Hfile' & Hn' & _).
    rewrite <- E, Hfile in Hfile'. injection Hfile' as <-. apply Hnb. rewrite <- Hn, Hn'.
    by apply list_elem_of_fmap_2. }
  rewrite <- (length_fmap (fun b => TruncateBlockID (Id b)) undo), <- size_dom.
  apply (submseteq_length _ (elements (dom files))), NoDup_submseteq; [done|].
  intros k Hin. apply elem_of_elements, elem_of_dom.
  apply list_elem_of_fmap in Hin as (b & -> & Hin). rewrite Forall_forall in HF.
  destruct (HF _ Hin) as (_ & file & -> & _). by eexists.
Qed.

(** ** The block that settles the cursor *)

Definition view (step : Z) (pend : list string) : View :=
  mkView (ID fin) (if decide (step = StepUndo) then tail pend else pend).

(** [seen] are the merged blocks from the cursor's final block to the one that
    settles it, [pend] what the client had above its final block. *)
Inductive position (seen : list Block) (trig : Block) (pend : list string) : Prop :=
  | on_chain : Id trig = ID block -> Number trig = Num block ->
      pend = reverse (Id <$> tail seen) -> position seen trig pend
  | forked files undo below_ j above_ :
      Id trig <> ID block -> oneBlocks (Num fin) (Num block) = Ok files ->
      branch files seen undo j -> NoDup (Number <$> undo) ->
      (exists b u, undo = b :: u /\ Number b = Num block) ->
      seen = below_ ++ above_ -> last below_ = Some j ->
      pend = (Id <$> undo) ++ reverse (Id <$> tail below_) -> position seen trig pend.

Lemma ProcessBlock_unresolved (f : R) b o : resolved f = false -> Num block <= Number b ->
  ProcessBlock recorder c false b o f =
  ((if bool_decide (Id b = ID block) then
      _ ← mmodify set_resolved;
      if Matches (Step c) StepUndo then
        _ ← (if 0 <? Num block
             then sendMergedBlocksBetween recorder StepIrreversible (Num fin) (u64_sub (Num block) 1)
             else mret tt);
        forward recorder b o
      else sendMergedBlocksBetween recorder StepIrreversible (Num fin) (Num block)
    else
      '(undoBlocks, j) ← resolve c;
      _ ← sendUndoBlocks recorder c undoBlocks j;
      _ ← sendMergedBlocksBetween recorder StepIrreversible (Num fin) (Num j);
      _ ← sendMergedBlocksBetween recorder StepNewIrreversible (Num j) (Number b);
      mmodify set_resolved) (see b o f)).
Proof.
  intros Hr Hge. unfold ProcessBlock. erewrite bind_Ok by reflexivity. rewrite Hr.
  erewrite bind_Ok by reflexivity. cbn [andb]. rewrite Hb. erewrite bind_Ok by reflexivity.
  erewrite bind_Ok by reflexivity. destruct (Z.ltb_spec (Number b) (Num block)); [lia|].
  unfold deref_num. rewrite Hf. done.
Qed.

Lemma tail_fmap {A B} (g : A -> B) (l : list A) : tail (g <$> l) = g <$> tail l.
Proof. by destruct l. Qed.

Lemma last_Id x (l : list Block) t : last (x :: l) = Some t -> default (Id x) (last (Id <$> l)) = Id t.
Proof. intros E. by rewrite <- (default_last_cons ""), <- fmap_cons, fmap_last, E. Qed.

Section Settle.
Context (f : R) (b : Block) (o : iface O) (first : Block) (rest : list Block).
Context (Hres : resolved f = false) (Hnext : next f = []) (Hfresh : fresh_merged (b, o))
        (Hmerged : Forall merged (mergedBlocksSeen f))
        (Hseen : (mergedBlocksSeen f).*1 ++ [b] = first :: rest) (Hinc : increasing (first :: rest))
        (Hfid : Id first = ID fin) (Hfnum : Number first = Num fin) (Hch : chained (Id first) rest)
        (Hge : Num block <= Number b).

Lemma see_blocks : (mergedBlocksSeen (see b o f)).*1 = first :: rest.
Proof. cbn. by rewrite fmap_app. Qed.

Lemma see_merged : Forall merged (mergedBlocksSeen (see b o f)).
Proof. cbn. apply Forall_app. split; [done|]. constructor; [apply Hfresh|constructor]. Qed.

Lemma settle_last : last (first :: rest) = Some b.
Proof. rewrite <- Hseen. apply last_snoc. Qed.

Lemma seen_bounds x : x ∈ rest -> Num fin < Number x <= Number b.
Proof.
  intros Hx. split.
  - rewrite <- Hfnum. inversion Hinc as [|? ? _ HF]; subst. rewrite Forall_forall in HF. by apply HF.
  - pose proof Hinc as Hi. rewrite <- Hseen in Hi. apply increasing_split in Hi as [Hi _].
    assert (x ∈ (mergedBlocksSeen f).*1 ++ [b]) as Hin by (rewrite Hseen; by right).
    rewrite Forall_forall in Hi. apply elem_of_app in Hin as [Hin|Hin%list_elem_of_singleton].
    + specialize (Hi x Hin). cbn in Hi. lia.
    + subst. lia.
Qed.

Lemma seen_within x : x ∈ rest -> Num fin <= Number x <= Number b.
Proof. intros Hx. apply seen_bounds in Hx. lia. Qed.

(** What the settling block makes the resolver send: [replay], which brings the
    client from [v] to the merged block [top], then the new and final blocks [bs]
    above it. *)
Definition settles (v : View) : Prop :=
  exists seen replay finals top bs,
    ProcessBlock recorder c false b o f = (Ok tt, mkResolver seen true (reverse (replay ++ finals))) /\
    consume v replay = Some (mkView top []) /\ Forall (fun ev => Num fin <= Number ev.1 <= Num block) replay /\
    Forall2 (ev_is StepNewIrreversible Id) finals bs /\ chained top bs /\
    default top (last (Id <$> bs)) = Id b /\ exists below, first :: rest = below ++ bs.

Lemma ev_is_height step lib_of (evs : list (event O)) bs : Forall2 (ev_is step lib_of) evs bs ->
  Forall (fun x => Num fin <= Number x <= Num block) bs -> Forall (fun ev => Num fin <= Number ev.1 <= Num block) evs.
Proof. induction 1 as [|ev x evs bs (<- & _) _ IH]; [constructor|]. intros HF. apply Forall_cons in HF as [? ?]. constructor; auto. Qed.

Lemma settle_canonical : Id b = ID block -> Number b = Num block -> Matches (Step c) StepUndo = false ->
  settles (mkView (ID fin) (reverse (Id <$> rest))).
Proof.
  intros Hid Hn Hst. unfold settles. rewrite ProcessBlock_unresolved by done. rewrite bool_decide_true, Hst by done.
  destruct (sendMergedBlocksBetween_run StepIrreversible (Num fin) (Num block) (set_resolved (see b o f)))
    as (seen & evs & E & _ & _ & HF); [exact see_merged|].
  exists seen, evs, [], (Id b), []. erewrite bind_Ok by reflexivity. rewrite E. split.
  { cbn. by rewrite Hnext, !app_nil_r. }
  cbn [mergedBlocksSeen set_resolved] in HF. rewrite see_blocks in HF.
  replace (first :: rest) with ([first] ++ rest ++ []) in HF by by rewrite app_nil_r.
  rewrite filter_within in HF.
  - pose proof (consume_irreversible (ID fin) [] evs rest HF) as C. cbn [app] in C. rewrite C.
    rewrite <- Hfid, (last_Id _ _ _ settle_last). split; [done|].
    split; [|split_and!; try done; exists (first :: rest); by rewrite app_nil_r].
    apply (ev_is_height _ _ _ _ HF), Forall_forall. intros x Hx. rewrite <- Hn. by apply seen_within.
  - constructor; [lia|constructor].
  - apply Forall_forall. intros x Hx. rewrite <- Hn. by apply seen_bounds.
  - constructor.
Qed.

Lemma settle_undone : Id b = ID block -> Number b = Num block -> Matches (Step c) StepUndo = true ->
  rest <> [] -> 0 <= Num fin -> is_u64 (Num block) ->
  settles (mkView (ID fin) (tail (reverse (Id <$> rest)))).
Proof.
  unfold settles. intros Hid Hn Hst Hne Hpos Hu. rewrite ProcessBlock_unresolved by done. rewrite bool_decide_true, Hst by done.
  destruct (exists_last Hne) as (mid & b' & Emid).
  assert (b' = b) as -> by (pose proof settle_last as El; rewrite Emid in El;
    change (first :: mid ++ [b']) with ((first :: mid) ++ [b']) in El; rewrite last_snoc in El; congruence).
  assert (Hfb : Num fin < Number b) by (apply seen_bounds; rewrite Emid; set_solver).
  destruct (Z.ltb_spec 0 (Num block)); [|lia].
  rewrite u64_sub_le by (done || lia).
  destruct (sendMergedBlocksBetween_run StepIrreversible (Num fin) (Num block - 1) (set_resolved (see b o f)))
    as (seen & evs & E & _ & _ & HF); [exact see_merged|].
  exists seen, evs, [(b, o)], (default (ID fin) (last (Id <$> mid))), [b]. erewrite bind_Ok by reflexivity. erewrite bind_Ok by exact E. split.
  { rewrite forward_run. cbn [next]. rewrite reverse_app. cbn. by rewrite Hnext, app_nil_r. }
  cbn [mergedBlocksSeen set_resolved] in HF. rewrite see_blocks, Emid in HF.
  change (first :: mid ++ [b]) with ([first] ++ mid ++ [b]) in HF. rewrite filter_within in HF.
  - rewrite Emid, fmap_app, reverse_app. cbn [fmap list_fmap reverse rev_append app tail].
    pose proof (consume_irreversible (ID fin) [] evs mid HF) as C. cbn [app] in C.
    split; [exact C|]. split; [|split_and!; [by apply (fresh_events [(b, o)]); constructor| |done|by exists (first :: mid)]].
    + apply (ev_is_height _ _ _ _ HF), Forall_forall. intros x Hx. rewrite <- Hn. apply seen_within. rewrite Emid. set_solver.
    + rewrite Emid in Hch. apply chained_app in Hch as [_ Hch]. by rewrite <- Hfid.
  - constructor; [lia|constructor].
  - apply Forall_forall. intros x Hx. pose proof Hinc as Hi. rewrite Emid in Hi.
    change (first :: mid ++ [b]) with ((first :: mid) ++ [b]) in Hi.
    apply increasing_split in Hi as [Hi _]. apply Forall_cons in Hi as [_ Hi].
    rewrite Forall_forall in Hi. specialize (Hi x Hx). cbn in Hi.
    destruct (seen_bounds x) as [? _]; [rewrite Emid; set_solver|]. unfold within. lia.
  - constructor; [lia|constructor].
Qed.

(** The undone part of a branch whose first block is the cursor's. *)
Lemma filter_kept_undo step u0 undo : NoDup (Number <$> u0 :: undo) -> Number u0 = Num block ->
  filter (kept_undo step) (u0 :: undo) = if decide (step = StepUndo) then undo else u0 :: undo.
Proof.
  intros Hnd Hu0. destruct (decide (step = StepUndo)) as [->|Hne].
  - rewrite filter_cons_False by (unfold kept_undo; tauto). apply filter_all.
    rewrite fmap_cons in Hnd. apply NoDup_cons in Hnd as [Hnd _].
    apply Forall_forall. intros x Hx [E _]. apply Hnd. rewrite Hu0, <- E. by apply list_elem_of_fmap_2.
  - apply filter_all, Forall_forall. intros x _ [_ E]. done.
Qed.

Lemma settle_forked files u0 undo lo j above_ :
  Id b <> ID block -> oneBlocks (Num fin) (Num block) = Ok files ->
  branch files (first :: rest) (u0 :: undo) j -> NoDup (Number <$> u0 :: undo) ->
  Number u0 = Num block -> rest = lo ++ above_ -> last (first :: lo) = Some j ->
  settles (view (Step c) ((Id <$> u0 :: undo) ++ reverse (Id <$> lo))).
Proof.
  unfold settles. intros Hid Hfiles HB Hnd Hu0 Erest Hj. rewrite ProcessBlock_unresolved by done.
  rewrite bool_decide_false by done.
  pose proof (branch_size _ _ _ _ HB Hnd) as Hsize.
  pose proof (b_files _ _ _ _ HB) as Hund. destruct (b_junction _ _ _ _ HB) as [_ Hjb]. rewrite <- see_blocks in HB.
  erewrite bind_Ok.
  2: { unfold resolve. rewrite Hb, Hf. cbn [deref mbind outcome_bind]. rewrite Hfiles. cbn [mbind outcome_bind].
       rewrite (resolve_run _ _ (Step c) _ _ _ [] HB) by (unfold lt in *; lia). reflexivity. }
  rewrite (filter_kept_undo _ _ _ Hnd Hu0). cbn [app].
  destruct (sendUndoBlocks_run c fin (if decide (Step c = StepUndo) then undo else u0 :: undo)
    (AsRef (Some j)) (see b o f) Hf) as (e1 & E1 & F1).
  erewrite bind_Ok by exact E1.
  match goal with |- context [mkResolver ?m ?r ?h] => set (f1 := mkResolver m r h) end.
  destruct (sendMergedBlocksBetween_run StepIrreversible (Num fin) (Number j) f1)
    as (s2 & e2 & E2 & Es2 & M2 & F2); [exact see_merged|].
  erewrite bind_Ok by exact E2.
  set (f2 := mkResolver s2 (resolved f1) (reverse e2 ++ next f1)).
  destruct (sendMergedBlocksBetween_run StepNewIrreversible (Number j) (Number b) f2)
    as (s3 & e3 & E3 & _ & _ & F3); [exact M2|].
  erewrite bind_Ok by exact E3.
  exists s3, (e1 ++ e2), e3, (Id j), above_. split.
  { cbn. rewrite Hnext, app_nil_r. unfold mmodify, set_resolved. cbn. by rewrite !reverse_app. }
  cbn [mergedBlocksSeen f2] in F3. rewrite Es2 in F3. cbn [mergedBlocksSeen f1] in F2, F3.
  rewrite see_blocks, Erest in F2, F3.
  assert (Hjn : Forall (fun x => Number x <= Number j) (first :: lo) /\
                Forall (fun x => Number j < Number x) above_).
  { apply last_Some in Hj as [pre Epre]. pose proof Hinc as Hi. rewrite Erest in Hi.
    change (first :: lo ++ above_) with ((first :: lo) ++ above_) in Hi.
    rewrite Epre, <- app_assoc in Hi. cbn [app] in Hi. apply increasing_split in Hi as [Hlt Hgt].
    split; [|done]. rewrite Epre. apply Forall_app. split; [|repeat constructor; lia].
    eapply Forall_impl; [exact Hlt|]. cbn. lia. }
  destruct Hjn as [Hlow Hhigh].
  change (first :: lo ++ above_) with ([first] ++ lo ++ above_) in F2.
  rewrite filter_within in F2; [|constructor; [lia|constructor]| |done].
  2: { apply Forall_cons in Hlow as [_ Hlow]. apply Forall_forall. intros x Hx.
       rewrite Forall_forall in Hlow. specialize (Hlow x Hx).
       destruct (seen_bounds x) as [? _]; [rewrite Erest; set_solver|]. by split. }
  replace (first :: lo ++ above_) with ((first :: lo) ++ above_ ++ []) in F3 by by rewrite app_nil_r.
  rewrite filter_within in F3; [|done| |constructor].
  2: { apply Forall_forall. intros x Hx. rewrite Forall_forall in Hhigh. specialize (Hhigh x Hx).
       destruct (seen_bounds x) as [_ ?]; [rewrite Erest; set_solver|]. by split. }
  assert (Hv : view (Step c) ((Id <$> u0 :: undo) ++ reverse (Id <$> lo)) =
    mkView (ID fin) ((Id <$> (if decide (Step c = StepUndo) then undo else u0 :: undo)) ++ reverse (Id <$> lo))).
  { unfold view. by destruct (decide _). }
  rewrite Hv, !consume_app, (consume_undo _ _ _ _ F1). cbn [mbind option_bind].
  pose proof (consume_irreversible (ID fin) [] e2 lo F2) as C2. cbn [app] in C2. rewrite C2.
  rewrite <- Hfid, (last_Id _ _ _ Hj). rewrite Erest in Hch. apply chained_app in Hch as [_ Hch].
  rewrite (last_Id _ _ _ Hj) in Hch. split; [done|]. split.
  { apply Forall_app. split.
    - apply (ev_is_height _ _ _ _ F1).
      eapply (Forall_impl _ (fun x => Num fin <= Number x <= Num block)) in Hund; [|by intros ? []].
      destruct (decide _); [|exact Hund]. by apply Forall_cons in Hund as [_ ?].
    - apply (ev_is_height _ _ _ _ F2). apply Forall_cons in Hlow as [_ Hlow]. apply Forall_forall. intros x Hx.
      destruct (seen_bounds x) as [? _]; [rewrite Erest; set_solver|]. rewrite Forall_forall in Hlow. specialize (Hlow x Hx).
      cbn in Hlow. lia. }
  split; [exact F3|]. split; [exact Hch|]. split; [|exists (first :: lo); by rewrite Erest].
  pose proof settle_last as El. rewrite Erest in El.
  change (first :: lo ++ above_) with ((first :: lo) ++ above_) in El.
  apply last_Some in Hj as [pre Epre]. rewrite Epre, <- app_assoc in El. cbn [app] in El.
  rewrite last_app_cons in El. by apply last_Id.
Qed.
End Settle.
End Facts.

(** ** Property *)

(** The final blocks a file source sends from the cursor's final block [first]
    on: [trig] is the first one at or above the cursor's height. *)
Record merged_stream {O} (c : Cursor) (block fin : BlockRef) (first : Block)
  (pre : list (event O)) (trig : event O) (post : list (event O)) : Prop := {
  m_cursor : cBlock c = Some block /\ LIB c = Some fin;
  m_nums : is_u64 (Num block) /\ 0 <= Num fin;
  m_step : Step c ∈ [StepNew; StepUndo; StepNewIrreversible];
  m_fresh : Forall fresh_merged (pre ++ trig :: post);
  m_first : Id first = ID fin /\ Number first = Num fin;
  m_chain : exists rest, (pre ++ trig :: post).*1 = first :: rest /\ chained (Id first) rest;
  m_increasing : increasing (pre ++ trig :: post).*1;
  m_height : Forall (fun x => Number x.1 < Num block) pre /\ Num block <= Number trig.1;
}.

(** The events of a resolver: what brings the client from [v] to the merged block
    [top], between the heights of the cursor, then the new and final blocks
    [bs], the last of the merged blocks that were read. *)
Record resumption {O} (block fin : BlockRef) (v : View) (blocks : list Block)
  (replay finals : list (event O)) (top : string) (bs : list Block) : Prop := {
  r_replay : consume v replay = Some (mkView top []);
  r_height : Forall (fun ev => Num fin <= Number ev.1 <= Num block) replay;
  r_finals : Forall2 (ev_is StepNewIrreversible Id) finals bs;
  r_chain : chained top bs;
  r_blocks : exists below, blocks = below ++ bs;
}.

Lemma resumption_consumed {O} block fin v blocks (replay finals : list (event O)) top bs :
  resumption block fin v blocks replay finals top bs ->
  consume v (replay ++ finals) = Some (mkView (default top (last (Id <$> bs))) []).
Proof. intros [C _ F Hc _]. rewrite consume_app, C. by apply consume_final. Qed.

Lemma resolver_splits {O} `{Protocol} `{DBin} `{Store} c block fin first
  (pre : list (event O)) trig post pend :
  merged_stream c block fin first pre trig post -> (Step c = StepUndo -> pend <> []) ->
  position block fin (pre ++ [trig]).*1 trig.1 pend ->
  exists f replay finals top bs,
    mfor (pre ++ trig :: post) (fun x => ProcessBlock recorder c false x.1 x.2) (newCursorResolverHandler []) = (Ok tt, f) /\
    reverse (next f) = replay ++ finals /\
    resumption block fin (view fin (Step c) pend) (pre ++ trig :: post).*1 replay finals top bs /\
    default top (last (Id <$> bs)) = default (Id trig.1) (last (Id <$> post.*1)).
Proof.
  intros [[Hb Hf] [Hu Hpos] Hst Hfresh [Hfid Hfnum] (rest & Erest & Hch) Hinc [Hpre Hge]] Hundo HP.
  rewrite fmap_app in Erest, Hinc, HP |- *. cbn [fmap list_fmap] in Erest, Hinc, HP |- *.
  apply Forall_app in Hfresh as [Fpre Fpost]. apply Forall_cons in Fpost as [Ftrig Fpost].
  assert (exists rest', pre.*1 ++ [trig.1] = first :: rest' /\ rest = rest' ++ post.*1) as (rest' & Es & ->).
  { destruct pre as [|x pre]; cbn in Erest |- *; injection Erest as <- <-; [by exists []|].
    exists (pre.*1 ++ [trig.1]). by rewrite <- app_assoc. }
  rewrite Es in HP. apply chained_app in Hch as [Hch Hpost].
  assert (El : last (first :: rest') = Some trig.1) by (rewrite <- Es; apply last_snoc).
  rewrite (last_Id _ _ _ El) in Hpost.
  assert (Hinc' : increasing (first :: rest')).
  { rewrite <- Es. change (trig.1 :: post.*1) with ([trig.1] ++ post.*1) in Hinc.
    rewrite app_assoc in Hinc. by apply StronglySorted_app in Hinc as (_ & ? & _). }
  destruct trig as [b o].
  set (f0 := mkResolver pre false [] : cursorResolver O (list (event O))).
  assert (settles c block fin f0 b o first rest' (view fin (Step c) pend))
    as (seen & replay & finals & top & bs & E & C & Hh & F & Hbs & Hlast & below & Ebs).
  { assert (Hm : Forall merged (mergedBlocksSeen f0)) by (eapply Forall_impl; [exact Fpre|]; by intros ? [? _]).
    destruct HP as [Hid Hn ->|files undo below_ j above_ Hid Hfiles HB Hnd (u0 & u & -> & Hu0) Ebelow Hj ->].
    - cbn [tail]. unfold view. destruct (decide (Step c = StepUndo)) as [Est|Hne].
      + eapply settle_undone; try done; [by rewrite Est|]. intros ->. by apply (Hundo Est).
      + eapply settle_canonical; try done.
        repeat (apply elem_of_cons in Hst as [E|Hst]; [first [congruence|by rewrite E]|]).
        by apply elem_of_nil in Hst.
    - destruct below_ as [|x lo]; [done|]. injection Ebelow as <- Er. cbn [tail].
      by eapply settle_forked. }
  exists (mkResolver seen true (reverse ((replay ++ finals) ++ post))), replay, (finals ++ post), top, (bs ++ post.*1).
  split; [|split; [|split]].
  - erewrite mfor_app by by apply (keep_run c block Hb). cbn [mfor].
    erewrite bind_Ok by exact E. rewrite through_run by done. cbn. by rewrite (reverse_app (replay ++ finals)).
  - cbn [next]. by rewrite reverse_involutive, <- app_assoc.
  - split; [exact C|exact Hh| | |].
    + apply Forall2_app; [exact F|by apply fresh_events].
    + apply chained_app. by rewrite Hlast.
    + exists below. cbn [fst] in Es |- *. rewrite cons_middle. by rewrite !app_assoc, Es, Ebs.
  - rewrite fmap_app. cbn [fst]. rewrite last_app. destruct (last (Id <$> post.*1)) as [x|]; cbn [default]; [done|].
    exact Hlast.
Qed.

Lemma resolver_resumes {O} `{Protocol} `{DBin} `{Store} c block fin first
  (pre : list (event O)) trig post pend :
  merged_stream c block fin first pre trig post -> (Step c = StepUndo -> pend <> []) ->
  position block fin (pre ++ [trig]).*1 trig.1 pend ->
  exists f, mfor (pre ++ trig :: post) (fun x => ProcessBlock recorder c false x.1 x.2)
              (newCursorResolverHandler []) = (Ok tt, f) /\
    consume (view fin (Step c) pend) (reverse (next f)) =
      Some (mkView (default (Id trig.1) (last (Id <$> post.*1))) []).
Proof.
  intros Hm Hu Hp. destruct (resolver_splits _ _ _ _ _ _ _ _ Hm Hu Hp) as (f & replay & finals & top & bs & E & En & Hr & <-).
  exists f. split; [exact E|]. rewrite En. by eapply resumption_consumed.
Qed.

(** C12: fed with the final blocks from the cursor's final block on, the resolver
    brings a client from its cursor to the end of these blocks, whether the
    cursor's block is among them or on a branch found in the one-block files: the
    branch is undone down to its junction, the blocks the client had are announced
    as final, the others are sent as new and final, and so is every later
    block. *)
Theorem cursor_resolver_resumes {O} `{Protocol} `{DBin} `{Store} c block fin first
  (pre : list (event O)) trig post pend :
  merged_stream c block fin first pre trig post -> (Step c = StepUndo -> pend <> []) ->
  position block fin (pre ++ [trig]).*1 trig.1 pend ->
  exists f, mfor (pre ++ trig :: post) (fun x => ProcessBlock recorder c false x.1 x.2)
              (newCursorResolverHandler []) = (Ok tt, f) /\
    consume (view fin (Step c) pend) (reverse (next f)) =
      Some (mkView (default (Id trig.1) (last (Id <$> post.*1))) []).
Proof. apply resolver_resumes. Qed.

(** *** The example: the client is on 5b, the merged blocks are 3a to 6a *)

#[local] Instance proto0 : Protocol := {| GetProtocolFirstStreamableBlock := 0 |}.

(** The only one-block file is 5b's; the content of a file is its name. *)
#[local] Instance ex_store : Store := {|
  WalkFrom := fun _ _ => (["0000000005-5b-4a-3-x"], None);
  Walk := fun _ => (["0000000005-5b-4a-3-x"], None);
  OpenObject := fun name => Ok name;
|}.

#[local] Instance ex_dbin : DBin := {|
  ReadHeader := fun data => Ok ("", data);
  ReadMessage := fun src => (src, None, "");
  UnmarshalBlock := fun m => f ← NewOneBlockFile m; Ok (ToBstreamBlock f);
  UnmarshalBlockMeta := fun _ => Err (EMsg "not a block meta");
  LookupEnv := fun _ => false;
|}.

Definition ex_merged (n : Z) (id parent : string) : event unit :=
  let b := mkBlock n id parent None n 0 0 "" 0 (n - 1) None in
  let ref := Some (AsRef (Some b)) in
  (b, IWrapped (mkWrapped None (mkCursor StepNewIrreversible ref ref ref) None)).

Definition ex_5b : Block := mkBlock 5 "5b" "4a" None 3 0 0 "" 0 4 (Some (mkAny "" "")).

Definition ex_client : Cursor :=
  mkCursor StepNew (Some (NewBlockRef "5b" 5)) (Some (NewBlockRef "3a" 3)) (Some (NewBlockRef "5b" 5)).

Lemma ex_merged_stream :
  merged_stream ex_client (NewBlockRef "5b" 5) (NewBlockRef "3a" 3) (ex_merged 3 "3a" "2a").1
    [ex_merged 3 "3a" "2a"; ex_merged 4 "4a" "3a"] (ex_merged 5 "5a" "4a") [ex_merged 6 "6a" "5a"].
Proof.
  split; try done.
  - left.
  - repeat constructor; eexists; done.
  - eexists. done.
  - repeat constructor.
  - split; [repeat constructor|done].
Qed.

Definition ex_file : OneBlockFile :=
  mkOneBlockFile "0000000005-5b-4a-3" {["0000000005-5b-4a-3-x" := true]} "5b" 5 3 "4a" "" false.

Lemma ex_position :
  position (NewBlockRef "5b" 5) (NewBlockRef "3a" 3)
    ([ex_merged 3 "3a" "2a"; ex_merged 4 "4a" "3a"] ++ [ex_merged 5 "5a" "4a"]).*1
    (ex_merged 5 "5a" "4a").1 ["5b"; "4a"].
Proof.
  eapply (forked _ _ _ _ _ {["5b" := ex_file]} [ex_5b] [(ex_merged 3 "3a" "2a").1; (ex_merged 4 "4a" "3a").1] _
            [(ex_merged 5 "5a" "4a").1]); try done.
  - split.
    + vm_compute. by split.
    + apply Forall_singleton. split; [vm_compute; split; congruence|]. exists ex_file.
      split_and!; vm_compute; reflexivity.
    + split; [right; left|vm_compute; congruence].
    + apply Forall_singleton. repeat (apply Forall_cons; split; [vm_compute; reflexivity|]). constructor.
    + intros m Hm Hs. repeat (apply elem_of_cons in Hm as [->|Hm]; [vm_compute in Hs; congruence|]).
      by apply elem_of_nil in Hm.
  - apply NoDup_singleton.
  - by exists ex_5b, [].
Qed.

Lemma cursor_resolver_resumes_witness :
  exists f, mfor [ex_merged 3 "3a" "2a"; ex_merged 4 "4a" "3a"; ex_merged 5 "5a" "4a"; ex_merged 6 "6a" "5a"]
      (fun x => ProcessBlock recorder ex_client false x.1 x.2) (newCursorResolverHandler []) = (Ok tt, f) /\
    consume (mkView "3a" ["5b"; "4a"]) (reverse (next f)) = Some (mkView "6a" []) /\
    ((fun ev => (ev_step ev.2, Id ev.1)) <$> reverse (next f)) =
      [(Some StepUndo, "5b"); (Some StepIrreversible, "4a"); (Some StepNewIrreversible, "5a");
       (Some StepNewIrreversible, "6a")].
Proof.
  destruct (cursor_resolver_resumes _ _ _ _ _ _ _ _ ex_merged_stream ltac:(done) ex_position) as (f & E & C).
  exists f. split; [exact E|]. split; [exact C|].
  vm_compute in E. injection E as <-. reflexivity.
Defined.
End CursorResolver.
