(* ===== verification/FileSource.v ===== *)
(** * Streaming merged blocks files ([filesource.go], [blocktypes.go])

    The source reads bundles of final blocks, one file per [bundleSize] numbers.
    The code runs three stages concurrently (finding the files, reading them,
    handling the blocks) over channels that keep their order: here they run in
    sequence, and [FilePipeline.v] has the goroutines and what their schedules may
    change.  The existence of a file is an oracle that does not change: a source
    without an index asks for a missing file until its fuel is spent, and [Diverge]
    stands for waiting for ever; the readings of the clock are an argument. *)

From S2P Require Import Prelude GoStrings Types OneBlockFiles CursorResolver.
Import OneBlockFiles.

(** [bstream.BlockIndexProvider]; a nil slice is [None]. *)
Class BlockIndexProvider := {
  BlocksInRange : Z -> Z -> outcome (option (list Z));
}.

Module FileSource.

Definition ErrStopBlockReached : error := ESentinel "bstream.ErrStopBlockReached".

(** ** The files being read ([blocktypes.go]) *)

Record incomingBlocksFile := mkIncoming {
  baseNum : Z;
  filename : string;
  filteredBlocks : option (list Z);
}.

Definition newIncomingBlocksFile (baseBlockNum : Z) (baseFileName : string)
  (filtered : option (list Z)) : incomingBlocksFile :=
  mkIncoming baseBlockNum baseFileName filtered.

Fixpoint dropUpTo (blockNum : Z) (l : list Z) (found : bool) : bool * list Z :=
  match l with
  | [] => (found, [])
  | x :: l' => if x <=? blockNum then dropUpTo blockNum l' true else (found, x :: l')
  end.

(** [PassesFilter] consumes the filter up to the block. *)
Definition PassesFilter (blockNum : Z) (filtered : option (list Z)) : bool * option (list Z) :=
  match filtered with
  | None => (true, None)
  | Some l => let '(found, rest) := dropUpTo blockNum l false in (found, Some rest)
  end.

(** ** Configuration *)

Record FileSource (O : Type) := mkFileSource {
  startBlockNum : Z;
  stopBlockNum : Z;
  bundleSize : Z;
  preprocFunc : option (Block -> outcome O);
  preprocessorThreadCount : Z;
  retryDelay : Z;
  hasIndexProvider : bool;
  errorOutOnMissingFile : bool;
  whitelistedBlocks : gset Z;
  timeBetweenProgressBlocks : Z;
}.
Arguments mkFileSource {O}. Arguments startBlockNum {O}. Arguments stopBlockNum {O}.
Arguments bundleSize {O}. Arguments preprocFunc {O}. Arguments preprocessorThreadCount {O}.
Arguments retryDelay {O}. Arguments hasIndexProvider {O}. Arguments errorOutOnMissingFile {O}.
Arguments whitelistedBlocks {O}. Arguments timeBetweenProgressBlocks {O}.

Section Options.
Context {O : Type}.
Definition FileSourceOption : Type := FileSource O -> FileSource O.

Definition FileSourceWithConcurrentPreprocess (f : Block -> outcome O) (threads : Z)
  : FileSourceOption := fun s =>
  mkFileSource (startBlockNum s) (stopBlockNum s) (bundleSize s) (Some f) threads (retryDelay s)
    (hasIndexProvider s) (errorOutOnMissingFile s) (whitelistedBlocks s) (timeBetweenProgressBlocks s).

Definition FileSourceWithWhitelistedBlocks (ns : list Z) : FileSourceOption := fun s =>
  mkFileSource (startBlockNum s) (stopBlockNum s) (bundleSize s) (preprocFunc s)
    (preprocessorThreadCount s) (retryDelay s) (hasIndexProvider s) (errorOutOnMissingFile s)
    (whitelistedBlocks s ∪ list_to_set ns) (timeBetweenProgressBlocks s).

Definition FileSourceWithRetryDelay (delay : Z) : FileSourceOption := fun s =>
  mkFileSource (startBlockNum s) (stopBlockNum s) (bundleSize s) (preprocFunc s)
    (preprocessorThreadCount s) delay (hasIndexProvider s) (errorOutOnMissingFile s)
    (whitelistedBlocks s) (timeBetweenProgressBlocks s).

Definition FileSourceWithStopBlock (stop : Z) : FileSourceOption := fun s =>
  mkFileSource (startBlockNum s) stop (bundleSize s) (preprocFunc s)
    (preprocessorThreadCount s) (retryDelay s) (hasIndexProvider s) (errorOutOnMissingFile s)
    (whitelistedBlocks s) (timeBetweenProgressBlocks s).

Definition FileSourceWithBundleSize (size : Z) : FileSourceOption := fun s =>
  mkFileSource (startBlockNum s) (stopBlockNum s) size (preprocFunc s)
    (preprocessorThreadCount s) (retryDelay s) (hasIndexProvider s) (errorOutOnMissingFile s)
    (whitelistedBlocks s) (timeBetweenProgressBlocks s).

Definition FileSourceWithBlockIndexProvider : FileSourceOption := fun s =>
  mkFileSource (startBlockNum s) (stopBlockNum s) (bundleSize s) (preprocFunc s)
    (preprocessorThreadCount s) (retryDelay s) true (errorOutOnMissingFile s)
    (whitelistedBlocks s) (timeBetweenProgressBlocks s).

Definition FileSourceErrorOnMissingMergedBlocksFile : FileSourceOption := fun s =>
  mkFileSource (startBlockNum s) (stopBlockNum s) (bundleSize s) (preprocFunc s)
    (preprocessorThreadCount s) (retryDelay s) (hasIndexProvider s) true
    (whitelistedBlocks s) (timeBetweenProgressBlocks s).

Definition second : Z := 1000000000.

Definition NewFileSource (start : Z) (options : list FileSourceOption) : FileSource O :=
  foldl (fun s option => option s)
    (mkFileSource start 0 100 None 0 (4 * second) false false ∅ (30 * second)) options.
End Options.

Section Source.
Context {O : Type} `{Protocol} `{DBin} `{Store} `{BlockIndexProvider}.
Context (FileExists : string -> outcome bool).

(** ** Finding the files *)

(** Five attempts; the oracle gives the same answer to each. *)
Definition checkExists (baseBlockNum : Z) : outcome bool * string :=
  let baseFilename := fmt_010d baseBlockNum in (FileExists baseFilename, baseFilename).

(** [exists, _, _ := s.checkExists(n)]: false next to an error. *)
Definition existsOr (baseBlockNum : Z) : bool :=
  match (checkExists baseBlockNum).1 with Ok b => b | _ => false end.

(** The whitelist is consumed; a nil result is [None]. *)
Definition addBlocks (s : FileSource O) (wl : gset Z) (baseBlock : Z) : list Z :=
  let top := u64_add baseBlock (bundleSize s) in
  elements (filter (fun n => baseBlock <= n < top) wl) ++
  (if (baseBlock <=? startBlockNum s) && (startBlockNum s <? top) then [startBlockNum s] else []) ++
  (if negb (stopBlockNum s =? 0) && (baseBlock <=? stopBlockNum s) && (stopBlockNum s <? top)
   then [stopBlockNum s] else []).

Definition in_bounds (s : FileSource O) (blk : Z) : Prop :=
  startBlockNum s <= blk /\ (stopBlockNum s <> 0 -> blk <= stopBlockNum s).

#[export] Instance in_bounds_dec s blk : Decision (in_bounds s blk).
Proof. unfold in_bounds. apply _. Defined.

Definition nilable {A} (l : list A) : option (list A) := match l with [] => None | _ => Some l end.

Definition tweakRangeIndexResults (s : FileSource O) (baseBlock : Z) (inBlocks : option (list Z))
  (wl : gset Z) : option (list Z) * gset Z :=
  let top := u64_add baseBlock (bundleSize s) in
  let wl' := filter (fun n => ~ n < baseBlock /\ ~ n < top) wl in
  match addBlocks s wl baseBlock with
  | [] => (inBlocks, wl')
  | added =>
      let allBlocks := merge_sort Z.le (default [] inBlocks ++ added) in
      (nilable (remove_dups (filter (in_bounds s) allBlocks)), wl')
  end.

(** The loop of [lookupBlockIndex]; [late] are the successive answers to "did
    [timeBetweenProgressBlocks] pass". *)
Fixpoint lookup_from (s : FileSource O) (late : list bool) (baseBlock : Z) (wl : gset Z)
  : outcome (Z * option (list Z) * bool * gset Z) :=
  match BlocksInRange baseBlock (bundleSize s) with
  | Err _ => Ok (baseBlock, None, true, wl)
  | Panic w => Panic w
  | Diverge => Diverge
  | Ok filtered =>
      let '(outBlocks, wl') := tweakRangeIndexResults s baseBlock filtered wl in
      match outBlocks with
      | Some out => Ok (baseBlock, Some out, false, wl')
      | None =>
          match late with
          | [] => Diverge
          | true :: _ => Ok (baseBlock, Some [baseBlock], false, wl')
          | false :: late' => lookup_from s late' (u64_add baseBlock (bundleSize s)) wl'
          end
      end
  end.

Definition lookupBlockIndex (s : FileSource O) (late : list bool) (in_ : Z) (wl : gset Z)
  : outcome (Z * option (list Z) * bool * gset Z) :=
  if negb (stopBlockNum s =? 0) && (stopBlockNum s <? in_) then Ok (in_, None, true, wl)
  else lookup_from s late in_ wl.

(** One turn of [launchReader] up to the existence test: the next bundle, its
    filter, whether the index still serves, the whitelist. *)
Definition next_bundle (s : FileSource O) (late : list bool) (active : bool) (base : Z) (wl : gset Z)
  : outcome (Z * option (list Z) * bool * gset Z) :=
  if negb active then Ok (base, None, false, wl)
  else
    '(nextBase, matching, noMoreIndex, wl') ← lookupBlockIndex s late base wl;
    if noMoreIndex : bool then
      if negb (existsOr nextBase) && (base <? nextBase)
      then Ok (u64_sub nextBase (bundleSize s), None, false, wl')
      else if negb (existsOr (u64_add nextBase (bundleSize s)))
      then Ok (nextBase, None, false, wl')
      else Ok (nextBase, matching, false, wl')
    else Ok (nextBase, matching, true, wl').

(** ** Reading a file *)

(** All the blocks of a reader and the error it ends with ([None] at the end of
    the file); each round consumes a message. *)
Fixpoint read_blocks (fuel : nat) (src : string) : outcome (list Block * option error) :=
  match fuel with
  | Datatypes.O => Diverge
  | Datatypes.S n =>
      match Read src with
      | Ok (b, rest) => '(bs, e) ← read_blocks n rest; Ok (b :: bs, e)
      | Err e => if decide (e = EOF) then Ok ([], None) else Ok ([], Some e)
      | Panic w => Panic w
      | Diverge => Diverge
      end
  end.

Definition not_sequential : error :=
  EMsg "found non-sequential blocks in merged blocks file (%q has previousID %q and does not follow %q). You will have to fix or reprocess %q".

(** [streamReader]: the blocks it queues, and the error it stops on before the
    end.  No option sets the [gator], and [prevLastBlockRead] is always nil. *)
Fixpoint streamReader (s : FileSource O) (base : Z) (validate : bool) (lastBlockID : string)
  (filtered : option (list Z)) (blocks : list Block) : list Block * option error :=
  match blocks with
  | [] => ([], None)
  | blk :: blocks' =>
      if Number blk <? startBlockNum s then streamReader s base validate lastBlockID filtered blocks'
      else if validate && negb (bool_decide (lastBlockID = "")) &&
              negb (bool_decide (ParentId blk = lastBlockID))
      then ([], Some not_sequential)
      else
        let last' := if validate then Id blk else lastBlockID in
        if Number blk <? base then streamReader s base validate last' filtered blocks'
        else
          let '(passes, filtered') := PassesFilter (Number blk) filtered in
          let '(out, err) := streamReader s base validate last' filtered' blocks' in
          (if passes then blk :: out else out, err)
  end.

(** ** Handling the blocks *)

Definition wrap_block (blk : Block) (o : option O) : iface O :=
  let ref := Some (AsRef (Some blk)) in
  IWrapped (mkWrapped o (mkCursor StepNewIrreversible ref ref ref) None).

Definition preprocess (s : FileSource O) (blk : Block) : outcome (iface O) :=
  match preprocFunc s with
  | None => Ok (wrap_block blk None)
  | Some f =>
      match f blk with
      | Ok o => Ok (wrap_block blk (Some o))
      | Err e => Err (EWrap "preprocess block" e)
      | Panic w => Panic w
      | Diverge => Diverge
      end
  end.

Section Run.
Context {HS : Type} (handler : Handler O HS) (s : FileSource O) (late : list bool).

Record Running := mkRunning { lastBlockID : string; fs_next : HS }.

Definition handle (validateBlockOrder : bool) (blk : Block) : M Running unit := fun r =>
  match preprocess s blk with
  | Ok obj =>
      if validateBlockOrder && negb (bool_decide (lastBlockID r = "")) &&
         negb (bool_decide (ParentId blk = lastBlockID r))
      then (Err not_sequential, r)
      else
        let last' := if validateBlockOrder then Id blk else lastBlockID r in
        match handler blk obj (fs_next r) with
        | (Some e, hs) => (Err e, mkRunning last' hs)
        | (None, hs) => (Ok tt, mkRunning last' hs)
        end
  | Err e => (Err e, r)
  | Panic w => (Panic w, r)
  | Diverge => (Diverge, r)
  end.

(** A file that cannot be opened shuts the source down, but the channel of its blocks
    is never closed: [run] waits on it for ever. *)
Definition opened {A} (m : outcome A) : outcome A := match m with Err _ => Diverge | m => m end.

(** [streamIncomingFile], its blocks being handled as they come. *)
Definition streamIncomingFile (validateBlockOrder validateInFile : bool) (f : incomingBlocksFile)
  : M Running unit :=
  data ← mlift (opened (OpenObject (filename f)));
  src ← mlift (opened (NewDBinBlockReader data));
  '(blocks, readErr) ← mlift (read_blocks (Datatypes.S (String.length src)) src);
  let '(sent, seqErr) := streamReader s (baseNum f) validateInFile "" (filteredBlocks f) blocks in
  _ ← mfor sent (handle validateBlockOrder);
  match seqErr, readErr with
  | Some e, _ | None, Some e =>
      merr (EWrap "processing of file failed" (EWrap "error processing incoming file" e))
  | None, None => mret tt
  end.

(** [launchReader] and [run]: one file after the other. *)
Fixpoint run_from (validateBlockOrder : bool) (fuel : nat) (active : bool) (base : Z) (wl : gset Z)
  : M Running unit :=
  match fuel with
  | Datatypes.O => mlift Diverge
  | Datatypes.S fuel' =>
      '(base', filtered, active', wl') ← mlift (next_bundle s late active base wl);
      match checkExists base' with
      | (Err e, _) => merr (EWrap "filesource reading file existence" e)
      | (Ok false, _) =>
          if errorOutOnMissingFile s then merr (EMsg "filesource: missing file %q")
          else run_from validateBlockOrder fuel' active' base' wl'   (* after [retryDelay] *)
      | (Ok true, name) =>
          _ ← streamIncomingFile validateBlockOrder active'
                (newIncomingBlocksFile base' name filtered);
          let next := u64_add base' (bundleSize s) in
          if negb (stopBlockNum s =? 0) && (stopBlockNum s <? next) then merr ErrStopBlockReached
          else run_from validateBlockOrder fuel' active' next wl'
      | (Panic w, _) => mpanic w
      | (Diverge, _) => mlift Diverge
      end
  end.

Definition run (fuel : nat) (hs : HS) : outcome unit * Running :=
  (base ← mlift (lowBoundary (startBlockNum s) (bundleSize s));
   run_from (negb (hasIndexProvider s)) fuel (hasIndexProvider s) base (whitelistedBlocks s))
    (mkRunning "" hs).
End Run.

(** ** The factory *)

Inductive start := FromBlockNum (n : Z) | FromCursor (c : Cursor) | ThroughCursor (n : Z) (c : Cursor).

Definition refs (c : Cursor) : outcome (BlockRef * BlockRef) :=
  lib ← deref (LIB c); block ← deref (cBlock c); Ok (lib, block).

Definition around (r : BlockRef) : list Z := [Num r; u64_add (Num r) 1].

(** The options of a source: those of the factory, then the whitelist of the
    cursor, and the resolver around the handler. *)
Definition SourceOptions (options : list FileSourceOption) (st : start) : outcome (FileSource O) :=
  match st with
  | FromBlockNum n => Ok (NewFileSource n options)
  | FromCursor c =>
      '(lib, block) ← refs c;
      Ok (NewFileSource (Num lib)
            (options ++ [FileSourceWithWhitelistedBlocks (around lib ++ around block)]))
  | ThroughCursor n c =>
      '(lib, block) ← refs c;
      Ok (NewFileSource n
            (options ++ [FileSourceWithWhitelistedBlocks (n :: around lib ++ around block)]))
  end.

Section Factory.
Context {HS : Type} (handler : Handler O HS) (late : list bool).

(** A monadic handler as a [Handler]: a panic of the handler ends the program. *)
Definition resolver_handler (c : Cursor) (through : bool)
  : Handler O (CursorResolver.cursorResolver O HS * bool) := fun blk obj '(f, panicked) =>
  match CursorResolver.ProcessBlock handler c through blk obj f with
  | (Ok _, f') => (None, (f', panicked))
  | (Err e, f') => (Some e, (f', panicked))
  | (_, f') => (Some (EMsg "panic"), (f', true))
  end.

(** [SourceFromBlockNum], [SourceFromCursor], [SourceThroughCursor], then [Run]. *)
Definition SourceRun (options : list FileSourceOption) (st : start) (fuel : nat) (hs : HS)
  : outcome unit * HS :=
  match SourceOptions options st with
  | Ok s =>
      match st with
      | FromBlockNum _ => let '(r, q) := run handler s late fuel hs in (r, fs_next q)
      | FromCursor c | ThroughCursor _ c =>
          let through := match st with ThroughCursor _ _ => true | _ => false end in
          let '(r, q) := run (resolver_handler c through) s late fuel
                           (CursorResolver.newCursorResolverHandler hs, false) in
          (match fs_next q with
           | (_, true) => Panic "in the handler"
           | _ => r
           end, CursorResolver.next (fs_next q).1)
      end
  | Err e => (Err e, hs)
  | Panic w => (Panic w, hs)
  | Diverge => (Diverge, hs)
  end.
End Factory.

(** [FetchBlockFromMergedBlocksStore]: the handler that keeps one number. *)
Definition fetch_handler (num : Z) : Handler O (option Block) := fun blk _ found =>
  if Number blk <? num then (None, found)
  else if num <? Number blk then (Some StopIteration, found)
  else (None, Some blk).

Definition FetchBlockFromMergedBlocksStore (fuel : nat) (num : Z) : outcome Block :=
  match run (fetch_handler num) (NewFileSource num [FileSourceWithStopBlock num]) [] fuel None with
  | (Diverge, _) => Diverge
  | (Panic w, _) => Panic w
  | (_, q) => match fs_next q with Some b => Ok b | None => Err ErrNotFound end
  end.
End Source.
End FileSource.
