(* ===== verification/FileSourceProps.v ===== *)
(** * Properties of the file source

    The pipeline of the source against a reference that hands the blocks of the
    files to the handler one after the other; the filters of an index; and the
    file source composed with the cursor resolver. *)

From Stdlib Require Import Ascii.
From S2P Require Import Prelude GoStrings Types OneBlockFiles Consumer CursorResolver FileSource.
Import OneBlockFiles FileSource.

(** ** The filter of a bundle *)

Section Filter.
Context {O : Type} (s : FileSource O).

Lemma dropUpTo_spec n l : StronglySorted Z.lt l -> forall found,
  exists a b, l = a ++ b /\ dropUpTo n l found = (found || negb (bool_decide (a = [])), b) /\
    Forall (fun x => x <= n) a /\ Forall (fun x => n < x) b.
Proof.
  induction 1 as [|x l Hs IH Hx]; intros found; [exists [], []; by rewrite orb_false_r|]. cbn.
  destruct (Z.leb_spec x n) as [Hle|Hgt].
  - destruct (IH true) as (a & b & -> & E & Ha & Hb). exists (x :: a), b. split; [done|].
    rewrite E. split; [by destruct found|]. by split; [constructor|].
  - exists [], (x :: l). rewrite orb_false_r. split; [done|]. split; [done|]. split; [constructor|].
    constructor; [done|]. eapply Forall_impl; [exact Hx|]. cbn. intros. lia.
Qed.

(** Reading a bundle through the answer of an index, increasing numbers:
    the blocks that pass are, in their order, those that are the first at or above
    some number of the answer; a number between two blocks of the file is served
    by the block that follows it, never lost. *)
Theorem streamReader_serves base l blocks : StronglySorted Z.lt l ->
  CursorResolver.increasing blocks ->
  Forall (fun b => startBlockNum s <= Number b /\ base <= Number b) blocks ->
  exists out, streamReader s base false "" (Some l) blocks = (out, None) /\ sublist out blocks /\
    forall b, b ∈ out <-> b ∈ blocks /\ exists f, f ∈ l /\ f <= Number b /\
      forall b', b' ∈ blocks -> Number b' < Number b -> Number b' < f.
Proof.
  intros Hl Hinc. revert l Hl. induction Hinc as [|b blocks Hinc IH Hlt]; intros l Hl HF.
  { exists []. split; [done|]. split; [constructor|]. intros b. rewrite elem_of_nil. tauto. }
  apply Forall_cons in HF as [[Hs Hbase] HF]. cbn [streamReader].
  destruct (Z.ltb_spec (Number b) (startBlockNum s)); [lia|]. cbn [andb].
  destruct (Z.ltb_spec (Number b) base); [lia|]. unfold PassesFilter.
  destruct (dropUpTo_spec (Number b) l Hl false) as (a & rest & -> & -> & Ha & Hrest). cbn [orb].
  destruct (IH rest) as (out & E & Hsub & Hout).
  { by apply StronglySorted_app in Hl as (_ & _ & ?). }
  { done. }
  rewrite E. rewrite Forall_forall in Ha. rewrite Forall_forall in Hrest. rewrite Forall_forall in Hlt.
  assert (Htail : forall x, x ∈ blocks -> (exists f, f ∈ rest /\ f <= Number x /\
      forall b', b' ∈ blocks -> Number b' < Number x -> Number b' < f) <->
    exists f, f ∈ a ++ rest /\ f <= Number x /\
      forall b', b' ∈ b :: blocks -> Number b' < Number x -> Number b' < f).
  { intros x Hx. specialize (Hlt x Hx). split; intros (f & Hf & Hle & Hmin).
    - exists f. split; [set_solver|]. split; [done|]. intros b' [->|Hb']%elem_of_cons Hn; [by apply Hrest|auto].
    - apply elem_of_app in Hf as [Hf|Hf].
      + exfalso. specialize (Ha _ Hf). specialize (Hmin b ltac:(left) ltac:(lia)). lia.
      + exists f. split; [done|]. split; [done|]. intros b' Hb'. apply Hmin. by right. }
  assert (Hnot : b ∉ blocks) by (intros Hin; specialize (Hlt b Hin); lia).
  assert (Hhead : (exists f, f ∈ a ++ rest /\ f <= Number b /\
      forall b', b' ∈ b :: blocks -> Number b' < Number b -> Number b' < f) <-> a <> []).
  { split.
    - intros (f & Hf & Hle & _) ->. cbn in Hf. specialize (Hrest f Hf). lia.
    - intros Hne. destruct a as [|f a]; [done|]. exists f. split; [left|]. split; [apply Ha; left|].
      intros b' [->|Hb']%elem_of_cons Hn; [lia|]. specialize (Hlt b' Hb'). lia. }
  destruct (bool_decide_reflect (a = [])) as [Ea|Ea]; cbn [negb].
  - exists out. split; [done|]. split; [by constructor|]. intros x. rewrite Hout, elem_of_cons. split.
    + intros [Hx Hf]. split; [by right|]. by apply Htail.
    + intros [[->|Hx] Hf]; [by apply Hhead in Hf|]. split; [done|]. by apply Htail.
  - exists (b :: out). split; [done|]. split; [by constructor|]. intros x.
    rewrite !elem_of_cons, Hout. split.
    + intros [->|[Hx Hf]]; [split; [by left|by apply Hhead]|]. split; [by right|]. by apply Htail.
    + intros [[->|Hx] Hf]; [by left|]. right. split; [done|]. by apply Htail.
Qed.
End Filter.

Definition ex_block (n : Z) (id parent : string) : Block := mkBlock n id parent None n 0 0 "" 0 (n - 1) None.

Lemma streamReader_serves_witness :
  exists out, streamReader (NewFileSource (O:=unit) 0 []) 0 false "" (Some [1; 4; 5; 9])
      [ex_block 3 "c" "b"; ex_block 4 "d" "c"; ex_block 6 "f" "d"; ex_block 7 "g" "f"] = (out, None) /\
    Id <$> out = ["c"; "d"; "f"] /\ ex_block 6 "f" "d" ∈ out.
Proof.
  destruct (streamReader_serves (NewFileSource (O:=unit) 0 []) 0 [1; 4; 5; 9]
    [ex_block 3 "c" "b"; ex_block 4 "d" "c"; ex_block 6 "f" "d"; ex_block 7 "g" "f"])
    as (out & E & _ & Hout).
  - repeat constructor.
  - repeat constructor.
  - repeat constructor; vm_compute; congruence.
  - exists out. split; [exact E|]. split; [by vm_compute in E; injection E as <-|].
    apply Hout. split; [do 2 right; left|]. exists 5. split; [do 2 right; left|].
    split; [by vm_compute|]. intros b' Hb' Hn.
    repeat (apply elem_of_cons in Hb' as [->|Hb']; [vm_compute in Hn |- *; congruence|]).
    by apply elem_of_nil in Hb'.
Defined.

(** ** A bundle served by an index *)

(** What the whitelist and the bounds of the source ask for in a bundle. *)
Definition wanted {O} (s : FileSource O) (wl : gset Z) (base x : Z) : Prop :=
  base <= x < base + bundleSize s /\
  (x ∈ wl \/ x = startBlockNum s \/ (stopBlockNum s <> 0 /\ x = stopBlockNum s)).

Lemma addBlocks_wanted {O} (s : FileSource O) wl base x :
  0 <= base -> 0 <= bundleSize s -> base + bundleSize s < two64 ->
  x ∈ addBlocks s wl base <-> wanted s wl base x.
Proof.
  intros Hb Hs Hw. unfold addBlocks, wanted. rewrite u64_add_lt by lia.
  rewrite !elem_of_app, elem_of_elements, elem_of_filter.
  destruct (Z.leb_spec base (startBlockNum s)), (Z.ltb_spec (startBlockNum s) (base + bundleSize s)),
    (Z.leb_spec base (stopBlockNum s)), (Z.ltb_spec (stopBlockNum s) (base + bundleSize s)),
    (Z.eqb_spec (stopBlockNum s) 0); cbn [andb negb];
    rewrite ?list_elem_of_singleton, ?elem_of_nil; naive_solver lia.
Qed.

Lemma StronglySorted_sublist {A} (R : A -> A -> Prop) l k :
  sublist l k -> StronglySorted R k -> StronglySorted R l.
Proof.
  induction 1 as [|x l k Hsub IH|x l k Hsub IH]; intros Hs; [done| |];
    inversion Hs as [|? ? Hs' HF]; subst; [|by apply IH].
  constructor; [by apply IH|]. apply Forall_forall. intros y Hy. rewrite Forall_forall in HF.
  apply HF. eapply elem_of_submseteq; [exact Hy|by apply sublist_submseteq].
Qed.

Lemma remove_dups_sublist {A} `{EqDecision A} (l : list A) : sublist (remove_dups l) l.
Proof. induction l; cbn; [constructor|]. case_decide; by constructor. Qed.

Lemma filter_sublist {A} (P : A -> Prop) `{forall x, Decision (P x)} (l : list A) : sublist (filter P l) l.
Proof.
  induction l; [constructor|]. destruct (decide (P a)); [rewrite filter_cons_True|rewrite filter_cons_False];
    by try constructor.
Qed.

Lemma nilable_default {A} (l : list A) : default [] (nilable l) = l.
Proof. by destruct l. Qed.

(** The answer of an index, completed by the source. *)
Lemma tweak_result {O} (s : FileSource O) base inBlocks wl out wl' :
  0 <= base -> 0 <= bundleSize s -> base + bundleSize s < two64 ->
  tweakRangeIndexResults s base inBlocks wl = (out, wl') ->
  (forall x, x ∈ wl' <-> x ∈ wl /\ base + bundleSize s <= x) /\
  ((forall x, ~ wanted s wl base x) -> out = inBlocks) /\
  ((exists x, wanted s wl base x) -> StronglySorted Z.lt (default [] out) /\
    forall x, x ∈ default [] out <->
      (startBlockNum s <= x /\ (stopBlockNum s <> 0 -> x <= stopBlockNum s)) /\
      (x ∈ default [] inBlocks \/ wanted s wl base x)).
Proof.
  intros Hb Hs Hw. unfold tweakRangeIndexResults.
  pose proof (fun x => addBlocks_wanted s wl base x Hb Hs Hw) as Hadd. rewrite u64_add_lt by lia.
  assert (Hwl : forall x, x ∈ filter (fun n => ~ n < base /\ ~ n < base + bundleSize s) wl <->
    x ∈ wl /\ base + bundleSize s <= x) by (intros x; rewrite elem_of_filter; naive_solver lia).
  destruct (addBlocks s wl base) as [|a added]; intros E; injection E as <- <-; (split; [done|]).
  - split; [done|]. intros [x Hx]. by apply Hadd, elem_of_nil in Hx.
  - split; [intros Hno; exfalso; apply (Hno a), Hadd; by left|]. intros _. rewrite nilable_default.
    set (all := merge_sort Z.le (default [] inBlocks ++ a :: added)).
    assert (Hss : StronglySorted Z.le all) by apply (StronglySorted_merge_sort _).
    split.
    + apply StronglySorted_lt_of_le; [|apply NoDup_remove_dups].
      eapply StronglySorted_sublist; [|exact Hss]. etrans; [apply remove_dups_sublist|apply filter_sublist].
    + intros x. rewrite elem_of_remove_dups, list_elem_of_filter. unfold in_bounds.
      assert (x ∈ all <-> x ∈ default [] inBlocks \/ wanted s wl base x) as ->; [|done].
      unfold all. rewrite merge_sort_Permutation, elem_of_app, Hadd. done.
Qed.

(** C17: what a bundle served by an index asks the reader for: strictly
    increasing numbers, all of them between the start and the stop block, exactly
    those of the index and those the source itself wants (whitelist, start and
    stop block); and the whitelist forgets the numbers below the next bundle.
    When the source wants none of its own, the index's answer is untouched. *)
Theorem tweakRangeIndexResults_spec {O} (s : FileSource O) base inBlocks wl out wl' :
  0 <= base -> 0 <= bundleSize s -> base + bundleSize s < two64 ->
  tweakRangeIndexResults s base inBlocks wl = (out, wl') ->
  (forall x, x ∈ wl' <-> x ∈ wl /\ base + bundleSize s <= x) /\
  ((forall x, ~ wanted s wl base x) -> out = inBlocks) /\
  ((exists x, wanted s wl base x) -> StronglySorted Z.lt (default [] out) /\
    forall x, x ∈ default [] out <->
      (startBlockNum s <= x /\ (stopBlockNum s <> 0 -> x <= stopBlockNum s)) /\
      (x ∈ default [] inBlocks \/ wanted s wl base x)).
Proof. exact (tweak_result s base inBlocks wl out wl'). Qed.

(** Looking the same bundle up twice, as the reader does while its file does not
    exist yet, loses the whitelist: the second answer is the index's alone. *)
Theorem tweakRangeIndexResults_forgets {O} (s : FileSource O) base inBlocks wl :
  0 <= base -> 0 <= bundleSize s -> base + bundleSize s < two64 ->
  ~ base <= startBlockNum s < base + bundleSize s -> ~ base <= stopBlockNum s < base + bundleSize s ->
  (tweakRangeIndexResults s base inBlocks (tweakRangeIndexResults s base inBlocks wl).2).1 = inBlocks.
Proof.
  intros Hb Hs Hw Hstart Hstop. destruct (tweakRangeIndexResults s base inBlocks wl) as [out wl'] eqn:E. cbn [snd].
  assert (Hwl' : forall x, x ∈ wl' -> base + bundleSize s <= x).
  { unfold tweakRangeIndexResults in E. rewrite u64_add_lt in E by lia.
    destruct (addBlocks _ _ _); injection E as _ <-; intros x; rewrite elem_of_filter; lia. }
  unfold tweakRangeIndexResults. destruct (addBlocks s wl' base) as [|a added] eqn:Ea; [done|].
  exfalso. assert (wanted s wl' base a) as [Hr Hin] by (apply addBlocks_wanted; [done..|rewrite Ea; left]).
  destruct Hin as [Hin|[->|[_ ->]]]; [|lia..]. apply Hwl' in Hin. lia.
Qed.

Definition ex_source : FileSource unit := mkFileSource 102 180 100 None 0 0 true false {[103; 250]} 0.

Lemma tweakRangeIndexResults_spec_witness :
  tweakRangeIndexResults ex_source 100 (Some [101; 103; 150]) {[103; 250]} =
    (Some [102; 103; 150; 180], {[250]}) /\
  StronglySorted Z.lt [102; 103; 150; 180].
Proof.
  assert (E : tweakRangeIndexResults ex_source 100 (Some [101; 103; 150]) {[103; 250]} =
    (Some [102; 103; 150; 180], {[250]})) by (vm_compute; reflexivity).
  split; [exact E|].
  refine (proj1 (proj2 (proj2 (tweakRangeIndexResults_spec ex_source 100 _ _ _ _ _ _ _ E)) _));
    [lia|by vm_compute|by vm_compute|].
  exists 102. split; [cbn; lia|]. right. by left.
Defined.

(** ** The pipeline against its reference *)

Section Run.
Context {O : Type} `{Protocol} `{DBin} `{Store} `{BlockIndexProvider}.
Context (FileExists : string -> outcome bool) {HS : Type} (handler : Handler O HS).
Context (s : FileSource O) (late : list bool).
Implicit Types (blocks : list Block) (files : list (list Block)) (hs : HS).

(** The reference: the blocks handed one after the other, up to the first
    error. *)
Fixpoint offer (prep : Block -> iface O) blocks hs : option error * HS :=
  match blocks with
  | [] => (None, hs)
  | b :: blocks' =>
      match handler b (prep b) hs with
      | (Some e, hs') => (Some e, hs')
      | (None, hs') => offer prep blocks' hs'
      end
  end.

(** A reader that holds these blocks. *)
Inductive reads : string -> list Block -> Prop :=
  | reads_end src : Read src = Err EOF -> reads src []
  | reads_block src b rest blocks :
      Read src = Ok (b, rest) -> (String.length rest < String.length src)%nat ->
      reads rest blocks -> reads src (b :: blocks).

(** The bundle [base] is in the store with these blocks. *)
Definition stores (base : Z) blocks : Prop :=
  FileExists (fmt_010d base) = Ok true /\ Forall (fun b => base <= Number b) blocks /\
  exists data src, OpenObject (fmt_010d base) = Ok data /\ NewDBinBlockReader data = Ok src /\
    reads src blocks.

Definition bundles (base : Z) files : Prop :=
  forall i blocks, files !! i = Some blocks -> stores (base + Z.of_nat i * bundleSize s) blocks.

(** Every block follows the one before it (an empty ID is not checked). *)
Fixpoint linked (lid : string) blocks : Prop :=
  match blocks with
  | [] => True
  | b :: blocks' => (lid = "" \/ ParentId b = lid) /\ linked (Id b) blocks'
  end.

Lemma read_blocks_reads src blocks : reads src blocks -> forall fuel,
  (String.length src < fuel)%nat -> read_blocks fuel src = Ok (blocks, None).
Proof.
  induction 1 as [src E|src b rest blocks E Hlt _ IH]; intros [|fuel] Hf; try lia; cbn; rewrite E.
  - by rewrite decide_True.
  - by rewrite IH by lia.
Qed.

Lemma streamReader_whole base blocks : Forall (fun b => base <= Number b) blocks ->
  streamReader s base false "" None blocks = (filter (fun b => startBlockNum s <= Number b) blocks, None).
Proof.
  induction 1 as [|b blocks Hb _ IH]; [done|]. cbn [streamReader andb PassesFilter].
  destruct (Z.ltb_spec (Number b) (startBlockNum s)).
  - by rewrite filter_cons_False by lia.
  - rewrite filter_cons_True by lia. destruct (Z.ltb_spec (Number b) base); [lia|]. by rewrite IH.
Qed.

Lemma linked_app lid a b : linked lid (a ++ b) <->
  linked lid a /\ linked (default lid (last (Id <$> a))) b.
Proof.
  revert lid. induction a as [|x a IH]; intros lid; [cbn; tauto|]. cbn [app linked]. rewrite IH.
  rewrite fmap_cons, default_last_cons. tauto.
Qed.

(** The reference over two runs of blocks. *)
Lemma offered_app prep a b hs : offer prep (a ++ b) hs =
  match offer prep a hs with (Some e, hs') => (Some e, hs') | (None, hs') => offer prep b hs' end.
Proof. revert hs. induction a as [|x a IH]; intros hs; [done|]. cbn. destruct (handler x (prep x) hs) as [[] ?]; [done|apply IH]. Qed.

Context (prep : Block -> iface O) (Hprep : forall b, preprocess s b = Ok (prep b)).

(** The order check never fires on linked blocks. *)
Lemma handle_run blocks : forall lid hs, linked lid blocks ->
  exists lid' , mfor blocks (handle handler s true) (mkRunning lid hs) =
    (match (offer prep blocks hs).1 with Some e => Err e | None => Ok tt end,
     mkRunning lid' (offer prep blocks hs).2) /\
    ((offer prep blocks hs).1 = None -> lid' = default lid (last (Id <$> blocks))).
Proof.
  induction blocks as [|b blocks IH]; intros lid hs; [by exists lid|]. intros [Hl Hlink].
  cbn [mfor offer]. unfold mbind, M_bind, handle. rewrite Hprep. cbn [lastBlockID fs_next andb].
  assert (negb (bool_decide (lid = "")) && negb (bool_decide (ParentId b = lid)) = false) as ->.
  { destruct Hl as [->| ->]; [done|]. rewrite (bool_decide_true (lid = lid)) by done. by rewrite andb_false_r. }
  destruct (handler b (prep b) hs) as [[e|] hs']; [by exists (Id b)|].
  destruct (IH (Id b) hs' Hlink) as (lid' & E & Hlast). exists lid'. split; [exact E|].
  rewrite fmap_cons, default_last_cons. exact Hlast.
Qed.

Lemma streamIncomingFile_run base blocks lid hs :
  stores base blocks -> linked lid (filter (fun b => startBlockNum s <= Number b) blocks) ->
  streamIncomingFile handler s true false (newIncomingBlocksFile base (fmt_010d base) None) (mkRunning lid hs) =
  mfor (filter (fun b => startBlockNum s <= Number b) blocks) (handle handler s true) (mkRunning lid hs).
Proof.
  intros (_ & Hbase & data & src & Eo & En & Hr) Hl. unfold streamIncomingFile. cbn [newIncomingBlocksFile filename baseNum filteredBlocks].
  erewrite bind_mlift_Ok by (rewrite Eo; reflexivity).
  erewrite bind_mlift_Ok by (rewrite En; reflexivity).
  erewrite bind_mlift_Ok by (apply read_blocks_reads; [exact Hr|lia]).
  cbv beta iota. rewrite streamReader_whole by done. cbv beta iota.
  destruct (handle_run _ lid hs Hl) as (lid' & E & _). unfold mbind, M_bind. rewrite E.
  by destruct (offer prep _ _).1.
Qed.

(** How the reading ends after the bundles up to [top]; without the next file it may wait for ever. *)
Inductive ends (top : Z) : outcome unit -> Prop :=
  | ends_stop : stopBlockNum s <> 0 -> top - bundleSize s <= stopBlockNum s < top ->
      ends top (Err ErrStopBlockReached)
  | ends_missing : stopBlockNum s = 0 \/ top <= stopBlockNum s ->
      FileExists (fmt_010d top) = Ok false -> errorOutOnMissingFile s = true ->
      ends top (Err (EMsg "filesource: missing file %q"))
  | ends_waiting : stopBlockNum s = 0 \/ top <= stopBlockNum s ->
      FileExists (fmt_010d top) = Ok false -> errorOutOnMissingFile s = false -> ends top Diverge.

Notation from_start := (filter (fun b => startBlockNum s <= Number b)).

(** A missing file is asked for again and again. *)
Lemma run_from_waits v fuel base wl r : FileExists (fmt_010d base) = Ok false -> errorOutOnMissingFile s = false ->
  run_from FileExists handler s late v fuel false base wl r = (Diverge, r).
Proof.
  intros Hm He. induction fuel as [|fuel IH]; [done|]. cbn [run_from]. erewrite bind_mlift_Ok by reflexivity.
  cbv beta iota. unfold checkExists. by rewrite Hm, He.
Qed.

Lemma run_from_bundles files : forall fuel base wl lid hs e,
  files <> [] -> 0 <= base -> 0 < bundleSize s ->
  base + Z.of_nat (length files) * bundleSize s < two64 ->
  bundles base files -> ends (base + Z.of_nat (length files) * bundleSize s) e ->
  linked lid (from_start (concat files)) -> (length files < fuel)%nat ->
  exists lid', run_from FileExists handler s late true fuel false base wl (mkRunning lid hs) =
    (ended (offer prep (from_start (concat files)) hs).1 e,
     mkRunning lid' (offer prep (from_start (concat files)) hs).2).
Proof.
  induction files as [|bs files IH]; [done|]. intros [|fuel] base wl lid hs e _ Hb Hs Hw HB He Hl Hf; [cbn in Hf; lia|].
  cbn [length concat] in *. rewrite Nat2Z.inj_succ in Hw, He. rewrite filter_app in Hl |- *.
  apply linked_app in Hl as [Hl1 Hl2]. rewrite offered_app.
  pose proof (HB 0%nat bs eq_refl) as Hst. rewrite Z.mul_0_l, Z.add_0_r in Hst. pose proof Hst as (Hex & _).
  assert (Hnext : u64_add base (bundleSize s) = base + bundleSize s) by (apply u64_add_lt; lia).
  cbn [run_from]. erewrite bind_mlift_Ok by reflexivity. cbv beta iota. unfold checkExists. rewrite Hex, Hnext.
  destruct (handle_run _ lid hs Hl1) as (lid1 & E & Elast).
  unfold mbind at 1, M_bind at 1. rewrite (streamIncomingFile_run base bs) by done. rewrite E.
  destruct (offer prep (from_start bs) hs) as [[e1|] hs1]; cbn [fst snd] in *; [by exists lid1|].
  destruct files as [|bs' files].
  - cbn [concat filter offer default]. cbn [length] in He. destruct He as [Hne Hr|Hm Hmiss Herr|Hm Hmiss Herr].
    { destruct (Z.eqb_spec (stopBlockNum s) 0); [done|]. destruct (Z.ltb_spec (stopBlockNum s) (base + bundleSize s)); [|lia].
      by eexists. }
    (* the next file is missing *)
    all: assert (negb (stopBlockNum s =? 0) && (stopBlockNum s <? base + bundleSize s) = false) as ->
      by (destruct (Z.eqb_spec (stopBlockNum s) 0); [done|]; destruct (Z.ltb_spec (stopBlockNum s) (base + bundleSize s)); [lia|done]).
    all: destruct fuel as [|fuel]; [cbn in Hf; lia|].
    all: cbn [run_from]; erewrite bind_mlift_Ok by reflexivity; cbv beta iota; unfold checkExists.
    all: replace (base + Z.succ (Z.of_nat 0) * bundleSize s) with (base + bundleSize s) in Hmiss by lia.
    all: rewrite Hmiss, Herr; rewrite ?run_from_waits by done; by eexists.
  - assert (negb (stopBlockNum s =? 0) && (stopBlockNum s <? base + bundleSize s) = false) as ->.
    { destruct (Z.eqb_spec (stopBlockNum s) 0); [done|]. destruct (Z.ltb_spec (stopBlockNum s) (base + bundleSize s)); [|done].
      cbn [length] in He. rewrite Nat2Z.inj_succ in He. inversion He; nia. }
    rewrite Elast by done.
    replace (base + Z.succ (Z.of_nat (length (bs' :: files))) * bundleSize s)
      with (base + bundleSize s + Z.of_nat (length (bs' :: files)) * bundleSize s) in Hw, He by lia.
    apply IH; [done|lia|done|done| |done|done|cbn in Hf |- *; lia].
    intros i bs2 Hi. replace (base + bundleSize s + Z.of_nat i * bundleSize s)
      with (base + Z.of_nat (Datatypes.S i) * bundleSize s) by lia. by apply HB.
Qed.

Lemma run_bundles files fuel hs base e :
  hasIndexProvider s = false -> is_u64 (startBlockNum s) -> 0 < bundleSize s ->
  base = startBlockNum s - startBlockNum s mod bundleSize s -> files <> [] ->
  base + Z.of_nat (length files) * bundleSize s < two64 ->
  bundles base files -> ends (base + Z.of_nat (length files) * bundleSize s) e ->
  linked "" (from_start (concat files)) -> (length files < fuel)%nat ->
  exists lid, run FileExists handler s late fuel hs =
    (ended (offer prep (from_start (concat files)) hs).1 e,
     mkRunning lid (offer prep (from_start (concat files)) hs).2).
Proof.
  intros Hidx Hst Hs -> Hne Hw HB He Hl Hf. unfold run.
  assert (Hb : lowBoundary (startBlockNum s) (bundleSize s) =
               Ok (startBlockNum s - startBlockNum s mod bundleSize s)).
  { unfold lowBoundary. destruct (Z.eqb_spec (bundleSize s) 0); [lia|].
    pose proof (Z.mod_pos_bound (startBlockNum s) _ Hs). pose proof (Z.mod_le (startBlockNum s) (bundleSize s)).
    rewrite u64_sub_le by (done || (unfold is_u64 in *; lia)). done. }
  erewrite bind_mlift_Ok by exact Hb. rewrite Hidx. cbn [negb].
  apply run_from_bundles; try done.
  pose proof (Z.mod_le (startBlockNum s) (bundleSize s)). unfold is_u64 in Hst. lia.
Qed.
End Run.

Section Delivers.
Context {O : Type} `{Protocol} `{DBin} `{Store} `{BlockIndexProvider}.

(** C13: without an index, and when the bundles from the one of the start block
    on hold linked blocks, the pipeline of the source (finding, reading,
    preprocessing, handling) gives the handler exactly the blocks of these files
    from the start block on, one after the other, until the handler fails, the
    bundle of the stop block has been read, or a file is missing: then the source
    fails if it was told to, and waits for the file otherwise. *)
Theorem run_delivers FileExists {HS} (handler : Handler O HS) (s : FileSource O) late prep files fuel hs base e :
  (forall b, preprocess s b = Ok (prep b)) ->
  hasIndexProvider s = false -> is_u64 (startBlockNum s) -> 0 < bundleSize s ->
  base = startBlockNum s - startBlockNum s mod bundleSize s -> files <> [] ->
  base + Z.of_nat (length files) * bundleSize s < two64 ->
  bundles FileExists s base files -> ends FileExists s (base + Z.of_nat (length files) * bundleSize s) e ->
  linked "" (filter (fun b => startBlockNum s <= Number b) (concat files)) -> (length files < fuel)%nat ->
  let '(failure, hs') := offer handler prep (filter (fun b => startBlockNum s <= Number b) (concat files)) hs in
  exists lid, run FileExists handler s late fuel hs = (ended failure e, mkRunning lid hs').
Proof.
  intros Hprep ? ? ? ? ? ? ? ? ? ?.
  destruct (run_bundles FileExists handler s late prep Hprep files fuel hs base e) as (lid & E); [done..|].
  rewrite E. destruct (offer _ _ _ _). by exists lid.
Qed.
End Delivers.

(** ** From a cursor: the file source and the cursor resolver together *)

(** The resolver as the handler of the files: its run over their blocks. *)
Lemma offer_resolver {O HS} `{Protocol} `{DBin} `{Store} (h : Handler O HS) (prep : Block -> iface O) c through blocks : forall f,
  offer (resolver_handler h c through) prep blocks (f, false) =
    match mfor ((fun b => (b, prep b)) <$> blocks) (fun x => CursorResolver.ProcessBlock h c through x.1 x.2) f with
    | (Ok _, f') => (None, (f', false))
    | (Err e, f') => (Some e, (f', false))
    | (_, f') => (Some (EMsg "panic"), (f', true))
    end.
Proof.
  induction blocks as [|b blocks IH]; intros f; [done|].
  rewrite fmap_cons. cbn [mfor fst snd offer]. unfold resolver_handler at 1, mbind, M_bind.
  by destruct (CursorResolver.ProcessBlock h c through b (prep b) f) as [[[]| | |] f1].
Qed.

(** A file source started from a cursor, over bundles of linked final blocks
    that go past the cursor's block, brings a client from the cursor to the last
    block of the files: its block is among the merged blocks or on a branch found
    in the one-block files, which is first undone. *)
Theorem SourceRun_resumes {O} `{Protocol} `{DBin} `{Store} `{BlockIndexProvider} FileExists options
  c block fin (s : FileSource O) prep files fuel late e first pre (trig : event O) post pend :
  SourceOptions options (FromCursor c) = Ok s -> (forall b, preprocess s b = Ok (prep b)) ->
  hasIndexProvider s = false -> is_u64 (startBlockNum s) -> 0 < bundleSize s -> files <> [] ->
  let base := startBlockNum s - startBlockNum s mod bundleSize s in
  let top := base + Z.of_nat (length files) * bundleSize s in
  let blocks := filter (fun b => startBlockNum s <= Number b) (concat files) in
  top < two64 -> bundles FileExists s base files -> ends FileExists s top e -> linked "" blocks ->
  (length files < fuel)%nat ->
  (fun b => (b, prep b)) <$> blocks = pre ++ trig :: post ->
  CursorResolver.merged_stream c block fin first pre trig post -> (Step c = StepUndo -> pend <> []) ->
  CursorResolver.position block fin (pre ++ [trig]).*1 trig.1 pend ->
  exists evs, SourceRun FileExists recorder late options (FromCursor c) fuel [] = (e, evs) /\
    consume (CursorResolver.view fin (Step c) pend) (reverse evs) =
      Some (mkView (default (Id trig.1) (last (Id <$> post.*1))) []).
Proof.
  intros Es Hprep Hidx Hst Hs Hne base top blocks Hw HB He Hl Hf Eb Hm Hu Hp.
  destruct (CursorResolver.resolver_resumes _ _ _ _ _ _ _ _ Hm Hu Hp) as (f & E & C).
  exists (CursorResolver.next f). split; [|exact C].
  destruct (run_bundles FileExists (resolver_handler recorder c false) s late prep Hprep files fuel
    (CursorResolver.newCursorResolverHandler [], false) base e) as (lid & Er); try done.
  unfold SourceRun. rewrite Es, Er, offer_resolver. fold blocks. by rewrite Eb, E.
Qed.

(** *** The example: bundles of five numbers, the client on 5b over 3a *)

Section Example.
#[local] Instance proto0 : Protocol := {| GetProtocolFirstStreamableBlock := 0 |}.
#[local] Instance no_index : BlockIndexProvider := {| BlocksInRange := fun _ _ => Ok None |}.

(** Two bundles and the one-block file of 5b, whose content is its name. *)
#[local] Instance ex_store : Store := {|
  WalkFrom := fun _ _ => (["0000000005-5b-4a-3-x"], None);
  Walk := fun _ => (["0000000005-5b-4a-3-x"], None);
  OpenObject := fun name =>
    if decide (name = "0000000000") then Ok "234" else if decide (name = "0000000005") then Ok "567" else Ok name;
|}.

Definition ex_exists (name : string) : outcome bool :=
  Ok (bool_decide (name = "0000000000" \/ name = "0000000005")).

Definition ex_digit (d : ascii) : Block :=
  let n := Z.of_nat (nat_of_ascii d) - 48 in
  mkBlock n (String d "a") (String (ascii_of_nat (nat_of_ascii d - 1)) "a") None n 0 0 "" 0 (n - 1)
    (Some (mkAny "" "")).

(** A message is one digit, or a whole one-block file. *)
#[local] Instance ex_dbin : DBin := {|
  ReadHeader := fun data => Ok ("", data);
  ReadMessage := fun src =>
    match src with
    | "" => ("", Some EOF, "")
    | String d rest => if (String.length src <=? 3)%nat then (String d "", None, rest) else (src, None, "")
    end;
  UnmarshalBlock := fun m =>
    match m with
    | String d "" => Ok (ex_digit d)
    | _ => f ← NewOneBlockFile m; Ok (ToBstreamBlock f)
    end;
  UnmarshalBlockMeta := fun _ => Err (EMsg "not a block meta");
  LookupEnv := fun _ => false;
|}.

Definition ex_files : list (list Block) :=
  [[ex_digit "2"; ex_digit "3"; ex_digit "4"]; [ex_digit "5"; ex_digit "6"; ex_digit "7"]].
Definition ex_options : list (FileSourceOption (O:=unit)) :=
  [FileSourceWithBundleSize 5; FileSourceWithStopBlock 6].
Definition ex_fs : FileSource unit := NewFileSource 3 ex_options.
Definition ex_prep (b : Block) : iface unit := wrap_block b None.

Lemma ex_bundles (s : FileSource unit) : bundleSize s = 5 -> bundles ex_exists s 0 ex_files.
Proof.
  intros E i blocks Hi. rewrite E.
  destruct i as [|[|i]]; [injection Hi as <-|injection Hi as <-|done];
    (split; [vm_compute; reflexivity|]; split; [repeat constructor; by vm_compute|]);
    eexists _, _; (split; [vm_compute; reflexivity|]); (split; [vm_compute; reflexivity|]);
    repeat (eapply reads_block; [vm_compute; reflexivity|cbn; lia|]); by apply reads_end.
Qed.

Lemma run_delivers_witness :
  (run ex_exists recorder ex_fs [] 3 []).1 = Err ErrStopBlockReached /\
  Id <$> reverse (fs_next (run ex_exists recorder ex_fs [] 3 []).2).*1 = ["3a"; "4a"; "5a"; "6a"; "7a"].
Proof.
  destruct (run_delivers ex_exists recorder ex_fs [] ex_prep ex_files 3 [] 0 (Err ErrStopBlockReached)) as (lid & E);
    [| | | | | | | | | | |rewrite E; split; vm_compute; reflexivity]; try done.
  - by apply ex_bundles.
  - by apply ends_stop.
  - repeat (split; [by (left + right)|]); exact I.
  - cbn; lia.
Defined.

Definition ex_client : Cursor :=
  mkCursor StepNew (Some (NewBlockRef "5b" 5)) (Some (NewBlockRef "3a" 3)) (Some (NewBlockRef "5b" 5)).
Definition ex_event (d : ascii) : event unit := (ex_digit d, ex_prep (ex_digit d)).
Definition ex_5b_file : OneBlockFile :=
  mkOneBlockFile "0000000005-5b-4a-3" {["0000000005-5b-4a-3-x" := true]} "5b" 5 3 "4a" "" false.
Definition ex_5b : Block := mkBlock 5 "5b" "4a" None 3 0 0 "" 0 4 (Some (mkAny "" "")).

Lemma ex_stream :
  CursorResolver.merged_stream ex_client (NewBlockRef "5b" 5) (NewBlockRef "3a" 3) (ex_digit "3")
    [ex_event "3"; ex_event "4"] (ex_event "5") [ex_event "6"; ex_event "7"].
Proof.
  split; try done.
  - left.
  - repeat constructor; eexists; done.
  - eexists. split; [reflexivity|]. repeat constructor.
  - repeat constructor.
  - split; [repeat constructor|done].
Qed.

Lemma file_ex_position :
  CursorResolver.position (NewBlockRef "5b" 5) (NewBlockRef "3a" 3)
    ([ex_event "3"; ex_event "4"] ++ [ex_event "5"]).*1 (ex_digit "5") ["5b"; "4a"].
Proof.
  eapply (CursorResolver.forked _ _ _ _ _ {["5b" := ex_5b_file]} [ex_5b] [ex_digit "3"; ex_digit "4"] _
            [ex_digit "5"]); try done.
  - split.
    + vm_compute. by split.
    + apply Forall_singleton. split; [vm_compute; split; congruence|]. exists ex_5b_file.
      split_and!; vm_compute; reflexivity.
    + split; [right; left|vm_compute; congruence].
    + apply Forall_singleton. repeat (apply Forall_cons; split; [vm_compute; reflexivity|]). constructor.
    + intros m Hm Hs. repeat (apply elem_of_cons in Hm as [->|Hm]; [first [reflexivity|vm_compute in Hs; congruence]|]).
      by apply elem_of_nil in Hm.
  - apply NoDup_singleton.
  - by exists ex_5b, [].
Qed.

Lemma SourceRun_resumes_witness :
  exists evs, SourceRun ex_exists recorder [] ex_options (FromCursor ex_client) 3 [] = (Err ErrStopBlockReached, evs) /\
    consume (mkView "3a" ["5b"; "4a"]) (reverse evs) = Some (mkView "7a" []) /\
    ((fun ev => (ev_step ev.2, Id ev.1)) <$> reverse evs) =
      [(Some StepUndo, "5b"); (Some StepIrreversible, "4a"); (Some StepNewIrreversible, "5a");
       (Some StepNewIrreversible, "6a"); (Some StepNewIrreversible, "7a")].
Proof.
  edestruct (SourceRun_resumes ex_exists ex_options ex_client (NewBlockRef "5b" 5) (NewBlockRef "3a" 3) (NewFileSource 3 (ex_options ++ [FileSourceWithWhitelistedBlocks [3; 4; 5; 6]])) ex_prep ex_files 3 [] (Err ErrStopBlockReached) (ex_digit "3") [ex_event "3"; ex_event "4"] (ex_event "5") [ex_event "6"; ex_event "7"] ["5b"; "4a"]) as (evs & E & C);
    [reflexivity|done|done|done|done|done|done|by apply ex_bundles|by apply ends_stop| | |reflexivity
    |exact ex_stream|done|exact file_ex_position|].
  - repeat (split; [by (left + right)|]); exact I.
  - cbn; lia.
  - exists evs. split; [exact E|]. split; [exact C|].
    vm_compute in E. injection E as <-. reflexivity.
Defined.
End Example.
