(* ===== verification/BlockFiles.v ===== *)
(** * Writing files of blocks ([writer.go])

    The files of blocks are written by [DBinBlockWriter] and read by the readers of
    [OneBlockFiles.v]; what a writer wrote is what the readers give back. *)

From S2P Require Import Prelude GoStrings Types OneBlockFiles FileSource FileSourceProps.
From Stdlib Require Import Ascii.
Import OneBlockFiles.

(** [dbin.Writer] over a writer of the state [W], and [proto.Marshal]. *)
Class DBinWriter (W : Type) := {
  WriteHeader : string -> M W unit;
  WriteMessage : string -> M W unit;
  MarshalBlock : Block -> outcome string;
}.

Module BlockFiles.

Section Writer.
Context {W : Type} `{DBinWriter W}.

Record DBinBlockWriter := mkWriter { src : W; hasWrittenHeader : bool }.

Definition NewDBinBlockWriter (writer : W) : DBinBlockWriter := mkWriter writer false.

Definition on_src (m : M W unit) : M DBinBlockWriter unit := fun w =>
  let '(r, s) := m (src w) in (r, mkWriter s (hasWrittenHeader w)).

(** [%s]: the cause is printed, not wrapped. *)
Definition flat {A} (msg : string) (m : M W A) : M W A := fun s => let '(r, s') := m s in (flatten msg r, s').

Definition write_header (block : Block) : M DBinBlockWriter unit :=
  payload ← mlift (deref (Payload block));
  _ ← on_src (flat "unable to write file header" (WriteHeader (TypeUrl payload)));
  mmodify (fun w => mkWriter (src w) true).

Definition Write (block : Block) : M DBinBlockWriter unit :=
  w ← mget;
  _ ← (if hasWrittenHeader w then mret tt else write_header block);
  bytes ← mlift (flatten "unable to marshal proto block" (MarshalBlock block));
  on_src (WriteMessage bytes).

(** The blocks written one after the other, up to the first error. *)
Definition write_all (blocks : list Block) : M DBinBlockWriter unit := mfor blocks Write.
End Writer.
Arguments DBinBlockWriter : clear implicits.

(** The block all of whose fields have their default value: the only one that
    protobuf encodes by no byte. *)
Definition blank : Block := mkBlock 0 "" "" None 0 0 0 "" 0 0 None.

(** What dbin and protobuf are documented to do: [sunk] are the bytes that reached
    the file. A header or a message that was written is read back from its bytes,
    whatever follows them; a block is unmarshalled to itself, and to the fields it
    shares with [BlockMeta] when the others are discarded. *)
Class Format (W : Type) `{DBin} `{DBinWriter W} := {
  sunk : W -> string;
  header_written contentType w w' : WriteHeader contentType w = (Ok tt, w') ->
    exists bytes, sunk w' = sunk w +:+ bytes /\
      forall rest, ReadHeader (bytes +:+ rest) = Ok (contentType, rest);
  message_written message w w' : WriteMessage message w = (Ok tt, w') ->
    exists bytes, bytes <> "" /\ sunk w' = sunk w +:+ bytes /\
      forall rest, ReadMessage (bytes +:+ rest) = (message, None, rest);
  end_of_file : ReadMessage "" = ("", Some EOF, "");
  unmarshalled b bytes : MarshalBlock b = Ok bytes ->
    UnmarshalBlock bytes = Ok b /\ UnmarshalBlockMeta bytes = Ok (ToBlocKMeta b) /\ (bytes = "" -> b = blank);
}.

Section Facts.
Context {W : Type} `{Protocol} `{DBin} `{DBinWriter W} `{!Format W}.
Implicit Types (w : DBinBlockWriter W).

Lemma flat_Ok {A} msg (m : M W A) s a s' : flat msg m s = (Ok a, s') -> m s = (Ok a, s').
Proof. unfold flat. destruct (m s) as [[] ?]; cbn; congruence. Qed.

Lemma on_src_Ok (m : M W unit) w w' : on_src m w = (Ok tt, w') ->
  m (src w) = (Ok tt, src w') /\ hasWrittenHeader w' = hasWrittenHeader w.
Proof. unfold on_src. destruct (m (src w)) as [r s]. intros [= -> <-]. done. Qed.

(** The bytes of a message, and what is read where they are. *)
Definition holds_message (b : Block) (bytes : string) : Prop :=
  bytes <> "" /\ exists message, MarshalBlock b = Ok message /\
    forall rest, ReadMessage (bytes +:+ rest) = (message, None, rest).

Lemma write_header_Ok b w w' : write_header b w = (Ok tt, w') ->
  hasWrittenHeader w' = true /\ exists p bytes, Payload b = Some p /\
    sunk (src w') = sunk (src w) +:+ bytes /\ forall rest, ReadHeader (bytes +:+ rest) = Ok (TypeUrl p, rest).
Proof.
  unfold write_header, mlift, mbind, M_bind. destruct (Payload b) as [p|]; [|discriminate]. cbn [deref].
  destruct (on_src _ w) as [[[]|e|m|] w1] eqn:E; intros [= <-]. cbn. split; [done|].
  apply on_src_Ok in E as [E _]. apply flat_Ok in E. destruct (header_written _ _ _ E) as (bytes & Es & Hr).
  by exists p, bytes.
Qed.

Lemma write_message_Ok b w w' : hasWrittenHeader w = true -> Write b w = (Ok tt, w') ->
  hasWrittenHeader w' = true /\ exists bytes, sunk (src w') = sunk (src w) +:+ bytes /\ holds_message b bytes.
Proof.
  intros Hw. unfold Write, mlift, mget, mbind, M_bind. rewrite Hw. cbn.
  destruct (MarshalBlock b) as [message|e|m|] eqn:Em; cbn; try discriminate.
  intros E. apply on_src_Ok in E as [E Eh]. split; [congruence|].
  destruct (message_written _ _ _ E) as (bytes & Hne & Es & Hr). exists bytes. split; [done|].
  split; [done|]. by exists message.
Qed.

(** The first block takes the header with it. *)
Lemma Write_first b w w' : hasWrittenHeader w = false -> Write b w = (Ok tt, w') ->
  exists w1, write_header b w = (Ok tt, w1) /\ Write b w1 = (Ok tt, w').
Proof.
  intros Hw E. unfold Write, mbind, M_bind in E. cbn [mget] in E. rewrite Hw in E.
  destruct (write_header b w) as [[[]|e|m|] w1] eqn:E1; try discriminate E. exists w1. split; [done|].
  unfold Write, mbind, M_bind. cbn [mget]. destruct (write_header_Ok _ _ _ E1) as [-> _]. exact E.
Qed.

Lemma Read_message b b' bytes rest : holds_message b bytes -> b <> blank -> supportLegacy b = Ok b' ->
  Read (bytes +:+ rest) = Ok (b', rest) /\ (String.length rest < String.length (bytes +:+ rest))%nat /\
  ReadAsBlockMeta (bytes +:+ rest) =
    (meta ← flatten "support legacy block meta" (supportLegacyMeta (ToBlocKMeta b)); Ok (meta, rest)).
Proof.
  intros [Hne (message & Em & Hr)] Hb Hl. destruct (unmarshalled _ _ Em) as (Eu & Eum & Hblank).
  unfold Read, ReadAsBlockMeta, readMessage. rewrite Hr.
  destruct message as [|c message]; [by destruct Hb; apply Hblank|]. rewrite Eu, Eum. cbn. rewrite Hl. cbn.
  split; [done|]. split; [|done]. destruct bytes; [done|]. rewrite str_app_length. simpl. lia.
Qed.

Lemma write_all_reads blocks : forall blocks' w w', hasWrittenHeader w = true ->
  write_all blocks w = (Ok tt, w') -> Forall (fun b => b <> blank) blocks ->
  Forall2 (fun b b' => supportLegacy b = Ok b') blocks blocks' ->
  exists data, sunk (src w') = sunk (src w) +:+ data /\ reads data blocks'.
Proof.
  induction blocks as [|b blocks IH]; intros blocks' w w' Hw E Hb Hl.
  - injection E as <-. inversion Hl; subst. exists "". split; [by rewrite str_app_nil_r|].
    apply reads_end. unfold Read, readMessage. rewrite end_of_file. by rewrite decide_True.
  - inversion Hl as [|? b' ? blocks2 Hb' Hl']; subst. apply Forall_cons in Hb as [Hb Hbs].
    unfold write_all in *. cbn [mfor] in E. unfold mbind, M_bind in E.
    destruct (Write b w) as [[[]|e|m|] w1] eqn:E1; try discriminate E.
    destruct (write_message_Ok _ _ _ Hw E1) as (Hw1 & bytes & Es1 & Hm).
    destruct (IH _ _ _ Hw1 E Hbs Hl') as (data & Es & Hr). exists (bytes +:+ data).
    split; [by rewrite Es, Es1, str_app_assoc|]. destruct (Read_message _ _ _ data Hm Hb Hb') as (Er & Hlt & _).
    by eapply reads_block.
Qed.

(** A file starts with the header of its first block, whose message follows. *)
Lemma written_file b blocks b' blocks' sink w : sunk sink = "" ->
  write_all (b :: blocks) (NewDBinBlockWriter sink) = (Ok tt, w) -> Forall (fun b => b <> blank) (b :: blocks) ->
  Forall2 (fun b b' => supportLegacy b = Ok b') (b :: blocks) (b' :: blocks') ->
  exists p hdr bytes data, Payload b = Some p /\ sunk (src w) = hdr +:+ bytes +:+ data /\
    (forall rest, ReadHeader (hdr +:+ rest) = Ok (TypeUrl p, rest)) /\ holds_message b bytes /\ reads data blocks'.
Proof.
  intros Hsink E Hb Hl. inversion Hl; subst. apply Forall_cons in Hb as [Hb Hbs].
  unfold write_all in E. cbn [mfor] in E. unfold mbind, M_bind in E.
  destruct (Write b _) as [[[]|e|m|] w1] eqn:E1; try discriminate E.
  apply Write_first in E1 as (wh & Eh & E1); [|done].
  destruct (write_header_Ok _ _ _ Eh) as (Hwh & p & hdr & Ep & Es0 & Hh).
  destruct (write_message_Ok _ _ _ Hwh E1) as (Hw1 & bytes & Es1 & Hm).
  destruct (write_all_reads _ _ _ _ Hw1 E Hbs ltac:(done)) as (data & Es & Hr).
  exists p, hdr, bytes, data. split; [done|]. cbn [src NewDBinBlockWriter] in Es0. rewrite Hsink in Es0.
  split; [|done]. rewrite Es, Es1, Es0. cbn. by rewrite str_app_assoc.
Qed.
End Facts.

(** C25: what a writer wrote is what the readers give back. When the blocks were
    written without an error to an empty file, the file starts with one header,
    that of the payload of the first block, and a reader of bundles gets these
    blocks in order and then the end of the file; read as a one-block file it is
    its first block, and its first metadata. The first block has a payload; another one
    without a payload comes back completed as the blocks of old versions are. *)
Theorem Write_read {W} `{Protocol} `{DBin} `{DBinWriter W} `{!Format W} sink blocks blocks' w :
  sunk sink = "" -> blocks <> [] -> write_all blocks (NewDBinBlockWriter sink) = (Ok tt, w) ->
  Forall (fun b => b <> blank) blocks -> Forall2 (fun b b' => supportLegacy b = Ok b') blocks blocks' ->
  exists b p body, blocks !! 0%nat = Some b /\ Payload b = Some p /\
    ReadHeader (sunk (src w)) = Ok (TypeUrl p, body) /\
    NewDBinBlockReader (sunk (src w)) = Ok body /\ reads body blocks' /\
    DecodeOneblockfileData (sunk (src w)) = Ok (Some b) /\
    decodeOneblockfileToBlockMeta (sunk (src w)) =
      (meta ← wrap "block meta reader failed" (flatten "support legacy block meta" (supportLegacyMeta (ToBlocKMeta b)));
       Ok (Some meta)).
Proof.
  intros Hsink Hne E Hb Hl. destruct blocks as [|b blocks]; [done|].
  assert (exists b' l, blocks' = b' :: l) as (b' & l & ->) by (inversion Hl; by eexists _, _).
  destruct (written_file _ _ _ _ _ _ Hsink E Hb Hl) as (p & hdr & bytes & data & Ep & Es & Hh & Hm & Hr).
  apply Forall2_cons in Hl as [Hb' _]. apply Forall_cons in Hb as [Hb _].
  destruct (Read_message _ _ _ data Hm Hb Hb') as (Er & Hlt & Erm).
  assert (b' = b) as -> by (unfold supportLegacy in Hb'; rewrite Ep in Hb'; congruence).
  assert (Ereader : NewDBinBlockReader (sunk (src w)) = Ok (bytes +:+ data)).
  { unfold NewDBinBlockReader, NewDBinBlockReaderWithValidation. by rewrite Es, Hh. }
  exists b, p, (bytes +:+ data). split; [done|]. split; [done|]. split; [by rewrite Es, Hh|].
  split; [done|]. split; [by eapply reads_block|].
  unfold DecodeOneblockfileData, decodeOneblockfileToBlockMeta. rewrite Ereader. cbn [wrap mbind outcome_bind].
  rewrite Er, Erm. cbn [first_message]. split; [done|].
  unfold supportLegacyMeta. by destruct (_ && _).
Qed.

(** ** A codec *)

#[global] Instance Any_countable : Countable Any.
Proof. refine (inj_countable' (fun a => (TypeUrl a, Value a)) (fun x => mkAny x.1 x.2) _). by intros []. Defined.

#[global] Instance Block_countable : Countable Block.
Proof.
  refine (inj_countable' (fun b => (Number b, Id b, ParentId b, Timestamp b, LibNum b,
      (PayloadKind b, PayloadVersion b, PayloadBuffer b, HeadNum b, ParentNum b, Payload b)))
    (fun x => let '(n, i, p, t, l, (k, v, u, h, q, a)) := x in mkBlock n i p t l k v u h q a) _).
  by intros [].
Defined.

(** A message is its bits and a dot. *)
Definition frame (s : string) : string := bits_of (encode s) +:+ ".".

Fixpoint to_dot (s : string) : string * string :=
  match s with
  | EmptyString => ("", "")
  | String c s' =>
      if decide (c = "."%char) then ("", s') else let '(a, rest) := to_dot s' in (String c a, rest)
  end.

Lemma to_dot_bits p rest : to_dot (bits_of p +:+ "." +:+ rest) = (bits_of p, rest).
Proof. induction p as [p IH|p IH|]; simpl; [by rewrite IH..|done]. Qed.

Lemma to_dot_frame s rest : to_dot (frame s +:+ rest) = (bits_of (encode s), rest).
Proof. unfold frame. by rewrite str_app_assoc, to_dot_bits. Qed.

Definition marshalled (b : Block) : string := if decide (b = blank) then "" else bits_of (encode (Some b)).

Definition unmarshal (s : string) : outcome Block :=
  match s with
  | EmptyString => Ok blank
  | _ => r ← decoded s; match r with Some b => Ok b | None => Err (EMsg "proto: cannot parse") end
  end.

Lemma encode_Some_nonempty (b : Block) : bits_of (encode (Some b)) <> "".
Proof. intros E. assert (encode (Some b) = 1%positive) as E1 by (rewrite <- (of_bits_of (encode (Some b))), E; done).
  pose proof (decode_encode (Some b)) as D. rewrite E1 in D. by vm_compute in D. Qed.

Lemma unmarshal_marshalled b : unmarshal (marshalled b) = Ok b.
Proof.
  unfold marshalled. destruct (decide (b = blank)) as [->|Hb]; [done|]. unfold unmarshal.
  pose proof (encode_Some_nonempty b). destruct (bits_of _) eqn:E; [done|]. rewrite <- E. by rewrite decoded_encode.
Qed.

#[local] Instance file_codec : DBin := {|
  ReadHeader := fun s => let '(a, rest) := to_dot s in ct ← decoded a; Ok (ct, rest);
  ReadMessage := fun s => match s with
    | EmptyString => ("", Some EOF, "")
    | _ => let '(a, rest) := to_dot s in
           match decoded a with Ok m => (m, None, rest) | _ => ("", Some (EMsg "unreadable"), rest) end
    end;
  UnmarshalBlock := unmarshal;
  UnmarshalBlockMeta := fun s => b ← unmarshal s; Ok (ToBlocKMeta b);
  LookupEnv := fun _ => false;
|}.

#[local] Instance file_writer : DBinWriter string := {|
  WriteHeader := fun s w => (Ok tt, w +:+ frame s);
  WriteMessage := fun s w => (Ok tt, w +:+ frame s);
  MarshalBlock := fun b => Ok (marshalled b);
|}.

Lemma frame_nonempty s rest : exists c t, frame s +:+ rest = String c t.
Proof. unfold frame. destruct (bits_of (encode s)); by eexists _, _. Qed.

#[local] Instance file_format : Format string.
Proof.
  refine {| sunk := id |}.
  - intros ct w w' [= <-]. exists (frame ct). split; [done|]. intros rest. cbn [ReadHeader file_codec].
    rewrite to_dot_frame, decoded_encode. done.
  - intros m w w' [= <-]. exists (frame m). split; [|split; [done|]].
    + unfold frame. by destruct (bits_of _).
    + intros rest. cbn [ReadMessage file_codec]. destruct (frame_nonempty m rest) as (c & t & E).
      rewrite E. rewrite <- E. rewrite to_dot_frame, decoded_encode. done.
  - done.
  - intros b bytes [= <-]. cbn [UnmarshalBlock UnmarshalBlockMeta file_codec]. rewrite unmarshal_marshalled.
    split; [done|]. split; [done|]. unfold marshalled. case_decide; [done|]. intros E. by apply encode_Some_nonempty in E.
Defined.

Definition ex_written : list Block :=
  [mkBlock 3 "3a" "2a" (Some 5) 2 0 0 "" 0 2 (Some (mkAny "type/eth" "x"));
   mkBlock 4 "4a" "3a" None 2 2 0 "old" 0 0 None].

Lemma Write_read_witness : let p : Protocol := {| GetProtocolFirstStreamableBlock := 1 |} in
  let file := (write_all ex_written (NewDBinBlockWriter "")).2 in
  (exists b p body, ex_written !! 0%nat = Some b /\ Payload b = Some p /\
     ReadHeader (src file) = Ok (TypeUrl p, body) /\ NewDBinBlockReader (src file) = Ok body /\
     reads body [mkBlock 3 "3a" "2a" (Some 5) 2 0 0 "" 0 2 (Some (mkAny "type/eth" "x"));
                 mkBlock 4 "4a" "3a" None 2 2 0 "old" 0 3 (Some (mkAny "type.googleapis.com/sf.ethereum.type.v2.Block" "old"))] /\
     DecodeOneblockfileData (src file) = Ok (Some b) /\
     decodeOneblockfileToBlockMeta (src file) =
       (meta ← wrap "block meta reader failed" (flatten "support legacy block meta" (supportLegacyMeta (ToBlocKMeta b)));
        Ok (Some meta))).
Proof.
  intros p file. refine (Write_read (W := string) "" ex_written _ file _ _ _ _ _).
  - reflexivity.
  - discriminate.
  - reflexivity.
  - repeat constructor; discriminate.
  - repeat constructor.
Defined.
End BlockFiles.
