(* ===== verification/FilePipeline.v ===== *)
(** * The goroutines of the file source ([filesource.go])

    [FileSource.run] reads the bundles one after the other; here are the
    goroutines of the code: [launchReader], which looks for the files; for each
    file its [streamReader], the goroutine that forwards the preprocessed blocks
    in order, and one goroutine for each block that is preprocessed; and [run],
    which hands the blocks to the handler; with the channels between them.  The
    store may be asked for a file many times and answer differently. *)

From S2P Require Import Prelude Schedules GoStrings Types OneBlockFiles CursorResolver FileSource.
Import OneBlockFiles.

Module FilePipeline.
Import FileSource.
Section Pipeline.
Context {O : Type} `{Protocol} `{DBin} `{Store} `{BlockIndexProvider}.
Context {HS : Type} (handler : Handler O HS) (s : FileSource O) (late : list bool).

(** ** State *)

(** The channel of a block: its goroutine works, has put the block, or ended on an error. *)
Inductive slot := Working (blk : Block) | Filled (blk : Block) (obj : iface O) | Abandoned (blk : Block).

(** [streamIncomingFile] and [streamReader]: the file is not open yet; the blocks
    left and how they end; a block to be queued; waiting for the forwarder;
    returning an error; ended. *)
Inductive reader :=
  | Opening
  | Reading (blocks : list Block) (readErr : option error) (lastBlockID : string) (filtered : option (list Z))
  | Queueing (blk : Block) (blocks : list Block) (readErr : option error) (lastBlockID : string) (filtered : option (list Z))
  | Awaiting
  | Failed (e : error)
  | Ended.

(** The goroutine that forwards the blocks of a file; [Closed] once
    [incomingBlockFile.blocks] is closed. *)
Inductive forwarder := NotStarted | Selecting | Holding (c : slot) | Offering (blk : Block) (obj : iface O) | Closed.

Record file := mkFile {
  incoming : incomingBlocksFile;
  validate : bool;             (* of [streamReader]: a source with an index when it starts *)
  f_reader : reader;
  preprocessed : list slot;    (* the channel of the channels of the blocks *)
  preprocessed_closed : bool;
  f_forwarder : forwarder;
}.

(** [fileStream] carries files, as their rank, and the error of the stop block. *)
Inductive message := MFile (i : nat) | MErr (e : error).

Inductive launcher :=
  | Looking (baseBlockNum : Z) (wl : gset Z)
  | Launching (f : incomingBlocksFile) (wl : gset Z)
  | Marking
  | Launched.

Inductive runner := Starting | Idle | Ranging (i : nat) | Returned.

Record state := mkState {
  index : bool;                      (* [s.blockIndexProvider] is not nil *)
  launch : launcher;
  fileStream : list message;
  files : list file;
  main : runner;
  order : bool;                      (* [validateBlockOrder] of [run] *)
  shutdown : option (option error);  (* the error of the first call of [Shutdown] *)
  crashed : bool;
  running : Running (HS := HS);
}.

Definition set_launch (l : launcher) (p : state) : state :=
  mkState (index p) l (fileStream p) (files p) (main p) (order p) (shutdown p) (crashed p) (running p).
Definition set_index (b : bool) (p : state) : state :=
  mkState b (launch p) (fileStream p) (files p) (main p) (order p) (shutdown p) (crashed p) (running p).
Definition set_fileStream (q : list message) (p : state) : state :=
  mkState (index p) (launch p) q (files p) (main p) (order p) (shutdown p) (crashed p) (running p).
Definition set_files (fs : list file) (p : state) : state :=
  mkState (index p) (launch p) (fileStream p) fs (main p) (order p) (shutdown p) (crashed p) (running p).
Definition set_main (m : runner) (p : state) : state :=
  mkState (index p) (launch p) (fileStream p) (files p) m (order p) (shutdown p) (crashed p) (running p).
Definition set_running (r : Running) (p : state) : state :=
  mkState (index p) (launch p) (fileStream p) (files p) (main p) (order p) (shutdown p) (crashed p) r.
Definition crash (p : state) : state :=
  mkState (index p) (launch p) (fileStream p) (files p) (main p) (order p) (shutdown p) true (running p).

Definition Shutdown (e : option error) (p : state) : state :=
  mkState (index p) (launch p) (fileStream p) (files p) (main p) (order p)
    (match shutdown p with Some e' => Some e' | None => Some e end) (crashed p) (running p).

Definition IsTerminating (p : state) : bool := bool_decide (is_Some (shutdown p)).

Definition set_reader (r : reader) (f : file) : file :=
  mkFile (incoming f) (validate f) r (preprocessed f) (preprocessed_closed f) (f_forwarder f).
Definition set_forwarder (w : forwarder) (f : file) : file :=
  mkFile (incoming f) (validate f) (f_reader f) (preprocessed f) (preprocessed_closed f) w.
Definition set_preprocessed (q : list slot) (f : file) : file :=
  mkFile (incoming f) (validate f) (f_reader f) q (preprocessed_closed f) (f_forwarder f).
Definition close_preprocessed (f : file) : file :=
  mkFile (incoming f) (validate f) (f_reader f) (preprocessed f) true (f_forwarder f).
Definition set_validate (b : bool) (f : file) : file :=
  mkFile (incoming f) b (f_reader f) (preprocessed f) (preprocessed_closed f) (f_forwarder f).

Definition set_file (i : nat) (f : file) (p : state) : state := set_files (<[i := f]> (files p)) p.

(** [NewFileSource], and the beginning of [run] and [launchReader]. *)
Definition init (hs : HS) : outcome state :=
  base ← lowBoundary (startBlockNum s) (bundleSize s);
  Ok (mkState (hasIndexProvider s) (Looking base (whitelistedBlocks s)) [] [] Starting false None false (mkRunning "" hs)).

(** ** [launchReader] *)

(** A turn of the loop; [exists_] is what the store says of the files then. *)
Definition look (exists_ : string -> outcome bool) (p : state) : option state :=
  match launch p with
  | Looking base wl =>
      match next_bundle exists_ s late (index p) base wl with
      | Ok (base', filtered, active', wl') =>
          let p := set_index active' p in
          match checkExists exists_ base' with
          | (Ok true, name) => Some (set_launch (Launching (newIncomingBlocksFile base' name filtered) wl') p)
          | (Ok false, _) =>
              Some (if errorOutOnMissingFile s
                    then set_launch Launched (Shutdown (Some (EMsg "filesource: missing file %q")) p)
                    else set_launch (Looking base' wl') p)
          | (Err e, _) => Some (set_launch Launched (Shutdown (Some (EWrap "filesource reading file existence" e)) p))
          | (Panic _, _) => Some (crash p)
          | (Diverge, _) => None
          end
      | Panic _ | Err _ => Some (crash p)
      | Diverge => None
      end
  | _ => None
  end.

(** [s.fileStream <- newIncomingFile], a channel of one place, then the goroutine
    of the file. *)
Definition launch_file (p : state) : option state :=
  match launch p, fileStream p with
  | Launching f wl, [] =>
      let base := u64_add (baseNum f) (bundleSize s) in
      Some (set_launch (if negb (stopBlockNum s =? 0) && (stopBlockNum s <? base) then Marking else Looking base wl)
             (set_fileStream [MFile (length (files p))]
               (set_files (files p ++ [mkFile f false Opening [] false NotStarted]) p)))
  | _, _ => None
  end.

Definition mark (p : state) : option state :=
  match launch p, fileStream p with
  | Marking, [] => Some (set_launch Launched (set_fileStream [MErr ErrStopBlockReached] p))
  | _, _ => None
  end.

Definition stop_launching (p : state) : option state :=
  match launch p with
  | Looking _ _ | Launching _ _ => if IsTerminating p then Some (set_launch Launched p) else None
  | _ => None
  end.

(** ** [streamIncomingFile] and [streamReader] *)

Definition open (i : nat) (f : file) (p : state) : option state :=
  match wrap "fetching from block store" (OpenObject (filename (incoming f))) with
  | Ok data =>
      match wrap "unable to create block reader" (NewDBinBlockReader data) with
      | Ok src =>
          if preprocessorThreadCount s <? 0 then Some (crash p)   (* makechan: size out of range *)
          else
            match read_blocks (S (String.length src)) src with
            | Ok (blocks, readErr) =>
                Some (set_file i (set_forwarder Selecting
                        (set_validate (index p)
                          (set_reader (Reading blocks readErr "" (filteredBlocks (incoming f))) f))) p)
            | Panic _ | Err _ => Some (crash p)
            | Diverge => None
            end
      | Err e => Some (set_file i (set_reader (Failed e) f) p)
      | Panic _ => Some (crash p)
      | Diverge => None
      end
  | Err e => Some (set_file i (set_reader (Failed e) f) p)
  | Panic _ => Some (crash p)
  | Diverge => None
  end.

Definition streaming : error -> error := EWrap "error processing incoming file".

(** A turn of the loop of [streamReader], up to the block to be queued. *)
Definition read (f : file) (blocks : list Block) (readErr : option error) (last : string) (filtered : option (list Z)) : file :=
  match blocks with
  | [] =>
      close_preprocessed (set_reader (match readErr with Some e => Failed (streaming e) | None => Awaiting end) f)
  | blk :: blocks' =>
      let next last filtered := set_reader (Reading blocks' readErr last filtered) f in
      if Number blk <? startBlockNum s then next last filtered
      else if validate f && negb (bool_decide (last = "")) && negb (bool_decide (ParentId blk = last))
      then set_reader (Failed (streaming not_sequential)) f
      else
        let last' := if validate f then Id blk else last in
        if Number blk <? baseNum (incoming f) then next last' filtered
        else
          let '(passes, filtered') := PassesFilter (Number blk) filtered in
          if passes then set_reader (Queueing blk blocks' readErr last' filtered') f else next last' filtered'
  end.

(** [preprocessed <- out], then [go s.preprocess(blk, out)]. *)
Definition queue (f : file) (blk : Block) (r : reader) : option file :=
  if Z.of_nat (length (preprocessed f)) <? preprocessorThreadCount s
  then Some (set_reader r (set_preprocessed (preprocessed f ++ [Working blk]) f))
  else
    match preprocessed f, f_forwarder f with
    | [], Selecting => Some (set_reader r (set_forwarder (Holding (Working blk)) f))
    | _, _ => None
    end.

Definition read_file (i : nat) (p : state) : option state :=
  f ← files p !! i;
  match f_reader f with
  | Opening => open i f p
  | Reading blocks readErr last filtered =>
      Some (set_file i (if IsTerminating p then set_reader Ended f else read f blocks readErr last filtered) p)
  | Queueing blk blocks readErr last filtered =>
      f' ← queue f blk (Reading blocks readErr last filtered); Some (set_file i f' p)
  | Awaiting => match f_forwarder f with Closed => Some (set_file i (set_reader Ended f) p) | _ => None end
  | Failed e => Some (set_file i (set_reader Ended f) (Shutdown (Some (EWrap "processing of file failed" e)) p))
  | Ended => None
  end.

Definition stop_reading (i : nat) (p : state) : option state :=
  f ← files p !! i;
  match f_reader f with
  | Queueing _ _ _ _ _ => if IsTerminating p then Some (set_file i (set_reader Awaiting f) p) else None
  | _ => None
  end.

(** ** [preprocess], the goroutine of a block *)

Definition preprocess_slot (c : slot) (p : state) : option (slot * state) :=
  match c with
  | Working blk =>
      match preprocess s blk with
      | Ok obj => Some (Filled blk obj, p)
      | Err e => Some (Abandoned blk, Shutdown (Some e) p)
      | Panic _ => Some (c, crash p)
      | Diverge => None
      end
  | _ => None
  end.

(** Where the channel of a block is: in the queue of its file, or with its forwarder. *)
Inductive place := InQueue (j : nat) | AtForwarder.

Definition preprocess_at (i : nat) (at_ : place) (p : state) : option state :=
  f ← files p !! i;
  match at_ with
  | InQueue j =>
      c ← preprocessed f !! j;
      '(c', p') ← preprocess_slot c p;
      Some (set_file i (set_preprocessed (<[j := c']> (preprocessed f)) f) p')
  | AtForwarder =>
      match f_forwarder f with
      | Holding c => '(c', p') ← preprocess_slot c p; Some (set_file i (set_forwarder (Holding c') f) p')
      | _ => None
      end
  end.

(** ** The forwarder of a file *)

Definition forward (i : nat) (p : state) : option state :=
  f ← files p !! i;
  match f_forwarder f with
  | Selecting =>
      match preprocessed f with
      | c :: q => Some (set_file i (set_forwarder (Holding c) (set_preprocessed q f)) p)
      | [] => if preprocessed_closed f then Some (set_file i (set_forwarder Closed f) p) else None
      end
  | Holding (Filled blk obj) => Some (set_file i (set_forwarder (Offering blk obj) f) p)
  | _ => None
  end.

Definition stop_forwarding (i : nat) (p : state) : option state :=
  f ← files p !! i;
  match f_forwarder f with
  | Selecting | Holding _ | Offering _ _ => if IsTerminating p then Some (set_file i (set_forwarder Closed f) p) else None
  | _ => None
  end.

(** ** [run], and [Shutdown] with what it returns *)

Definition return_ (e : option error) (p : state) : state := set_main Returned (Shutdown e p).

Definition next_file (p : state) : option state :=
  match main p with
  | Idle =>
      match fileStream p with
      | MFile i :: q => Some (set_main (Ranging i) (set_fileStream q p))
      | MErr e :: q => Some (return_ (Some e) (set_fileStream q p))
      | [] => match launch p with Launched => Some (return_ None p) | _ => None end
      end
  | _ => None
  end.

(** [validateBlockOrder := s.blockIndexProvider == nil], once the launcher runs. *)
Definition start (p : state) : option state :=
  match main p with
  | Starting =>
      Some (mkState (index p) (launch p) (fileStream p) (files p) Idle (negb (index p)) (shutdown p) (crashed p) (running p))
  | _ => None
  end.

Definition stop_running (p : state) : option state :=
  match main p with Idle => if IsTerminating p then Some (return_ None p) else None | _ => None end.

(** What [run] does with a block and its object. *)
Definition deliver (validateBlockOrder : bool) (blk : Block) (obj : iface O) : M Running unit := fun r =>
  if validateBlockOrder && negb (bool_decide (lastBlockID r = "")) && negb (bool_decide (ParentId blk = lastBlockID r))
  then (Err not_sequential, r)
  else
    let last' := if validateBlockOrder then Id blk else lastBlockID r in
    match handler blk obj (fs_next r) with
    | (Some e, hs) => (Err e, mkRunning last' hs)
    | (None, hs) => (Ok tt, mkRunning last' hs)
    end.

(** [for preBlock := range incomingFile.blocks]. *)
Definition range (p : state) : option state :=
  match main p with
  | Ranging i =>
      f ← files p !! i;
      match f_forwarder f with
      | Offering blk obj =>
          let p' := set_file i (set_forwarder Selecting f) p in
          Some (if IsTerminating p then return_ None p'
                else
                  match deliver (order p) blk obj (running p) with
                  | (Ok _, r) => set_running r p'
                  | (Err e, r) => return_ (Some e) (set_running r p')
                  | (_, r) => crash p'
                  end)
      | Closed => Some (set_main Idle p)
      | _ => None
      end
  | _ => None
  end.

(** ** Actions *)

Inductive action :=
  | Look (exists_ : string -> outcome bool)
  | Launch
  | Mark
  | StopLaunching
  | Read (i : nat)
  | StopReading (i : nat)
  | Preprocess (i : nat) (at_ : place)
  | Forward (i : nat)
  | StopForwarding (i : nat)
  | Start
  | NextFile
  | StopRunning
  | Range
  | External (e : option error).   (* [Shutdown] from outside *)

Definition fire (a : action) (p : state) : option state :=
  if crashed p then None
  else
    match a with
    | Look exists_ => look exists_ p
    | Launch => launch_file p
    | Mark => mark p
    | StopLaunching => stop_launching p
    | Read i => read_file i p
    | StopReading i => stop_reading i p
    | Preprocess i at_ => preprocess_at i at_ p
    | Forward i => forward i p
    | StopForwarding i => stop_forwarding i p
    | Start => start p
    | NextFile => next_file p
    | StopRunning => stop_running p
    | Range => range p
    | External e => if IsTerminating p then None else Some (Shutdown e p)
    end.
End Pipeline.
Arguments slot : clear implicits. Arguments forwarder : clear implicits. Arguments file : clear implicits.
Arguments state : clear implicits.
End FilePipeline.
