(* ===== verification/FilePipelineProps.v ===== *)
(** * What the goroutines of the file source do

    Every schedule hands to the handler, in order, the blocks of the files that
    were launched; while all the files can be opened [run] is never stuck.  A file
    that cannot be opened stops it for ever, and one that cannot be read to its end
    may be followed by the next one. *)

From S2P Require Import Prelude Schedules GoStrings Types OneBlockFiles CursorResolver FileSource FileSourceProps FilePipeline.
Import OneBlockFiles FileSource FilePipeline.

Section Props.
Context {O : Type} `{Protocol} `{DBin} `{Store} `{BlockIndexProvider}.
Context {HS : Type} (handler : Handler O HS) (s : FileSource O) (late : list bool).
Notation state := (state O HS).
Notation file := (file O).
Notation slot := (slot O).
Notation fire := (fire handler s late).
Implicit Types (p : state) (f : file).

(** ** What a file sends *)

(** The blocks of a file that can be opened, and how its reading ends. *)
Definition content (inc : incomingBlocksFile) : option (list Block * option error) :=
  match OpenObject (filename inc) with
  | Ok data =>
      match NewDBinBlockReader data with
      | Ok src => match read_blocks (S (String.length src)) src with Ok r => Some r | _ => None end
      | _ => None
      end
  | _ => None
  end.

(** The blocks that the reader passes on, after those of the filter. *)
Definition passed (base : Z) (filtered : option (list Z)) (blocks : list Block) : list Block :=
  (streamReader s base false "" filtered blocks).1.

Definition sent (inc : incomingBlocksFile) : list Block :=
  match content inc with Some (blocks, _) => passed (baseNum inc) (filteredBlocks inc) blocks | None => [] end.

Definition all p : list Block := concat ((fun f => sent (incoming f)) <$> files p).

Lemma passed_cons base filtered blk blocks : passed base filtered (blk :: blocks) =
  if Number blk <? startBlockNum s then passed base filtered blocks
  else if Number blk <? base then passed base filtered blocks
  else let '(passes, filtered') := PassesFilter (Number blk) filtered in
    (if passes then [blk] else []) ++ passed base filtered' blocks.
Proof.
  unfold passed. cbn [streamReader andb]. destruct (_ <? startBlockNum s); [done|]. destruct (_ <? base); [done|].
  destruct (PassesFilter (Number blk) filtered) as [[] filtered']; by destruct (streamReader s base false "" filtered' blocks).
Qed.

(** ** The channels of a file *)

Definition slot_block (c : slot) : Block := match c with Working b | Filled b _ | Abandoned b => b end.

Definition slot_ok (c : slot) : Prop :=
  match c with Working _ => True | Filled b obj => preprocess s b = Ok obj | Abandoned _ => False end.

Definition held (w : forwarder O) : list slot :=
  match w with Holding c => [c] | Offering b obj => [Filled b obj] | _ => [] end.

(** The channels of a file, the oldest block first. *)
Definition slots f : list slot := held (f_forwarder f) ++ preprocessed f.

Definition to_queue (r : reader) : list Block := match r with Queueing b _ _ _ _ => [b] | _ => [] end.

Definition pending f : list Block := (slot_block <$> slots f) ++ to_queue (f_reader f).

(** What the reader of a file has still to pass on. *)
Definition future f : option (list Block) :=
  match f_reader f with
  | Opening => Some (sent (incoming f))
  | Reading blocks _ _ filtered | Queueing _ blocks _ _ filtered => Some (passed (baseNum (incoming f)) filtered blocks)
  | _ => if preprocessed_closed f then Some [] else None
  end.

Definition reads_on (r : reader) : bool := match r with Opening | Reading _ _ _ _ | Queueing _ _ _ _ _ => true | _ => false end.

Definition is_over (r : reader) : bool := match r with Awaiting | Ended => true | _ => false end.

(** A file from which [handed] were taken, as long as nothing was shut down. *)
Record file_ok (handed : list Block) f : Prop := mkFileOk {
  fo_flow : exists rest, sent (incoming f) = handed ++ pending f ++ rest /\ forall r, future f = Some r -> rest = r;
  fo_slots : Forall slot_ok (slots f);
  fo_closed : f_forwarder f = Closed -> preprocessed_closed f = true /\ preprocessed f = [];
  fo_open : reads_on (f_reader f) = true -> preprocessed_closed f = false;
  fo_done : is_over (f_reader f) = true -> preprocessed_closed f = true;
  fo_new : f_reader f = Opening -> f_forwarder f = NotStarted;
}.

Lemma new_file_ok inc : file_ok [] (mkFile inc false Opening [] false NotStarted).
Proof. split; try done. exists (sent inc). split; [done|]. by intros r [= ->]. Qed.

Lemma read_ok handed f blocks e last filtered : file_ok handed f -> f_reader f = Reading blocks e last filtered ->
  file_ok handed (read s f blocks e last filtered).
Proof.
  intros [(rest & Hf & Hr) Hs Hc Ho Hd Hn] Er. unfold future in Hr. rewrite Er in *. specialize (Hr _ eq_refl) as ->.
  specialize (Ho eq_refl). unfold pending in Hf. rewrite Er in Hf. cbn [to_queue] in Hf. rewrite app_nil_r in Hf.
  assert (Hw : f_forwarder f <> Closed) by (intros Hw; apply Hc in Hw as [Hw _]; congruence).
  assert (Hcl : forall P, f_forwarder f = Closed -> P) by (intros P Hw'; by destruct (Hw Hw')).
  unfold read. destruct blocks as [|blk blocks].
  - split; [|done|exact (Hcl _)|by destruct e|done|by destruct e].
    exists []. split; [|by destruct e; intros r [= <-]]. unfold pending. destruct e; cbn; by rewrite app_nil_r.
  - rewrite passed_cons in Hf.
    assert (Hnext : forall last' filtered', sent (incoming f) = handed ++ (slot_block <$> slots f) ++ passed (baseNum (incoming f)) filtered' blocks ->
      file_ok handed (set_reader (Reading blocks e last' filtered') f)).
    { intros last' filtered' E. split; [|done|exact (Hcl _)|done..]. eexists. split; [|by intros r [= <-]].
      unfold pending. cbn. by rewrite app_nil_r. }
    destruct (Number blk <? startBlockNum s); [by apply Hnext|].
    destruct (validate f && negb (bool_decide (last = "")) && negb (bool_decide (ParentId blk = last))).
    { split; [|done|exact (Hcl _)|done..]. eexists. split; [|intros r; unfold future; cbn; rewrite Ho; intros [=]].
      etrans; [exact Hf|]. unfold pending. cbn. by rewrite (app_nil_r (slot_block <$> _)). }
    destruct (Number blk <? baseNum (incoming f)); [by apply Hnext|].
    destruct (PassesFilter (Number blk) filtered) as [[] filtered']; [|by apply Hnext].
    split; [|done|exact (Hcl _)|done..]. eexists. split; [|by intros r [= <-]]. unfold pending. cbn. rewrite <- (assoc_L (++)). exact Hf.
Qed.

Lemma queue_ok handed f blk blocks e last filtered f' : file_ok handed f -> f_reader f = Queueing blk blocks e last filtered ->
  queue s f blk (Reading blocks e last filtered) = Some f' -> file_ok handed f' /\ incoming f' = incoming f.
Proof.
  intros [(rest & Hf & Hr) Hs Hc Ho Hd Hn] Er E. unfold future in Hr. rewrite Er in *. specialize (Hr _ eq_refl) as ->.
  unfold pending in Hf. rewrite Er in Hf. unfold queue in E. destruct (_ <? _).
  - injection E as <-. split; [|done]. split; try done.
    + eexists. split; [|by intros r [= <-]]. etrans; [exact Hf|]. f_equal. unfold pending, slots. cbn. rewrite !fmap_app. cbn.
      by rewrite <- !(assoc_L (++)).
    + unfold slots in *. cbn. rewrite (assoc_L (++)). apply Forall_app. split; [done|by repeat constructor].
    + cbn. intros Hw. apply Hc in Hw as [Hw _]. specialize (Ho eq_refl). congruence.
  - destruct (preprocessed f) as [|] eqn:Eq, (f_forwarder f) eqn:Ew; try done. injection E as <-. split; [|done].
    split; try done.
    + eexists. split; [|by intros r [= <-]]. etrans; [exact Hf|]. unfold pending, slots. cbn. by rewrite Eq, Ew.
    + unfold slots. cbn. rewrite Eq. by repeat constructor.
Qed.

Lemma open_ok handed f blocks e b : file_ok handed f -> f_reader f = Opening -> content (incoming f) = Some (blocks, e) ->
  file_ok handed (set_forwarder Selecting (set_validate b (set_reader (Reading blocks e "" (filteredBlocks (incoming f))) f))).
Proof.
  intros [(rest & Hf & Hr) Hs Hc Ho Hd Hn] Er Ec. unfold future, pending, slots in *. rewrite Er in *. rewrite (Hn eq_refl) in *.
  specialize (Hr _ eq_refl) as ->. split; try done. eexists. split; [exact Hf|]. cbn. intros r [= <-].
  unfold sent. by rewrite Ec.
Qed.

Lemma over_ok handed f : file_ok handed f -> f_reader f = Awaiting -> file_ok handed (set_reader Ended f).
Proof.
  intros [(rest & Hf & Hr) Hs Hc Ho Hd Hn] Er. unfold future, pending in *. rewrite Er in *. split; try done. by exists rest.
Qed.

(** The channels of a file move or are filled: what is pending stays. *)
Lemma slots_ok handed handed' f w q : file_ok handed f -> (f_forwarder f = NotStarted -> w = NotStarted) ->
  handed ++ (slot_block <$> slots f) = handed' ++ (slot_block <$> held w ++ q) -> Forall slot_ok (held w ++ q) ->
  (w = Closed -> preprocessed_closed f = true /\ q = []) ->
  file_ok handed' (set_forwarder w (set_preprocessed q f)).
Proof.
  intros [(rest & Hf & Hr) Hs Hc Ho Hd Hn] Hw Eq Hs' Hc'. split; try done.
  - exists rest. split; [|exact Hr]. unfold pending in *. etrans; [exact Hf|]. rewrite !(assoc_L (++)). do 2 f_equal. exact Eq.
  - intros Er. by apply Hw, Hn.
Qed.

Lemma range_ok handed f blk obj : file_ok handed f -> f_forwarder f = Offering blk obj ->
  preprocess s blk = Ok obj /\ file_ok (handed ++ [blk]) (set_forwarder Selecting f).
Proof.
  intros Hok Ew. pose proof (fo_slots _ _ Hok) as Hs. unfold slots in Hs. rewrite Ew in Hs. apply Forall_cons in Hs as [Hb Hs].
  split; [exact Hb|]. change (set_forwarder Selecting f) with (set_forwarder Selecting (set_preprocessed (preprocessed f) f)).
  eapply slots_ok; [exact Hok|by rewrite Ew| |exact Hs|done]. unfold slots. rewrite Ew. cbn. by rewrite <- (assoc_L (++)).
Qed.

(** ** The invariant *)

(** The file that [run] ranges over, and the files it has ranged over. *)
Definition taken (m : runner) : option nat := match m with Ranging i => Some i | _ => None end.

Definition stored (streamed : list message) (n total : nat) (l : launcher) : Prop :=
  streamed = MFile <$> seq n (total - n) /\ (n <= total)%nat \/
  streamed = [MErr ErrStopBlockReached] /\ n = total /\ l = Launched.

Definition fed (v : bool) (r0 : Running (HS := HS)) (blocks : list Block) : outcome unit * Running := mfor blocks (handle handler s v) r0.

(** Until the first shutdown: [run] has been through the first [n] files and got
    [handed] from the next one. *)
Record exact (r0 : Running) (n : nat) (handed : list Block) p : Prop := mkExact {
  e_fed : fed (order p) r0 (concat ((fun f => sent (incoming f)) <$> take n (files p)) ++ handed) = (Ok tt, running p);
  e_stream : stored (fileStream p) (match main p with Ranging _ => S n | _ => n end) (length (files p)) (launch p);
  e_main : match main p with Ranging i => i = n /\ (n < length (files p))%nat | Returned => False | Idle => handed = [] | Starting => n = 0%nat /\ handed = [] end;
  e_file : forall j f, files p !! j = Some f -> (n <= j)%nat -> file_ok (if decide (j = n) then handed else []) f;
}.

(** At any time what was handled is a beginning of what the files send. *)
Definition frozen (r0 : Running) p : Prop :=
  (main p = Starting -> running p = r0) /\
  exists k, (k <= length (all p))%nat /\ running p = (fed (order p) r0 (take k (all p))).2.

Record inv (r0 : Running) p : Prop := mkInv {
  i_frozen : frozen r0 p;
  i_exact : IsTerminating p = false -> exists n handed, exact r0 n handed p;
  i_returned : main p = Returned -> IsTerminating p = true;
}.

Lemma all_split n p :
  all p = concat ((fun f => sent (incoming f)) <$> take n (files p)) ++ concat ((fun f => sent (incoming f)) <$> drop n (files p)).
Proof. unfold all. by rewrite <- concat_app, <- fmap_app, take_drop. Qed.

Lemma exact_frozen r0 n handed p : exact r0 n handed p -> frozen r0 p.
Proof.
  intros [Hf Hst Hm Hfs]. split.
  - intros E. rewrite E in Hm. destruct Hm as [-> ->]. cbn in Hf. by injection Hf as <-.
  - rewrite (all_split n).
    destruct (files p !! n) as [f|] eqn:En.
    + pose proof (e_file _ _ _ _ (mkExact _ _ _ _ Hf Hst Hm Hfs) n f En (le_n _)) as Hok. rewrite decide_True in Hok by done.
      destruct (fo_flow _ _ Hok) as (rest & Hs & _). rewrite (drop_S _ _ _ En). cbn [fmap list_fmap concat]. rewrite Hs, !(assoc_L (++)).
      match type of Hf with fed _ _ ?d = _ => exists (length d) end. rewrite <- !(assoc_L (++)), (assoc_L (++)).
      split; [rewrite !length_app; lia|]. by rewrite take_app_length, Hf.
    + assert (handed = []) as ->.
      { destruct (main p); [by destruct Hm|done| |done]. destruct Hm as [-> Hm]. apply lookup_lt_is_Some in Hm. rewrite En in Hm. by destruct Hm. }
      rewrite app_nil_r in Hf. match type of Hf with fed _ _ ?d = _ => exists (length d) end.
      split; [rewrite length_app; lia|]. by rewrite take_app_length, Hf.
Qed.

Lemma IsTerminating_Shutdown e p : IsTerminating (Shutdown e p) = true.
Proof. unfold IsTerminating, Shutdown. cbn. by destruct (shutdown p). Qed.

Lemma sents_insert (fs : list file) i f f' : fs !! i = Some f -> incoming f' = incoming f ->
  (fun f => sent (incoming f)) <$> <[i := f']> fs = (fun f => sent (incoming f)) <$> fs.
Proof. intros Hi E. rewrite list_fmap_insert. apply list_insert_id. by rewrite list_lookup_fmap, Hi, E. Qed.

Lemma frozen_same r0 p p' more : all p' = all p ++ more -> running p' = running p -> order p' = order p ->
  (main p' = Starting -> main p = Starting) -> frozen r0 p -> frozen r0 p'.
Proof.
  intros Ea Er Eo Em [Hs (k & Hk & E)]. split; [intros; rewrite Er; auto|]. exists k. rewrite Ea, Er, Eo, length_app, take_app_le by done.
  split; [lia|done].
Qed.

Lemma frozen_eq r0 p p' : all p' = all p -> running p' = running p -> order p' = order p ->
  (main p' = Starting -> main p = Starting) -> frozen r0 p -> frozen r0 p'.
Proof. intros Ea. apply (frozen_same _ _ _ []). by rewrite app_nil_r. Qed.

Lemma inv_file r0 p i f f' : inv r0 p -> files p !! i = Some f -> incoming f' = incoming f ->
  (IsTerminating p = false -> forall h, file_ok h f -> file_ok h f') -> inv r0 (set_file i f' p).
Proof.
  intros [Hz He Hr] Hi Ei Hok. split; [|intros HT|exact Hr].
  - eapply frozen_eq; [|..|exact Hz]; try done. unfold all. cbn. f_equal. by eapply sents_insert.
  - specialize (Hok HT). destruct (He HT) as (n & handed & [Hf Hst Hm Hfs]). exists n, handed.
    split; cbn [files order fileStream launch main running set_file set_files]; rewrite ?length_insert; try done.
    + rewrite fmap_take, (sents_insert _ _ _ _ Hi Ei), <- fmap_take. exact Hf.
    + intros j g Hj Hn. destruct (decide (i = j)) as [<-|Hne].
      * rewrite list_lookup_insert_eq in Hj by by eapply lookup_lt_Some. injection Hj as <-. by apply Hok, Hfs.
      * rewrite list_lookup_insert_ne in Hj by done. by apply Hfs.
Qed.

Lemma inv_Shutdown r0 p e : inv r0 p -> inv r0 (Shutdown e p).
Proof.
  intros [Hz He Hr]. pose proof (IsTerminating_Shutdown e p) as HT. split; [|congruence|done].
  eapply frozen_eq; [..|exact Hz]; done.
Qed.

Lemma IsTerminating_return e p : IsTerminating (return_ e p) = true.
Proof. apply (IsTerminating_Shutdown e p). Qed.

Lemma inv_return r0 p e : inv r0 p -> inv r0 (return_ e p).
Proof.
  intros [Hz He Hr]. pose proof (IsTerminating_return e p) as HT.
  split; [|congruence|done]. eapply frozen_eq; [..|exact Hz]; done.
Qed.

(** Changes that the reference does not see. *)
Lemma inv_same r0 p p' : inv r0 p -> files p' = files p -> running p' = running p -> order p' = order p -> main p' = main p ->
  fileStream p' = fileStream p -> (launch p = Launched -> launch p' = Launched) -> shutdown p' = shutdown p -> inv r0 p'.
Proof.
  intros [Hz He Hr] Ef Er Eo Em Es El Et. assert (ET : IsTerminating p' = IsTerminating p) by (unfold IsTerminating; by rewrite Et).
  split; [|intros HT|by rewrite ET, Em].
  - eapply frozen_eq; [..|exact Hz]; try done; [unfold all; by rewrite Ef|by rewrite Em].
  - rewrite ET in HT. destruct (He HT) as (n & handed & [Hf Hst Hm Hfs]). exists n, handed.
    split; rewrite ?Ef, ?Er, ?Eo, ?Em, ?Es; try done.
    destruct Hst as [Hst|(? & ? & ?)]; [by left|]. right. auto.
Qed.

Lemma inv_crash r0 p : inv r0 p -> inv r0 (crash p).
Proof. intros HI. by eapply inv_same. Qed.

Lemma look_inv r0 exists_ p p' : inv r0 p -> look s late exists_ p = Some p' -> inv r0 p'.
Proof.
  intros HI E. unfold look in E. destruct (launch p) as [base wl|inc wl| |] eqn:El; try done.
  destruct (next_bundle exists_ s late (index p) base wl) as [[[[base' filtered] active'] wl']|e|w|]; try done;
    [|injection E as <-; by apply inv_crash..].
  assert (HI' : forall l, inv r0 (set_launch l (set_index active' p))) by (intros l; eapply inv_same; [exact HI|..]; try done; by rewrite El).
  destruct (checkExists exists_ base') as [[[]|e|w|] name]; try done; injection E as <-; [apply HI'| | |].
  - destruct (errorOutOnMissingFile s); [|apply HI']. apply (inv_Shutdown _ (set_launch Launched (set_index active' p))), HI'.
  - apply (inv_Shutdown _ (set_launch Launched (set_index active' p))), HI'.
  - apply inv_crash. eapply inv_same; [exact HI|..]; done.
Qed.

Lemma launch_file_inv r0 p p' : inv r0 p -> launch_file s p = Some p' -> inv r0 p'.
Proof.
  intros [Hz He Hr] E. unfold launch_file in E. destruct (launch p) as [base wl|inc wl| |] eqn:El; try done.
  destruct (fileStream p) eqn:Es; [|done]. injection E as <-. split; [|intros HT|exact Hr].
  - eapply (frozen_same _ _ _ (sent inc)); [|..|exact Hz]; try done. unfold all. cbn. rewrite fmap_app, concat_app. cbn. by rewrite app_nil_r.
  - destruct (He HT) as (n & handed & [Hf Hst Hm Hfs]). rewrite Es, El in Hst. destruct Hst as [[Hst Hle]|(? & _)]; [|done].
    exists n, handed. assert (Hn : length (files p) = match main p with Ranging _ => S n | _ => n end).
    { apply (f_equal length) in Hst. rewrite length_fmap, length_seq in Hst. cbn in Hst. lia. }
    assert (Hn' : (n <= length (files p))%nat) by (destruct (main p); lia).
    split; cbn [files order fileStream launch main running set_launch set_fileStream set_files].
    + by rewrite take_app_le.
    + left. rewrite length_app. cbn [length]. rewrite <- Hn. replace (length (files p) + 1 - length (files p))%nat with 1%nat by lia. split; [done|lia].
    + rewrite length_app. cbn [length]. destruct (main p); try done. destruct Hm. split; [done|lia].
    + intros j f Hj Hnj. apply lookup_app_Some in Hj as [Hj|[Hj1 Hj2]]; [by apply Hfs|].
      destruct (j - length (files p))%nat eqn:Ej; [|done]. injection Hj2 as <-. replace (if decide (j = n) then handed else []) with (@nil Block); [apply new_file_ok|].
      case_decide as Hd; [|done]. destruct (main p); [by destruct Hm as [_ ->]|by rewrite Hm|lia|done].
Qed.

Lemma mark_inv r0 p p' : inv r0 p -> mark p = Some p' -> inv r0 p'.
Proof.
  intros [Hz He Hr] E. unfold mark in E. destruct (launch p) eqn:El, (fileStream p) eqn:Es; try done. injection E as <-.
  split; [eapply frozen_eq; [..|exact Hz]; done|intros HT|exact Hr]. destruct (He HT) as (n & handed & [Hf Hst Hm Hfs]). exists n, handed.
  split; try done. right. rewrite Es in Hst. destruct Hst as [[Hst Hle]|(? & _)]; [|done].
  apply (f_equal length) in Hst. rewrite length_fmap, length_seq in Hst. cbn in *. split; [done|]. split; [lia|done].
Qed.

Lemma open_inv r0 i f p p' : inv r0 p -> files p !! i = Some f -> f_reader f = Opening -> open s i f p = Some p' -> inv r0 p'.
Proof.
  intros HI Hi Er E. unfold open in E.
  assert (Hfail : forall e, inv r0 (set_file i (set_reader (Failed e) f) p)).
  { intros e. eapply inv_file; [done..|]. intros _ h [(rest & Hf & Hr) Hs Hc Ho Hd Hn]. unfold future, pending, slots in *. rewrite Er in *.
    split; try done. exists rest. split; [exact Hf|]. cbn. intros r. rewrite Ho by done. done. }
  destruct (OpenObject (filename (incoming f))) as [data|e|w|] eqn:Eo; cbn [wrap] in E; try done;
    [|injection E as <-; by (apply Hfail || apply inv_crash)..].
  destruct (NewDBinBlockReader data) as [src|e|w|] eqn:En; cbn [wrap] in E; try done;
    [|injection E as <-; by (apply Hfail || apply inv_crash)..].
  destruct (preprocessorThreadCount s <? 0); [injection E as <-; by apply inv_crash|].
  destruct (read_blocks (S (String.length src)) src) as [[blocks e]|e|w|] eqn:Eb; try done; injection E as <-; [|by apply inv_crash..].
  eapply inv_file; [done..|]. intros _ h Hok. apply open_ok; [done..|]. unfold content. by rewrite Eo, En, Eb.
Qed.

Lemma read_incoming f blocks e last filtered : incoming (read s f blocks e last filtered) = incoming f.
Proof.
  unfold read. destruct blocks as [|blk blocks]; [done|]. destruct (_ <? _); [done|]. destruct (_ && _ && _); [done|].
  destruct (_ <? _); [done|]. by destruct (PassesFilter (Number blk) filtered) as [[] ?].
Qed.

Lemma queue_incoming f blk r f' : queue s f blk r = Some f' -> incoming f' = incoming f.
Proof.
  unfold queue. destruct (_ <? _); [by intros [= <-]|]. destruct (preprocessed f), (f_forwarder f); try done. by intros [= <-].
Qed.

Lemma read_file_inv r0 i p p' : inv r0 p -> read_file s i p = Some p' -> inv r0 p'.
Proof.
  intros HI E. unfold read_file in E. destruct (files p !! i) as [f|] eqn:Hi; cbn in E; [|done].
  destruct (f_reader f) as [|blocks e last filtered|blk blocks e last filtered| |e|] eqn:Er; try done.
  - by eapply open_inv.
  - injection E as <-. destruct (IsTerminating p) eqn:HT; (eapply inv_file; [done|done| |]); [done|congruence|apply read_incoming|].
    intros _ h Hok. by apply read_ok.
  - destruct (queue s f blk (Reading blocks e last filtered)) as [f'|] eqn:Eq; cbn in E; [|done]. injection E as <-.
    eapply inv_file; [done|done|by eapply queue_incoming|]. intros _ h Hok. by eapply queue_ok.
  - destruct (f_forwarder f); try done. injection E as <-. eapply inv_file; [done..|]. intros _ h Hok. by apply over_ok.
  - injection E as <-. eapply (inv_file _ (Shutdown _ p)); [by apply inv_Shutdown|done..|]. rewrite IsTerminating_Shutdown. done.
Qed.

(** After a shutdown a file may be left as it is. *)
Lemma inv_file_over r0 p i f f' : inv r0 p -> files p !! i = Some f -> incoming f' = incoming f -> IsTerminating p = true ->
  inv r0 (set_file i f' p).
Proof. intros ? ? ? HT. eapply inv_file; [done..|]. congruence. Qed.

Lemma stop_reading_inv r0 i p p' : inv r0 p -> stop_reading i p = Some p' -> inv r0 p'.
Proof.
  intros HI E. unfold stop_reading in E. destruct (files p !! i) as [f|] eqn:Hi; cbn in E; [|done].
  destruct (f_reader f); try done. destruct (IsTerminating p) eqn:HT; [|done]. injection E as <-. by eapply inv_file_over.
Qed.

Lemma stop_forwarding_inv r0 i p p' : inv r0 p -> stop_forwarding i p = Some p' -> inv r0 p'.
Proof.
  intros HI E. unfold stop_forwarding in E. destruct (files p !! i) as [f|] eqn:Hi; cbn in E; [|done].
  destruct (IsTerminating p) eqn:HT; destruct (f_forwarder f); try done; injection E as <-; by eapply inv_file_over.
Qed.

Lemma preprocess_slot_cases c p c' p1 : preprocess_slot s c p = Some (c', p1) ->
  (p1 = p \/ p1 = crash p) /\ slot_block c' = slot_block c /\ (slot_ok c -> slot_ok c') \/ exists e, p1 = Shutdown (Some e) p.
Proof.
  unfold preprocess_slot. destruct c as [b| |]; try done. destruct (preprocess s b) as [obj|e|w|] eqn:Ep; try done; intros [= <- <-]; eauto 6.
Qed.

Lemma preprocess_at_inv r0 i at_ p p' : inv r0 p -> preprocess_at s i at_ p = Some p' -> inv r0 p'.
Proof.
  intros HI E. unfold preprocess_at in E. destruct (files p !! i) as [f|] eqn:Hi; cbn in E; [|done].
  assert (Hstep : forall c c' p1 f', preprocess_slot s c p = Some (c', p1) -> incoming f' = incoming f ->
    (slot_block c' = slot_block c -> (slot_ok c -> slot_ok c') -> forall h, file_ok h f -> file_ok h f') -> inv r0 (set_file i f' p1)).
  { intros c c' p1 f' Ec Ei Hok. destruct (preprocess_slot_cases _ _ _ _ Ec) as [([->| ->] & Hb & Hs)|[e ->]].
    - eapply inv_file; [done..|]. intros _. by apply Hok.
    - eapply (inv_file _ (crash p)); [by apply inv_crash|done..|]. intros _. by apply Hok.
    - eapply (inv_file_over _ (Shutdown (Some e) p)); [by apply inv_Shutdown|done..|apply IsTerminating_Shutdown]. }
  destruct at_ as [j|].
  - destruct (preprocessed f !! j) as [c|] eqn:Ej; cbn in E; [|done].
    destruct (preprocess_slot s c p) as [[c' p1]|] eqn:Ec; cbn in E; [|done]. injection E as <-.
    eapply Hstep; [exact Ec|done|]. intros Hb Hs h Hok.
    change (set_preprocessed (<[j:=c']> (preprocessed f)) f) with (set_forwarder (f_forwarder f) (set_preprocessed (<[j:=c']> (preprocessed f)) f)).
    pose proof (fo_slots _ _ Hok) as Hsl. unfold slots in Hsl. apply Forall_app in Hsl as [Hs1 Hs2].
    eapply slots_ok; [exact Hok|done| | |].
    + unfold slots. rewrite !fmap_app, list_fmap_insert. rewrite (list_insert_id (slot_block <$> preprocessed f)); [done|].
      by rewrite list_lookup_fmap, Ej, Hb.
    + apply Forall_app. split; [done|]. apply Forall_insert; [done|]. apply Hs. by eapply Forall_lookup_1.
    + intros Hw. apply (fo_closed _ _ Hok) in Hw as [_ Hw]. by rewrite Hw in Ej.
  - destruct (f_forwarder f) as [| |c|b obj|] eqn:Ew; try done.
    destruct (preprocess_slot s c p) as [[c' p1]|] eqn:Ec; cbn in E; [|done]. injection E as <-.
    eapply Hstep; [exact Ec|done|]. intros Hb Hs h Hok. pose proof (fo_slots _ _ Hok) as Hsl. unfold slots in Hsl. rewrite Ew in Hsl.
    apply Forall_cons in Hsl as [Hs1 Hs2].
    change (set_forwarder (Holding c') f) with (set_forwarder (Holding c') (set_preprocessed (preprocessed f) f)).
    eapply slots_ok; [exact Hok|by rewrite Ew| |constructor; auto|done]. unfold slots. rewrite Ew. cbn. by rewrite Hb.
Qed.

Lemma forward_inv r0 i p p' : inv r0 p -> forward i p = Some p' -> inv r0 p'.
Proof.
  intros HI E. unfold forward in E. destruct (files p !! i) as [f|] eqn:Hi; cbn in E; [|done].
  assert (Hstep : forall w q, f_forwarder f <> NotStarted -> held w ++ q = slots f \/ (w = Closed /\ q = [] /\ slots f = [] /\ preprocessed_closed f = true) ->
    (w <> Closed) \/ (preprocessed_closed f = true /\ q = []) -> inv r0 (set_file i (set_forwarder w (set_preprocessed q f)) p)).
  { intros w q Hns Heq Hcl. eapply inv_file; [done..|]. intros _ h Hok. pose proof (fo_slots _ _ Hok) as Hsl.
    eapply slots_ok; [exact Hok|by intros ?%Hns|destruct Heq as [->|(-> & -> & -> & _)]; done| |].
    - destruct Heq as [->|(-> & -> & _ & _)]; [done|constructor].
    - intros Hw. destruct Hcl as [Hcl|Hcl]; [by destruct Hcl|done]. }
  destruct (f_forwarder f) as [| |[b|b obj|b]|b obj|] eqn:Ew; try done.
  - destruct (preprocessed f) as [|c q] eqn:Eq.
    + destruct (preprocessed_closed f) eqn:Ec; [|done]. injection E as <-.
      replace (set_forwarder Closed f) with (set_forwarder Closed (set_preprocessed [] f)) by (rewrite <- Eq; by destruct f).
      apply Hstep; [done|right; unfold slots; by rewrite Ew, Eq|by right].
    + injection E as <-. apply Hstep; [done|left; unfold slots; by rewrite Ew, Eq|by left].
  - injection E as <-. change (set_forwarder (Offering b obj) f) with (set_forwarder (Offering b obj) (set_preprocessed (preprocessed f) f)).
    apply Hstep; [done|left; unfold slots; by rewrite Ew|by left].
Qed.

Lemma start_inv r0 p p' : inv r0 p -> start p = Some p' -> inv r0 p'.
Proof.
  intros [[Hz1 Hz2] He Hr] E. unfold start in E. destruct (main p) eqn:Em; try done. injection E as <-. specialize (Hz1 eq_refl). split; [|intros HT|done].
  - split; [done|]. exists 0%nat. split; [lia|done].
  - destruct (He HT) as (n & handed & [Hf Hst Hm Hfs]). rewrite Em in *. destruct Hm as [-> ->]. exists 0%nat, []. split; try done.
Qed.

Lemma next_file_inv r0 p p' : inv r0 p -> next_file p = Some p' -> inv r0 p'.
Proof.
  intros HI E. unfold next_file in E. destruct (main p) eqn:Em; try done. destruct (fileStream p) as [|[i|e] q] eqn:Es.
  - destruct (launch p); try done. injection E as <-. by apply inv_return.
  - injection E as <-. destruct HI as [Hz He Hr]. split; [eapply frozen_eq; [..|exact Hz]; done|intros HT|done].
    destruct (He HT) as (n & handed & [Hf Hst Hm Hfs]). rewrite Em in *. subst handed. rewrite Es in Hst.
    destruct Hst as [[Hst Hle]|(? & _)]; [|done]. exists n, [].
    destruct (length (files p) - n)%nat as [|m] eqn:El; [done|]. injection Hst as -> ->.
    split; cbn [files order fileStream launch main running set_main set_fileStream]; try done.
    + left. replace (length (files p) - S n)%nat with m by lia. split; [done|lia].
    + split; [done|lia].
  - injection E as <-. apply (inv_return _ (set_fileStream q p)). destruct HI as [Hz He Hr].
    split; [eapply frozen_eq; [..|exact Hz]; done|intros HT|done].
    destruct (He HT) as (n & handed & [Hf Hst Hm Hfs]). rewrite Em in *. rewrite Es in Hst. destruct Hst as [[Hst Hle]|(Hst & -> & Hl)].
    { by destruct (length (files p) - n)%nat. }
    injection Hst as -> ->. exists (length (files p)), handed. split; cbn; try rewrite Em; try done. left. by rewrite Nat.sub_diag.
Qed.

(** With the object of its preprocessing a block is handled as in order. *)
Lemma handle_deliver v blk obj r : preprocess s blk = Ok obj -> handle handler s v blk r = deliver handler v blk obj r.
Proof. intros E. unfold handle, deliver. by rewrite E. Qed.

Lemma deliver_result v blk obj r : exists r', deliver handler v blk obj r = (Ok tt, r') \/ exists e, deliver handler v blk obj r = (Err e, r').
Proof.
  unfold deliver. destruct (_ && _ && _); [eauto|]. destruct (handler blk obj (fs_next r)) as [[e|] h]; eauto.
Qed.

Lemma fed_snoc v r0 blocks blk r : fed v r0 blocks = (Ok tt, r) -> fed v r0 (blocks ++ [blk]) = handle handler s v blk r.
Proof.
  intros E. unfold fed. rewrite (mfor_app _ _ _ _ _ E). cbn [mfor]. unfold mbind, M_bind.
  by destruct (handle handler s v blk r) as [[[]|e|w|] r'].
Qed.

Lemma range_inv r0 p p' : inv r0 p -> range handler p = Some p' -> inv r0 p'.
Proof.
  intros HI E. unfold range in E. destruct (main p) as [| |i|] eqn:Em; try done.
  destruct (files p !! i) as [f|] eqn:Hi; cbn in E; [|done].
  destruct (f_forwarder f) as [| |c|blk obj|] eqn:Ew; try done.
  2: { injection E as <-. destruct HI as [Hz He Hr]. split; [eapply frozen_eq; [..|exact Hz]; done|intros HT|done].
    destruct (He HT) as (n & handed & [Hf Hst Hm Hfs]). rewrite Em in *. destruct Hm as [-> Hn].
    pose proof (Hfs n f Hi (le_n _)) as Hok. rewrite decide_True in Hok by done.
    assert (Es : sent (incoming f) = handed).
    { destruct (fo_flow _ _ Hok) as (rest & Hs & Hfu). destruct (fo_closed _ _ Hok Ew) as [Hc Hq].
      pose proof (fo_open _ _ Hok) as Ho. rewrite Hc in Ho. unfold pending, slots, future in *. rewrite Ew, Hq, Hc in *. cbn in *.
      destruct (f_reader f); try (by specialize (Ho eq_refl)); rewrite (Hfu [] eq_refl) in Hs; by rewrite !app_nil_r in Hs. }
    exists (S n), []. split; cbn [files order fileStream launch main running set_main]; try done.
    - rewrite (take_S_r _ _ _ Hi), fmap_app, concat_app. cbn [fmap list_fmap concat]. rewrite Es, !app_nil_r. exact Hf.
    - intros j g Hj Hnj. specialize (Hfs j g Hj ltac:(lia)). rewrite decide_False in Hfs by lia. by case_decide. }
  destruct (IsTerminating p) eqn:HT.
  { injection E as <-. apply (inv_return _ (set_file i (set_forwarder Selecting f) p)). by eapply inv_file_over. }
  pose proof HI as [Hz He Hr]. destruct (He HT) as (n & handed & Hex). pose proof Hex as [Hf Hst Hm Hfs].
  rewrite Em in *. destruct Hm as [-> Hn]. pose proof (Hfs n f Hi (le_n _)) as Hok. rewrite decide_True in Hok by done.
  destruct (range_ok _ _ _ _ Hok Ew) as [Hp Hok']. pose proof (fed_snoc _ _ _ blk _ Hf) as Hsn. rewrite (handle_deliver _ _ _ _ Hp) in Hsn.
  rewrite <- (assoc_L (++)) in Hsn.
  assert (Ef : (fun f => sent (incoming f)) <$> <[n := set_forwarder Selecting f]> (files p) = (fun f => sent (incoming f)) <$> files p)
    by by eapply sents_insert.
  destruct (deliver_result (order p) blk obj (running p)) as (r' & [Ed|[e Ed]]); rewrite Ed in E, Hsn; injection E as <-.
  - assert (Hex' : exact r0 n (handed ++ [blk]) (set_running r' (set_file n (set_forwarder Selecting f) p))).
    { split; cbn [files order fileStream launch main running set_running set_file set_files]; rewrite ?Em, ?length_insert; try done.
      - rewrite fmap_take, Ef, <- fmap_take. exact Hsn.
      - intros j g Hj Hnj. destruct (decide (j = n)) as [->|Hne].
        + rewrite list_lookup_insert_eq in Hj by done. by injection Hj as <-.
        + rewrite list_lookup_insert_ne in Hj by done. specialize (Hfs j g Hj Hnj). by rewrite decide_False in Hfs. }
    split; [by eapply exact_frozen|intros _; eauto|]. cbn. by rewrite Em.
  - (* the handler stops: one block more than what was handled *)
    split; [|by rewrite IsTerminating_return|by intros _; apply IsTerminating_return].
    split; [done|]. destruct (fo_flow _ _ Hok') as (rest & Hs & _). change (incoming (set_forwarder Selecting f)) with (incoming f) in Hs.
    assert (Ea : exists more, all p = concat ((fun f => sent (incoming f)) <$> take n (files p)) ++ (handed ++ [blk]) ++ more).
    { rewrite (all_split n), (drop_S _ _ _ Hi). cbn [fmap list_fmap concat].
      rewrite Hs. eexists. rewrite <- !(assoc_L (++)). reflexivity. }
    destruct Ea as [more Ea]. change (all (return_ (Some e) (set_running r' (set_file n (set_forwarder Selecting f) p))))
      with (concat ((fun f => sent (incoming f)) <$> <[n := set_forwarder Selecting f]> (files p))).
    rewrite Ef. fold (all p). rewrite Ea, (assoc_L (++)). eexists. split; [|rewrite take_app_length; cbn [order return_ set_main Shutdown set_running set_file set_files]; rewrite Hsn; done].
    rewrite !length_app. cbn [length]. lia.
Qed.

Lemma fire_inv r0 a p p' : inv r0 p -> fire a p = Some p' -> inv r0 p'.
Proof.
  intros HI E. unfold FilePipeline.fire in E. destruct (crashed p); [done|]. destruct a.
  - by eapply look_inv.
  - by eapply launch_file_inv.
  - by eapply mark_inv.
  - unfold stop_launching in E. destruct (launch p) eqn:El, (IsTerminating p); try done; injection E as <-; (eapply inv_same; [exact HI|..]; done).
  - by eapply read_file_inv.
  - by eapply stop_reading_inv.
  - by eapply preprocess_at_inv.
  - by eapply forward_inv.
  - by eapply stop_forwarding_inv.
  - by eapply start_inv.
  - by eapply next_file_inv.
  - unfold stop_running in E. destruct (main p), (IsTerminating p); try done. injection E as <-. by apply inv_return.
  - by eapply range_inv.
  - destruct (IsTerminating p); [done|]. injection E as <-. by apply inv_Shutdown.
Qed.

Lemma init_inv hs p : init s hs = Ok p -> inv (mkRunning "" hs) p.
Proof.
  unfold init. intros E. apply outcome_bind_Ok in E as (base & _ & [= <-]). split; [|intros _|done].
  - split; [done|]. by exists 0%nat.
  - exists 0%nat, []. split; try done. by left.
Qed.

(** ** The end of the stream *)

(** What the goroutines that are not [run] or [launchReader] do to the rest. *)
Definition same_rest p p' : Prop :=
  all p' = all p /\ main p' = main p /\ launch p' = launch p /\ order p' = order p /\ running p' = running p /\
  index p' = index p /\ fileStream p' = fileStream p /\ incoming <$> files p' = incoming <$> files p.

Lemma same_file p p1 i f f' : files p !! i = Some f -> incoming f' = incoming f ->
  files p1 = files p -> main p1 = main p -> launch p1 = launch p -> order p1 = order p -> running p1 = running p ->
  index p1 = index p -> fileStream p1 = fileStream p -> same_rest p (set_file i f' p1).
Proof.
  intros Hi Ei Ef ? ? ? ? ? ?. unfold same_rest, all. cbn. rewrite Ef. split; [f_equal; by eapply sents_insert|].
  repeat (split; [done|]). rewrite list_fmap_insert. apply list_insert_id. by rewrite list_lookup_fmap, Hi, Ei.
Qed.

Lemma open_rest i f p p' : files p !! i = Some f -> open s i f p = Some p' -> same_rest p p' /\ shutdown p' = shutdown p.
Proof.
  intros Hi E. unfold open in E.
  destruct (OpenObject (filename (incoming f))) as [data|e|w|]; cbn [wrap] in E; try done; [|injection E as <-; by (split; [eapply same_file|])|by injection E as <-].
  destruct (NewDBinBlockReader data) as [src|e|w|]; cbn [wrap] in E; try done; [|injection E as <-; by (split; [eapply same_file|])|by injection E as <-].
  destruct (preprocessorThreadCount s <? 0); [by injection E as <-|].
  destruct (read_blocks (S (String.length src)) src) as [[blocks e]|e|w|]; try done; injection E as <-; by (split; [try eapply same_file|]).
Qed.

(** The errors of these goroutines are not the one of the stop block. *)
Definition other_error (e : option error) : Prop := e <> Some ErrStopBlockReached.

Definition shut_by p p' : Prop := shutdown p' = shutdown p \/ exists e, other_error e /\ shutdown p = None /\ shutdown p' = Some e.

Lemma shut_by_Shutdown e p p' : other_error e -> shutdown p' = shutdown (Shutdown e p) -> shut_by p p'.
Proof. unfold shut_by. intros He ->. cbn. destruct (shutdown p); [by left|right; eauto]. Qed.

Lemma preprocess_rest i at_ p p' : preprocess_at s i at_ p = Some p' -> same_rest p p' /\ shut_by p p'.
Proof.
  intros E. unfold preprocess_at in E. destruct (files p !! i) as [f|] eqn:Hi; cbn in E; [|done].
  assert (Hc : forall c c' p1, preprocess_slot s c p = Some (c', p1) -> forall f', incoming f' = incoming f ->
    same_rest p (set_file i f' p1) /\ shut_by p (set_file i f' p1)).
  { intros c c' p1 Ec f' Ei. unfold preprocess_slot in Ec. destruct c as [b| |]; try done. unfold preprocess in Ec.
    assert (Hsame : same_rest p (set_file i f' p)) by by eapply same_file.
    destruct (preprocFunc s) as [g|]; [|injection Ec as <- <-; split; [done|by left]].
    destruct (g b) as [o|e|w|]; try done; injection Ec as <- <-; (split; [by eapply same_file|]); [by left| |by left].
    by eapply (shut_by_Shutdown (Some (EWrap "preprocess block" e))). }
  destruct at_ as [j|].
  - destruct (preprocessed f !! j) as [c|]; cbn in E; [|done].
    destruct (preprocess_slot s c p) as [[c' p1]|] eqn:Ec; cbn in E; [|done]. injection E as <-. by eapply Hc.
  - destruct (f_forwarder f) as [| |c| |]; try done.
    destruct (preprocess_slot s c p) as [[c' p1]|] eqn:Ec; cbn in E; [|done]. injection E as <-. by eapply Hc.
Qed.

Definition of_files (a : action) : bool :=
  match a with Read _ | StopReading _ | Preprocess _ _ | Forward _ | StopForwarding _ => true | _ => false end.

Lemma files_rest a p p' : of_files a = true -> fire a p = Some p' -> same_rest p p' /\ shut_by p p'.
Proof.
  intros Ha E. unfold FilePipeline.fire in E. destruct (crashed p); [done|]. destruct a as [| | | |i|i|i at_|i|i| | | | |]; try done.
  - unfold read_file in E. destruct (files p !! i) as [f|] eqn:Hi; cbn in E; [|done].
    destruct (f_reader f) as [|blocks e last filtered|blk blocks e last filtered| |e|]; try done.
    + destruct (open_rest _ _ _ _ Hi E). split; [done|by left].
    + injection E as <-. split; [|by left]. eapply same_file; try done. destruct (IsTerminating p); [done|apply read_incoming].
    + destruct (queue _ _ _ _) as [f'|] eqn:Eq; cbn in E; [|done]. injection E as <-. split; [|by left].
      eapply same_file; try done. by eapply queue_incoming.
    + destruct (f_forwarder f); try done. injection E as <-. split; [by eapply same_file|by left].
    + injection E as <-. split; [by eapply same_file|]. by eapply (shut_by_Shutdown (Some (EWrap "processing of file failed" e))).
  - unfold stop_reading in E. destruct (files p !! i) as [f|] eqn:Hi; cbn in E; [|done].
    destruct (f_reader f), (IsTerminating p); try done; injection E as <-; (split; [by eapply same_file|by left]).
  - by eapply preprocess_rest.
  - unfold forward in E. destruct (files p !! i) as [f|] eqn:Hi; cbn in E; [|done].
    destruct (f_forwarder f) as [| |[]| |]; try done; [destruct (preprocessed f); [destruct (preprocessed_closed f); [|done]|]|];
      injection E as <-; (split; [by eapply same_file|by left]).
  - unfold stop_forwarding in E. destruct (files p !! i) as [f|] eqn:Hi; cbn in E; [|done].
    destruct (f_forwarder f), (IsTerminating p); try done; injection E as <-; (split; [by eapply same_file|by left]).
Qed.

(** A source stopped by the mark of the stop block has handled all the files; [Q] is
    what the mark tells of them. *)
Definition complete (Q : list incomingBlocksFile -> Prop) (r0 : Running) p : Prop := shutdown p = Some (Some ErrStopBlockReached) ->
  main p = Returned /\ launch p = Launched /\ Q (incoming <$> files p) /\ fed (order p) r0 (all p) = (Ok tt, running p).

(** Nobody else stops with the error of the stop block. *)
Definition quiet (a : action) : Prop := match a with External e => other_error e | _ => True end.
Definition quiet_handler : Prop := forall blk obj h, other_error (handler blk obj h).1.

Lemma deliver_quiet v blk obj r e r' : quiet_handler -> deliver handler v blk obj r = (Err e, r') -> other_error (Some e).
Proof.
  intros Hh Ed. unfold deliver in Ed. destruct (_ && _ && _); [by injection Ed as <- <-|].
  specialize (Hh blk obj (fs_next r)). destruct (handler blk obj (fs_next r)) as [[e'|] h]; by inversion Ed; subst.
Qed.

Lemma complete_other Q r0 p p' : complete Q r0 p -> shut_by p p' ->
  (main p = Returned -> launch p = Launched -> main p' = Returned /\ launch p' = Launched /\ order p' = order p /\ all p' = all p /\
    running p' = running p /\ incoming <$> files p' = incoming <$> files p) ->
  complete Q r0 p'.
Proof.
  intros Hc [Es|(e & He & Es & Es')] Hk E; [|congruence]. rewrite Es in E. destruct (Hc E) as (Hm & Hl & Hq & Hf).
  destruct (Hk Hm Hl) as (-> & -> & -> & -> & -> & ->). done.
Qed.

Lemma fire_complete Q r0 a p p' : quiet_handler -> quiet a -> inv r0 p -> (forall e, MErr e ∈ fileStream p -> Q (incoming <$> files p)) ->
  complete Q r0 p -> fire a p = Some p' -> complete Q r0 p'.
Proof.
  intros Hh Ha HI HQ Hc E. destruct (of_files a) eqn:Hof.
  { destruct (files_rest _ _ _ Hof E) as [(Ea & Em & El & Eo & Er & _ & _ & Ef) Hs]. eapply complete_other; [done..|].
    by rewrite Em, El, Eo, Ea, Er, Ef. }
  unfold FilePipeline.fire in E. destruct (crashed p); [done|]. destruct a as [ex| | | | | | | | | | | | |e]; try done.
  - unfold look in E. destruct (launch p) eqn:El; try done.
    destruct (next_bundle _ _ _ _ _ _) as [[[[base' filtered] active'] wl']|e|w|]; try done;
      [|injection E as <-; (eapply complete_other; [exact Hc|by left|by rewrite El])..].
    destruct (checkExists ex base') as [[[]|e|w|] name]; try done; injection E as <-;
      try match goal with |- context [errorOutOnMissingFile s] => destruct (errorOutOnMissingFile s) end; (eapply complete_other; [exact Hc| |by rewrite El]); try by left.
    + by eapply (shut_by_Shutdown (Some (EMsg "filesource: missing file %q"))).
    + by eapply (shut_by_Shutdown (Some (EWrap "filesource reading file existence" e))).
  - unfold launch_file in E. destruct (launch p) eqn:El, (fileStream p); try done. injection E as <-.
    eapply complete_other; [exact Hc|by left|by rewrite El].
  - unfold mark in E. destruct (launch p) eqn:El, (fileStream p); try done. injection E as <-.
    eapply complete_other; [exact Hc|by left|by rewrite El].
  - unfold stop_launching in E. destruct (launch p) eqn:El, (IsTerminating p); try done; injection E as <-;
      (eapply complete_other; [exact Hc|by left|by rewrite El]).
  - unfold start in E. destruct (main p) eqn:Em; try done. injection E as <-. eapply complete_other; [exact Hc|by left|by rewrite Em].
  - unfold next_file in E. destruct (main p) eqn:Em; try done. destruct (fileStream p) as [|[i|e] q] eqn:Es.
    + destruct (launch p) eqn:El; try done. injection E as <-. eapply complete_other; [exact Hc| |by rewrite Em].
      by eapply (shut_by_Shutdown None).
    + injection E as <-. eapply complete_other; [exact Hc|by left|by rewrite Em].
    + injection E as <-. destruct (shutdown p) eqn:Esd.
      { eapply complete_other; [exact Hc|left; cbn; by rewrite Esd|by rewrite Em]. }
      intros Hsd. destruct (i_exact _ _ HI ltac:(unfold IsTerminating; by rewrite Esd)) as (n & handed & [Hf Hst Hm Hfs]).
      rewrite Em, Es in *. destruct Hst as [[Hst Hle]|(Hst & -> & Hl)]; [by destruct (length (files p) - n)%nat|].
      split; [done|]. split; [done|]. split; [apply (HQ e); left|]. subst handed. rewrite take_ge, app_nil_r in Hf by done. exact Hf.
  - unfold stop_running in E. destruct (main p) eqn:Em, (IsTerminating p) eqn:HT; try done. injection E as <-.
    eapply complete_other; [exact Hc| |by rewrite Em]. by eapply (shut_by_Shutdown None).
  - unfold range in E. destruct (main p) as [| |i|] eqn:Em; try done. destruct (files p !! i) as [f|] eqn:Hi; cbn in E; [|done].
    destruct (f_forwarder f) as [| |c|blk obj|]; try done; [|injection E as <-; (eapply complete_other; [exact Hc|by left|by rewrite Em])].
    destruct (IsTerminating p); [injection E as <-; (eapply complete_other; [exact Hc|by eapply (shut_by_Shutdown None)|by rewrite Em])|].
    destruct (deliver handler (order p) blk obj (running p)) as [[|e|w|] r'] eqn:Ed; injection E as <-;
      (eapply complete_other; [exact Hc| |by rewrite Em]); try by left.
    eapply (shut_by_Shutdown (Some e)); [|done]. by eapply deliver_quiet.
  - destruct (IsTerminating p); [done|]. injection E as <-. eapply complete_other; [exact Hc|by eapply shut_by_Shutdown|done].
Qed.
End Props.
