(* ===== verification/FilePipelineRuns.v ===== *)
(** * The runs of the file source

    Without an index the files are the bundles from the one of the start block on,
    whenever they appear in the store; what a schedule handles is compared with the
    reference of [FileSourceProps.v], and [run] is shown to go on. *)

From S2P Require Import Prelude Schedules GoStrings Types OneBlockFiles Consumer CursorResolver FileSource FileSourceProps.
From S2P Require Import FilePipeline FilePipelineProps.
From Stdlib Require Import Ascii.
Import OneBlockFiles FileSource FilePipeline.

Section Runs.
Context {O : Type} `{Protocol} `{DBin} `{Store} `{BlockIndexProvider}.
Context {HS : Type} (handler : Handler O HS) (s : FileSource O) (late : list bool).
Notation state := (state O HS).
Notation file := (file O).
Notation fire := (fire handler s late).
Implicit Types (p : state) (f : file).

(** ** The files that are launched without an index *)

Section Plain.
Context (base : Z).

Fixpoint base_at (i : nat) : Z := match i with Datatypes.O => base | S i => u64_add (base_at i) (bundleSize s) end.
Definition bundle (i : nat) : incomingBlocksFile := newIncomingBlocksFile (base_at i) (fmt_010d (base_at i)) None.

(** The bundle of the stop block is one of the first [n]. *)
Definition over (n : nat) : Prop := stopBlockNum s <> 0 /\ stopBlockNum s < base_at n.

Definition marked p : Prop := exists e, MErr e ∈ fileStream p.

Record plain p : Prop := mkPlain {
  pl_index : index p = false;
  pl_order : main p <> Starting -> order p = true;
  pl_files : forall i inc, (incoming <$> files p) !! i = Some inc -> inc = bundle i;
  pl_launch : match launch p with
    | Looking b _ => b = base_at (length (files p))
    | Launching inc _ => inc = bundle (length (files p))
    | Marking => over (length (files p))
    | Launched => True
    end;
  pl_mark : marked p -> over (length (files p)) /\ launch p = Launched;
}.

(** Steps that keep the files that are launched. *)
Lemma plain_same p p' : plain p -> index p' = index p -> (main p' <> Starting -> order p' = true) ->
  incoming <$> files p' = incoming <$> files p -> (launch p' = launch p \/ launch p' = Launched) -> (marked p' -> marked p) -> plain p'.
Proof.
  intros [Hi Ho Hf Hl Hm] Ei Ho' Ef El Em. assert (En : length (files p') = length (files p)).
  { apply (f_equal length) in Ef. by rewrite !length_fmap in Ef. }
  split; [congruence|done|by rewrite Ef|..].
  - rewrite En. by destruct El as [->| ->].
  - intros Hk. rewrite En. destruct (Hm (Em Hk)) as [? Hl']. split; [done|]. by destruct El as [->| ->].
Qed.

Lemma marked_eq p p' : fileStream p' = fileStream p -> marked p' -> marked p.
Proof. unfold marked. by intros ->. Qed.

Lemma plain_look exists_ p p' : plain p -> look s late exists_ p = Some p' -> plain p'.
Proof.
  intros HP E. pose proof HP as [Hi Ho Hf Hl Hm]. unfold look in E. destruct (launch p) as [b wl|inc wl| |] eqn:El; try done.
  rewrite Hi in E. cbn [next_bundle negb] in E. unfold checkExists in E. subst b.
  assert (Hn : marked p -> False) by (intros Hk; destruct (Hm Hk) as [_ Hl]; congruence).
  assert (Hi' : set_index false p = p) by (destruct p; cbn in *; by subst). rewrite Hi' in E.
  destruct (exists_ (fmt_010d (base_at (length (files p))))) as [[]|e|w|]; try done; injection E as <-.
  - split; try done; intros Hk; by destruct (Hn Hk).
  - destruct (errorOutOnMissingFile s); (split; try done; intros Hk; by destruct (Hn Hk)).
  - split; try done; intros Hk; by destruct (Hn Hk).
  - eapply plain_same; [exact HP|..]; try done. by left.
Qed.

Lemma plain_launch p p' : plain p -> launch_file s p = Some p' -> plain p'.
Proof.
  intros HP E. pose proof HP as [Hi Ho Hf Hl Hm]. unfold launch_file in E. destruct (launch p) as [b wl|inc wl| |] eqn:El; try done.
  destruct (fileStream p) eqn:Es; [|done]. injection E as <-. subst inc. split; try done.
  - intros i inc. cbn. rewrite fmap_app. intros [Hi1|[Hi1 Hi2]]%lookup_app_Some; [by apply Hf|]. rewrite length_fmap in *. cbn in Hi2.
    destruct (i - length (files p))%nat eqn:Ei; [|done]. injection Hi2 as <-. by replace i with (length (files p)) by lia.
  - cbn [launch set_launch set_fileStream set_files files]. rewrite length_app. cbn [length]. rewrite Nat.add_1_r. cbn [base_at baseNum bundle newIncomingBlocksFile].
    unfold over. cbn [base_at]. destruct (Z.eqb_spec (stopBlockNum s) 0); [done|].
    destruct (Z.ltb_spec (stopBlockNum s) (u64_add (base_at (length (files p))) (bundleSize s))); done.
  - intros Hk. assert (marked p) as Hk'; [|destruct (Hm Hk'); congruence]. destruct Hk as (e & He).
    apply list_elem_of_singleton in He. done.
Qed.

Lemma fire_plain a p p' : plain p -> fire a p = Some p' -> plain p'.
Proof.
  intros HP E. pose proof HP as [Hi Ho Hf Hl Hm]. destruct (of_files a) eqn:Hof.
  { destruct (files_rest _ _ _ _ _ _ Hof E) as [(_ & Em & El & Eo & _ & Ei & Es & Ef) Hs].
    eapply plain_same; [exact HP|done|by rewrite Em, Eo|done|by left|by apply marked_eq]. }
  unfold FilePipeline.fire in E. destruct (crashed p); [done|]. destruct a as [ex| | | | | | | | | | | | |e]; try done.
  - by eapply plain_look.
  - by eapply plain_launch.
  - unfold mark in E. destruct (launch p) eqn:El, (fileStream p); try done. injection E as <-. by split.
  - unfold stop_launching in E. destruct (launch p) eqn:El, (IsTerminating p); try done; injection E as <-;
      (eapply plain_same; [exact HP|..]; try done; by right).
  - unfold start in E. destruct (main p) eqn:Em; try done. injection E as <-. split; try done. cbn. by rewrite Hi.
  - unfold next_file in E. destruct (main p) eqn:Em; try done. specialize (Ho ltac:(done)). destruct (fileStream p) as [|[i|e] q] eqn:Es.
    + destruct (launch p) eqn:El; try done. injection E as <-. eapply plain_same; [exact HP|done|done|done|by left|]. by apply marked_eq.
    + injection E as <-. eapply plain_same; [exact HP|done|done|done|by left|]. intros (e & He). exists e. rewrite Es. by right.
    + injection E as <-. eapply plain_same; [exact HP|done|done|done|by left|]. intros _. exists e. rewrite Es. left.
  - unfold stop_running in E. destruct (main p) eqn:Em, (IsTerminating p); try done. specialize (Ho ltac:(done)). injection E as <-.
    eapply plain_same; [exact HP|done|done|done|by left|]. by apply marked_eq.
  - unfold range in E. destruct (main p) as [| |i|] eqn:Em; try done. specialize (Ho ltac:(done)). destruct (files p !! i) as [f|] eqn:Hif; cbn in E; [|done].
    assert (Hstep : forall q, index q = index p -> order q = order p -> incoming <$> files q = incoming <$> files p -> launch q = launch p -> fileStream q = fileStream p -> plain q).
    { intros q Eqi Eqo Eqf Eql Eqs. eapply plain_same; [exact HP|done|by rewrite Eqo|done|by left|by apply marked_eq]. }
    assert (Hin : incoming <$> <[i := set_forwarder Selecting f]> (files p) = incoming <$> files p).
    { rewrite list_fmap_insert. apply list_insert_id. by rewrite list_lookup_fmap, Hif. }
    destruct (f_forwarder f) as [| |c|blk obj|]; try done; [|injection E as <-; by apply Hstep].
    destruct (IsTerminating p); [injection E as <-; by apply Hstep|].
    destruct (deliver handler (order p) blk obj (running p)) as [[|e|w|] r']; injection E as <-; by apply Hstep.
  - destruct (IsTerminating p); [done|]. injection E as <-. eapply plain_same; [exact HP|done|done|done|by left|]. by apply marked_eq.
Qed.
End Plain.

(** ** [run] goes on *)

(** A file that does not start cannot be opened; the files in the channel exist. *)
Record shaped p : Prop := mkShaped {
  sh_new : forall i f, files p !! i = Some f -> f_forwarder f = NotStarted -> f_reader f = Opening \/ content (incoming f) = None;
  sh_stream : forall i, MFile i ∈ fileStream p -> (i < length (files p))%nat;
  sh_main : forall i, main p = Ranging i -> (i < length (files p))%nat;
}.

Lemma shaped_same p p' : shaped p -> files p' = files p -> (forall i, MFile i ∈ fileStream p' -> MFile i ∈ fileStream p) ->
  (forall i, main p' = Ranging i -> main p = Ranging i \/ MFile i ∈ fileStream p) -> shaped p'.
Proof.
  intros [Hn Hs Hm] Ef Es Em. split; rewrite Ef; [done|auto|]. intros i Hi. destruct (Em i Hi); auto.
Qed.

Lemma shaped_file p p1 i f f' : shaped p -> files p !! i = Some f -> (f_forwarder f' = NotStarted -> f_reader f' = Opening \/ content (incoming f') = None) ->
  files p1 = files p -> fileStream p1 = fileStream p -> main p1 = main p -> shaped (set_file i f' p1).
Proof.
  intros [Hn Hs Hm] Hi Hok Ef Es Em. split; cbn; rewrite ?Ef, ?Es, ?Em, ?length_insert; [|done..].
  intros j g Hj. destruct (decide (i = j)) as [<-|Hne].
  - rewrite list_lookup_insert_eq in Hj by by eapply lookup_lt_Some. by injection Hj as <-.
  - rewrite list_lookup_insert_ne in Hj by done. by apply (Hn j).
Qed.

(** A file whose forwarder did not start: its reader opens it, or could not. *)
Lemma not_started_reader p i f f' : shaped p -> files p !! i = Some f -> f_forwarder f' = f_forwarder f -> incoming f' = incoming f ->
  f_reader f <> Opening -> f_forwarder f' = NotStarted -> f_reader f' = Opening \/ content (incoming f') = None.
Proof. intros HS0 Hi Ew Ei Hr Hw. rewrite Ei. rewrite Ew in Hw. destruct (sh_new _ HS0 _ _ Hi Hw); [done|by right]. Qed.

Lemma open_shaped p i f p' : shaped p -> files p !! i = Some f -> open s i f p = Some p' -> shaped p'.
Proof.
  intros HS0 Hi E. unfold open in E. pose proof (shaped_same p (crash p) HS0 eq_refl (fun _ x => x) (fun _ x => or_introl x)) as Hc.
  assert (Hf : content (incoming f) = None -> forall e, shaped (set_file i (set_reader (Failed e) f) p)).
  { intros Hn e. eapply shaped_file; try done. by right. }
  destruct (OpenObject (filename (incoming f))) as [data|e|w|] eqn:Eo; cbn [wrap] in E; try done;
    [|injection E as <-; apply Hf; unfold content; by rewrite Eo|by injection E as <-].
  destruct (NewDBinBlockReader data) as [src|e|w|] eqn:En; cbn [wrap] in E; try done;
    [|injection E as <-; apply Hf; unfold content; by rewrite Eo, En|by injection E as <-].
  destruct (preprocessorThreadCount s <? 0); [by injection E as <-|].
  destruct (read_blocks (Datatypes.S (String.length src)) src) as [[blocks e]|e|w|]; try done; injection E as <-; [|done..].
  by eapply shaped_file.
Qed.

Lemma read_forwarder f blocks e last filtered : f_forwarder (read s f blocks e last filtered) = f_forwarder f.
Proof.
  unfold read. destruct blocks as [|blk blocks]; [done|]. destruct (_ <? _); [done|]. destruct (_ && _ && _); [done|].
  destruct (_ <? _); [done|]. by destruct (PassesFilter (Number blk) filtered) as [[] ?].
Qed.

Lemma queue_forwarder f blk r f' : queue s f blk r = Some f' -> f_forwarder f' = f_forwarder f \/ f_forwarder f' <> NotStarted.
Proof.
  unfold queue. destruct (_ <? _); [intros [= <-]; by left|]. destruct (preprocessed f), (f_forwarder f); try done. intros [= <-]. by right.
Qed.

Lemma files_shaped a p p' : of_files a = true -> shaped p -> fire a p = Some p' -> shaped p'.
Proof.
  intros Ha HS0 E. unfold FilePipeline.fire in E. destruct (crashed p); [done|]. destruct a as [| | | |i|i|i at_|i|i| | | | |]; try done.
  - unfold read_file in E. destruct (files p !! i) as [f|] eqn:Hi; cbn in E; [|done].
    destruct (f_reader f) as [|blocks e last filtered|blk blocks e last filtered| |e|] eqn:Er; try done.
    + by eapply open_shaped.
    + injection E as <-. eapply shaped_file; try done. eapply not_started_reader; [done..| | |congruence];
        destruct (IsTerminating p); try done; [apply read_forwarder|apply read_incoming].
    + destruct (queue s f blk _) as [f'|] eqn:Eq; cbn in E; [|done]. injection E as <-. eapply shaped_file; try done.
      destruct (queue_forwarder _ _ _ _ Eq) as [Hw|Hw]; [|done]. eapply not_started_reader; try done; [by eapply queue_incoming|congruence].
    + destruct (f_forwarder f) eqn:Ew; try done. injection E as <-. eapply shaped_file; try done. cbn. congruence.
    + injection E as <-. eapply shaped_file; try done. eapply not_started_reader; try done. congruence.
  - unfold stop_reading in E. destruct (files p !! i) as [f|] eqn:Hi; cbn in E; [|done].
    destruct (f_reader f) eqn:Er, (IsTerminating p); try done; injection E as <-. eapply shaped_file; try done.
    eapply not_started_reader; try done. congruence.
  - unfold preprocess_at in E. destruct (files p !! i) as [f|] eqn:Hi; cbn in E; [|done].
    assert (Hc : forall c c' p1 f', preprocess_slot s c p = Some (c', p1) ->
      (f_forwarder f' = NotStarted -> f_reader f' = Opening \/ content (incoming f') = None) -> shaped (set_file i f' p1)).
    { intros c c' p1 f' Ec. unfold preprocess_slot in Ec. destruct c as [b| |]; try done. intros Hok.
      destruct (preprocess s b); try done; injection Ec as <- <-; by eapply shaped_file. }
    destruct at_ as [j|].
    + destruct (preprocessed f !! j) as [c|]; cbn in E; [|done].
      destruct (preprocess_slot s c p) as [[c' p1]|] eqn:Ec; cbn in E; [|done]. injection E as <-. eapply Hc; [done|]. exact (sh_new _ HS0 i f Hi).
    + destruct (f_forwarder f) as [| |c| |]; try done.
      destruct (preprocess_slot s c p) as [[c' p1]|] eqn:Ec; cbn in E; [|done]. injection E as <-. by eapply Hc.
  - unfold forward in E. destruct (files p !! i) as [f|] eqn:Hi; cbn in E; [|done].
    destruct (f_forwarder f) as [| |[]| |]; try done; [destruct (preprocessed f); [destruct (preprocessed_closed f); [|done]|]|];
      injection E as <-; by eapply shaped_file.
  - unfold stop_forwarding in E. destruct (files p !! i) as [f|] eqn:Hi; cbn in E; [|done].
    destruct (f_forwarder f), (IsTerminating p); try done; injection E as <-; by eapply shaped_file.
Qed.

Lemma fire_shaped a p p' : shaped p -> fire a p = Some p' -> shaped p'.
Proof.
  intros HS0 E. destruct (of_files a) eqn:Hof; [by eapply files_shaped|].
  assert (Hsame : forall q, files q = files p -> fileStream q = fileStream p -> main q = main p \/ (forall i, main q <> Ranging i) -> shaped q).
  { intros q Ef Es Em. eapply shaped_same; [exact HS0|done|by rewrite Es|]. intros i Hi. left. destruct Em as [<-|Em]; [done|]. by destruct (Em i). }
  unfold FilePipeline.fire in E. destruct (crashed p); [done|]. destruct a as [ex| | | | | | | | | | | | |e]; try done.
  - unfold look in E. destruct (launch p); try done.
    destruct (next_bundle _ _ _ _ _ _) as [[[[base' filtered] active'] wl']|e|w|]; try done; [|injection E as <-; by apply Hsame; [..|left]..].
    destruct (checkExists ex base') as [[[]|e|w|] name]; try done; injection E as <-; try (by apply Hsame; [..|left]).
    destruct (errorOutOnMissingFile s); by apply Hsame; [..|left].
  - unfold launch_file in E. destruct (launch p), (fileStream p) eqn:Es; try done. injection E as <-. split; cbn.
    + intros i g [Hi|[Hi1 Hi2]]%lookup_app_Some; [by apply (sh_new _ HS0 i)|]. destruct (i - length (files p))%nat; [|done]. injection Hi2 as <-. by left.
    + intros i Hi. apply list_elem_of_singleton in Hi as [= ->]. rewrite length_app. cbn. lia.
    + intros i Hi. apply (sh_main _ HS0) in Hi. rewrite length_app. lia.
  - unfold mark in E. destruct (launch p), (fileStream p) eqn:Es; try done. injection E as <-. eapply shaped_same; [exact HS0|done| |by left].
    cbn. intros i Hi. by apply list_elem_of_singleton in Hi.
  - unfold stop_launching in E. destruct (launch p), (IsTerminating p); try done; injection E as <-; by apply Hsame; [..|left].
  - unfold start in E. destruct (main p); try done. injection E as <-. by apply Hsame; [..|right].
  - unfold next_file in E. destruct (main p); try done. destruct (fileStream p) as [|[i|e] q] eqn:Es.
    + destruct (launch p); try done. injection E as <-. by apply Hsame; [..|right].
    + injection E as <-. eapply shaped_same; [exact HS0|done| |]; cbn; rewrite Es; [by right|]. intros j [= ->]. right. left.
    + injection E as <-. eapply shaped_same; [exact HS0|done| |done]. cbn. rewrite Es. by right.
  - unfold stop_running in E. destruct (main p), (IsTerminating p); try done. injection E as <-. by apply Hsame; [..|right].
  - unfold range in E. destruct (main p) as [| |i|] eqn:Em; try done. destruct (files p !! i) as [f|] eqn:Hi; cbn in E; [|done].
    destruct (f_forwarder f) as [| |c|blk obj|] eqn:Ew; try done; [|injection E as <-; by apply Hsame; [..|right]].
    assert (Hf : shaped (set_file i (set_forwarder Selecting f) p)) by by eapply shaped_file.
    destruct (IsTerminating p); [injection E as <-; eapply shaped_same; [exact Hf|done..]|].
    destruct (deliver handler (order p) blk obj (running p)) as [[|e|w|] r']; injection E as <-; (eapply shaped_same; [exact Hf|done|done|]); intros j Hj; by left.
  - destruct (IsTerminating p); [done|]. injection E as <-. by apply Hsame; [..|left].
Qed.

(** Neither the store nor the outside. *)
Definition internal (a : action) : bool := match a with Look _ | External _ => false | _ => true end.

Definition can_go p : Prop := exists a, internal a = true /\ is_Some (fire a p).

Lemma can_fire a p p' : crashed p = false -> internal a = true ->
  match a with
  | Launch => launch_file s p | Mark => mark p | Read i => read_file s i p | Preprocess i at_ => preprocess_at s i at_ p
  | Forward i => forward i p | StopForwarding i => stop_forwarding i p | Start => start p | NextFile => next_file p
  | StopRunning => stop_running p | Range => range handler p | _ => None
  end = Some p' -> can_go p.
Proof. intros Hc Ha E. exists a. split; [done|]. unfold FilePipeline.fire. rewrite Hc. destruct a; try done; by exists p'. Qed.

(** A file that can be opened is opened. *)
Lemma open_fires p i f : is_Some (content (incoming f)) -> is_Some (open s i f p).
Proof.
  unfold content, open. intros [x Hx]. destruct (OpenObject (filename (incoming f))) as [data|e|w|]; try done. cbn [wrap].
  destruct (NewDBinBlockReader data) as [src|e|w|]; try done. cbn [wrap]. destruct (_ <? 0); [by eexists|].
  by destruct (read_blocks (Datatypes.S (String.length src)) src) as [[blocks e]|e|w|].
Qed.

Lemma range_fires p i f : crashed p = false -> main p = Ranging i -> files p !! i = Some f ->
  (f_forwarder f = Closed \/ exists blk obj, f_forwarder f = Offering blk obj) -> can_go p.
Proof.
  intros Hc Em Hi Hw. destruct Hw as [Ew|(blk & obj & Ew)]; (eapply (can_fire Range); [done..|]); unfold range; rewrite Em, Hi; cbn;
    rewrite Ew; reflexivity.
Qed.

(** The forwarder of the file that [run] ranges over, or its reader, can go on. *)
Lemma file_goes_on r0 p i f n handed : (forall b, preprocess s b <> Diverge) -> crashed p = false -> main p = Ranging i -> files p !! i = Some f ->
  exact handler s r0 n handed p -> IsTerminating p = false -> (f_forwarder f = NotStarted -> f_reader f = Opening) ->
  is_Some (content (incoming f)) -> can_go p.
Proof.
  intros Hpre Hc Em Hi Hex HT Hns Hop. pose proof (e_main _ _ _ _ _ _ Hex) as Hm. rewrite Em in Hm. destruct Hm as [-> _].
  pose proof (e_file _ _ _ _ _ _ Hex _ _ Hi (le_n _)) as Hok.
  destruct (f_forwarder f) as [| |[b|b obj|b]|b obj|] eqn:Ew.
  - destruct (open_fires p n f Hop) as [p' E]. eapply (can_fire (Read n)); [done..|]. unfold read_file. rewrite Hi. cbn. by rewrite Hns.
  - destruct (preprocessed f) as [|c q] eqn:Eq.
    2: { eapply (can_fire (Forward n)); [done..|]. unfold forward. rewrite Hi. cbn. by rewrite Ew, Eq. }
    destruct (preprocessed_closed f) eqn:Ecl.
    { eapply (can_fire (Forward n)); [done..|]. unfold forward. rewrite Hi. cbn. by rewrite Ew, Eq, Ecl. }
    destruct (f_reader f) as [|blocks e last filtered|blk blocks e last filtered| |e|] eqn:Er.
    + pose proof (fo_new _ _ _ Hok Er). congruence.
    + eapply (can_fire (Read n)); [done..|]. unfold read_file. rewrite Hi. cbn. by rewrite Er.
    + assert (is_Some (queue s f blk (Reading blocks e last filtered))) as [f' Ef].
      { unfold queue. destruct (_ <? _); [by eexists|]. rewrite Eq, Ew. by eexists. }
      eapply (can_fire (Read n)); [done..|]. unfold read_file. rewrite Hi. cbn. by rewrite Er, Ef.
    + pose proof (fo_done _ _ _ Hok) as Hd. rewrite Er, Ecl in Hd. by specialize (Hd eq_refl).
    + eapply (can_fire (Read n)); [done..|]. unfold read_file. rewrite Hi. cbn. by rewrite Er.
    + pose proof (fo_done _ _ _ Hok) as Hd. rewrite Er, Ecl in Hd. by specialize (Hd eq_refl).
  - assert (is_Some (preprocess_slot s (Working b) p)) as [[c' p1] Ep].
    { unfold preprocess_slot. specialize (Hpre b). by destruct (preprocess s b). }
    eapply (can_fire (Preprocess n AtForwarder)); [done..|]. unfold preprocess_at. rewrite Hi. cbn [mbind option_bind]. rewrite Ew, Ep. reflexivity.
  - eapply (can_fire (Forward n)); [done..|]. unfold forward. rewrite Hi. cbn. by rewrite Ew.
  - pose proof (fo_slots _ _ _ Hok) as Hs. unfold slots in Hs. rewrite Ew in Hs. by apply Forall_cons in Hs as [Hs _].
  - eapply range_fires; eauto.
  - eapply range_fires; eauto.
Qed.

Lemma run_goes_on r0 p : (forall b, preprocess s b <> Diverge) -> inv handler s r0 p -> shaped p -> crashed p = false -> main p <> Returned ->
  (forall i f, files p !! i = Some f -> is_Some (content (incoming f))) ->
  can_go p \/ IsTerminating p = false /\ exists b wl, launch p = Looking b wl.
Proof.
  intros Hpre HI HS0 Hc Hm Hop. destruct (main p) as [| |i|] eqn:Em; [| | |done].
  - left. eapply (can_fire Start); [done..|]. unfold start. by rewrite Em.
  - destruct (IsTerminating p) eqn:HT; [left; eapply (can_fire StopRunning); [done..|]; unfold stop_running; by rewrite Em, HT|].
    destruct (fileStream p) as [|[i|e] q] eqn:Es; [|left; eapply (can_fire NextFile); [done..|]; unfold next_file; by rewrite Em, Es..].
    destruct (launch p) as [b wl|inc wl| |] eqn:El; [right; eauto|left..].
    + eapply (can_fire Launch); [done..|]. unfold launch_file. by rewrite El, Es.
    + eapply (can_fire Mark); [done..|]. unfold mark. by rewrite El, Es.
    + eapply (can_fire NextFile); [done..|]. unfold next_file. by rewrite Em, Es, El.
  - left. pose proof (sh_main _ HS0 _ Em) as Hi. apply lookup_lt_is_Some in Hi as [f Hi]. pose proof (Hop _ _ Hi) as Ho.
    assert (Hns : f_forwarder f = NotStarted -> f_reader f = Opening).
    { intros Hw. destruct (sh_new _ HS0 _ _ Hi Hw) as [|Hn]; [done|]. rewrite Hn in Ho. by destruct Ho. }
    destruct (IsTerminating p) eqn:HT.
    + destruct (f_forwarder f) as [| |c|b obj|] eqn:Ew; [|eapply (can_fire (StopForwarding i)); [done..|]; unfold stop_forwarding; rewrite Hi; cbn; by rewrite Ew, HT..|].
      * destruct (open_fires p i f Ho) as [p' E]. eapply (can_fire (Read i)); [done..|]. unfold read_file. rewrite Hi. cbn. by rewrite Hns.
      * eapply range_fires; eauto.
    + destruct (i_exact _ _ _ _ HI HT) as (n & handed & Hex). by eapply file_goes_on.
Qed.

Lemma init_shaped hs p : init s hs = Ok p -> shaped p.
Proof. unfold init. intros E. apply outcome_bind_Ok in E as (base & _ & [= <-]). split; cbn; [done| |done]. intros i Hi. by apply elem_of_nil in Hi. Qed.

(** ** The blocks that are handled *)

Lemma handle_offer prep v blocks : (forall b, preprocess s b = Ok (prep b)) -> forall r,
  exists k, fs_next (mfor blocks (handle handler s v) r).2 = (offer handler prep (take k blocks) (fs_next r)).2 /\
    ((mfor blocks (handle handler s v) r).1 = Ok tt -> k = length blocks /\ (offer handler prep blocks (fs_next r)).1 = None).
Proof.
  intros Hprep. induction blocks as [|b blocks IH]; intros r; [by exists 0%nat|]. cbn [mfor]. unfold mbind, M_bind, handle at 1 3. rewrite Hprep.
  destruct (_ && _ && _); [by exists 0%nat|]. destruct (handler b (prep b) (fs_next r)) as [[e|] h] eqn:Eh.
  - exists 1%nat. cbn. by rewrite Eh.
  - destruct (IH (mkRunning (if v then Id b else lastBlockID r) h)) as (k & Ek & Hk). exists (Datatypes.S k). cbn [take offer]. rewrite Eh.
    split; [exact Ek|]. intros E. destruct (Hk E) as [-> ?]. done.
Qed.

Lemma init_plain base hs p : hasIndexProvider s = false -> lowBoundary (startBlockNum s) (bundleSize s) = Ok base -> init s hs = Ok p -> plain base p.
Proof.
  intros Hx Eb E. unfold init in E. rewrite Eb, Hx in E. injection E as <-. split; try done. intros (e & He). by apply elem_of_nil in He.
Qed.

(** The bundles of the store hold these blocks. *)
Definition holds base (blocks : nat -> list Block) n : Prop := forall i, (i < n)%nat ->
  content (bundle base i) = Some (blocks i, None) /\ Forall (fun b => base_at base i <= Number b) (blocks i).

Definition stream (blocks : nat -> list Block) n : list Block :=
  filter (fun b => startBlockNum s <= Number b) (concat (blocks <$> seq 0 n)).

Lemma all_stream base blocks p : plain base p -> holds base blocks (length (files p)) -> all s p = stream blocks (length (files p)).
Proof.
  intros HP Hst. unfold all, stream. replace ((fun f => sent s (incoming f)) <$> files p) with (sent s <$> (incoming <$> files p)) by by rewrite <- list_fmap_compose.
  assert (Ef : incoming <$> files p = bundle base <$> seq 0 (length (files p))).
  { apply list_eq. intros i. rewrite (list_lookup_fmap (bundle base)). destruct ((incoming <$> files p) !! i) as [inc|] eqn:Ei.
    - pose proof (lookup_lt_Some _ _ _ Ei) as Hl. rewrite length_fmap in Hl. rewrite lookup_seq_lt by done. cbn. f_equal. by eapply pl_files.
    - apply lookup_ge_None in Ei. rewrite length_fmap in Ei. by rewrite lookup_seq_ge. }
  rewrite Ef. clear Ef HP. unfold holds in Hst. revert Hst. generalize (length (files p)) as n. intros n Hst.
  induction n as [|n IH]; [done|]. rewrite seq_S, !fmap_app, !concat_app, filter_app. cbn [fmap list_fmap concat]. rewrite !app_nil_r.
  rewrite IH by (intros; apply Hst; lia). f_equal. destruct (Hst n ltac:(lia)) as [Ec Hb]. cbn [Nat.add]. unfold sent. rewrite Ec. unfold passed.
  cbn [filteredBlocks baseNum bundle newIncomingBlocksFile]. by rewrite streamReader_whole.
Qed.

End Runs.

(** C15: without an index, and while the bundles that were launched hold their blocks,
    whatever the schedule of the goroutines of the file source and whenever the
    files appear in the store: the handler got, in order, a beginning of the blocks
    of the bundles from the start block on, each offered once; when the source was
    stopped by the mark of the stop block it got all of them, the bundle of the stop
    block included; and [run] is never stuck: until it returns a goroutine can go
    on, or the launcher looks for the next file. *)
Theorem file_pipeline_delivers {O} `{Protocol} `{DBin} `{Store} `{BlockIndexProvider} {HS} (handler : Handler O HS)
  (s : FileSource O) late prep base blocks hs p0 ls p :
  hasIndexProvider s = false -> lowBoundary (startBlockNum s) (bundleSize s) = Ok base ->
  (forall b, preprocess s b = Ok (prep b)) -> init s hs = Ok p0 -> schedule (fire handler s late) ls p0 = Some p ->
  holds s base blocks (length (files p)) ->
  let sent := stream s blocks (length (files p)) in
  (exists k, fs_next (running p) = (offer handler prep (take k sent) hs).2) /\
  (Forall quiet ls -> quiet_handler handler -> shutdown p = Some (Some ErrStopBlockReached) ->
    stopBlockNum s < base_at s base (length (files p)) /\ fs_next (running p) = (offer handler prep sent hs).2) /\
  (crashed p = false -> main p <> Returned ->
    can_go handler s late p \/ IsTerminating p = false /\ exists b wl, launch p = Looking b wl).
Proof.
  intros Hx Eb Hprep E0 E Hst. cbv zeta.
  assert (HI : inv handler s (mkRunning "" hs) p) by (eapply (schedule_inv _ _ _ _ _ (init_inv handler s hs p0 E0)), E; intros a q q' Hq; by eapply fire_inv).
  assert (HS0 : shaped p) by (eapply (schedule_inv _ _ _ _ _ (init_shaped s hs p0 E0)), E; intros a q q' Hq; by eapply fire_shaped).
  assert (HP : plain s base p) by (eapply (schedule_inv _ _ _ _ _ (init_plain s base hs p0 Hx Eb E0)), E; intros a q q' Hq; by eapply fire_plain).
  pose proof (all_stream s base blocks p HP Hst) as Ea. split; [|split].
  - destruct (i_frozen _ _ _ _ HI) as [_ (k & _ & Ek)]. unfold fed in Ek. rewrite Ea in Ek. rewrite Ek.
    destruct (handle_offer handler s prep (order p) (take k (stream s blocks (length (files p)))) Hprep (mkRunning "" hs)) as (j & Ej & _).
    rewrite Ej, take_take. by eexists.
  - intros Hq Hh Hs.
    set (P q := inv handler s (mkRunning "" hs) q /\ plain s base q /\ complete handler s (fun fs => over s base (length fs)) (mkRunning "" hs) q).
    assert (HC : P p).
    { eapply (schedule_inv_on _ quiet P _ _ _ Hq), E.
      - split; [by apply init_inv|]. split; [by eapply init_plain|]. unfold init in E0. rewrite Eb in E0. by injection E0 as <-.
      - intros a q q' Ha (HIq & HPq & HCq) Eq. split; [by eapply fire_inv|]. split; [by eapply fire_plain|].
        eapply fire_complete; try done. intros e He. rewrite length_fmap. apply (pl_mark _ _ _ HPq). by exists e. }
    destruct HC as (_ & _ & HC). destruct (HC Hs) as (_ & _ & [_ Ho] & Hf). rewrite length_fmap in Ho. split; [exact Ho|]. unfold fed in Hf.
    destruct (handle_offer handler s prep (order p) (all s p) Hprep (mkRunning "" hs)) as (k & Ek & Hk).
    rewrite Hf in Ek, Hk. cbn [fst snd fs_next] in Ek, Hk. destruct (Hk eq_refl) as [-> _]. rewrite take_ge in Ek by done. by rewrite Ek, Ea.
  - intros Hc Hm. eapply run_goes_on; try done.
    + intros b. by rewrite Hprep.
    + intros i f Hi. rewrite (pl_files _ _ _ HP i (incoming f)) by by rewrite list_lookup_fmap, Hi.
      destruct (Hst i (lookup_lt_Some _ _ _ Hi)) as [-> _]. by eexists.
Qed.

(** ** What an error of a file does *)

Section Errors.
Context {O : Type} `{Protocol} `{DBin} `{Store} `{BlockIndexProvider}.
Context {HS : Type} (handler : Handler O HS) (s : FileSource O) (late : list bool).

(** [run] ranges over a file whose goroutine ended before it started the forwarder:
    nothing closes the channel of the file. *)
Definition hung (i : nat) (p : state O HS) : Prop := main p = Ranging i /\
  exists f, files p !! i = Some f /\ f_forwarder f = NotStarted /\ preprocessed f = [] /\
    match f_reader f with Failed _ | Ended => True | _ => False end.

Lemma hung_file i j f f' p p1 : hung i p -> files p !! j = Some f -> main p1 = main p -> files p1 = files p ->
  (i = j -> f_forwarder f = NotStarted -> preprocessed f = [] -> match f_reader f with Failed _ | Ended => True | _ => False end ->
    f_forwarder f' = NotStarted /\ preprocessed f' = [] /\ match f_reader f' with Failed _ | Ended => True | _ => False end) ->
  hung i (set_file j f' p1).
Proof.
  intros (Hm & g & Hg & Hw & Hp & Hr) Hj Em Ef Hok. split; [cbn; congruence|]. cbn. rewrite Ef. destruct (decide (j = i)) as [->|Hne].
  - assert (g = f) as -> by congruence. exists f'. rewrite list_lookup_insert_eq by by eapply lookup_lt_Some. split; [done|]. by apply Hok.
  - exists g. by rewrite list_lookup_insert_ne.
Qed.

Lemma hung_rest i p p' : hung i p -> main p' = main p -> (forall f, files p !! i = Some f -> files p' !! i = Some f) -> hung i p'.
Proof. intros (Hm & f & Hi & Hf) Em Hl. split; [congruence|]. exists f. split; [by apply Hl|done]. Qed.

Lemma fire_hung i a p p' : hung i p -> fire handler s late a p = Some p' -> hung i p'.
Proof.
  intros HH E. unfold fire in E. destruct (crashed p); [done|]. destruct a as [ex| | | |j|j|j at_|j|j| | | | |e]; try done.
  - unfold look in E. destruct (launch p); try done.
    destruct (next_bundle _ _ _ _ _ _) as [[[[base' filtered] active'] wl']|e|w|]; try done; [|injection E as <-; by eapply hung_rest..].
    destruct (checkExists ex base') as [[[]|e|w|] name]; try done; injection E as <-; try by eapply hung_rest.
    destruct (errorOutOnMissingFile s); by eapply hung_rest.
  - unfold launch_file in E. destruct (launch p), (fileStream p); try done. injection E as <-. eapply hung_rest; [done..|].
    intros g Hg. cbn. by apply lookup_app_l_Some.
  - unfold mark in E. destruct (launch p), (fileStream p); try done. injection E as <-. by eapply hung_rest.
  - unfold stop_launching in E. destruct (launch p), (IsTerminating p); try done; injection E as <-; by eapply hung_rest.
  - unfold read_file in E. destruct (files p !! j) as [f|] eqn:Hj; cbn in E; [|done].
    destruct (f_reader f) as [|blocks e last filtered|blk blocks e last filtered| |e|] eqn:Er; try done.
    + destruct (decide (i = j)) as [<-|Hne]; [destruct HH as (_ & g & Hg & _ & _ & Hr); rewrite Hj in Hg; injection Hg as <-; by rewrite Er in Hr|].
      unfold open in E.
      destruct (OpenObject _) as [data|e|w|]; cbn [wrap] in E; try done; [|injection E as <-; by eapply hung_file|injection E as <-; by eapply hung_rest].
      destruct (NewDBinBlockReader data) as [src|e|w|]; cbn [wrap] in E; try done; [|injection E as <-; by eapply hung_file|injection E as <-; by eapply hung_rest].
      destruct (_ <? 0); [injection E as <-; by eapply hung_rest|].
      destruct (read_blocks _ _) as [[blocks e]|e|w|]; try done; injection E as <-; [by eapply hung_file|by eapply hung_rest..].
    + injection E as <-. eapply hung_file; [done..|]. by rewrite Er.
    + destruct (queue _ _ _ _) as [f'|]; cbn in E; [|done]. injection E as <-. eapply hung_file; [done..|]. by rewrite Er.
    + destruct (f_forwarder f); try done. injection E as <-. eapply hung_file; [done..|]. by rewrite Er.
    + injection E as <-. by eapply hung_file.
  - unfold stop_reading in E. destruct (files p !! j) as [f|] eqn:Hj; cbn in E; [|done].
    destruct (f_reader f) eqn:Er, (IsTerminating p); try done; injection E as <-. eapply hung_file; [done..|]. by rewrite Er.
  - unfold preprocess_at in E. destruct (files p !! j) as [f|] eqn:Hj; cbn in E; [|done].
    assert (Hc : forall c c' p1, preprocess_slot s c p = Some (c', p1) -> main p1 = main p /\ files p1 = files p).
    { intros c c' p1. unfold preprocess_slot. destruct c as [b| |]; try done. by destruct (preprocess s b); intros [= <- <-]. }
    destruct at_ as [k|].
    + destruct (preprocessed f !! k) as [c|] eqn:Ek; cbn in E; [|done].
      destruct (preprocess_slot s c p) as [[c' p1]|] eqn:Ec; cbn in E; [|done]. injection E as <-. destruct (Hc _ _ _ Ec).
      eapply hung_file; [done..|]. intros _ _ Hp. by rewrite Hp in Ek.
    + destruct (f_forwarder f) as [| |c| |] eqn:Ew; try done.
      destruct (preprocess_slot s c p) as [[c' p1]|] eqn:Ec; cbn in E; [|done]. injection E as <-. destruct (Hc _ _ _ Ec).
      eapply hung_file; [done..|]. by rewrite Ew.
  - unfold forward in E. destruct (files p !! j) as [f|] eqn:Hj; cbn in E; [|done].
    destruct (f_forwarder f) as [| |[]| |] eqn:Ew; try done; [destruct (preprocessed f); [destruct (preprocessed_closed f); [|done]|]|];
      injection E as <-; (eapply hung_file; [done..|]; by rewrite Ew).
  - unfold stop_forwarding in E. destruct (files p !! j) as [f|] eqn:Hj; cbn in E; [|done].
    destruct (f_forwarder f) eqn:Ew, (IsTerminating p); try done; injection E as <-; (eapply hung_file; [done..|]; by rewrite Ew).
  - unfold start in E. destruct (main p) eqn:Em; try done. destruct HH; congruence.
  - unfold next_file in E. destruct (main p) eqn:Em; try done. destruct HH; congruence.
  - unfold stop_running in E. destruct (main p) eqn:Em, (IsTerminating p); try done. destruct HH; congruence.
  - unfold range in E. destruct HH as (Hm & g & Hg & Hw & _). rewrite Hm in E. rewrite Hg in E. cbn in E. by rewrite Hw in E.
  - destruct (IsTerminating p); [done|]. injection E as <-. by eapply hung_rest.
Qed.

(** Whatever happens then, a shutdown included, [run] never returns. *)
Theorem open_failure_hangs i ls p p' : hung i p -> schedule (fire handler s late) ls p = Some p' -> main p' = Ranging i.
Proof. intros HH E. apply (schedule_inv _ (hung i) _ _ _ HH) in E; [by destruct E|]. intros a q q' Hq. by eapply fire_hung. Qed.
End Errors.

(** *** The example: the bundles of [FileSourceProps.v] *)

Section Example.
#[local] Existing Instance FileSourceProps.proto0.
#[local] Existing Instance FileSourceProps.no_index.

(** A scheduler that takes the first action it can: the files are read ahead. *)
Definition greedy_actions (exists_ : string -> outcome bool) : list action :=
  [Start; Look exists_; Launch; Mark; Read 1; Preprocess 1 AtForwarder; Forward 1; Read 0; Preprocess 0 AtForwarder; Forward 0;
   NextFile; Range; StopRunning].

Fixpoint greedy (actions : list action) (next : action -> state unit (list (event unit)) -> option (state unit (list (event unit)))) (fuel : nat)
  (p : state unit (list (event unit))) : list action :=
  match fuel with
  | Datatypes.O => []
  | Datatypes.S n =>
      match list_find (fun a => is_Some (next a p)) actions with
      | Some (_, a) => match next a p with Some p' => a :: greedy actions next n p' | None => [] end
      | None => []
      end
  end.

Lemma greedy_only (P : action -> Prop) actions next fuel p : Forall P actions -> Forall P (greedy actions next fuel p).
Proof.
  intros HF. revert p. induction fuel as [|fuel IH]; intros p; cbn [greedy]; [constructor|].
  destruct (list_find _ actions) as [[i a]|] eqn:E; [|constructor]. apply list_find_Some in E as (Hi & _ & _).
  destruct (next a p); [|constructor]. constructor; [|apply IH]. rewrite Forall_lookup in HF. by eapply HF.
Qed.

Definition ex_blocks (i : nat) : list Block := default [] (ex_files !! i).
Definition ex_first : state unit (list (event unit)) := mkState false (Looking 0 ∅) [] [] Starting false None false (mkRunning "" []).

Section Readable.
#[local] Existing Instance FileSourceProps.ex_store.
#[local] Existing Instance FileSourceProps.ex_dbin.

Definition ex_schedule : list action := greedy (greedy_actions ex_exists) (fire recorder ex_fs []) 100 ex_first.

Lemma ex_holds : holds ex_fs 0 ex_blocks 2.
Proof.
  intros [|[|i]] Hi; [..|lia]; (split; [by vm_compute|]); repeat constructor; by vm_compute.
Qed.

Definition outcome_of (p : state unit (list (event unit))) : nat * option (option error) * list string :=
  (length (files p), shutdown p, Id <$> (reverse (fs_next (running p))).*1).

Lemma ex_run : outcome_of <$> schedule (fire recorder ex_fs []) ex_schedule ex_first =
  Some (2%nat, Some (Some ErrStopBlockReached), ["3a"; "4a"; "5a"; "6a"; "7a"]).
Proof. by vm_compute. Qed.

Lemma ex_quiet : Forall quiet ex_schedule.
Proof. apply greedy_only. by repeat constructor. Qed.

Lemma file_pipeline_delivers_witness : exists p, schedule (fire recorder ex_fs []) ex_schedule ex_first = Some p /\
  Id <$> (reverse (fs_next (running p))).*1 = ["3a"; "4a"; "5a"; "6a"; "7a"].
Proof.
  pose proof ex_run as Er. destruct (schedule (fire recorder ex_fs []) ex_schedule ex_first) as [p|] eqn:E; [|discriminate Er].
  unfold outcome_of in Er. cbn [fmap option_fmap option_map] in Er. injection Er as Hl Hs _. exists p. split; [reflexivity|].
  assert (Hst : holds ex_fs 0 ex_blocks (length (files p))) by (rewrite Hl; exact ex_holds).
  destruct (file_pipeline_delivers recorder ex_fs [] ex_prep 0 ex_blocks [] ex_first ex_schedule p eq_refl eq_refl ltac:(done) eq_refl E Hst)
    as (_ & Hall & _).
  destruct (Hall ex_quiet ltac:(done) Hs) as [_ ->]. rewrite Hl. by vm_compute.
Defined.
End Readable.

(** The first bundle cannot be opened. *)
Section Unopened.
#[local] Existing Instance FileSourceProps.ex_dbin.
#[local] Instance closed_store : Store := {|
  WalkFrom := fun _ _ => ([], None); Walk := fun _ => ([], None);
  OpenObject := fun _ => Err (EMsg "unavailable");
|}.

Lemma open_failure_hangs_witness : exists p,
  schedule (fire recorder ex_fs []) [Look ex_exists; Launch; Start; NextFile; Read 0; Read 0] ex_first = Some p /\
  shutdown p = Some (Some (EWrap "processing of file failed" (EWrap "fetching from block store" (EMsg "unavailable")))) /\
  forall ls p', schedule (fire recorder ex_fs []) ls p = Some p' -> main p' = Ranging 0.
Proof.
  eexists. split; [by vm_compute|]. split; [done|]. intros ls p'. apply (open_failure_hangs recorder ex_fs []).
  split; [done|]. by eexists.
Defined.
End Unopened.

(** The first bundle cannot be read: the next one is handled before the shutdown. *)
Section Unread.
#[local] Existing Instance FileSourceProps.ex_store.
#[local] Instance torn_dbin : DBin := {|
  ReadHeader := fun data => Ok ("", data);
  ReadMessage := fun src =>
    match src with
    | "" => ("", Some EOF, "")
    | String "2"%char _ => ("", Some (EMsg "unexpected EOF"), "")
    | String d rest => (String d "", None, rest)
    end;
  UnmarshalBlock := fun m => match m with String d "" => Ok (ex_digit d) | _ => Err (EMsg "not a block") end;
  UnmarshalBlockMeta := fun _ => Err (EMsg "not a block meta");
  LookupEnv := fun _ => false;
|}.

Lemma unread_file_skipped : exists p,
  schedule (fire recorder ex_fs []) [Look ex_exists; Launch; Start; NextFile; Look ex_exists; Launch; Read 1; Read 1; Read 1;
    Preprocess 1 AtForwarder; Forward 1; Read 0; Read 0; Forward 0; Range; NextFile; Range; Read 0] ex_first = Some p /\
  Id <$> (fs_next (running p)).*1 = ["5a"] /\
  is_Some (shutdown p) /\ startBlockNum ex_fs = 3.
Proof. eexists. split; [by vm_compute|]. by repeat split; eexists. Qed.
End Unread.
End Example.
