(* ===== verification/FilePipelineIndex.v ===== *)
(** * The goroutines of the file source with an index

    As long as the index answers, the files that are launched are the bundles in
    which something is asked for, by the index or by the source itself, and each of
    them is read through what is asked; whatever the schedule, the handler gets the
    blocks that serve what is asked. *)

From S2P Require Import Prelude Schedules GoStrings Types OneBlockFiles Consumer CursorResolver FileSource FileSourceProps.
From S2P Require Import FilePipeline FilePipelineProps FilePipelineRuns.
From Stdlib Require Import Ascii.
Import OneBlockFiles FileSource FilePipeline.

Section Indexed.
Context {O : Type} `{Protocol} `{DBin} `{Store} `{BlockIndexProvider}.
Context {HS : Type} (handler : Handler O HS) (s : FileSource O) (late : list bool).
Context (base : Z) (blocks : nat -> list Block) (n : nat).
Notation state := (state O HS).
Notation file := (file O).
Notation fire := (fire handler s late).
Notation base_at := (base_at s base).
Notation over := (over s base).
Implicit Types (p : state) (f : file).

(** ** What is asked for *)

(** What the index says of a bundle. *)
Definition answer (i : nat) : option (list Z) :=
  match BlocksInRange (base_at i) (bundleSize s) with Ok l => l | _ => None end.

(** What is asked for in a bundle: the answer of the index, and what the source
    itself wants, between the start and the stop block. *)
Definition asks (i : nat) (x : Z) : Prop :=
  (startBlockNum s <= x /\ (stopBlockNum s <> 0 -> x <= stopBlockNum s)) /\
  (x ∈ default [] (answer i) \/ wanted s (whitelistedBlocks s) (base_at i) x).

(** The blocks of a bundle that serve what is asked: those that are the first at or
    above some number that is asked for. *)
Definition serves (i : nat) (out : list Block) : Prop :=
  sublist out (blocks i) /\
  forall b, b ∈ out <-> b ∈ blocks i /\ exists x, asks i x /\ x <= Number b /\
    forall b', b' ∈ blocks i -> Number b' < Number b -> Number b' < x.

(** The index answers for the first [n] bundles, with numbers of the bundle or the
    first one after it, before the time of a progress block; the bundle of the stop
    block is none but the last of them. *)
Record indexed : Prop := mkIndexed {
  ix_size : 0 < bundleSize s;
  ix_base : 0 <= base <= startBlockNum s /\ startBlockNum s < base + bundleSize s;
  ix_top : base + Z.of_nat n * bundleSize s < two64;
  ix_stop : stopBlockNum s <> 0 -> startBlockNum s <= stopBlockNum s /\ base + Z.of_nat n * bundleSize s - bundleSize s <= stopBlockNum s;
  ix_late : forall i, (i < n)%nat -> late !! i = Some false;
  ix_answer : forall i, (i < n)%nat -> BlocksInRange (base_at i) (bundleSize s) = Ok (answer i) /\
    StronglySorted Z.lt (default [] (answer i)) /\
    Forall (fun x => base_at i <= x <= base_at i + bundleSize s) (default [] (answer i));
  ix_blocks : forall i, (i < n)%nat -> content (bundle s base i) = Some (blocks i, None) /\
    CursorResolver.increasing (blocks i) /\ Forall (fun b => base_at i <= Number b) (blocks i);
}.
Context (HI : indexed).

Lemma base_at_lin i : (i <= n)%nat -> base_at i = base + Z.of_nat i * bundleSize s.
Proof.
  pose proof (ix_size HI). pose proof (ix_base HI). pose proof (ix_top HI).
  induction i as [|i IH]; intros Hi; cbn [FilePipelineRuns.base_at]; [lia|]. rewrite IH by lia. rewrite u64_add_lt; nia.
Qed.

(** The whitelist has still what the bundles from [k] on want. *)
Definition left_from (k : nat) (wl : gset Z) : Prop :=
  forall x, base_at k <= x -> x ∈ wl <-> x ∈ whitelistedBlocks s.

Lemma wanted_left k wl x : left_from k wl -> wanted s wl (base_at k) x <-> wanted s (whitelistedBlocks s) (base_at k) x.
Proof. intros Hl. unfold wanted. specialize (Hl x). naive_solver. Qed.

(** A lookup gives what is asked for in the bundle. *)
Lemma lookup_asks k wl out wl' : (k < n)%nat -> left_from k wl ->
  tweakRangeIndexResults s (base_at k) (answer k) wl = (out, wl') ->
  left_from (S k) wl' /\ StronglySorted Z.lt (default [] out) /\ forall x, x ∈ default [] out <-> asks k x.
Proof.
  intros Hk Hl E. pose proof (ix_size HI). pose proof (ix_base HI). pose proof (ix_top HI). pose proof (base_at_lin k ltac:(lia)) as Eb.
  assert (Hn : base_at (S k) = base_at k + bundleSize s) by (rewrite (base_at_lin (S k)) by lia; nia).
  destruct (ix_answer HI k Hk) as (_ & Hsort & Hin).
  assert (Hr : 0 <= base_at k /\ base_at k + bundleSize s < two64) by nia. destruct Hr as [Hr1 Hr2].
  destruct (tweak_result s (base_at k) (answer k) wl out wl' Hr1 ltac:(lia) Hr2 E) as (Hwl & Hno & Hyes).
  split; [intros x Hx; rewrite Hn in Hx; rewrite Hwl; specialize (Hl x); naive_solver lia|].
  pose proof (fun x => wanted_left k wl x Hl) as Hw. pose proof (fun x => addBlocks_wanted s wl (base_at k) x Hr1 ltac:(lia) Hr2) as Ha.
  destruct (addBlocks s wl (base_at k)) as [|a added].
  - assert (Hnone : forall x, ~ wanted s wl (base_at k) x) by (intros x Hx; by apply Ha, elem_of_nil in Hx).
    rewrite (Hno Hnone). split; [done|]. intros x. unfold asks. rewrite <- Hw. split; [|intros [_ [?|Hx]]; [done|by apply Hnone in Hx]].
    intros Hx. split; [|by left]. rewrite Forall_forall in Hin. specialize (Hin x Hx).
    assert (~ base_at k <= startBlockNum s < base_at k + bundleSize s) by (intros ?; apply (Hnone (startBlockNum s)); split; auto).
    destruct k as [|k]; [cbn in *; lia|]. split; [nia|]. intros Hs. destruct (ix_stop HI Hs).
    assert (~ base_at (S k) <= stopBlockNum s < base_at (S k) + bundleSize s) by (intros ?; apply (Hnone (stopBlockNum s)); split; auto). nia.
  - destruct (Hyes (ex_intro _ a (proj1 (Ha a) ltac:(left)))) as [Hss Hx]. split; [done|]. intros x. rewrite Hx. unfold asks. by rewrite Hw.
Qed.

(** ** The lookups *)

Definition unasked (i j : nat) : Prop := forall m x, (i <= m < j)%nat -> ~ asks m x.

Lemma lookup_from_asks d : forall k wl late' b out wl', (d + k = n)%nat -> left_from k wl ->
  (forall i, (i < d)%nat -> late' !! i = Some false) ->
  lookup_from s late' (base_at k) wl = Ok (b, out, false, wl') ->
  (exists j l, (k <= j < n)%nat /\ b = base_at j /\ out = Some l /\ StronglySorted Z.lt l /\ (forall x, x ∈ l <-> asks j x) /\
    left_from (S j) wl' /\ unasked k j) \/ unasked k n.
Proof.
  induction d as [|d IH]; intros k wl late' b out wl' Hd Hl Hlate E; [right; intros m x; lia|].
  destruct late' as [|t late']; [by specialize (Hlate 0%nat ltac:(lia))|]. pose proof (Hlate 0%nat ltac:(lia)) as [= ->].
  cbn [lookup_from] in E. destruct (ix_answer HI k ltac:(lia)) as (Ea & _). rewrite Ea in E.
  destruct (tweakRangeIndexResults s (base_at k) (answer k) wl) as [o wl1] eqn:Et.
  destruct (lookup_asks k wl o wl1 ltac:(lia) Hl Et) as (Hl' & Hs & Hx). destruct o as [l|].
  - injection E as <- <- <-. left. exists k, l. cbn in Hs, Hx. split_and!; try done; [lia..|]. intros m x; lia.
  - assert (Hk : unasked k (S k)) by (intros m x ? Ha; assert (m = k) as -> by lia; by apply Hx, elem_of_nil in Ha).
    assert (Hskip : forall j, unasked (S k) j -> unasked k j).
    { intros j Hj m x Hm. destruct (decide (m = k)) as [->|]; [apply Hk; lia|apply Hj; lia]. }
    change (u64_add (base_at k) (bundleSize s)) with (base_at (S k)) in E.
    destruct (IH (S k) wl1 late' b out wl' ltac:(lia) Hl') as [(j & l & ? & ? & ? & ? & ? & ? & Hu)|Hu].
    { intros i Hi. apply (Hlate (S i)). lia. }
    { exact E. }
    + left. exists j, l. split_and!; auto; lia.
    + right. auto.
Qed.

Lemma next_bundle_asks exists_ k wl b out wl' : (k <= n)%nat -> left_from k wl ->
  next_bundle exists_ s late true (base_at k) wl = Ok (b, out, true, wl') ->
  (exists j l, (k <= j < n)%nat /\ b = base_at j /\ out = Some l /\ StronglySorted Z.lt l /\ (forall x, x ∈ l <-> asks j x) /\
    left_from (S j) wl' /\ unasked k j) \/ unasked k n.
Proof.
  intros Hk Hl E. unfold next_bundle in E. cbn [negb] in E. unfold lookupBlockIndex in E.
  destruct (negb (stopBlockNum s =? 0) && (stopBlockNum s <? base_at k)).
  { cbn [mbind outcome_bind] in E. by repeat case_match. }
  apply outcome_bind_Ok in E as ([[[b1 o1] more] wl1] & E1 & E). destruct more; [by repeat case_match|]. injection E as -> -> ->.
  apply (lookup_from_asks (n - k) k wl late b out wl'); [lia|done| |done]. intros i Hi. apply (ix_late HI). lia.
Qed.

(** ** The blocks of a bundle *)

(** The reader drops the blocks before the start block first. *)
Lemma passed_from_start b filtered bs :
  passed s b filtered bs = passed s b filtered (filter (fun x => startBlockNum s <= Number x) bs).
Proof.
  revert filtered. induction bs as [|x bs IH]; intros filtered; [done|]. rewrite passed_cons.
  destruct (Z.ltb_spec (Number x) (startBlockNum s)); [rewrite filter_cons_False by lia; done|].
  rewrite filter_cons_True, passed_cons by lia. destruct (Z.ltb_spec (Number x) (startBlockNum s)); [lia|].
  destruct (_ <? b); [done|]. destruct (PassesFilter (Number x) filtered) as [[] rest]; by rewrite IH.
Qed.

Lemma serves_passed i l : (i < n)%nat -> StronglySorted Z.lt l -> (forall x, x ∈ l <-> asks i x) ->
  serves i (passed s (base_at i) (Some l) (blocks i)).
Proof.
  intros Hi Hl Hx. destruct (ix_blocks HI i Hi) as (_ & Hinc & Hge). rewrite passed_from_start.
  set (bs := filter (fun x => startBlockNum s <= Number x) (blocks i)).
  assert (Hin : forall b, b ∈ bs <-> startBlockNum s <= Number b /\ b ∈ blocks i) by (intros b; unfold bs; by rewrite list_elem_of_filter).
  destruct (streamReader_serves s (base_at i) l bs Hl) as (out & E & Hsub & Hout).
  { eapply StronglySorted_sublist; [apply filter_sublist|exact Hinc]. }
  { apply Forall_forall. intros b [Hb1 Hb2]%Hin. split; [done|]. rewrite Forall_forall in Hge. by apply Hge. }
  unfold passed. rewrite E. cbn [fst]. split; [etrans; [exact Hsub|apply filter_sublist]|]. intros b. rewrite Hout, Hin. split.
  - intros [[Hs Hb] (x & Hx1 & Hle & Hmin)]. split; [done|]. apply Hx in Hx1. exists x. split; [done|]. split; [done|].
    intros b' Hb' Hlt. destruct (Z_lt_le_dec (Number b') (startBlockNum s)); [destruct Hx1 as [[? _] _]; lia|].
    apply Hmin; [by apply Hin|done].
  - intros [Hb (x & Hx1 & Hle & Hmin)]. destruct Hx1 as [[Hs Hs'] Hx1]. split; [split; [lia|done]|].
    exists x. split; [by apply Hx; split|]. split; [done|]. intros b' [_ Hb']%Hin. by apply Hmin.
Qed.

Lemma serves_nothing i : unasked i (S i) -> serves i [].
Proof.
  intros Hu. split; [apply sublist_nil_l|]. intros b. rewrite elem_of_nil. split; [done|].
  intros [_ (x & Hx & _)]. by apply (Hu i x ltac:(lia)) in Hx.
Qed.

Lemma serves_some i : (i < n)%nat -> exists out, serves i out.
Proof.
  intros Hi. destruct (tweakRangeIndexResults s (base_at i) (answer i) (whitelistedBlocks s)) as [o wl'] eqn:E.
  destruct (lookup_asks i _ o wl' Hi ltac:(done) E) as (_ & Hs & Hx). eexists. by apply (serves_passed i (default [] o)).
Qed.

(** The blocks of the first [k] bundles that serve. *)
Definition served (k : nat) (sent : list Block) : Prop :=
  exists outs : nat -> list Block, (forall i, (i < k)%nat -> serves i (outs i)) /\ sent = concat (outs <$> seq 0 k).

Lemma served_snoc k sent out : served k sent -> serves k out -> served (S k) (sent ++ out).
Proof.
  intros (outs & Ho & ->) Hk. exists (fun i => if decide (i = k) then out else outs i). split.
  - intros i Hi. case_decide; [by subst|]. apply Ho. lia.
  - rewrite seq_S, fmap_app, concat_app. cbn [Nat.add fmap list_fmap concat]. rewrite decide_True, app_nil_r by done. f_equal. f_equal.
    apply list_fmap_ext. intros j i Hi. apply lookup_seq in Hi as [-> Hi]. cbn. by rewrite decide_False by lia.
Qed.

(** Bundles in which nothing is asked for are skipped. *)
Lemma served_skip k j sent : (k <= j)%nat -> unasked k j -> served k sent -> served j sent.
Proof.
  intros Hkj. induction Hkj as [|j Hkj IH]; intros Hu Hs; [done|]. rewrite <- (app_nil_r sent).
  apply served_snoc; [apply IH; [|done]; intros m x ?; apply Hu; lia|]. apply serves_nothing. intros m x ?; apply Hu; lia.
Qed.

Lemma served_more k j sent : (k <= j <= n)%nat -> served k sent -> exists more, served j (sent ++ more).
Proof.
  intros [Hkj Hj]. induction Hkj as [|j Hkj IH]; intros Hs; [exists []; by rewrite app_nil_r|].
  destruct (IH ltac:(lia) Hs) as (more & Hm). destruct (serves_some j ltac:(lia)) as [out Ho].
  exists (more ++ out). rewrite (assoc_L (++)). by apply served_snoc.
Qed.

(** ** The files that are launched *)

(** The launcher is at the bundle [k]. *)
Record within (k : nat) p : Prop := mkWithin {
  wi_le : (k <= n)%nat;
  wi_all : served k (all s p);
  wi_open : Forall (fun inc => is_Some (content inc)) (incoming <$> files p);
  wi_launch : match launch p with
    | Looking b wl => b = base_at k /\ left_from k wl /\ ~ over k
    | Launching inc wl => (k < n)%nat /\ baseNum inc = base_at k /\ is_Some (content inc) /\ serves k (sent s inc) /\ left_from (S k) wl
    | Marking => over k
    | Launched => True
    end;
  wi_mark : marked p -> over k /\ launch p = Launched;
}.

(** The first [n] bundles were launched, and some more may be. *)
Definition beyond p : Prop := ~ over n /\ exists sent more, served n sent /\ all s p = sent ++ more.

(** As long as the index serves. *)
Definition planned p : Prop := index p = true -> (exists k, within k p) \/ beyond p.

Lemma served_unique_end k : over k -> (k <= n)%nat -> k = n.
Proof.
  intros [Hs Ho] Hk. pose proof (ix_size HI). destruct (ix_stop HI Hs) as [_ Hn]. rewrite base_at_lin in Ho by done. nia.
Qed.

(** Steps that keep the files and what is to be launched. *)
Lemma planned_same p p' : planned p -> (index p' = true -> index p = true) -> incoming <$> files p' = incoming <$> files p ->
  (launch p' = launch p \/ launch p' = Launched) -> (marked p' -> marked p) -> planned p'.
Proof.
  intros HP Ei Ef El Em Hi. assert (Ea : all s p' = all s p).
  { unfold all. replace ((fun f => sent s (incoming f)) <$> files p') with (sent s <$> (incoming <$> files p')) by by rewrite <- list_fmap_compose.
    rewrite Ef, <- list_fmap_compose. done. }
  destruct (HP (Ei Hi)) as [[k [Hle Ha Ho Hl Hm]]|[Hno (sent_ & more & Hs & Ha)]].
  - left. exists k. split; [done|by rewrite Ea|by rewrite Ef|by destruct El as [->| ->]|].
    intros Hk. destruct (Hm (Em Hk)) as [? Hl']. split; [done|]. by destruct El as [->| ->].
  - right. split; [done|]. exists sent_, more. by rewrite Ea.
Qed.

(** The files of the first [n] bundles are there when they are looked for. *)
Definition found (a : action) : Prop :=
  match a with Look exists_ => forall i, (i < n)%nat -> exists_ (fmt_010d (base_at i)) = Ok true | _ => True end.

Lemma next_bundle_active exists_ b wl b' out wl' : next_bundle exists_ s late false b wl <> Ok (b', out, true, wl').
Proof. done. Qed.

Lemma planned_look exists_ p p' : found (Look exists_) -> planned p -> look s late exists_ p = Some p' -> planned p'.
Proof.
  intros Hf HP E. unfold look in E. destruct (launch p) as [b wl|inc wl| |] eqn:El; try done.
  assert (Hcrash : planned (crash p)) by (eapply planned_same; [exact HP|..]; try done; by left).
  destruct (next_bundle exists_ s late (index p) b wl) as [[[[b' out] active] wl']|e|w|] eqn:En; try done;
    [|by injection E as <-..].
  destruct active.
  2: { intros Hi. destruct (checkExists exists_ b') as [[[]|e|w|] name]; try done; injection E as <-;
         try (by destruct (errorOutOnMissingFile s)); done. }
  destruct (index p) eqn:Hi; [|by apply next_bundle_active in En]. destruct (HP Hi) as [[k [Hle Ha Ho Hl Hm]]|Hb].
  - rewrite El in Hl. destruct Hl as (-> & Hl & Hno). destruct (next_bundle_asks _ _ _ _ _ _ Hle Hl En) as [(j & l & Hj & -> & -> & Hs & Hx & Hl' & Hu)|Hu].
    + unfold checkExists in E. rewrite (Hf j) in E by lia. injection E as <-. intros _. left. exists j.
      pose proof (ix_blocks HI j ltac:(lia)) as (Hc & _). split; [lia|by apply (served_skip k); [lia|..]|done| |].
      * cbn [launch set_launch newIncomingBlocksFile baseNum]. split; [lia|]. split; [done|]. split; [unfold content in *; cbn in *; by rewrite Hc|].
        split; [|done]. unfold sent. cbn [newIncomingBlocksFile filteredBlocks baseNum]. change (content (newIncomingBlocksFile _ _ (Some l))) with (content (bundle s base j)).
        rewrite Hc. by apply serves_passed; [lia|..].
      * intros Hk. destruct (Hm Hk). congruence.
    + assert (Hb : beyond p).
      { split; [|exists (all s p), []; rewrite app_nil_r; split; [by apply (served_skip k)|done]].
        intros Ho'. destruct (decide (k = n)) as [->|Hne]; [done|]. destruct Ho' as [Hst Ho']. destruct (ix_stop HI Hst) as [Hs1 Hs2].
        pose proof (ix_size HI). rewrite base_at_lin in Ho' by done. apply (Hu (n - 1)%nat (stopBlockNum s)); [lia|].
        split; [lia|]. right. split; [rewrite base_at_lin by lia; nia|]. right. by right. }
      intros _. right. destruct (checkExists exists_ b') as [[[]|e|w|] name]; try done; injection E as <-;
         try (destruct (errorOutOnMissingFile s)); exact Hb.
  - intros _. right. destruct (checkExists exists_ b') as [[[]|e|w|] name]; try done; injection E as <-;
         try (destruct (errorOutOnMissingFile s)); exact Hb.
Qed.

Lemma all_launch p inc r l : all s (set_launch l (set_fileStream r (set_files (files p ++ [mkFile inc false Opening [] false NotStarted]) p))) =
  all s p ++ sent s inc.
Proof. unfold all. cbn. rewrite fmap_app, concat_app. cbn. by rewrite app_nil_r. Qed.

Lemma planned_launch p p' : planned p -> launch_file s p = Some p' -> planned p'.
Proof.
  intros HP E. unfold launch_file in E. destruct (launch p) as [b wl|inc wl| |] eqn:El; try done.
  destruct (fileStream p) eqn:Es; [|done]. injection E as <-. intros Hi. destruct (HP Hi) as [[k [Hle Ha Ho Hl Hm]]|Hb].
  - rewrite El in Hl. destruct Hl as (Hk & Eb & Hc & Hs & Hl). left. exists (S k). split; [lia|rewrite all_launch; by apply served_snoc| | |].
    + cbn. rewrite fmap_app. apply Forall_app. by repeat constructor.
    + cbn [launch set_launch]. rewrite Eb. change (u64_add (base_at k) (bundleSize s)) with (base_at (S k)).
      unfold FilePipelineRuns.over. destruct (Z.eqb_spec (stopBlockNum s) 0); cbn [negb andb]; [split_and!; [done..|tauto]|].
      destruct (Z.ltb_spec (stopBlockNum s) (base_at (S k))); [done|]. split_and!; [done..|lia].
    + intros Hk'. assert (marked p) as Hk''; [|destruct (Hm Hk''); congruence]. destruct Hk' as (e & He). by apply list_elem_of_singleton in He.
  - right. destruct Hb as [Hno (sent_ & more & Hs & Ea)]. split; [done|]. exists sent_, (more ++ sent s inc).
    split; [done|]. rewrite all_launch, Ea. by rewrite (assoc_L (++)).
Qed.

Lemma fire_planned a p p' : found a -> planned p -> fire a p = Some p' -> planned p'.
Proof.
  intros Hf HP E. destruct (of_files a) eqn:Hof.
  { destruct (files_rest _ _ _ _ _ _ Hof E) as [(_ & _ & El & _ & _ & Ei & Es & Ef) _].
    eapply planned_same; [exact HP|by rewrite Ei|done|by left|by apply marked_eq]. }
  unfold FilePipeline.fire in E. destruct (crashed p); [done|]. destruct a as [ex| | | | | | | | | | | | |e]; try done.
  - by eapply planned_look.
  - by eapply planned_launch.
  - unfold mark in E. destruct (launch p) eqn:El, (fileStream p); try done. injection E as <-. intros Hi.
    destruct (HP Hi) as [[k [Hle Ha Ho Hl Hm]]|Hb]; [left|by right]. rewrite El in Hl. exists k. by split.
  - unfold stop_launching in E. destruct (launch p) eqn:El, (IsTerminating p); try done; injection E as <-;
      (eapply planned_same; [exact HP|..]; try done; by right).
  - unfold start in E. destruct (main p); try done. injection E as <-. eapply planned_same; [exact HP|done..|by left|done].
  - unfold next_file in E. destruct (main p); try done. destruct (fileStream p) as [|[i|e] q] eqn:Es.
    + destruct (launch p) eqn:El; try done. injection E as <-. eapply planned_same; [exact HP|done|done|by left|by apply marked_eq].
    + injection E as <-. eapply planned_same; [exact HP|done|done|by left|]. intros (e & He). exists e. rewrite Es. by right.
    + injection E as <-. eapply planned_same; [exact HP|done|done|by left|]. intros _. exists e. rewrite Es. left.
  - unfold stop_running in E. destruct (main p), (IsTerminating p); try done. injection E as <-.
    eapply planned_same; [exact HP|done|done|by left|by apply marked_eq].
  - unfold range in E. destruct (main p) as [| |i|]; try done. destruct (files p !! i) as [f|] eqn:Hif; cbn in E; [|done].
    assert (Hin : incoming <$> <[i := set_forwarder Selecting f]> (files p) = incoming <$> files p).
    { rewrite list_fmap_insert. apply list_insert_id. by rewrite list_lookup_fmap, Hif. }
    assert (Hstep : forall q, index q = index p -> incoming <$> files q = incoming <$> files p -> launch q = launch p -> fileStream q = fileStream p -> planned q).
    { intros q Eqi Eqf Eql Eqs. eapply planned_same; [exact HP|by rewrite Eqi|done|by left|by apply marked_eq]. }
    destruct (f_forwarder f) as [| |c|blk obj|]; try done; [|injection E as <-; by apply Hstep].
    destruct (IsTerminating p); [injection E as <-; by apply Hstep|].
    destruct (deliver handler (order p) blk obj (running p)) as [[|e|w|] r']; injection E as <-; by apply Hstep.
  - destruct (IsTerminating p); [done|]. injection E as <-. eapply planned_same; [exact HP|done|done|by left|by apply marked_eq].
Qed.

(** An index that is given up is not used again. *)
Lemma fire_index a p p' : fire a p = Some p' -> index p' = true -> index p = true.
Proof.
  intros E Hi. destruct (of_files a) eqn:Hof.
  { destruct (files_rest _ _ _ _ _ _ Hof E) as [(_ & _ & _ & _ & _ & Ei & _) _]. congruence. }
  destruct a as [ex| | | | | | | | | | | | |e]; try done; unfold FilePipeline.fire in E; (destruct (crashed p); [done|]).
  - unfold look in E. destruct (launch p); try done.
    destruct (next_bundle _ _ _ _ _ _) as [[[[b out] active] wl']|e|w|] eqn:En; try done; [|by injection E as <-..].
    assert (Ha : active = true -> index p = true) by (intros ->; by destruct (index p)). apply Ha.
    destruct (checkExists ex b) as [[[]|e|w|] name]; try done; injection E as <-; try done. by destruct (errorOutOnMissingFile s).
  - unfold launch_file in E. destruct (launch p), (fileStream p); try done. by injection E as <-.
  - unfold mark in E. destruct (launch p), (fileStream p); try done. by injection E as <-.
  - unfold stop_launching in E. destruct (launch p), (IsTerminating p); try done; by injection E as <-.
  - unfold start in E. destruct (main p); try done. by injection E as <-.
  - unfold next_file in E. destruct (main p); try done. destruct (fileStream p) as [|[i|e] q]; [destruct (launch p); try done|..]; by injection E as <-.
  - unfold stop_running in E. destruct (main p), (IsTerminating p); try done. by injection E as <-.
  - unfold range in E. destruct (main p) as [| |i|]; try done. destruct (files p !! i) as [f|]; cbn in E; [|done].
    destruct (f_forwarder f); try done; [|by injection E as <-]. destruct (IsTerminating p); [by injection E as <-|].
    destruct (deliver _ _ _ _ _) as [[|e|w|] r']; by injection E as <-.
  - destruct (IsTerminating p); [done|]. by injection E as <-.
Qed.

Lemma serves_unique i out out' : (i < n)%nat -> serves i out -> serves i out' -> out = out'.
Proof.
  intros Hi [Hs Ho] [Hs' Ho']. destruct (ix_blocks HI i Hi) as (_ & Hinc & _).
  assert (Hss : StronglySorted (fun x y => Number x < Number y) out) by (by eapply StronglySorted_sublist).
  assert (Hss' : StronglySorted (fun x y => Number x < Number y) out') by (by eapply StronglySorted_sublist).
  assert (Hnd : forall l : list Block, StronglySorted (fun x y => Number x < Number y) l -> NoDup l).
  { induction 1 as [|x l _ IH Hx]; constructor; [|done]. intros Hin. rewrite Forall_forall in Hx. specialize (Hx x Hin). cbn in Hx. lia. }
  apply (StronglySorted_unique_strong (fun x y => Number x < Number y)); try done; [intros; lia|].
  apply NoDup_Permutation; [by apply Hnd..|]. intros b. by rewrite Ho, Ho'.
Qed.

Lemma served_unique sent sent' : served n sent -> served n sent' -> sent = sent'.
Proof.
  intros (outs & Ho & ->) (outs' & Ho' & ->). f_equal. apply list_fmap_ext. intros j i Hi.
  apply lookup_seq in Hi as [-> Hi]. cbn. eapply serves_unique; [|apply Ho|apply Ho']; lia.
Qed.

Lemma init_planned hs p : lowBoundary (startBlockNum s) (bundleSize s) = Ok base -> init s hs = Ok p -> planned p.
Proof.
  intros Eb E. unfold init in E. rewrite Eb in E. injection E as <-. intros _. left. exists 0%nat. split.
  - lia.
  - exists (fun _ => []). split; [lia|done].
  - constructor.
  - cbn. split; [done|]. split; [done|]. intros [Hs Ho]. cbn in Ho. destruct (ix_stop HI Hs) as [Hst _]. pose proof (ix_base HI). lia.
  - intros (e & He). by apply elem_of_nil in He.
Qed.

(** What the mark of the stop block tells. *)
Definition all_served (fs : list incomingBlocksFile) : Prop := over n -> served n (concat (sent s <$> fs)).

Lemma marked_served p e : planned p -> index p = true -> MErr e ∈ fileStream p -> all_served (incoming <$> files p).
Proof.
  intros HP Hi He Ho. replace (sent s <$> (incoming <$> files p)) with ((fun f => sent s (incoming f)) <$> files p) by by rewrite <- list_fmap_compose.
  destruct (HP Hi) as [[k [Hle Ha _ _ Hm]]|[Hno _]]; [|done]. destruct (Hm (ex_intro _ e He)) as [Hk _].
  by rewrite <- (served_unique_end k).
Qed.

(** What the files send, up to the bundles that were not looked for yet. *)
Lemma planned_sent p : planned p -> index p = true -> exists sent_ more, served n sent_ /\
  (exists tail, sent_ ++ more = all s p ++ tail) /\ (over n -> more = []) /\
  (over n -> Forall (fun inc => is_Some (content inc)) (incoming <$> files p)).
Proof.
  intros HP Hi. destruct (HP Hi) as [[k [Hle Ha Ho _ _]]|[Hno (sent_ & more & Hs & Ha)]].
  - destruct (served_more k n _ ltac:(lia) Ha) as [more Hm]. exists (all s p ++ more), [].
    split; [done|]. split; [exists more; by rewrite app_nil_r|]. done.
  - exists sent_, more. split; [done|]. split; [exists []; by rewrite Ha, app_nil_r|]. done.
Qed.
End Indexed.

(** C16: with an index, as long as it serves, and while the files of the bundles it
    answers for are there when they are looked for: whatever the schedule of the
    goroutines, the handler got, in order, a beginning of the blocks that serve what
    the index, the whitelist, the start and the stop block ask for in these bundles
    (each block being the first at or above some number that is asked for), each
    once; when the bundle of the stop block is the last of them nothing follows,
    the handler got all of them when the source was stopped by its mark, and [run]
    is never stuck. *)
Theorem indexed_pipeline_serves {O} `{Protocol} `{DBin} `{Store} `{BlockIndexProvider} {HS} (handler : Handler O HS)
  (s : FileSource O) late prep base blocks n hs p0 ls p :
  lowBoundary (startBlockNum s) (bundleSize s) = Ok base -> indexed s late base blocks n ->
  (forall b, preprocess s b = Ok (prep b)) -> init s hs = Ok p0 -> schedule (fire handler s late) ls p0 = Some p ->
  Forall (found s base n) ls -> index p = true ->
  exists sent, served s base blocks n sent /\
    (exists k more, fs_next (running p) = (offer handler prep (take k (sent ++ more)) hs).2 /\ (over s base n -> more = [])) /\
    (over s base n -> Forall quiet ls -> quiet_handler handler -> shutdown p = Some (Some ErrStopBlockReached) ->
      fs_next (running p) = (offer handler prep sent hs).2) /\
    (over s base n -> crashed p = false -> main p <> Returned ->
      can_go handler s late p \/ IsTerminating p = false /\ exists b wl, launch p = Looking b wl).
Proof.
  intros Eb HI Hprep E0 E Hls Hi.
  assert (Hinv : inv handler s (mkRunning "" hs) p) by (eapply (schedule_inv _ _ _ _ _ (init_inv handler s hs p0 E0)), E; intros a q q' Hq; by eapply fire_inv).
  assert (HS0 : shaped p) by (eapply (schedule_inv _ _ _ _ _ (init_shaped s hs p0 E0)), E; intros a q q' Hq; by eapply fire_shaped).
  assert (HP : planned s base blocks n p).
  { eapply (schedule_inv_on _ (found s base n) _ _ _ _ Hls), E; [by eapply init_planned|]. intros a q q' Ha Hq Eq. by eapply fire_planned. }
  destruct (planned_sent s late base blocks n HI p HP Hi) as (sent & more & Hsent & [tail Et] & Hmore & Hopen). exists sent. split; [done|]. split; [|split].
  - destruct (i_frozen _ _ _ _ Hinv) as [_ (k & Hk & Ek)]. unfold fed in Ek.
    destruct (handle_offer handler s prep (order p) (take k (all s p)) Hprep (mkRunning "" hs)) as (j & Ej & _).
    rewrite <- Ek, take_take in Ej. exists (min j k), more. split; [|done]. by rewrite Et, take_app_le by lia.
  - intros Ho Hq Hh Hs.
    set (P q := inv handler s (mkRunning "" hs) q /\ planned s base blocks n q /\
      (index q = true -> complete handler s (all_served s base blocks n) (mkRunning "" hs) q)).
    assert (HC : P p).
    { eapply (schedule_inv_on _ (fun a => found s base n a /\ quiet a) P _ _ _ (proj2 (Forall_and _ _) (conj Hls Hq))), E.
      - split; [by apply init_inv|]. split; [by eapply init_planned|]. intros _. unfold init in E0. rewrite Eb in E0. by injection E0 as <-.
      - intros a q q' [Hf Ha] (HIq & HPq & HCq) Eq. split; [by eapply fire_inv|]. split; [by eapply fire_planned|].
        intros Hi'. pose proof (fire_index _ _ _ _ _ _ Eq Hi') as Hiq. eapply fire_complete; eauto.
        intros e He. by eapply marked_served. }
    destruct HC as (_ & _ & HC). destruct (HC Hi Hs) as (_ & _ & Hall & Hf). specialize (Hall Ho). unfold fed in Hf.
    destruct (handle_offer handler s prep (order p) (all s p) Hprep (mkRunning "" hs)) as (k & Ek & Hk).
    rewrite Hf in Ek, Hk. cbn [fst snd fs_next] in Ek, Hk. destruct (Hk eq_refl) as [-> _]. rewrite take_ge in Ek by done. rewrite Ek.
    f_equal. f_equal. eapply served_unique; [exact HI| |exact Hsent]. revert Hall. by rewrite <- list_fmap_compose.
  - intros Ho Hc Hm. eapply run_goes_on; try done; [intros b; by rewrite Hprep|]. intros i f Hf.
    specialize (Hopen Ho). rewrite Forall_fmap, Forall_lookup in Hopen. by eapply Hopen.
Qed.

(** *** The example: bundles of five numbers, the second of which is not asked for *)

Section Example.
#[local] Existing Instance FileSourceProps.proto0.
#[local] Existing Instance FileSourceProps.ex_dbin.

(** The blocks 2 to 4, 5 to 7 and 10 to 12. *)
#[local] Instance ix_store : Store := {|
  WalkFrom := fun _ _ => ([], None); Walk := fun _ => ([], None);
  OpenObject := fun name =>
    if decide (name = "0000000000") then Ok "234" else if decide (name = "0000000005") then Ok "567" else Ok ":;<";
|}.

Definition ix_source : FileSource unit := mkFileSource 2 11 5 None 0 0 true false ∅ 0.
Definition ix_first : state unit (list (event unit)) := mkState true (Looking 0 ∅) [] [] Starting false None false (mkRunning "" []).
Definition everywhere (name : string) : outcome bool := Ok true.

Section Served.
#[local] Instance ix_index : BlockIndexProvider := {|
  BlocksInRange := fun b _ => Ok (if b =? 0 then Some [3] else if b =? 10 then Some [10; 12] else None) |}.

Definition ix_clock : list bool := [false; false; false].
Definition ix_schedule : list action := greedy (greedy_actions everywhere) (fire recorder ix_source ix_clock) 100 ix_first.
Definition ix_bundles (i : nat) : list Block := ex_digit <$> default [] ([["2"; "3"; "4"]; ["5"; "6"; "7"]; [":"; ";"; "<"]]%char !! i).

Lemma ix_indexed : indexed ix_source ix_clock 0 ix_bundles 3.
Proof.
  split.
  - done.
  - done.
  - done.
  - done.
  - by intros [|[|[|i]]] ?; [..|lia].
  - intros [|[|[|i]]] ?; [..|lia]; (split; [done|]); (split; [repeat constructor|]); repeat constructor; by vm_compute.
  - intros [|[|[|i]]] ?; [..|lia]; (split; [by vm_compute|]); (split; repeat constructor; by vm_compute).
Qed.

Lemma ix_run : outcome_of <$> schedule (fire recorder ix_source ix_clock) ix_schedule ix_first =
  Some (2%nat, Some (Some ErrStopBlockReached), ["2a"; "3a"; ":a"; ";a"]).
Proof. by vm_compute. Qed.

Lemma ix_over : over ix_source 0 3.
Proof. by vm_compute. Qed.

Lemma indexed_pipeline_serves_witness : exists p sent,
  schedule (fire recorder ix_source ix_clock) ix_schedule ix_first = Some p /\ served ix_source 0 ix_bundles 3 sent /\
  fs_next (running p) = (offer recorder ex_prep sent []).2 /\
  Id <$> (reverse (fs_next (running p))).*1 = ["2a"; "3a"; ":a"; ";a"].
Proof.
  pose proof ix_run as Er. destruct (schedule (fire recorder ix_source ix_clock) ix_schedule ix_first) as [p|] eqn:E; [|discriminate Er].
  assert (Hi : index p = true).
  { assert (index <$> schedule (fire recorder ix_source ix_clock) ix_schedule ix_first = Some true) as Hi by (vm_compute; reflexivity).
    rewrite E in Hi. by injection Hi. }
  unfold outcome_of in Er. cbn [fmap option_fmap option_map] in Er. injection Er as Hl Hs Hids.
  destruct (indexed_pipeline_serves recorder ix_source ix_clock ex_prep 0 ix_bundles 3 [] ix_first ix_schedule p
    eq_refl ix_indexed ltac:(done) eq_refl E ltac:(apply greedy_only; by repeat constructor) Hi) as (sent & Hsent & _ & Hall & _).
  exists p, sent. split; [reflexivity|]. split; [exact Hsent|]. split; [|exact Hids].
  apply (Hall ix_over); [apply greedy_only; by repeat constructor|done|exact Hs].
Defined.
End Served.

(** An index that answers for the first bundle only. *)
Section Ended.
#[local] Instance short_index : BlockIndexProvider := {|
  BlocksInRange := fun b _ => if b =? 0 then Ok (Some [4]) else Err (EMsg "no index") |}.

(** [run] looks whether there is an index once the launcher runs: when the launcher
    has given the index up by then, [run] refuses the blocks of a bundle that was
    launched through the index. *)
Lemma given_up_before_start :
  (fun p => (shutdown p, Id <$> (fs_next (running p)).*1)) <$>
    schedule (fire recorder ix_source []) [Look everywhere; Launch; Look everywhere; Start; NextFile; Read 0; Read 0; Read 0; Preprocess 0 AtForwarder;
      Forward 0; Range; Read 0; Read 0; Read 0; Preprocess 0 AtForwarder; Forward 0; Range] ix_first =
    Some (Some (Some not_sequential), ["2a"]) /\
  (fun p => (shutdown p, Id <$> (fs_next (running p)).*1)) <$>
    schedule (fire recorder ix_source []) [Start; Look everywhere; Launch; Look everywhere; NextFile; Read 0; Read 0; Read 0; Preprocess 0 AtForwarder;
      Forward 0; Range; Read 0; Read 0; Read 0; Preprocess 0 AtForwarder; Forward 0; Range] ix_first =
    Some (None, ["4a"; "2a"]).
Proof. split; by vm_compute. Qed.
End Ended.

(** Once the index is given up nobody checks that the blocks follow one another. *)
Section Unchecked.
#[local] Instance no_answer : BlockIndexProvider := {| BlocksInRange := fun _ _ => Err (EMsg "no index") |}.
#[local] Instance gap_store : Store := {|
  WalkFrom := fun _ _ => ([], None); Walk := fun _ => ([], None);
  OpenObject := fun name => if decide (name = "0000000000") then Ok "24" else Ok ":;<";
|}.

Lemma unchecked_after_index :
  let s := FileSourceWithStopBlock 4 (FileSourceWithBundleSize 5 (NewFileSource (O:=unit) 2 [])) in
  (run everywhere recorder s [] 3 []).1 = Err not_sequential /\
  let '(r, q) := run everywhere recorder (FileSourceWithBlockIndexProvider s) [] 3 [] in
  r = Err ErrStopBlockReached /\ (fun ev => (Id ev.1, ParentId ev.1)) <$> reverse (fs_next q) = [("2a", "1a"); ("4a", "3a")].
Proof. by vm_compute. Qed.
End Unchecked.
End Example.
