(* ===== verification/ForkableSim.v ===== *)
(** * The forkable is parametric in its handler

    Two handlers that never fail and keep two states related leave the forkable
    in the same state with the same outcome: what was proved of the recording
    handler holds of any handler of that kind, the hub's broadcast first. *)

From S2P Require Import Prelude Loops GoStrings Types ForkDB Forkable.

Section Sim.
Context {O HS1 HS2 : Type} `{Protocol} (cfg : Config).
Context (h1 : Handler O HS1) (h2 : Handler O HS2) (R : HS1 -> HS2 -> Prop).
Context (agree : forall b o s1 s2, R s1 s2 ->
  exists s1' s2', h1 b o s1 = (None, s1') /\ h2 b o s2 = (None, s2') /\ R s1' s2').

(** The same forkable with another handler state. *)
Definition with_hstate {A B} (s : B) (p : Forkable O A) : Forkable O B :=
  mkForkable (heap p) s (forkDB p) (lastBlockSent p) (lastLIBSeen p) (ensureBlockFlowed p)
    (consecutiveUnlinkableBlocks p) (unlinkableBlocksSince p) (lastLongestChain p).

(** The two forkables agree but for the states of their handlers, which are
    related. *)
Definition similar (p : Forkable O HS1) (q : Forkable O HS2) : Prop :=
  q = with_hstate (hstate q) p /\ R (hstate p) (hstate q).

Definition sim {A} (m1 : M (Forkable O HS1) A) (m2 : M (Forkable O HS2) A) : Prop :=
  forall p q, similar p q -> (m1 p).1 = (m2 q).1 /\ similar (m1 p).2 (m2 q).2.

Lemma sim_ret {A} (a : A) : sim (mret a) (mret a).
Proof. by split. Qed.

Lemma sim_lift {A} (m : outcome A) : sim (mlift m) (mlift m).
Proof. by split. Qed.

Lemma sim_bind {A B} (m1 : M (Forkable O HS1) A) m2 (k1 : A -> M (Forkable O HS1) B) k2 :
  sim m1 m2 -> (forall a, sim (k1 a) (k2 a)) -> sim (m1 ≫= k1) (m2 ≫= k2).
Proof.
  intros Hm Hk p q Hpq. destruct (Hm p q Hpq) as [E Hs]. unfold mbind, M_bind.
  destruct (m1 p) as [r1 p1], (m2 q) as [r2 q1]. cbn in E, Hs. subst r2.
  destruct r1 as [a|e|w|]; try by split. by apply Hk.
Qed.

(** Reading the state: the continuation sees two similar states. *)
Lemma sim_get {B} (k1 : Forkable O HS1 -> M (Forkable O HS1) B) k2 :
  (forall p q, similar p q -> sim (k1 p) (k2 q)) -> sim (mget ≫= k1) (mget ≫= k2).
Proof. intros Hk p q Hpq. rewrite !bind_mget. by apply Hk. Qed.

Lemma sim_modify f g : (forall p q, similar p q -> similar (f p) (g q)) -> sim (mmodify f) (mmodify g).
Proof. intros Hf p q Hpq. split; [done|]. by apply Hf. Qed.

Lemma sim_mfor {A} (l : list A) (b1 : A -> M (Forkable O HS1) unit) b2 :
  (forall a, sim (b1 a) (b2 a)) -> sim (mfor l b1) (mfor l b2).
Proof. intros Hb. induction l; [apply sim_ret|]. apply sim_bind; [done|]. by intros _. Qed.

Lemma sim_wrap {A} (m1 : M (Forkable O HS1) A) m2 : sim m1 m2 -> sim (wrap_process m1) (wrap_process m2).
Proof.
  intros Hm p q Hpq. destruct (Hm p q Hpq) as [E Hs]. unfold wrap_process.
  destruct (m1 p) as [r1 p1], (m2 q) as [r2 q1]. cbn in E, Hs. subst r2. by destruct r1.
Qed.

Lemma similar_core p q : similar p q -> exists s, q = with_hstate s p /\ R (hstate p) s.
Proof. intros [E HR]. by exists (hstate q). Qed.
End Sim.

(** Reduces a pair of similar states to one state and two handler states. *)
Ltac core Hs := let s := fresh "s" in let HR := fresh "HR" in
  destruct (similar_core _ _ _ Hs) as (s & -> & HR); cbn [with_hstate heap hstate forkDB lastBlockSent lastLIBSeen
    ensureBlockFlowed consecutiveUnlinkableBlocks unlinkableBlocksSince lastLongestChain] in *.

Ltac sim_step :=
  first
    [ apply sim_ret | apply sim_lift
    | apply sim_get; let Hs := fresh in intros ? ? Hs; core Hs
    | apply sim_modify; let Hs := fresh in intros ? ? Hs; core Hs; by split
    | apply sim_bind; [|intros ?] ].

Section Forkable.
Context {O HS1 HS2 : Type} `{Protocol} (cfg : Config).
Context (h1 : Handler O HS1) (h2 : Handler O HS2) (R : HS1 -> HS2 -> Prop).
Context (agree : forall b o s1 s2, R s1 s2 ->
  exists s1' s2', h1 b o s1 = (None, s1') /\ h2 b o s2 = (None, s2') /\ R s1' s2').
Notation sim := (sim (O := O) R).

Lemma sim_call b fo : sim (call_handler h1 b fo) (call_handler h2 b fo).
Proof.
  intros p q Hs. core Hs. unfold call_handler. cbn.
  destruct (agree b (IForkable fo) _ _ HR) as (s1 & s2 & E1 & E2 & HR'). rewrite E1, E2. by split.
Qed.

Lemma sim_read o : sim (read_fb o) (read_fb o).
Proof. intros p q Hs. core Hs. by split. Qed.

Lemma sim_mark l : sim (mark_sent l) (mark_sent l).
Proof. intros p q Hs. core Hs. unfold mark_sent. cbn. destruct (heap p !! l); by split. Qed.

Lemma sim_alloc b : sim (alloc_fb b) (alloc_fb b).
Proof. intros p q Hs. core Hs. by split. Qed.

Lemma sim_blockFlowed r : sim (mmodify (blockFlowed cfg r)) (mmodify (blockFlowed cfg r)).
Proof.
  apply sim_modify. intros p q Hs. core Hs. unfold blockFlowed. cbn.
  repeat case_bool_decide; try (by split); destruct (ensureBlockFlowed p); by split.
Qed.

Lemma sim_processBlocks idx cur objs blocks step rj :
  sim (processBlocks_from h1 idx cur objs blocks step rj) (processBlocks_from h2 idx cur objs blocks step rj).
Proof.
  revert idx. induction blocks as [|b bs IH]; intros idx; [apply sim_ret|]. cbn [processBlocks_from].
  sim_step. sim_step; [apply sim_wrap, sim_call|apply IH].
Qed.

Lemma sim_processNewBlocks chain : sim (processNewBlocks cfg h1 chain) (processNewBlocks cfg h2 chain).
Proof.
  unfold processNewBlocks. destruct (last chain); [|by split].
  apply sim_mfor. intros b. unfold processNewBlock. sim_step; [apply sim_read|].
  destruct (sentAsNew _); [apply sim_ret|]. sim_step.
  - destruct (matchFilter cfg StepNew); [|apply sim_ret]. sim_step. apply sim_call.
  - sim_step; [apply sim_blockFlowed|]. sim_step; [|sim_step].
    destruct (Object b); [apply sim_mark|apply sim_ret].
Qed.

Lemma sim_read_all l : sim (read_all l) (read_all l).
Proof.
  induction l as [|b l IH]; [apply sim_ret|]. cbn [read_all].
  sim_step; [apply sim_read|]. sim_step; [exact IH|apply sim_ret].
Qed.

Lemma sim_processIrreversible chain hd :
  sim (processIrreversibleSegment cfg h1 chain hd) (processIrreversibleSegment cfg h2 chain hd).
Proof.
  unfold processIrreversibleSegment. sim_step; [|destruct (last chain); sim_step].
  destruct (matchFilter cfg StepIrreversible); [|apply sim_ret]. sim_step; [apply sim_read_all|].
  generalize 0. generalize (Z.of_nat (length chain)). intros n. revert n.
  induction chain as [|b bs IH]; intros n idx; [apply sim_ret|]. cbn [processIrreversible_from].
  sim_step; [apply sim_read|]. sim_step; [apply sim_call|apply IH].
Qed.

Lemma sim_processStalled chain hd :
  sim (processStalledSegment cfg h1 chain hd) (processStalledSegment cfg h2 chain hd).
Proof.
  unfold processStalledSegment. destruct (matchFilter cfg StepStalled); [|apply sim_ret].
  sim_step; [apply sim_read_all|]. generalize 0. generalize (Z.of_nat (length chain)). intros n. revert n.
  induction chain as [|b bs IH]; intros n idx; [apply sim_ret|]. cbn [processStalled_from].
  sim_step; [apply sim_read|]. sim_step. sim_step; [apply sim_call|apply IH].
Qed.

Lemma sim_initial b o s : sim (processInitialInclusiveIrreversibleBlock cfg h1 b o s)
  (processInitialInclusiveIrreversibleBlock cfg h2 b o s).
Proof.
  unfold processInitialInclusiveIrreversibleBlock. sim_step; [apply sim_alloc|].
  sim_step; [|apply sim_processIrreversible]. destruct s; [apply sim_processNewBlocks|apply sim_ret].
Qed.

Lemma sim_compute l b : sim (computeNewLongestChain cfg l b) (computeNewLongestChain cfg l b).
Proof.
  unfold computeNewLongestChain. sim_step. sim_step; [|sim_step; sim_step].
  unfold targetChainBlock. cbn. destruct (match lastLongestChain _ with Some _ => _ | None => _ end);
    [apply sim_ret|]. sim_step; [apply sim_lift|]. destruct a. apply sim_ret.
Qed.

Lemma sim_checkUnlinkable now later ch : sim (checkUnlinkable cfg now later ch) (checkUnlinkable cfg now later ch).
Proof.
  unfold checkUnlinkable. destruct (_ || _); [|apply sim_ret]. sim_step.
  destruct (_ && HasLIB _); [|sim_step]. cbv zeta. sim_step; [sim_step|].
  destruct (_ && _); [by split|apply sim_ret].
Qed.

Lemma sim_advanceLIB b first : sim (advanceLIB cfg h1 b first) (advanceLIB cfg h2 b first).
Proof.
  unfold advanceLIB. sim_step. destruct (lastBlockSent _); [|apply sim_ret].
  destruct (negb _); [apply sim_ret|]. cbv zeta. sim_step; [apply sim_lift|].
  case_decide; [apply sim_ret|]. sim_step; [apply sim_lift|]. destruct a0 as [[hasNew seg] st].
  destruct (_ && _); [apply sim_ret|]. sim_step; [sim_step|]. sim_step; [sim_step|].
  sim_step; [apply sim_processIrreversible|apply sim_processStalled].
Qed.

Lemma sim_sendChain b undos redos rj chain : sim (sendChain cfg h1 b undos redos rj chain) (sendChain cfg h2 b undos redos rj chain).
Proof.
  unfold sendChain. sim_step; [destruct (matchFilter cfg StepUndo); [apply sim_processBlocks|apply sim_ret]|].
  sim_step; [destruct (matchFilter cfg StepNew); [apply sim_processBlocks|apply sim_ret]|].
  apply sim_processNewBlocks.
Qed.

Lemma sentChainSegment_with (p : Forkable O HS1) (s : HS2) ids redos :
  sentChainSegment (with_hstate s p) ids redos = sentChainSegment p ids redos.
Proof.
  induction ids as [|id ids IH]; [done|]. cbn. rewrite IH. done.
Qed.

Lemma sentChainSwitch_with (p : Forkable O HS1) (s : HS2) a b :
  sentChainSwitchSegments (with_hstate s p) a b = sentChainSwitchSegments p a b.
Proof.
  unfold sentChainSwitchSegments. case_decide; [done|]. cbn [forkDB with_hstate].
  destruct (ChainSwitchSegments _ _ _) as [[[undo redo] j]|e|w|]; [|done..]. cbn.
  by rewrite !sentChainSegment_with.
Qed.

Definition go_on {HS} (h : Handler O HS) now later b l first (triggers : bool) undos redos rj
  : M (Forkable O HS) unit :=
  longestChain ← computeNewLongestChain cfg l b;
  _ ← checkUnlinkable cfg now later longestChain;
  match longestChain with
  | Some ((_ :: _) as chain) =>
      if negb triggers then mret tt
      else _ ← sendChain cfg h b undos redos rj chain; advanceLIB cfg h b first
  | _ => mret tt
  end.

Lemma sim_continue now later b l first triggers undos redos rj :
  sim (go_on h1 now later b l first triggers undos redos rj)
      (go_on h2 now later b l first triggers undos redos rj).
Proof.
  unfold go_on. sim_step; [apply sim_compute|]. sim_step; [apply sim_checkUnlinkable|].
  destruct a as [[|nb c]|]; [apply sim_ret| |apply sim_ret]. destruct (negb _); [apply sim_ret|].
  sim_step; [apply sim_sendChain|apply sim_advanceLIB].
Qed.

Lemma sim_ProcessBlock now later b o :
  sim (ProcessBlock cfg h1 now later b o) (ProcessBlock cfg h2 now later b o).
Proof.
  unfold ProcessBlock. case_decide; [by split|]. sim_step. destruct (_ && bool_decide _); [apply sim_ret|].
  cbv zeta. unfold triggersNewLongestChain. cbn.
  destruct (_ && bool_decide (Id b = _)); [apply sim_initial|]. sim_step; [apply sim_alloc|].
  sim_step. { destruct (lastBlockSent _); [|apply sim_ret]. destruct (_ && _); [|apply sim_ret].
    rewrite sentChainSwitch_with. apply sim_lift. }
  destruct a0 as [[undos redos] rj]. sim_step. destruct (AddLink _ _ _ _) as [[ex ?] db].
  sim_step; [sim_step|]. destruct ex; [apply sim_ret|]. unfold afterAddLink. cbv zeta.
  sim_step. destruct (HasLIB _); [apply sim_continue|]. sim_step; [apply sim_lift|]. sim_step; [sim_step|].
  destruct (HasLIB a1); [destruct (_ =? _); [apply sim_initial|apply sim_continue]|].
  destruct (holdBlocksUntilLIB cfg); [apply sim_ret|apply sim_continue].
Qed.
End Forkable.
