(* ===== verification/Hub.v ===== *)
(** * The hub ([hub/hub.go], [hub/subscription.go], [hub/blockstream.go])

    The hub keeps one forkable near the head, broadcasts its events to the
    subscriptions and starts a new subscription with the blocks a client misses.
    A subscription is a queue of bounded size read by its own goroutine: its
    steps are explicit here ([run_step]), in any interleaving with the hub's.
    The subscribers live in the handler state of the forkable, as pointers. *)

From S2P Require Import Prelude GoStrings Types ForkDB Forkable ForkableQueries OneBlockFiles.
Import OneBlockFiles.

Module Hub.

(** ** Subscriptions *)

Record Subscription (O HS : Type) := mkSubscription {
  sub_handler : Handler O HS;
  sub_state : HS;
  blocks : list (Block * iface O);
  chanSize : Z;
  terminated : option (option error);
}.
Arguments mkSubscription {O HS}. Arguments sub_handler {O HS}. Arguments sub_state {O HS}.
Arguments blocks {O HS}. Arguments chanSize {O HS}. Arguments terminated {O HS}.

Section Subscription.
Context {O HS : Type}.
Implicit Types (s : Subscription O HS).

(** [make(chan, n)] panics on a negative size. *)
Definition NewSubscription (handler : Handler O HS) (hs : HS) (size : Z) : outcome (Subscription O HS) :=
  if size <? 0 then Panic "makechan: size out of range"
  else Ok (mkSubscription handler hs [] size None).

Definition set_blocks (l : list (Block * iface O)) s :=
  mkSubscription (sub_handler s) (sub_state s) l (chanSize s) (terminated s).

Definition push s (ppblk : Block * iface O) : outcome (Subscription O HS) :=
  if Z.of_nat (length (blocks s)) =? chanSize s
  then Err (EMsg "subscription channel at max capacity")
  else Ok (set_blocks (blocks s ++ [ppblk]) s).

(** [Shutter.Shutdown]: only the first call counts. *)
Definition Shutdown (err : option error) s :=
  mkSubscription (sub_handler s) (sub_state s) (blocks s) (chanSize s)
    (match terminated s with Some e => Some e | None => Some err end).

(** One turn of [run]: nothing when the subscription is terminating, or while
    its queue is empty. *)
Definition run_step s : Subscription O HS :=
  match terminated s, blocks s with
  | Some _, _ | _, [] => s
  | None, (blk, obj) :: rest =>
      match sub_handler s blk obj (sub_state s) with
      | (None, hs) => mkSubscription (sub_handler s) hs rest (chanSize s) None
      | (Some e, hs) => mkSubscription (sub_handler s) hs rest (chanSize s) (Some (Some e))
      end
  end.
End Subscription.

(** ** The subscribers of a hub *)

Record HubState (O HS : Type) := mkHubState {
  subscribers : list loc;
  sub_heap : gmap loc (Subscription O HS);
}.
Arguments mkHubState {O HS}. Arguments subscribers {O HS}. Arguments sub_heap {O HS}.

Section Subscribers.
Context {O HS : Type}.
Implicit Types (hs : HubState O HS).

Definition unsubscribe (removeSub : loc) hs : HubState O HS :=
  mkHubState (filter (fun l => l <> removeSub) (subscribers hs)) (sub_heap hs).

Definition set_sub (l : loc) (s : Subscription O HS) hs : HubState O HS :=
  mkHubState (subscribers hs) (<[l := s]> (sub_heap hs)).

Definition push_to (ppblk : Block * iface O) hs (l : loc) : HubState O HS :=
  match sub_heap hs !! l with
  | None => hs
  | Some s =>
      match push s ppblk with
      | Ok s' => set_sub l s' hs
      | Err e => set_sub l (Shutdown (Some e) s) (unsubscribe l hs)
      | _ => hs
      end
  end.

(** The loop runs over the slice of subscribers it started with. *)
Definition broadcastBlock : Handler O (HubState O HS) := fun blk obj hs =>
  (None, foldl (push_to (blk, obj)) hs (subscribers hs)).

Definition shutdown_all (err : option error) hs : HubState O HS :=
  mkHubState (subscribers hs)
    (foldl (fun m l => alter (Shutdown err) l m) (sub_heap hs) (subscribers hs)).
End Subscribers.

(** ** The hub *)

Record ForkableHub (O HS : Type) := mkHub {
  forkable : Forkable O (HubState O HS);
  config : Config;
  keepFinalBlocks : Z;
  sourceChannelSize : Z;
  Ready : bool;
  hub_down : option (option error);
}.
Arguments mkHub {O HS}. Arguments forkable {O HS}. Arguments config {O HS}.
Arguments keepFinalBlocks {O HS}. Arguments sourceChannelSize {O HS}. Arguments Ready {O HS}.
Arguments hub_down {O HS}.

(** [strconv.Atoi]: the value returned next to an error is 0 or the bound. *)
Definition Atoi (s : string) : Z * option error :=
  match ParseInt s with
  | Ok v => (v, None)
  | Err e =>
      (if decide (e = EMsg "value out of range")
       then (if HasPrefix s "-" then - two63 else two63 - 1) else 0, Some e)
  | _ => (0, None)
  end.

Section Hub.
Context {O HS : Type} `{Protocol} `{DBin} `{Store}.
Implicit Types (h : ForkableHub O HS).

(** [env] is the variable [SOURCE_CHAN_SIZE]. *)
Definition NewForkableHub (env : string) (keep : Z)
  (extraForkableOptions : list (Option_ (O := O) (HS := HubState O HS))) : ForkableHub O HS :=
  let sourceChanSize := if decide (env = "") then 100 else (Atoi env).1 in
  let '(cfg, p) := New (mkHubState [] ∅)
                     ([HoldBlocksUntilLIB; WithKeptFinalBlocks keep] ++ extraForkableOptions) in
  mkHub p cfg keep sourceChanSize false None.

Definition set_forkable (p : Forkable O (HubState O HS)) h : ForkableHub O HS :=
  mkHub p (config h) (keepFinalBlocks h) (sourceChannelSize h) (Ready h) (hub_down h).
Definition set_ready h : ForkableHub O HS :=
  mkHub (forkable h) (config h) (keepFinalBlocks h) (sourceChannelSize h) true (hub_down h).

Definition IsReady h : bool := Ready h.

(** *** Queries; a nil hub answers as one that is not ready *)

Definition Hub_LowestBlockNum (h : option (ForkableHub O HS)) : outcome Z :=
  match h with
  | Some h => if IsReady h then ForkableQueries.LowestBlockNum (forkable h) else Ok 0
  | None => Ok 0
  end.

Definition Hub_HeadInfo (h : option (ForkableHub O HS)) : outcome (Z * string * option Z * Z) :=
  match h with
  | Some h => if IsReady h then ForkableQueries.HeadInfo (forkable h) else Err (EMsg "not ready")
  | None => Err (EMsg "not ready")
  end.

Definition Hub_HeadNum (h : option (ForkableHub O HS)) : Z :=
  match h with
  | Some h => if IsReady h then ForkableQueries.HeadNum (forkable h) else 0
  | None => 0
  end.

Definition MatchSuffix h (req : string) : bool :=
  existsb (fun id => HasSuffix id req) (AllIDs (forkable h)).

(** [nums] and [objects] are the orders in which Go iterates the two maps. *)
Definition GetBlock (nums : list (string * Z)) h (num : Z) (id : string) : outcome (option Block) :=
  if decide (id = "") then CanonicalBlockAt (forkable h) num
  else
    blks ← AllBlocksAt nums (forkable h) num;
    Ok (List.find (fun blk => bool_decide (id = Id blk)) blks).

Definition Hub_GetBlockByHash h (id : string) : outcome (option Block) :=
  ForkableQueries.GetBlockByHash (forkable h) id.

(** *** Sources *)

(** The channel is large enough for the first blocks: no push fails. *)
Definition subscribe (size : Z) (handler : Handler O HS) (hs0 : HS) (initialBlocks : list (Block * iface O))
  (hs : HubState O HS) : outcome (loc * HubState O HS) :=
  sub ← NewSubscription handler hs0 (i64 (size + Z.of_nat (length initialBlocks)));
  let l := fresh (dom (sub_heap hs)) in
  let sub' := foldl (fun s b => match push s b with Ok s' => s' | _ => s end) sub initialBlocks in
  Ok (l, mkHubState (subscribers hs ++ [l]) (<[l := sub']> (sub_heap hs))).

(** [h.subscribers = append(h.subscribers, sub)] in two statements: the callers hold
    the read lock of the forkable only, and two calls of [subscribe] may be between
    them at the same time. *)
Inductive appending := Created (l : loc) | Read (l : loc) (seen : list loc) | Subscribed.

Definition append_step (a : appending) (hs : HubState O HS) : appending * HubState O HS :=
  match a with
  | Created l => (Read l (subscribers hs), hs)
  | Read l seen => (Subscribed, mkHubState (seen ++ [l]) (sub_heap hs))
  | Subscribed => (Subscribed, hs)
  end.

(** The source is a subscription, or nil after an error of the forkable. *)
Definition subscribed h (r : outcome (outcome (loc * HubState O HS))) : outcome (option loc * ForkableHub O HS) :=
  match r with
  | Ok (Ok (l, hs)) => Ok (Some l, set_forkable (set_hstate hs (forkable h)) h)
  | Ok (Err e) => Err e
  | Err _ => Ok (None, h)
  | Ok (Panic w) | Panic w => Panic w
  | Ok Diverge | Diverge => Diverge
  end.

Section Sources.
Context (handler : Handler O HS) (hs0 : HS) (nums : list (string * Z)).

Definition subscribe_all h (blks : list (Block * iface O)) (_ : outcome (loc * HubState O HS))
  : outcome (loc * HubState O HS) :=
  subscribe (sourceChannelSize h) handler hs0 blks (hstate (forkable h)).

Definition nothing : outcome (loc * HubState O HS) := Panic "not called".

Definition SourceFromBlockNum h (num : Z) : outcome (option loc * ForkableHub O HS) :=
  subscribed h (CallWithBlocksFromNum nums (forkable h) num (subscribe_all h) false nothing).

Definition SourceFromBlockNumWithForks h (num : Z) : outcome (option loc * ForkableHub O HS) :=
  subscribed h (CallWithBlocksFromNum nums (forkable h) num (subscribe_all h) true nothing).

Definition SourceFromCursor h (cursor : Cursor) : outcome (option loc * ForkableHub O HS) :=
  subscribed h (CallWithBlocksFromCursor (forkable h) cursor (subscribe_all h) nothing).

Definition SourceThroughCursor h (startBlock : Z) (cursor : Cursor)
  : outcome (option loc * ForkableHub O HS) :=
  block ← deref (cBlock cursor);
  if Num block <? startBlock then SourceFromBlockNum h startBlock
  else subscribed h
         (CallWithBlocksThroughCursor (forkable h) startBlock cursor (subscribe_all h) nothing).
End Sources.

(** *** Feeding the forkable *)

Notation HM := (M (ForkableHub O HS)).

(** The two readings of the clock for a block; Go's orders of the map of
    objects. *)
Context (clock : Block -> Z * Z) (objects_order : ForkDB loc -> list (string * option loc)).

Definition process (blk : Block) (obj : option O) : HM unit := fun h =>
  let '(r, p) := Forkable.ProcessBlock (config h) broadcastBlock (clock blk).1 (clock blk).2 blk obj
                   (forkable h) in
  (r, set_forkable p h).

Definition decodeOneBlockFromFilename (filename : string) : outcome (option Block) :=
  data ← wrap "fetching from block store" (OpenObject filename);
  DecodeOneblockfileData data.

(** [h.forkable.GetBlockByHashSuffix(id)] is a block with this number. *)
Definition known h (suffixID : string) (num : Z) : outcome bool :=
  availableBlock ← GetBlockByHashSuffix (objects_order (forkDB (forkable h))) (forkable h) suffixID;
  Ok (match availableBlock with Some b => Number b =? num | None => false end).

Definition decode (filename : string) : outcome Block :=
  b ← wrap "decoding from block store" (decodeOneBlockFromFilename filename); deref b.

Definition WalkOneBlocksStore : outcome (list string) :=
  match Walk "" with (_, Some e) => Err (EWrap "walking through one blocks files" e) | (l, None) => Ok l end.

Definition WalkOneBlocksStoreFrom (startingBlock : Z) : outcome (list string) :=
  match WalkFrom "" (fmt_010d startingBlock) with
  | (_, Some e) => Err (EWrap "walking through one blocks files" e)
  | (l, None) => Ok l
  end.

Definition substractAndRoundDownBlocks (blknum sub : Z) : Z :=
  let out := (if blknum <? sub then 0 else blknum - sub) / 100 * 100 in
  if out <? GetProtocolFirstStreamableBlock then GetProtocolFirstStreamableBlock else out.

(** The loop of [bootstrap] over the files: the blocks it processed. *)
Fixpoint bootstrap_files (lowestBlockNum : Z) (files : list string) (oneBlocksAboveLibRef : list Block)
  : HM (list Block) :=
  match files with
  | [] => mret oneBlocksAboveLibRef
  | filename :: files' =>
      '(blockNumFromFile, suffixID, _, _, _) ← mlift (wrap "parsing filename" (ParseFilename filename));
      if blockNumFromFile <? lowestBlockNum then bootstrap_files lowestBlockNum files' oneBlocksAboveLibRef
      else
        h ← mget;
        already ← mlift (known h suffixID blockNumFromFile);
        if already : bool then bootstrap_files lowestBlockNum files' oneBlocksAboveLibRef
        else
          currentBlock ← mlift (decode filename);
          _ ← (fun h => let '(r, h') := process currentBlock None h in (wrap "processing block" r, h'));
          bootstrap_files lowestBlockNum files' (oneBlocksAboveLibRef ++ [currentBlock])
  end.

Definition bootstrap : HM unit :=
  sortedOneBlocksFiles ← mlift WalkOneBlocksStore;
  match last sortedOneBlocksFiles with
  | None => merr (EMsg "no one blocks found")
  | Some mostRecentOneBlock =>
      '(_, _, _, refLibNum, _) ← mlift (wrap "parsing filename" (ParseFilename mostRecentOneBlock));
      h ← mget;
      oneBlocksAboveLibRef ←
        bootstrap_files (substractAndRoundDownBlocks refLibNum (u64 (keepFinalBlocks h)))
          sortedOneBlocksFiles [];
      match last oneBlocksAboveLibRef with
      | None => mpanic "index out of range [-1]"
      | Some lastBlock =>
          h ← mget;
          linkable ← mlift (Linkable (forkable h) lastBlock);
          if linkable : bool then mret tt else merr (EMsg "most recent one block is not linkable")
      end
  end.

(** [Run], up to the start of the live source. *)
Definition Run : HM unit := fun h =>
  match bootstrap h with
  | (Ok _, h') => (Ok tt, set_ready h')
  | (Err _, h') => (Ok tt, h')
  | r => r
  end.

Definition errRestartRequired : error := ESentinel "hub.errRestartRequired".

Fixpoint link_files (blk : Block) (files : list string) : HM unit :=
  match files with
  | [] => mret tt
  | filename :: files' =>
      '(blockNumFromFile, suffixID, _, _, _) ← mlift (wrap "parsing filename" (ParseFilename filename));
      h ← mget;
      already ← mlift (known h suffixID blockNumFromFile);
      if already : bool then link_files blk files'
      else
        blockFromFile ← mlift (decode filename);
        _ ← (if (Number blockFromFile =? LibNum blk) && ForkDBHasLib (forkable h) then
               linkable ← mlift (Linkable (forkable h) blockFromFile);
               if linkable : bool then mret tt
               else merr (EWrap "cannot link block after reconnection" errRestartRequired)
             else mret tt);
        _ ← (fun h => let '(r, h') := process blockFromFile None h in (wrap "processing block" r, h'));
        link_files blk files'
  end.

Definition linkLiveUsingOneBlocks (blk : Block) : HM unit :=
  h ← mget;
  lowest ← mlift (ForkableQueries.LowestBlockNum (forkable h));
  let lastKnownLib := if ForkDBHasLib (forkable h) then lowest else LibNum blk in
  sortedOneBlocksFiles ← mlift (WalkOneBlocksStoreFrom lastKnownLib);
  link_files blk sortedOneBlocksFiles.

(** The debug line of [ProcessBlock] asks for the lowest block number. *)
Definition ProcessBlock (blk : Block) (obj : option O) : HM unit :=
  h ← mget;
  _ ← mlift (ForkableQueries.LowestBlockNum (forkable h));
  linkable ← mlift (Linkable (forkable h) blk);
  _ ← (if linkable : bool then mret tt else linkLiveUsingOneBlocks blk);
  h ← mget;
  _ ← (if IsReady h then mret tt
       else
         linkable ← mlift (Linkable (forkable h) blk);
         if linkable : bool then mmodify set_ready else mret tt);
  process blk obj.

(** [Shutter.Shutdown] of the hub, which shuts every subscriber down. *)
Definition Hub_Shutdown (err : option error) h : ForkableHub O HS :=
  match hub_down h with
  | Some _ => h
  | None =>
      let p := forkable h in
      mkHub (set_hstate (shutdown_all err (hstate p)) p) (config h) (keepFinalBlocks h)
        (sourceChannelSize h) (Ready h) (Some err)
  end.

(** What follows the end of the live source: a shutdown, or a new live source. *)
Definition reconnect (err : option error) h : bool * ForkableHub O HS :=
  if match err with Some e => errors_Is e "hub.errRestartRequired" | None => false end
  then (false, Hub_Shutdown err h) else (true, h).

(** A turn of the goroutine of a subscription. *)
Definition read_step (l : loc) h : ForkableHub O HS :=
  let p := forkable h in let hs := hstate p in
  set_forkable (set_hstate (mkHubState (subscribers hs) (alter run_step l (sub_heap hs))) p) h.

(** ** [BlockstreamServer.Blocks] *)

(** The number the burst of a request asks for. *)
Definition burst_block h (burst : Z) : outcome Z :=
  let atLeastLowest desired :=
    lowest ← Hub_LowestBlockNum (Some h);
    Ok (if desired <? lowest then lowest else desired) in
  if burst =? -1 then '(_, _, _, libNum) ← Hub_HeadInfo (Some h); Ok libNum
  else if burst <? -1 then atLeastLowest (u64 (i64 (- burst)))
  else
    '(headNum, _, _, _) ← Hub_HeadInfo (Some h);
    atLeastLowest
      (if (headNum <? u64 burst) || (u64_sub headNum (u64 burst) <? GetProtocolFirstStreamableBlock)
       then GetProtocolFirstStreamableBlock else u64_sub headNum (u64 burst)).

(** The handler of a request sends each block to the stream of its client. *)
Definition streamHandler (Send : Block -> HS -> option error * HS) : Handler O HS := fun blk _ stream => Send blk stream.

Definition Blocks (handler : Handler O HS) (hs0 : HS) (nums : list (string * Z)) h (burst : Z)
  : outcome (loc * ForkableHub O HS) :=
  desiredBlock ← burst_block h burst;
  '(source, h') ← SourceFromBlockNumWithForks handler hs0 nums h desiredBlock;
  match source with
  | Some l => Ok (l, h')
  | None => Err (EMsg "cannot get source for request %+v")
  end.
End Hub.
End Hub.
