(* ===== verification/HubProps.v ===== *)
(** * The hub and its subscriptions together

    The forkable of a hub does what the recorded forkable of [ForkableProps.v]
    does, whatever the subscribers: every block reaches it through the hub's
    linking code, and a subscription is the log of the recorded forkable, cut
    where its queue was full. *)

From stdpp Require Import fin_maps.
From S2P Require Import Prelude Loops GoStrings Types ForkDB ForkDBFacts Forkable Consumer ForkableFacts.
From S2P Require Import ForkableInv ForkableStep ForkableSend ForkableProps ForkableQueries Resume ResumeProps.
From S2P Require Import OneBlockFiles ForkableSim Hub.
Import OneBlockFiles Hub.

(** ** The queries do not look at the handler's state *)

Section Queries.
Context {O A B : Type} `{Protocol}.
Implicit Types (p : Forkable O A).

Lemma blocksFromCursor_with p (s : B) c : blocksFromCursor (with_hstate s p) c = blocksFromCursor p c.
Proof.
  unfold blocksFromCursor. change (forkDB (with_hstate s p)) with (forkDB p).
  generalize (Step c) as step, (cBlock c) as block, (LIB c) as lib.
  generalize (Datatypes.S (walk_fuel (forkDB p))) as fuel.
  induction fuel as [|fuel IH]; intros step block lib; [done|].
  cbn [blocksFromCursor_fuel]. cbn [forkDB with_hstate lastBlockSent].
  destruct (negb _); [done|]. change (headSegment (with_hstate s p)) with (headSegment p).
  destruct (headSegment p _) as [seg|e|w|]; [|done..]. cbn [mbind outcome_bind].
  destruct seg as [|first seg]; [done|]. destruct (deref lib) as [l|e|w|]; [|done..]. cbn [mbind outcome_bind].
  destruct (_ <? _); [done|]. destruct (deref block) as [b|e|w|]; [|done..]. cbn [mbind outcome_bind].
  destruct (_ && _); [done|].
  change (undos_body (with_hstate s p)) with (undos_body p).
  destruct (joined _) as [[blockID undos]|e|w|]; [|done..]. cbn [mbind outcome_bind].
  destruct (BlockForID _ _); [|done]. by rewrite IH.
Qed.
End Queries.

(** ** The subscribers *)

Section Subscribers.
Context {O HS : Type}.
Implicit Types (hs : HubState O HS) (ev : event O).

(** Each subscriber is listed once and allocated. *)
Definition subs_wf hs : Prop :=
  NoDup (subscribers hs) /\ forall l, l ∈ subscribers hs -> is_Some (sub_heap hs !! l).

Lemma push_to_wf ev hs l : subs_wf hs -> subs_wf (push_to ev hs l).
Proof.
  intros [Hnd Hal]. unfold push_to. destruct (sub_heap hs !! l) as [s|] eqn:E; [|by split].
  unfold push. destruct (_ =? _); split; cbn [subscribers sub_heap set_sub unsubscribe].
  - by apply NoDup_filter.
  - intros k [_ Hk]%list_elem_of_filter. rewrite lookup_insert. case_decide; [by eexists|]. by apply Hal.
  - done.
  - intros k Hk. rewrite lookup_insert. case_decide; [by eexists|]. by apply Hal.
Qed.

Lemma push_to_other ev hs l k : k <> l ->
  sub_heap (push_to ev hs l) !! k = sub_heap hs !! k /\
  (k ∈ subscribers (push_to ev hs l) <-> k ∈ subscribers hs).
Proof.
  intros Hk. unfold push_to. destruct (sub_heap hs !! l) as [s|] eqn:E; [|done].
  unfold push. destruct (_ =? _); cbn [subscribers sub_heap set_sub unsubscribe];
    rewrite lookup_insert_ne by done; (split; [done|]); [|done].
  rewrite list_elem_of_filter. tauto.
Qed.

Lemma push_to_ext ev hs hs' k : sub_heap hs' !! k = sub_heap hs !! k ->
  (k ∈ subscribers hs' <-> k ∈ subscribers hs) ->
  sub_heap (push_to ev hs' k) !! k = sub_heap (push_to ev hs k) !! k /\
  (k ∈ subscribers (push_to ev hs' k) <-> k ∈ subscribers (push_to ev hs k)).
Proof.
  intros E1 E2. unfold push_to. rewrite E1. destruct (sub_heap hs !! k) as [s|] eqn:Es; [|by rewrite E1, Es].
  unfold push. destruct (_ =? _); cbn [subscribers sub_heap set_sub unsubscribe];
    rewrite !lookup_insert_eq, ?list_elem_of_filter, ?E2; done.
Qed.

Lemma pushes_wf ev ls hs : subs_wf hs -> subs_wf (foldl (push_to ev) hs ls).
Proof. revert hs. induction ls as [|l ls IH]; intros hs Hw; [done|]. by apply IH, push_to_wf. Qed.

Lemma pushes_other ev ls hs k : k ∉ ls ->
  sub_heap (foldl (push_to ev) hs ls) !! k = sub_heap hs !! k /\
  (k ∈ subscribers (foldl (push_to ev) hs ls) <-> k ∈ subscribers hs).
Proof.
  revert hs. induction ls as [|l ls IH]; intros hs Hk; [done|]. cbn [foldl].
  apply not_elem_of_cons in Hk as [Hkl Hk]. destruct (IH (push_to ev hs l) Hk) as [-> ->].
  by apply push_to_other.
Qed.

(** A broadcast reaches each subscriber once. *)
Lemma pushes_one ev ls hs k : NoDup ls -> k ∈ ls ->
  sub_heap (foldl (push_to ev) hs ls) !! k = sub_heap (push_to ev hs k) !! k /\
  (k ∈ subscribers (foldl (push_to ev) hs ls) <-> k ∈ subscribers (push_to ev hs k)).
Proof.
  intros Hnd. revert hs. induction Hnd as [|l ls Hl _ IH]; intros hs Hk; [by apply elem_of_nil in Hk|].
  cbn [foldl]. apply elem_of_cons in Hk as [->|Hk]; [by apply pushes_other|].
  assert (Hne : k <> l) by by intros ->.
  destruct (IH (push_to ev hs l) Hk) as [-> ->]. destruct (push_to_other ev hs l k Hne) as [E1 E2].
  by apply push_to_ext.
Qed.

Lemma run_steps_wf hs l : subs_wf hs -> subs_wf (mkHubState (subscribers hs) (alter run_step l (sub_heap hs))).
Proof. intros [Hnd Hal]. split; [done|]. intros k Hk. cbn. rewrite lookup_alter_is_Some. by apply Hal. Qed.

Lemma shutdown_lookup err ls (m : gmap loc (Subscription O HS)) k :
  exists n, foldl (fun m l => alter (Shutdown err) l m) m ls !! k = Nat.iter n (Shutdown err) <$> m !! k.
Proof.
  revert m. induction ls as [|l ls IH]; intros m; [exists 0%nat; cbn; by destruct (m !! k)|].
  cbn [foldl]. destruct (IH (alter (Shutdown err) l m)) as [n ->].
  destruct (decide (k = l)) as [->|Hne]; [exists (Datatypes.S n)|exists n].
  - rewrite lookup_alter_eq. destruct (m !! l) as [s|]; [|done]. exact (f_equal Some (eq_sym (Nat.iter_succ_r n _ (Shutdown err) s))).
  - by rewrite lookup_alter_ne.
Qed.

Lemma subscribe_new size handler h0 blks hs l hs' : subs_wf hs ->
  subscribe size handler h0 blks hs = Ok (l, hs') ->
  subs_wf hs' /\ sub_heap hs !! l = None /\ l ∈ subscribers hs' /\
  (forall k, is_Some (sub_heap hs !! k) ->
     sub_heap hs' !! k = sub_heap hs !! k /\ (k ∈ subscribers hs' <-> k ∈ subscribers hs)).
Proof.
  intros [Hnd Hal] E. unfold subscribe in E. destruct (NewSubscription _ _ _); try done. cbn in E.
  set (k := fresh _) in E. assert (Hf : sub_heap hs !! k = None) by apply not_elem_of_dom, is_fresh.
  injection E as <- <-. split; [|split; [done|split; [set_solver|]]].
  - split; cbn [subscribers sub_heap].
    + apply NoDup_app. split; [done|]. split; [|apply NoDup_singleton].
      intros x Hx ->%list_elem_of_singleton. destruct (Hal _ Hx). congruence.
    + intros x Hx. rewrite lookup_insert. case_decide; [by eexists|]. apply Hal. set_solver.
  - intros x [s Hs]. cbn [subscribers sub_heap]. assert (x <> k) by congruence.
    rewrite lookup_insert_ne by done. split; [done|]. set_solver.
Qed.
End Subscribers.

(** ** What a subscription has of the events *)

Section Log.
Context {O : Type}.
Notation HState := (HubState O (list (event O))).
Implicit Types (hs : HState) (log : list (event O)).

(** What the handler of the subscription received, then what its queue holds. *)
Definition received (s : Subscription O (list (event O))) : list (event O) :=
  reverse (sub_state s) ++ blocks s.

(** The subscription [l] has the whole log, or it was cut and has its
    beginning. *)
Definition logged (l : loc) log hs : Prop :=
  subs_wf hs /\ exists s, sub_heap hs !! l = Some s /\ sub_handler s = recorder /\
    ((l ∈ subscribers hs /\ received s = reverse log) \/
     (l ∉ subscribers hs /\ is_Some (terminated s) /\ exists rest, received s ++ rest = reverse log)).

Lemma broadcast_logged l ev log hs : logged l log hs ->
  logged l (ev :: log) (foldl (push_to ev) hs (subscribers hs)).
Proof.
  intros [Hwf (s & Es & Hh & Hl)]. split; [by apply pushes_wf|].
  destruct Hl as [[Hin Hr]|[Hin [Ht [rest Hr]]]].
  - destruct (pushes_one ev (subscribers hs) hs l) as [-> Hiff]; [apply Hwf|done|]. revert Hiff.
    unfold push_to. rewrite Es. unfold push. destruct (_ =? _) eqn:Ef;
      cbn [subscribers sub_heap set_sub unsubscribe]; intros Hiff; rewrite lookup_insert_eq;
      eexists; (split; [reflexivity|]); (split; [exact Hh|]).
    + right. rewrite Hiff, list_elem_of_filter. split; [tauto|]. split.
      * cbn. by destruct (terminated s).
      * exists [ev]. rewrite reverse_cons. by rewrite <- Hr.
    + left. split; [by rewrite Hiff|]. unfold received. cbn [sub_state blocks set_blocks]. rewrite app_assoc, reverse_cons. by rewrite <- Hr.
  - destruct (pushes_other ev (subscribers hs) hs l Hin) as [-> Hiff].
    exists s. split; [done|]. split; [done|]. right. rewrite Hiff. split; [done|]. split; [done|].
    exists (rest ++ [ev]). by rewrite app_assoc, Hr, reverse_cons.
Qed.

Lemma run_step_received s : sub_handler s = recorder ->
  received (run_step s) = received s /\ sub_handler (run_step s) = recorder /\
  (is_Some (terminated s) -> run_step s = s).
Proof.
  intros Hh. unfold run_step. destruct (terminated s) as [t|] eqn:Et; [done|].
  split; [|split].
  - destruct (blocks s) as [|[b o] rest] eqn:Eb; [done|]. rewrite Hh. unfold recorder, received.
    cbn [sub_state blocks]. by rewrite reverse_cons, <- app_assoc, Eb.
  - destruct (blocks s) as [|[b o] rest]; [done|]. by rewrite Hh.
  - by intros [].
Qed.

Lemma read_logged l k log hs : logged l log hs ->
  logged l log (mkHubState (subscribers hs) (alter run_step k (sub_heap hs))).
Proof.
  intros [Hwf (s & Es & Hh & Hl)]. split; [by apply run_steps_wf|]. cbn [subscribers sub_heap].
  destruct (decide (k = l)) as [->|Hne]; [|rewrite lookup_alter_ne by done; eauto].
  rewrite lookup_alter_eq, Es. destruct (run_step_received s Hh) as (E1 & E2 & E3).
  exists (run_step s). split; [done|]. split; [done|]. rewrite E1.
  destruct Hl as [?|(? & Ht & ?)]; [by left|]. right. by rewrite E3.
Qed.

Lemma shutdown_logged l err log hs : logged l log hs -> logged l log (shutdown_all err hs).
Proof.
  intros [[Hnd Hal] (s & Es & Hh & Hl)]. unfold shutdown_all. split.
  - split; [done|]. intros k Hk. cbn. destruct (shutdown_lookup err (subscribers hs) (sub_heap hs) k) as [n ->].
    destruct (Hal _ Hk) as [x ->]. by eexists.
  - cbn [subscribers sub_heap]. destruct (shutdown_lookup err (subscribers hs) (sub_heap hs) l) as [n ->].
    rewrite Es. cbn [fmap option_fmap option_map]. eexists. split; [reflexivity|].
    assert (Hn : sub_handler (Nat.iter n (Shutdown err) s) = sub_handler s /\
      received (Nat.iter n (Shutdown err) s) = received s /\
      (is_Some (terminated s) -> is_Some (terminated (Nat.iter n (Shutdown err) s)))).
    { clear. induction n as [|n (E1 & E2 & E3)]; [done|].
      change (Nat.iter (Datatypes.S n) (Shutdown err) s) with (Shutdown err (Nat.iter n (Shutdown err) s)).
      split; [exact E1|]. split; [exact E2|]. intros Hs. destruct (E3 Hs) as [x E]. cbn [Shutdown terminated].
      rewrite E. by eexists. }
    destruct Hn as (-> & -> & Ht). split; [done|]. destruct Hl as [?|(? & ? & ?)]; [by left|right; auto].
Qed.

Lemma subscribe_logged l log hs size handler h0 blks k hs' : logged l log hs ->
  subscribe size handler h0 blks hs = Ok (k, hs') -> logged l log hs'.
Proof.
  intros [Hwf (s & Es & Hh & Hl)] E. destruct (subscribe_new _ _ _ _ _ _ _ Hwf E) as (Hwf' & _ & _ & Hold).
  split; [done|]. destruct (Hold l ltac:(by eexists)) as [-> Hiff]. exists s. rewrite Hiff. eauto.
Qed.

(** A new subscription holds the blocks it was given. *)
Lemma subscribe_starts size h0 blks hs l hs' : subs_wf hs -> 0 <= size -> size + Z.of_nat (length blks) < two63 ->
  subscribe size recorder h0 blks hs = Ok (l, hs') ->
  logged l (reverse blks ++ h0) hs'.
Proof.
  intros Hwf Hs Hsz E. destruct (subscribe_new _ _ _ _ _ _ _ Hwf E) as (Hwf' & _ & Hin & _).
  split; [done|]. unfold subscribe in E. unfold NewSubscription in E.
  rewrite i64_small in E by (unfold is_i64, two63 in *; lia).
  destruct (Z.ltb_spec (size + Z.of_nat (length blks)) 0); [lia|]. cbn in E. injection E as <- <-.
  cbn [subscribers sub_heap] in *. rewrite lookup_insert_eq. eexists. split; [reflexivity|].
  assert (Hp : forall s : Subscription O (list (event O)), chanSize s = size + Z.of_nat (length blks) ->
    forall l, Z.of_nat (length (blocks s)) + Z.of_nat (length l) <= Z.of_nat (length blks) ->
    foldl (fun s b => match push s b with Ok s' => s' | _ => s end) s l =
      set_blocks (blocks s ++ l) s).
  { intros s Hc k. revert s Hc. induction k as [|b k IH]; intros s Hc Hk.
    - cbn. rewrite app_nil_r. by destruct s.
    - cbn [foldl length] in *. unfold push at 2. destruct (Z.eqb_spec (Z.of_nat (length (blocks s))) (chanSize s)); [lia|].
      rewrite IH; [|exact Hc|cbn; rewrite length_app; cbn; lia]. cbn. by rewrite <- app_assoc. }
  rewrite Hp by (cbn; lia || reflexivity). split; [done|]. left. split; [done|].
  unfold received. cbn [sub_state blocks set_blocks app]. by rewrite reverse_app, reverse_involutive.
Qed.
End Log.

(** ** The forkable of the hub *)

(** The recorded forkable goes on from [p]: its links, head and LIB are those
    of [p], it has recorded the events that lead a consumer from [v0] there. *)
Definition sound {O} (unum : string -> Z) (v0 : View) (p : Forkable O (list (event O))) : Prop :=
  (exists pending, Inv unum v0 pending p) /\ (forall hd, lastBlockSent p = Some hd -> good unum hd) /\
  forall hd, lastBlockSent p = Some hd -> is_Some (links (forkDB p) !! Id hd).

Section Fed.
Context {O : Type} `{Protocol} `{DBin} `{Store}.
Context (unum : string -> Z) (unum_pos : forall x, 0 <= unum x).
Context (cfg : Config) (Hplain : plain cfg) (Hinc : includeInitialLIB cfg = false).
Context (clock : Block -> Z * Z) (objects_order : ForkDB loc -> list (string * option loc)).
Context (decode_good : forall name b, decode name = Ok b -> good unum b).
Context (R : list (event O) -> HubState O (list (event O)) -> Prop).
Context (R_push : forall ev log hs, R log hs -> R (ev :: log) (foldl (push_to ev) hs (subscribers hs))).
Context (v0 : View).
Notation Hb := (ForkableHub O (list (event O))).
Notation HM := (M Hb).
Implicit Types (h : Hb).

Definition twin h : Prop :=
  config h = cfg /\ exists p, sound unum v0 p /\ similar R p (forkable h).

Definition keeps {A} (m : HM A) : Prop := forall h, twin h -> twin (m h).2.

Lemma keeps_pure {A} (m : HM A) : (forall h, (m h).2 = h) -> keeps m.
Proof. intros E h Hh. by rewrite E. Qed.

Lemma keeps_bind {A B} (m : HM A) (k : A -> HM B) : keeps m -> (forall a, keeps (k a)) -> keeps (m ≫= k).
Proof.
  intros Hm Hk h Hh. specialize (Hm h Hh). unfold mbind, M_bind.
  destruct (m h) as [[a|e|w|] h']; try done. by apply Hk.
Qed.

Lemma keeps_lift {A B} (m : outcome A) (k : A -> HM B) : (forall a, m = Ok a -> keeps (k a)) -> keeps (mlift m ≫= k).
Proof. intros Hk h Hh. unfold mbind, M_bind, mlift. destruct m; try done. by apply Hk. Qed.

Lemma keeps_process blk obj : good unum blk -> keeps (process clock blk obj).
Proof.
  intros Hg h [Hc (p & ([pending HI] & Hhd & Hlk) & Hs)]. unfold process. rewrite Hc.
  destruct (sim_ProcessBlock cfg recorder broadcastBlock R
    ltac:(intros b o s1 s2 HR; do 2 eexists; split; [reflexivity|]; split; [reflexivity|]; by apply R_push)
    (clock blk).1 (clock blk).2 blk obj p (forkable h) Hs) as [_ Hs'].
  destruct (Forkable.ProcessBlock cfg broadcastBlock _ _ _ _ _) as [r q]. cbn [snd] in Hs' |- *.
  split; [exact Hc|]. eexists. split; [|exact Hs'].
  destruct (ProcessBlock_run unum unum_pos cfg (clock blk).1 (clock blk).2 v0 pending p blk obj Hplain HI Hg
    (or_introl Hinc)) as (r' & q' & E & Hst). rewrite E. split; [apply Hst|]. split; [|by apply (st_linked _ _ _ _ _ _ _ Hst)].
  intros hd Ehd. destruct (st_head _ _ _ _ _ _ _ Hst) as [E'|E']; cbn [snd] in Ehd; rewrite E' in Ehd;
    [by apply Hhd|by injection Ehd as <-].
Qed.

Lemma keeps_process_wrapped blk obj msg : good unum blk ->
  keeps (fun h => let '(r, h') := process clock blk obj h in (wrap msg r, h')).
Proof.
  intros Hg h Hh. pose proof (keeps_process blk obj Hg h Hh) as HP.
  by destruct (process clock blk obj h) as [r h'].
Qed.

Lemma decode_is_good name b : decode name = Ok b -> good unum b.
Proof. apply decode_good. Qed.

Lemma keeps_link blk files : keeps (link_files clock objects_order blk files).
Proof.
  induction files as [|f files IH]; [by apply keeps_pure|]. cbn [link_files].
  apply keeps_lift. intros [[[[num suffix] ?] ?] ?] _. apply keeps_bind; [by apply keeps_pure|]. intros h.
  apply keeps_lift. intros [] _; [exact IH|]. apply keeps_lift. intros b Hb. apply keeps_bind.
  - destruct (_ && _); [|by apply keeps_pure]. apply keeps_lift. intros [] _; by apply keeps_pure.
  - intros _. apply keeps_bind; [by eapply keeps_process_wrapped, decode_is_good|]. by intros _.
Qed.

Lemma keeps_live blk obj : good unum blk -> keeps (Hub.ProcessBlock clock objects_order blk obj).
Proof.
  intros Hg. unfold Hub.ProcessBlock. apply keeps_bind; [by apply keeps_pure|]. intros h.
  apply keeps_lift. intros lowest _. apply keeps_lift. intros linkable _. apply keeps_bind.
  { destruct linkable; [by apply keeps_pure|]. unfold linkLiveUsingOneBlocks.
    apply keeps_bind; [by apply keeps_pure|]. intros h1. apply keeps_lift. intros l1 _. cbv zeta.
    apply keeps_lift. intros files _. apply keeps_link. }
  intros _. apply keeps_bind; [by apply keeps_pure|]. intros h2. apply keeps_bind; [|intros _; by apply keeps_process].
  destruct (IsReady h2); [by apply keeps_pure|]. apply keeps_lift. intros [] _; [by intros h3 ?|by apply keeps_pure].
Qed.

Lemma keeps_bootstrap_files lowest files : forall acc, keeps (bootstrap_files clock objects_order lowest files acc).
Proof.
  induction files as [|f files IH]; intros acc; [by apply keeps_pure|]. cbn [bootstrap_files].
  apply keeps_lift. intros [[[[num suffix] ?] ?] ?] _. destruct (_ <? _); [apply IH|].
  apply keeps_bind; [by apply keeps_pure|]. intros h. apply keeps_lift. intros [] _; [apply IH|].
  apply keeps_lift. intros b Hb. apply keeps_bind; [by eapply keeps_process_wrapped, decode_is_good|].
  intros _. apply IH.
Qed.

Lemma keeps_Run : keeps (Run clock objects_order).
Proof.
  intros h Hh. assert (HB : keeps (bootstrap clock objects_order)).
  { unfold bootstrap. apply keeps_lift. intros files _. destruct (last files); [|by apply keeps_pure].
    apply keeps_lift. intros [[[[? ?] ?] ?] ?] _. apply keeps_bind; [by apply keeps_pure|]. intros h1.
    apply keeps_bind; [apply keeps_bootstrap_files|]. intros bs. destruct (last bs); [|by apply keeps_pure].
    apply keeps_bind; [by apply keeps_pure|]. intros h2. apply keeps_lift. intros [] _; by apply keeps_pure. }
  specialize (HB h Hh). unfold Run. destruct (bootstrap clock objects_order h) as [[]]; exact HB.
Qed.

(** *** The other steps only touch the subscribers *)

Lemma twin_hstate h hs : (forall log, R log (hstate (forkable h)) -> R log hs) -> twin h ->
  twin (set_forkable (set_hstate hs (forkable h)) h).
Proof.
  intros HR [Hc (p & Hp & [E Hs])]. split; [done|]. exists p. split; [done|]. split; [|by apply HR].
  cbn [forkable set_forkable hstate set_hstate]. rewrite E. reflexivity.
Qed.
End Fed.

(** What happens to a hub: the start-up, a live block, a turn of a subscription,
    another client (by number, with forks, from or through a cursor), the end of
    a live source. *)
Inductive hub_event (O HS : Type) :=
  | Starts
  | LiveBlock (blk : Block) (obj : option O)
  | Reads (l : loc)
  | JoinsNum (handler : Handler O HS) (hs0 : HS) (nums : list (string * Z)) (withForks : bool) (num : Z)
  | JoinsFrom (handler : Handler O HS) (hs0 : HS) (c : Cursor)
  | JoinsThrough (handler : Handler O HS) (hs0 : HS) (nums : list (string * Z)) (start : Z) (c : Cursor)
  | Reconnects (err : option error).
Arguments Starts {O HS}. Arguments LiveBlock {O HS}. Arguments Reads {O HS}. Arguments JoinsNum {O HS}.
Arguments JoinsFrom {O HS}. Arguments JoinsThrough {O HS}. Arguments Reconnects {O HS}.

Section Steps.
Context {O HS : Type} `{Protocol} `{DBin} `{Store}.
Context (clock : Block -> Z * Z) (objects_order : ForkDB loc -> list (string * option loc)).

Definition after {A} (h : ForkableHub O HS) (r : outcome (A * ForkableHub O HS)) : ForkableHub O HS :=
  match r with Ok (_, h') => h' | _ => h end.

Definition hub_step (h : ForkableHub O HS) (e : hub_event O HS) : ForkableHub O HS :=
  match e with
  | Starts => (Run clock objects_order h).2
  | LiveBlock blk obj => (Hub.ProcessBlock clock objects_order blk obj h).2
  | Reads l => read_step l h
  | JoinsNum hd hs0 nums false n => after h (SourceFromBlockNum hd hs0 nums h n)
  | JoinsNum hd hs0 nums true n => after h (SourceFromBlockNumWithForks hd hs0 nums h n)
  | JoinsFrom hd hs0 c => after h (SourceFromCursor hd hs0 h c)
  | JoinsThrough hd hs0 nums n c => after h (SourceThroughCursor hd hs0 nums h n c)
  | Reconnects err => (reconnect err h).2
  end.

(** A client only adds a subscription. *)
Lemma subscribed_cases hd hs0 (h : ForkableHub O HS) (blks : outcome (list (Block * iface O))) (r : option loc) h' :
  subscribed h (b ← blks; Ok (subscribe_all hd hs0 h b (nothing (O := O)))) = Ok (r, h') ->
  (h' = h /\ r = None) \/ exists b l hs', blks = Ok b /\ r = Some l /\
    subscribe (sourceChannelSize h) hd hs0 b (hstate (forkable h)) = Ok (l, hs') /\
    h' = set_forkable (set_hstate hs' (forkable h)) h.
Proof.
  destruct blks as [b|e|w|]; cbn; [|by left; split; congruence|done|done]. unfold subscribe_all.
  destruct (subscribe _ _ _ _ _) as [[l hs']|e|w|] eqn:E; [|done..]. intros [= <- <-].
  right. exists b, l, hs'. done.
Qed.
End Steps.

Section Follow.
Context {O : Type} `{Protocol} `{DBin} `{Store}.
Context (unum : string -> Z) (unum_pos : forall x, 0 <= unum x).
Context (cfg : Config) (Hplain : plain cfg) (Hinc : includeInitialLIB cfg = false).
Context (clock : Block -> Z * Z) (objects_order : ForkDB loc -> list (string * option loc)).
Context (decode_good : forall name b, decode name = Ok b -> good unum b).
Notation L := (list (event O)).
Notation Hb := (ForkableHub O L).
Implicit Types (h : Hb).

Definition good_event (e : hub_event O L) : Prop :=
  match e with LiveBlock blk _ => good unum blk | _ => True end.

(** What the subscribers' steps must keep. *)
Record stable (R : L -> HubState O L -> Prop) : Prop := {
  s_push : forall ev log hs, R log hs -> R (ev :: log) (foldl (push_to ev) hs (subscribers hs));
  s_read : forall log hs l, R log hs -> R log (mkHubState (subscribers hs) (alter run_step l (sub_heap hs)));
  s_shutdown : forall log hs err, R log hs -> R log (shutdown_all err hs);
  s_subscribe : forall log hs size hd s0 blks l hs', R log hs ->
    subscribe size hd s0 blks hs = Ok (l, hs') -> R log hs';
}.

Lemma hub_steps R v0 es : stable R -> Forall good_event es -> forall h,
  twin unum cfg R v0 h -> twin unum cfg R v0 (foldl (hub_step clock objects_order) h es).
Proof.
  intros [Hpush Hread Hshut Hsub]. induction 1 as [|e es He _ IH]; intros h Hh; [done|].
  cbn [foldl]. apply IH. clear IH.
  assert (Hjoin : forall hd hs0 b r h', subscribed h (b ← b; Ok (subscribe_all hd hs0 h b (nothing (O := O)))) = Ok (r, h') ->
    twin unum cfg R v0 h').
  { intros hd hs0 b r h' E. destruct (subscribed_cases _ _ _ _ _ _ E) as [[-> _]|(b' & l & hs' & _ & _ & Es & ->)]; [done|].
    apply twin_hstate; [|done]. intros log HR. by eapply Hsub. }
  destruct e as [|blk obj|l|hd hs0 nums [|] n|hd hs0 c|hd hs0 nums n c|err]; cbn [hub_step].
  - by eapply keeps_Run.
  - by eapply keeps_live.
  - apply twin_hstate; [|done]. intros log HR. by apply Hread.
  - unfold after. destruct (SourceFromBlockNumWithForks _ _ _ _ _) as [[r h']| | |] eqn:E; try done. by eapply Hjoin.
  - unfold after. destruct (SourceFromBlockNum _ _ _ _ _) as [[r h']| | |] eqn:E; try done. by eapply Hjoin.
  - unfold after. destruct (SourceFromCursor _ _ _ _) as [[r h']| | |] eqn:E; try done. by eapply Hjoin.
  - unfold after, SourceThroughCursor. destruct (deref (cBlock c)) as [b| | |]; try done. cbn [mbind outcome_bind].
    destruct (_ <? _).
    + destruct (SourceFromBlockNum _ _ _ _ _) as [[r h']| | |] eqn:E; try done. by eapply Hjoin.
    + destruct (subscribed _ _) as [[r h']| | |] eqn:E; try done. by eapply Hjoin.
  - unfold reconnect. destruct (match err with Some e => _ | None => _ end); [|done]. cbn [snd].
    unfold Hub_Shutdown. destruct (hub_down h); [done|].
    destruct Hh as [Hc (p & Hp & [E Hs])]. split; [done|]. exists p. split; [done|].
    split; [|by apply Hshut]. cbn [forkable hstate set_hstate]. rewrite E. reflexivity.
Qed.

Lemma stable_wf : stable (fun _ => subs_wf).
Proof.
  split.
  - intros ev log hs. apply pushes_wf.
  - intros log hs l. apply run_steps_wf.
  - intros log hs err [Hnd Hal]. split; [done|]. intros k Hk. cbn.
    destruct (shutdown_lookup err (subscribers hs) (sub_heap hs) k) as [n ->].
    destruct (Hal _ Hk) as [x ->]. by eexists.
  - intros log hs size hd s0 blks l hs' Hwf E. by destruct (subscribe_new _ _ _ _ _ _ _ Hwf E).
Qed.

Lemma stable_logged l : stable (logged l).
Proof.
  split.
  - intros ev log hs. apply broadcast_logged.
  - intros log hs k. apply read_logged.
  - intros log hs err. apply shutdown_logged.
  - intros log hs size hd s0 blks k hs'. apply subscribe_logged.
Qed.

(** The same of a log that goes on from [pre]. *)
Lemma stable_after R (pre : L) : stable R -> stable (fun log => R (log ++ pre)).
Proof. intros [Ha Hb Hc Hd]. split; [intros ev log hs; apply Ha|intros log hs l; apply Hb|intros log hs err; apply Hc|]. intros; eapply Hd; eauto. Qed.

End Follow.

(** The hub at its creation, above [lib]. *)
Definition hub_config (keep : Z) : Config := mkConfig StepsAll BlockRefEmpty false true keep false 0 0 0.

Lemma hub_starts {O} `{Protocol} unum env keep lib : (forall x, 0 <= unum x) -> ID lib <> "" -> Num lib = unum (ID lib) ->
  twin unum (hub_config keep) (fun _ => subs_wf) (mkView (ID lib) [])
    (NewForkableHub (O := O) (HS := list (event O)) env keep [WithExclusiveLIB lib]).
Proof.
  intros Hpos Hid Hnum. split; [done|].
  exists (New (O := O) (HS := list (event O)) [] [WithExclusiveLIB lib]).2. split.
  - split; [exists []; by apply Inv_exclusive|done].
  - split; [reflexivity|]. split; [constructor|]. intros l Hl. by apply elem_of_nil in Hl.
Qed.

(** A subscription started with [out], and with [evs], which bring [v1] to the LIB
    and the chain of the hub, follows the hub from then on. *)
Lemma subscription_follows_after {O} `{Protocol} `{DBin} `{Store} unum clock objects_order keep v0 v1
  (h1 : ForkableHub O (list (event O))) p up out evs l hs' es2 h3 :
  (forall x, 0 <= unum x) -> (forall name b, decode name = Ok b -> good unum b) ->
  config h1 = hub_config keep -> sound unum v0 p -> Inv unum v0 up p -> similar (fun _ => subs_wf) p (forkable h1) ->
  0 <= sourceChannelSize h1 -> sourceChannelSize h1 + Z.of_nat (length (out ++ evs)) < two63 ->
  consume v1 evs = Some (mkView (LIBID (forkDB p)) up) ->
  subscribe (sourceChannelSize h1) recorder [] (out ++ evs) (hstate (forkable h1)) = Ok (l, hs') ->
  Forall (good_event unum) es2 ->
  h3 = foldl (hub_step clock objects_order) (set_forkable (set_hstate hs' (forkable h1)) h1) es2 ->
  exists s rest later pending, sub_heap (hstate (forkable h3)) !! l = Some s /\
    received s ++ rest = out ++ later /\ consume v1 later = Some (mkView (LIBID (forkDB (forkable h3))) pending) /\
    match lastBlockSent (forkable h3) with
    | Some hd3 => path (forkDB (forkable h3)) (Id hd3) pending (LIBID (forkDB (forkable h3)))
    | None => pending = []
    end /\
    (terminated s = None -> rest = []).
Proof.
  intros Hpos Hdec Hc (_ & Hhd & Hlk) HI Hs Hsz Hlen C Esub Hes2 Eh3.
  destruct (similar_core _ _ _ Hs) as (hs & Ep & Hwf).
  assert (T2 : twin unum (hub_config keep) (fun log => logged l (log ++ reverse out)) v1 (set_forkable (set_hstate hs' (forkable h1)) h1)).
  { split; [exact Hc|]. exists (set_hstate (reverse evs) p). split; [split; [|split]|split].
    - exists up. destruct HI. split; try done. cbn [hstate set_hstate forkDB]. by rewrite reverse_involutive.
    - exact Hhd.
    - exact Hlk.
    - cbn [forkable set_forkable hstate set_hstate]. by rewrite Ep.
    - cbn [forkable set_forkable hstate set_hstate]. rewrite <- (app_nil_r (_ ++ _)), <- reverse_app.
      eapply subscribe_starts; [exact Hwf|exact Hsz|exact Hlen|]. rewrite Ep in Esub. exact Esub. }
  assert (T3 : twin unum (hub_config keep) (fun log => logged l (log ++ reverse out)) v1 h3) by (rewrite Eh3; eapply hub_steps; try done; apply stable_after, stable_logged).
  destruct T3 as [_ (p3 & ([pending HI3] & _) & [E3 Hlog])]. destruct Hlog as [_ (s & Es & _ & Hl)].
  pose proof (I_view _ _ _ _ HI3) as V. pose proof (I_last _ _ _ _ HI3) as La. rewrite E3. cbn [hstate forkDB lastBlockSent with_hstate].
  rewrite reverse_app, reverse_involutive in Hl.
  assert (Hv : match lastBlockSent p3 with
    | Some hd3 => path (forkDB p3) (Id hd3) pending (LIBID (forkDB p3))
    | None => pending = []
    end) by (destruct (lastBlockSent p3); [apply La|by destruct La]).
  destruct Hl as [[_ Hr]|(_ & Ht & rest & Hr)].
  - exists s, [], (reverse (hstate p3)), pending. by rewrite app_nil_r.
  - exists s, rest, (reverse (hstate p3)), pending. split_and!; try done.
    intros En. rewrite En in Ht. by destruct Ht.
Qed.

(** A subscription started with [evs], which bring [v1] to the LIB and the chain
    of the hub, follows the hub from then on. *)
Lemma subscription_follows {O} `{Protocol} `{DBin} `{Store} unum clock objects_order keep v0 v1
  (h1 : ForkableHub O (list (event O))) p up evs l hs' es2 h3 :
  (forall x, 0 <= unum x) -> (forall name b, decode name = Ok b -> good unum b) ->
  config h1 = hub_config keep -> sound unum v0 p -> Inv unum v0 up p -> similar (fun _ => subs_wf) p (forkable h1) ->
  0 <= sourceChannelSize h1 -> sourceChannelSize h1 + Z.of_nat (length evs) < two63 ->
  consume v1 evs = Some (mkView (LIBID (forkDB p)) up) ->
  subscribe (sourceChannelSize h1) recorder [] evs (hstate (forkable h1)) = Ok (l, hs') ->
  Forall (good_event unum) es2 ->
  h3 = foldl (hub_step clock objects_order) (set_forkable (set_hstate hs' (forkable h1)) h1) es2 ->
  exists s rest pending, sub_heap (hstate (forkable h3)) !! l = Some s /\
    consume v1 (received s ++ rest) = Some (mkView (LIBID (forkDB (forkable h3))) pending) /\
    match lastBlockSent (forkable h3) with
    | Some hd3 => path (forkDB (forkable h3)) (Id hd3) pending (LIBID (forkDB (forkable h3)))
    | None => pending = []
    end /\
    (terminated s = None -> rest = []).
Proof.
  intros. destruct (subscription_follows_after unum clock objects_order keep v0 v1 h1 p up [] evs l hs' es2 h3)
    as (s & rest & later & pending & Es & Er & C & Hv & Hr); try done.
  exists s, rest, pending. by rewrite Er.
Qed.

(** The subscription of a client with a cursor, from any hub whose forkable follows. *)
Lemma cursor_follows {O} `{Protocol} `{DBin} `{Store} unum clock objects_order keep v0
  (h1 : ForkableHub O (list (event O))) hd c block fin pend l h2 es2 h3 :
  (forall x, 0 <= unum x) -> (forall name b, decode name = Ok b -> good unum b) ->
  twin unum (hub_config keep) (fun _ => subs_wf) v0 h1 -> Forall (good_event unum) es2 ->
  0 <= sourceChannelSize h1 -> lastBlockSent (forkable h1) = Some hd ->
  LIBNum (forkDB (forkable h1)) = unum (LIBID (forkDB (forkable h1))) ->
  resumable_cursor unum (with_hstate [] (forkable h1)) c block fin pend ->
  (forall blks, blocksFromCursor (forkable h1) c = Ok blks ->
     sourceChannelSize h1 + Z.of_nat (length blks) < two63) ->
  SourceFromCursor recorder [] h1 c = Ok (Some l, h2) ->
  h3 = foldl (hub_step clock objects_order) h2 es2 ->
  exists s rest pending, sub_heap (hstate (forkable h3)) !! l = Some s /\
    consume (mkView (ID fin) (if decide (Step c = StepUndo) then tail pend else pend)) (received s ++ rest) =
      Some (mkView (LIBID (forkDB (forkable h3))) pending) /\
    match lastBlockSent (forkable h3) with
    | Some hd3 => path (forkDB (forkable h3)) (Id hd3) pending (LIBID (forkDB (forkable h3)))
    | None => pending = []
    end /\
    (terminated s = None -> rest = []).
Proof.
  intros Hpos Hdec T1 Hes2 Hsz Hlast HL Hrc Hlen Esrc Eh3.
  destruct T1 as [Hc (p & Hsnd & Hs)]. pose proof Hsnd as ([up HI] & Hhd & _).
  destruct (similar_core _ _ _ Hs) as (hs & Ep & Hwf). rewrite Ep in Hlast, HL, Hrc, Hlen.
  rewrite blocksFromCursor_with in Hlen. cbn in Hlast, HL.
  destruct (resume_Inv unum v0 up p hd c block fin pend Hpos HI Hhd Hlast HL)
    as (evs & Eb & C & P); [by destruct Hrc|].
  unfold SourceFromCursor in Esrc.
  destruct (subscribed_cases _ _ _ _ _ _ Esrc) as [[_ ?]|(b & l' & hs' & Eb' & [= <-] & Esub & ->)]; [done|].
  rewrite Ep, blocksFromCursor_with, Eb in Eb'. injection Eb' as <-.
  eapply (subscription_follows unum clock objects_order keep v0 _ h1 p up evs); try done; by apply Hlen.
Qed.

(** The hub, whatever it went through since its creation. *)
Lemma hub_twin {O} `{Protocol} `{DBin} `{Store} unum clock objects_order env keep lib es :
  (forall x, 0 <= unum x) -> (forall name b, decode name = Ok b -> good unum b) ->
  ID lib <> "" -> Num lib = unum (ID lib) -> Forall (good_event unum) es ->
  twin unum (hub_config keep) (fun _ => subs_wf) (mkView (ID lib) [])
    (foldl (hub_step clock objects_order) (NewForkableHub (O := O) (HS := list (event O)) env keep [WithExclusiveLIB lib]) es).
Proof. intros. eapply hub_steps; try done; [apply stable_wf|by apply hub_starts]. Qed.

(** C7: a client that comes back to a hub with a cursor, and the hub then goes
    through any sequence of events (live blocks, one-block files linking them,
    turns of the subscriptions, other clients, reconnections): what its
    subscription has handled and holds in its queue is what brings the client
    from its cursor to the LIB and the chain of the hub, the blocks of the
    start and every later event once, in order; or the subscription was cut, and
    it is the beginning of that. *)
Theorem hub_subscriber_follows {O} `{Protocol} `{DBin} `{Store} unum clock objects_order env keep lib es1 es2
  (h1 : ForkableHub O (list (event O))) hd c block fin pend l h2 h3 :
  (forall x, 0 <= unum x) -> (forall name b, decode name = Ok b -> good unum b) ->
  ID lib <> "" -> Num lib = unum (ID lib) ->
  Forall (good_event unum) es1 -> Forall (good_event unum) es2 ->
  h1 = foldl (hub_step clock objects_order) (NewForkableHub env keep [WithExclusiveLIB lib]) es1 ->
  0 <= sourceChannelSize h1 -> lastBlockSent (forkable h1) = Some hd ->
  LIBNum (forkDB (forkable h1)) = unum (LIBID (forkDB (forkable h1))) ->
  resumable_cursor unum (with_hstate [] (forkable h1)) c block fin pend ->
  (forall blks, blocksFromCursor (forkable h1) c = Ok blks ->
     sourceChannelSize h1 + Z.of_nat (length blks) < two63) ->
  SourceFromCursor recorder [] h1 c = Ok (Some l, h2) ->
  h3 = foldl (hub_step clock objects_order) h2 es2 ->
  exists s rest pending, sub_heap (hstate (forkable h3)) !! l = Some s /\
    consume (mkView (ID fin) (if decide (Step c = StepUndo) then tail pend else pend)) (received s ++ rest) =
      Some (mkView (LIBID (forkDB (forkable h3))) pending) /\
    match lastBlockSent (forkable h3) with
    | Some hd3 => path (forkDB (forkable h3)) (Id hd3) pending (LIBID (forkDB (forkable h3)))
    | None => pending = []
    end /\
    (terminated s = None -> rest = []).
Proof.
  intros Hpos Hdec Hid Hnum Hes1 Hes2 ->. eapply (cursor_follows unum clock objects_order keep (mkView (ID lib) [])); try done.
  by apply hub_twin.
Qed.

(** *** The example: the client left on 6a comes back, two blocks follow *)

Section Example.
#[local] Existing Instance proto0.
#[local] Instance empty_store : Store := {|
  WalkFrom := fun _ _ => ([], None);
  Walk := fun _ => ([], None);
  OpenObject := fun _ => Err ErrNotFound;
|}.
#[local] Instance no_dbin : DBin := {|
  ReadHeader := fun _ => Err EOF;
  ReadMessage := fun src => ("", Some EOF, "");
  UnmarshalBlock := fun _ => Err EOF;
  UnmarshalBlockMeta := fun _ => Err EOF;
  LookupEnv := fun _ => false;
|}.

Definition ex_clock (b : Block) : Z * Z := (0, 0).
Definition ex_order (db : ForkDB loc) : list (string * option loc) := map_to_list (objects db).
Definition ex_step := hub_step (O := unit) (HS := list (event unit)) ex_clock ex_order.

Definition ex_es1 : list (hub_event unit (list (event unit))) :=
  (fun i => LiveBlock (i_block i) None) <$> fork_inputs.
Definition ex_hub1 := foldl ex_step (NewForkableHub "" 10 [WithExclusiveLIB ex_lib]) ex_es1.
Definition ex_hub2 := after ex_hub1 (SourceFromCursor recorder [] ex_hub1 ex_cursor).
Definition ex_es2 : list (hub_event unit (list (event unit))) :=
  [Reads 0%nat; LiveBlock (ex_block "8b" "7b" 5) None; JoinsNum recorder [] [] false 4; Reads 0%nat].
Definition ex_hub3 := foldl ex_step ex_hub2 ex_es2.

Lemma ex_hub_cursor :
  resumable_cursor ex_num (with_hstate [] (forkable ex_hub1)) ex_cursor (NewBlockRef "6a" 6) (NewBlockRef "4a" 4) ["6a"; "5a"].
Proof.
  split; try by split.
  - vm_compute. eauto.
  - exists []. assert (LIBID (forkDB (with_hstate (B := list (event unit)) [] (forkable ex_hub1))) = "4a") as ->
      by (vm_compute; reflexivity). constructor.
  - walk.
  - vm_compute. left.
Qed.

Definition ex_log (s : Subscription unit (list (event unit))) :=
  (summary <$> received s, terminated s, Z.of_nat (length (blocks s))).

Lemma ex_hub_log :
  option_map ex_log (sub_heap (hstate (forkable ex_hub3)) !! 0%nat) =
    Some ([(2, "6a"); (2, "5a"); (1, "5b"); (1, "6b"); (1, "7b"); (1, "8b"); (16, "5b"); (32, "5a")], None, 6).
Proof. vm_compute. reflexivity. Qed.

Lemma hub_subscriber_follows_witness :
  exists s rest pending, sub_heap (hstate (forkable ex_hub3)) !! 0%nat = Some s /\
    consume (mkView "4a" ["6a"; "5a"]) (received s ++ rest) =
      Some (mkView (LIBID (forkDB (forkable ex_hub3))) pending) /\ rest = [] /\
    summary <$> received s =
      [(2, "6a"); (2, "5a"); (1, "5b"); (1, "6b"); (1, "7b"); (1, "8b"); (16, "5b"); (32, "5a")].
Proof.
  destruct (hub_subscriber_follows ex_num ex_clock ex_order "" 10 ex_lib ex_es1 ex_es2 ex_hub1 (ex_block "7b" "6b" 4)
    ex_cursor (NewBlockRef "6a" 6) (NewBlockRef "4a" 4) ["6a"; "5a"] 0%nat ex_hub2 ex_hub3)
    as (s & rest & pending & Es & C & _ & Hrest).
  - apply ex_num_pos.
  - intros name b E. discriminate E.
  - discriminate.
  - reflexivity.
  - repeat constructor; try discriminate; vm_compute; congruence.
  - repeat constructor; try discriminate; vm_compute; congruence.
  - reflexivity.
  - vm_compute. congruence.
  - vm_compute. reflexivity.
  - vm_compute. reflexivity.
  - exact ex_hub_cursor.
  - intros blks E. vm_compute in E. injection E as <-. vm_compute. reflexivity.
  - vm_compute. reflexivity.
  - reflexivity.
  - assert (Hs : option_map ex_log (Some s) = Some (_, None, 6)) by (rewrite <- Es; exact ex_hub_log).
    injection Hs as Hr Ht _.
    exists s, rest, pending. split; [exact Es|]. split; [exact C|]. split; [by apply Hrest|exact Hr].
Defined.
End Example.

(** ** Where the hub parts from its intent *)

(** An unreadable [SOURCE_CHAN_SIZE] is logged as ignored; the size of the
    channels becomes the 0 that comes with the error. *)
Lemma ignored_chan_size {O HS} env e keep opts : env <> "" -> ParseInt env = Err e -> e <> EMsg "value out of range" ->
  sourceChannelSize (NewForkableHub (O := O) (HS := HS) env keep opts) = 0.
Proof.
  intros Hne Hp He. unfold NewForkableHub. destruct (New _ _) as [cfg p]. cbn.
  rewrite decide_False by done. unfold Atoi. rewrite Hp. by rewrite decide_False.
Qed.

(** [subscribe] makes its two steps on the list without the other calls. *)
Lemma subscribe_append {O HS} size (handler : Handler O HS) hs0 initialBlocks hs l hs' :
  subscribe size handler hs0 initialBlocks hs = Ok (l, hs') ->
  let '(a, hs1) := append_step (Created l) (mkHubState (subscribers hs) (sub_heap hs')) in
  append_step a hs1 = (Subscribed, hs').
Proof.
  unfold subscribe. destruct (NewSubscription handler hs0 _) as [sub|e|w|]; cbn; try done. by intros [= <- <-].
Qed.

Lemma broadcast_others {O HS} (ev : Block * iface O) l ls : l ∉ ls -> forall hs : HubState O HS,
  sub_heap (foldl (push_to ev) hs ls) !! l = sub_heap hs !! l.
Proof.
  induction ls as [|x ls IH]; intros Hl hs; [done|]. apply not_elem_of_cons in Hl as [Hne Hl]. cbn [foldl].
  rewrite IH by done. unfold push_to. destruct (sub_heap hs !! x) as [s|]; [|done].
  destruct (push s ev) as [s'|e|w|]; try done; cbn; by rewrite lookup_insert_ne.
Qed.

(** The clients that come at the same time hold the same read lock: when both read
    the list before one writes it, the first one is not in it and is sent no event. *)
Lemma subscription_lost {O HS} (hs : HubState O HS) l1 l2 : l1 ∉ subscribers hs -> l1 <> l2 ->
  let '(a1, h1) := append_step (Created l1) hs in
  let '(a2, h2) := append_step (Created l2) h1 in
  let '(a1, h3) := append_step a1 h2 in
  let '(a2, h4) := append_step a2 h3 in
  a1 = Subscribed /\ a2 = Subscribed /\ subscribers h4 = subscribers hs ++ [l2] /\
  forall blk obj, sub_heap (broadcastBlock blk obj h4).2 !! l1 = sub_heap h4 !! l1.
Proof.
  intros Hl Hne. cbn. do 3 (split; [done|]). intros blk obj.
  apply (broadcast_others (blk, obj) l1 (subscribers hs ++ [l2]) ltac:(set_solver) (mkHubState (subscribers hs ++ [l2]) (sub_heap hs))).
Qed.

(** With such a hub a client that has not handled its first blocks yet is cut
    by the next event. *)
Lemma full_subscription_cut {O HS} (s : Subscription O HS) ev hs l :
  sub_heap hs !! l = Some s -> Z.of_nat (length (blocks s)) = chanSize s ->
  l ∉ subscribers (push_to ev hs l) /\
  exists s', sub_heap (push_to ev hs l) !! l = Some s' /\ is_Some (terminated s').
Proof.
  intros Es Hf. unfold push_to. rewrite Es. unfold push. destruct (Z.eqb_spec (Z.of_nat (length (blocks s))) (chanSize s)); [|lia].
  cbn [subscribers sub_heap set_sub unsubscribe]. rewrite list_elem_of_filter, lookup_insert_eq. split; [tauto|].
  eexists. split; [reflexivity|]. cbn. by destruct (terminated s).
Qed.

(** When every one-block file is below the first streamable block, the start-up
    of the hub panics. *)
Section Panic.
#[local] Instance proto5 : Protocol := {| GetProtocolFirstStreamableBlock := 5 |}.
#[local] Instance one_store : Store := {|
  WalkFrom := fun _ _ => ([], None);
  Walk := fun _ => (["0000000001-1a-0a-0-x"], None);
  OpenObject := fun _ => Err ErrNotFound;
|}.
#[local] Existing Instance no_dbin.

Lemma bootstrap_panics :
  is_Panic (Run ex_clock ex_order (NewForkableHub (O := unit) (HS := list (event unit)) "" 10 [])).1 = true.
Proof. vm_compute. reflexivity. Qed.
End Panic.
