(* ===== verification/HeadInfo.v ===== *)
(** * Head information ([headinfo.go], the service of [hub/blockstream.go])

    The getters a tracker asks for heads are clients of a head information service:
    they dial it when they are first asked, keep the connection, and ask it each
    time. The hub is such a service. *)

From S2P Require Import Prelude Types ForkDB Forkable Consumer ForkableFacts ForkableInv ForkableStep ForkableSend ForkableProps ForkableQueries Resume ResumeProps OneBlockFiles Hub HubProps.
Import OneBlockFiles.

(** [pbheadinfo.HeadInfoResponse] and [HeadInfoRequest_Source]. *)
Record HeadInfoResponse := mkHeadInfoResponse {
  r_LibNum : Z;
  r_LibID : string;
  r_HeadNum : Z;
  r_HeadID : string;
  r_HeadTime : option Z;
}.

Inductive RequestSource := NETWORK | STREAM.

(** [dgrpc.NewInternalClient], and the remote [GetHeadInfo]; [E] is the situation in
    which a call is made: the network, the server and its state. *)
Class HeadInfoService (E Client : Type) := {
  NewInternalClient : E -> string -> outcome Client;
  remote_GetHeadInfo : E -> Client -> RequestSource -> outcome HeadInfoResponse;
}.

Module HeadInfo.

(** ** The client *)

Section Client.
Context {E Client : Type} `{HeadInfoService E Client}.

Definition headInfoClient (e : E) (addr : string) : outcome Client :=
  wrap "reaching out to headinfo service" (NewInternalClient e addr).

Definition ErrTrackerBlockNotFound : error := ESentinel "tracker block not found".

(** The closure of [blockRefGetter] keeps its connection in [headinfoCli]. *)
Definition blockRefGetter (addr : string) (source : RequestSource) (extract : HeadInfoResponse -> BlockRef)
  (e : E) : M (option Client) (option BlockRef) :=
  headinfoCli ← mget;
  cli ← (match headinfoCli with
         | Some cli => mret cli
         | None => cli ← mlift (headInfoClient e addr); _ ← mput (Some cli); mret cli
         end);
  match remote_GetHeadInfo e cli source with
  | Ok resp => if r_HeadNum resp =? 0 then merr ErrTrackerBlockNotFound else mret (Some (extract resp))
  | Err _ => merr ErrTrackerBlockNotFound
  | Panic w => mpanic w
  | Diverge => mlift Diverge
  end.

Definition lib_of (resp : HeadInfoResponse) : BlockRef := NewBlockRef (r_LibID resp) (r_LibNum resp).
Definition head_of (resp : HeadInfoResponse) : BlockRef := NewBlockRef (r_HeadID resp) (r_HeadNum resp).

Definition NetworkLIBBlockRefGetter (addr : string) := blockRefGetter addr NETWORK lib_of.
Definition NetworkHeadBlockRefGetter (addr : string) := blockRefGetter addr NETWORK head_of.
Definition StreamLIBBlockRefGetter (addr : string) := blockRefGetter addr STREAM lib_of.
Definition StreamHeadBlockRefGetter (addr : string) := blockRefGetter addr STREAM head_of.

Definition GetStreamHeadInfo (addr : string) (e : E) : outcome (BlockRef * BlockRef) :=
  cli ← headInfoClient e addr;
  resp ← remote_GetHeadInfo e cli STREAM;
  Ok (NewBlockRef (r_HeadID resp) (r_HeadNum resp), NewBlockRef (r_LibID resp) (r_LibNum resp)).

(** A getter asked again and again. *)
Fixpoint calls (getter : E -> M (option Client) (option BlockRef)) (es : list E) (cli : option Client)
  : list (outcome (option BlockRef)) :=
  match es with
  | [] => []
  | e :: es' => let '(r, cli') := getter e cli in r :: calls getter es' cli'
  end.

End Client.

(** ** The service of a hub *)

Section Server.
Context {O HS : Type} `{Protocol}.

(** The response has no [LibID]. *)
Definition GetHeadInfo (h : Hub.ForkableHub O HS) : outcome HeadInfoResponse :=
  '(num, id, t, libNum) ← Hub.Hub_HeadInfo (Some h);
  Ok (mkHeadInfoResponse libNum "" num id t).

(** A hub behind its address: dialing it works or not; a server that panics does not
    answer. *)
Record Behind := mkBehind { unreachable : option error; hub : Hub.ForkableHub O HS }.

#[export] Instance hub_service : HeadInfoService Behind unit := {|
  NewInternalClient := fun e _ => match unreachable e with Some err => Err err | None => Ok tt end;
  remote_GetHeadInfo := fun e _ _ =>
    match GetHeadInfo (hub e) with Ok resp => Ok resp | Err err => Err err | _ => Err (EMsg "unavailable") end;
|}.
End Server.
Arguments Behind : clear implicits.

(** ** What the getters answer *)

Section Answers.
Context {E Client : Type} `{HeadInfoService E Client}.

(** The connection a getter has for the last of these calls. *)
Fixpoint connection (addr : string) (es : list E) : option Client :=
  match es with
  | [] => None
  | e :: es' => match NewInternalClient e addr with Ok cli => Some cli | _ => connection addr es' end
  end.

Definition answer (source : RequestSource) (extract : HeadInfoResponse -> BlockRef) (e : E) (cli : Client)
  : outcome (option BlockRef) :=
  match remote_GetHeadInfo e cli source with
  | Ok resp => if r_HeadNum resp =? 0 then Err ErrTrackerBlockNotFound else Ok (Some (extract resp))
  | Err _ => Err ErrTrackerBlockNotFound
  | Panic w => Panic w
  | Diverge => Diverge
  end.

Lemma connected addr source extract e cli :
  blockRefGetter addr source extract e (Some cli) = (answer source extract e cli, Some cli).
Proof.
  unfold blockRefGetter, answer, mbind, M_bind. cbn. destruct (remote_GetHeadInfo e cli source); try done.
  by destruct (r_HeadNum _ =? 0).
Qed.

Lemma disconnected addr source extract e :
  blockRefGetter addr source extract e None =
  match headInfoClient e addr with
  | Ok cli => (answer source extract e cli, Some cli)
  | Err err => (Err err, None)
  | Panic w => (Panic w, None)
  | Diverge => (Diverge, None)
  end.
Proof.
  destruct (headInfoClient e addr) as [cli|err|w|] eqn:E0.
  1: rewrite <- (connected addr). all: unfold blockRefGetter, mbind, M_bind; cbn; by rewrite E0.
Qed.

Lemma calls_connected addr source extract es : forall cli,
  calls (blockRefGetter addr source extract) es (Some cli) = (fun e => answer source extract e cli) <$> es.
Proof.
  induction es as [|e es IH]; intros cli; [done|]. cbn [calls]. rewrite connected. cbn. by rewrite IH.
Qed.

Lemma calls_spec addr source extract es k e : es !! k = Some e ->
  calls (blockRefGetter addr source extract) es None !! k =
    Some (match connection addr (take (S k) es) with
          | Some cli => answer source extract e cli
          | None => cli ← headInfoClient e addr; answer source extract e cli
          end).
Proof.
  revert k. induction es as [|e0 es IH]; intros k Hk; [done|]. cbn [calls take connection].
  rewrite disconnected. unfold headInfoClient at 1. destruct (NewInternalClient e0 addr) as [cli|err|w|] eqn:E0; cbn [wrap].
  1: { destruct k as [|k]; simpl; [by injection Hk as ->|]. rewrite calls_connected, list_lookup_fmap. simpl in Hk. by rewrite Hk. }
  all: destruct k as [|k]; [injection Hk as ->; cbn; unfold headInfoClient; by rewrite E0|by apply IH].
Qed.
End Answers.

(** C40: the getters a tracker has for a hub, asked any number of times while the hub
    changes and may be out of reach: they dial it until it answers and never again,
    and from then on each answer is of that moment: the reference of the last block
    the hub sent, the number of the LIB of that block with an empty ID, and "not
    found" while the hub is not ready, has sent nothing, is at block 0 or does not
    answer. *)
Theorem heads_of_hub {O HS} `{Protocol} (addr : string) (es : list (Behind O HS)) k e :
  es !! k = Some e ->
  let sent := if Hub.IsReady (hub e) then lastBlockSent (Hub.forkable (hub e)) else None in
  let reply (ref : Block -> BlockRef) :=
    match sent with
    | Some b => if (Number b =? 0) || negb (is_Ok (Time (Some b))) then Err ErrTrackerBlockNotFound else Ok (Some (ref b))
    | None => Err ErrTrackerBlockNotFound
    end in
  let reached := exists e', e' ∈ take (S k) es /\ unreachable e' = None in
  (reached ->
     calls (StreamHeadBlockRefGetter addr) es None !! k = Some (reply (fun b => AsRef (Some b))) /\
     calls (StreamLIBBlockRefGetter addr) es None !! k = Some (reply (fun b => NewBlockRef "" (LibNum b)))) /\
  (~ reached -> exists err, unreachable e = Some err /\
     calls (StreamHeadBlockRefGetter addr) es None !! k = Some (Err (EWrap "reaching out to headinfo service" err)) /\
     calls (StreamLIBBlockRefGetter addr) es None !! k = Some (Err (EWrap "reaching out to headinfo service" err))).
Proof.
  intros Hk sent reply reached.
  assert (Hc : forall l : list (Behind O HS), connection addr l = Some tt <-> exists e', e' ∈ l /\ unreachable e' = None).
  { induction l as [|e' l IH]; [split; [done|by intros (? & ?%elem_of_nil & _)]|]. cbn.
    destruct (unreachable e') eqn:Eu.
    - rewrite IH. split; [intros (x & ? & ?); exists x; split; [by right|done]|].
      intros (x & [->|Hx]%elem_of_cons & Hn); [congruence|by exists x].
    - split; [|done]. intros _. exists e'. split; [left|done]. }
  assert (Ha : forall extract ref, (forall b t, extract (mkHeadInfoResponse (LibNum b) "" (Number b) (Id b) t) = ref b) ->
    answer STREAM extract e tt = reply ref).
  { intros extract ref He. unfold answer, reply, sent. cbn. unfold GetHeadInfo, Hub.Hub_HeadInfo.
    destruct (Hub.IsReady (hub e)); [|done]. unfold HeadInfo. destruct (lastBlockSent _) as [b|]; [|done].
    cbn. destruct (Timestamp b); cbn; [|by rewrite orb_true_r].
    rewrite orb_false_r. destruct (Number b =? 0); [done|]. by rewrite He. }
  unfold StreamHeadBlockRefGetter, StreamLIBBlockRefGetter. rewrite !(calls_spec _ _ _ _ _ _ Hk).
  destruct (connection addr (take (S k) es)) as [[]|] eqn:Ec.
  - apply Hc in Ec. split; [|by intros []]. intros _. split; f_equal; by apply Ha.
  - assert (Hn : ~ reached) by (intros Hr%Hc; congruence). split; [by intros ?%Hn|]. intros _.
    destruct (unreachable e) as [err|] eqn:Eu.
    + exists err. split; [done|]. unfold headInfoClient. cbn. by rewrite Eu.
    + destruct Hn. exists e. split; [|done]. eapply list_elem_of_lookup_2. rewrite lookup_take_lt; [exact Hk|lia].
Qed.

(** A hub that cannot be reached and then can. *)
Section Example.
#[local] Existing Instance ForkableProps.proto0.
Definition timed (b : Block) : Block :=
  mkBlock (Number b) (Id b) (ParentId b) (Some (Number b)) (LibNum b) (PayloadKind b) (PayloadVersion b)
    (PayloadBuffer b) (Types.HeadNum b) (ParentNum b) (Payload b).
Definition ex_timed_hub : Hub.ForkableHub unit (list (event unit)) := Hub.set_ready
  (foldl ex_step (Hub.NewForkableHub "" 10 [WithExclusiveLIB ForkableProps.ex_lib])
    ((fun i => LiveBlock (timed (i_block i)) None) <$> ResumeProps.fork_inputs)).
Definition ex_dials : list (Behind unit (list (event unit))) :=
  [mkBehind (Some (EMsg "down")) ex_timed_hub; mkBehind None ex_timed_hub].
Definition ex_heads : list (outcome (option BlockRef)) := calls (StreamHeadBlockRefGetter "hub:9000") ex_dials None.
Definition ex_libs : list (outcome (option BlockRef)) := calls (StreamLIBBlockRefGetter "hub:9000") ex_dials None.

Lemma heads_of_hub_witness :
  ex_heads !! 1%nat = Some (Ok (Some (NewBlockRef "7b" 7))) /\ ex_libs !! 1%nat = Some (Ok (Some (NewBlockRef "" 4))).
Proof.
  destruct (heads_of_hub "hub:9000" ex_dials 1 (mkBehind None ex_timed_hub) eq_refl) as [Hr _].
  destruct Hr as [Hh Hl].
  - exists (mkBehind None ex_timed_hub). split; [right; left|reflexivity].
  - unfold ex_heads, ex_libs. rewrite Hh, Hl. split; vm_compute; reflexivity.
Defined.
End Example.
End HeadInfo.
