(* ===== verification/JoiningSource.v ===== *)
(** * Joining a source of files to a live source ([joiningsource.go])

    A source is what it delivers: its events, handed to its handler up to the
    first error, and how it ends on its own: without an error, with one, or never
    ([Diverge]: it waits for a file or a block).  The factories answer at
    the moment they are asked, a hub moves on between two questions: they take
    the rank of the question as a clock. *)

From S2P Require Import Prelude Types Cursors.

Module JoiningSource.

(** What a [Source] delivers to its handler before it stops. *)
Record Source (O : Type) := mkSource {
  src_events : list (Block * iface O);
  src_end : outcome unit;
}.
Arguments mkSource {O}. Arguments src_events {O}. Arguments src_end {O}.

(** [bstream.ForkableSourceFactory], with [LowSourceLimitGetter] when the
    factory implements it; a nil source is [None]. *)
Record ForkableSourceFactory (O : Type) := mkFactory {
  SourceFromBlockNum : nat -> Z -> outcome (option (Source O));
  SourceFromCursor : nat -> Cursor -> outcome (option (Source O));
  SourceThroughCursor : nat -> Z -> option Cursor -> outcome (option (Source O));
  LowestBlockNum : option (nat -> outcome Z);
}.
Arguments mkFactory {O}. Arguments SourceFromBlockNum {O}. Arguments SourceFromCursor {O}.
Arguments SourceThroughCursor {O}. Arguments LowestBlockNum {O}.

Definition stopSourceOnJoin : error := ESentinel "bstream.stopSourceOnJoin".

Section Joining.
Context {O HS : Type}.

Record JoiningSource := mkJoining {
  fileSourceFactory : ForkableSourceFactory O;
  fileSourceHandlerMiddleware : option (Handler O HS -> Handler O HS);
  liveSourceFactory : ForkableSourceFactory O;
  liveSourceHandlerMiddleware : option (Handler O HS -> Handler O HS);
  handler : Handler O HS;
  startBlockNum : Z;
  cursor : option Cursor;
  cursorIsTarget : bool;
}.

Definition JoiningSourceOption : Type := JoiningSource -> JoiningSource.

Definition JoiningSourceWithLiveSourceHandlerMiddleware (mw : Handler O HS -> Handler O HS)
  : JoiningSourceOption := fun s =>
  mkJoining (fileSourceFactory s) (fileSourceHandlerMiddleware s) (liveSourceFactory s) (Some mw)
    (handler s) (startBlockNum s) (cursor s) (cursorIsTarget s).

Definition JoiningSourceWithFileSourceHandlerMiddleware (mw : Handler O HS -> Handler O HS)
  : JoiningSourceOption := fun s =>
  mkJoining (fileSourceFactory s) (Some mw) (liveSourceFactory s) (liveSourceHandlerMiddleware s)
    (handler s) (startBlockNum s) (cursor s) (cursorIsTarget s).

Definition NewJoiningSource (file live : ForkableSourceFactory O) (h : Handler O HS) (start : Z)
  (c : option Cursor) (target : bool) (opts : list JoiningSourceOption) : JoiningSource :=
  foldl (fun s opt => opt s) (mkJoining file None live None h start c target) opts.

(** The fields the run changes, the clock and the state of the handler. *)
Record Joined := mkJoined {
  lowestLiveBlockNum : Z;
  liveSource : option (Source O);
  questions : nat;
  j_state : HS;
}.

Definition middleware (mw : option (Handler O HS -> Handler O HS)) (h : Handler O HS) : Handler O HS :=
  match mw with Some f => f h | None => h end.

Context (s : JoiningSource).

Definition set_state (hs : HS) (j : Joined) : Joined :=
  mkJoined (lowestLiveBlockNum j) (liveSource j) (questions j) hs.
Definition set_live (src : Source O) (j : Joined) : Joined :=
  mkJoined (lowestLiveBlockNum j) (Some src) (questions j) (j_state j).
Definition set_lowest (n : Z) (j : Joined) : Joined :=
  mkJoined n (liveSource j) (questions j) (j_state j).

(** A question to a factory. *)
Definition ask {A} (f : nat -> outcome A) : M Joined A := fun j =>
  (f (questions j), mkJoined (lowestLiveBlockNum j) (liveSource j) (Datatypes.S (questions j)) (j_state j)).

Definition tryGetSource (factory : ForkableSourceFactory O) : M Joined (option (Source O)) :=
  match cursor s with
  | Some c =>
      if cursorIsTarget s then ask (fun t => SourceThroughCursor factory t (startBlockNum s) (Some c))
      else ask (fun t => SourceFromCursor factory t c)
  | None => ask (fun t => SourceFromBlockNum factory t (startBlockNum s))
  end.

(** The lowest block of the live source, when its factory tells it. *)
Definition readLowest : M Joined unit :=
  match LowestBlockNum (liveSourceFactory s) with
  | Some f => n ← ask f; mmodify (set_lowest n)
  | None => mret tt
  end.

Definition call (h : Handler O HS) (blk : Block) (obj : iface O) : M Joined unit := fun j =>
  match h blk obj (j_state j) with
  | (None, hs) => (Ok tt, set_state hs j)
  | (Some e, hs) => (Err e, set_state hs j)
  end.

Definition fileSourceHandler (blk : Block) (obj : iface O) : M Joined unit :=
  j ← mget;
  if bool_decide (is_Some (liveSource j)) then mret tt
  else
    joined ←
      (if lowestLiveBlockNum j <=? Number blk then
         src ← (if cursorIsTarget s
                then ask (fun t => SourceThroughCursor (liveSourceFactory s) t (Number blk) (cursor s))
                else ask (fun t => SourceFromBlockNum (liveSourceFactory s) t (Number blk)));
         match src with
         | Some src => _ ← mmodify (set_live src); mret true
         | None => _ ← readLowest; mret false
         end
       else mret false);
    if joined : bool then merr stopSourceOnJoin
    else call (middleware (fileSourceHandlerMiddleware s) (handler s)) blk obj.

(** [Source.Run] then [Source.Err]. *)
Definition run_source (process : Block -> iface O -> M Joined unit) (src : Source O) : M Joined unit :=
  _ ← mfor (src_events src) (fun ev => process ev.1 ev.2);
  mlift (src_end src).

(** The error of a source does not stop [run]. *)
Definition ignore (m : M Joined unit) : M Joined (outcome unit) := fun j =>
  match m j with
  | (Panic w, j') => (Panic w, j')
  | (Diverge, j') => (Diverge, j')
  | (r, j') => (Ok r, j')
  end.

Definition run : M Joined unit :=
  let live := call (middleware (liveSourceHandlerMiddleware s) (handler s)) in
  first ← tryGetSource (liveSourceFactory s);
  match first with
  | Some src => _ ← mmodify (set_live src); run_source live src
  | None =>
      _ ← readLowest;
      fileSrc ← tryGetSource (fileSourceFactory s);
      match fileSrc with
      | None =>
          match cursor s with
          | None => mpanic "invalid memory address or nil pointer dereference"
          | Some c =>
              _ ← mlift (Cursors.Cursor_String c);
              merr (EMsg "cannot run joining_source: start_block %d (cursor %s) not found")
          end
      | Some src =>
          r ← ignore (run_source fileSourceHandler src);
          j ← mget;
          match liveSource j with
          | None => mlift r
          | Some src => run_source live src
          end
      end
  end.

Definition Run (hs : HS) : outcome unit * Joined := run (mkJoined 0 None 0 hs).
End Joining.
Arguments JoiningSource : clear implicits.
Arguments Joined : clear implicits.
End JoiningSource.
