(* ===== verification/JoiningProps.v ===== *)
(** * No block lost or repeated at the join

    From a block number, the joining source is a single stream: final blocks of
    the files, then the live source from the first block it can serve.  From a
    cursor the join may come before the client is back on the chain. *)

From S2P Require Import Prelude Types ForkDB Forkable Consumer ForkableProps ForkableQueries ResumeProps.
From S2P Require Import Cursors CursorResolver JoiningSource.
Import JoiningSource.

(** The reference: the events handed one after the other, up to the first
    error of the handler. *)
Fixpoint deliver {O HS} (h : Handler O HS) (evs : list (event O)) (hs : HS) : option error * HS :=
  match evs with
  | [] => (None, hs)
  | ev :: evs' =>
      match h ev.1 ev.2 hs with
      | (Some e, hs') => (Some e, hs')
      | (None, hs') => deliver h evs' hs'
      end
  end.

Lemma deliver_app {O HS} (h : Handler O HS) a b hs : deliver h (a ++ b) hs =
  match deliver h a hs with (Some e, hs') => (Some e, hs') | (None, hs') => deliver h b hs' end.
Proof.
  revert hs. induction a as [|ev a IH]; intros hs; [done|]. cbn.
  destruct (h ev.1 ev.2 hs) as [[] ?]; [done|apply IH].
Qed.

Lemma deliver_recorder {O} (evs : list (event O)) log : deliver recorder evs log = (None, reverse evs ++ log).
Proof.
  revert log. induction evs as [|[b o] evs IH]; intros log; [done|]. cbn [deliver recorder fst snd].
  by rewrite IH, reverse_cons, <- app_assoc.
Qed.

(** The live factory answers; it never panics. *)
Record answers {O} (live : ForkableSourceFactory O) : Prop := {
  a_num : forall t n, exists r, SourceFromBlockNum live t n = Ok r;
  a_lowest : forall f t, LowestBlockNum live = Some f -> exists n, f t = Ok n;
}.

(** The events of the files, or those before one of them and then the source that
    the live factory gives for its number. *)
Inductive stream_of {O} (rejoin : nat -> Z -> outcome (option (Source O))) (src : Source O)
  : list (event O) -> outcome unit -> Prop :=
  | only_files : stream_of rejoin src (src_events src) (src_end src)
  | joins pre ev post lsrc t : src_events src = pre ++ ev :: post ->
      rejoin t (Number ev.1) = Ok (Some lsrc) ->
      stream_of rejoin src (pre ++ src_events lsrc) (src_end lsrc).

(** *** The first event the live source serves *)

Section Waits.
Context {O : Type} (live : ForkableSourceFactory O) (rejoin : nat -> Z -> outcome (option (Source O))).

(** The lowest block the live source told, before the question [t]. *)
Definition told (n : Z) (t : nat) : Prop :=
  exists f t', LowestBlockNum live = Some f /\ (t' < t)%nat /\ f t' = Ok n.

(** At the question [t] the live source does not serve this number: it refuses it, or
    told before that its lowest block is above. *)
Definition declined (t : nat) (n : Z) : Prop := rejoin t n = Ok None \/ exists m, told m t /\ n < m.

(** These events go by, between two moments, while the live source serves none of them
    at its turn. *)
Inductive waits : nat -> list (event O) -> nat -> Prop :=
  | waits_nil t : waits t [] t
  | waits_next t t1 t2 ev evs : declined t (Number ev.1) -> (t <= t1)%nat -> waits t1 evs t2 -> waits t (ev :: evs) t2.

(** The events of the files before the first one that the live source serves at its
    turn, then the live source from this one; all of them when it serves none. *)
Inductive joined_stream (src : Source O) : list (event O) -> outcome unit -> Prop :=
  | never_served t t' : waits t (src_events src) t' -> joined_stream src (src_events src) (src_end src)
  | served_at pre ev post lsrc t t' : src_events src = pre ++ ev :: post -> waits t pre t' ->
      rejoin t' (Number ev.1) = Ok (Some lsrc) -> joined_stream src (pre ++ src_events lsrc) (src_end lsrc).

(** What the joining source keeps as the lowest block: zero until it is told. *)
Definition kept (n : Z) (t : nat) : Prop := n = 0 \/ told n t.

Lemma kept_later n t t' : (t <= t')%nat -> kept n t -> kept n t'.
Proof. intros Ht [->|(f & t0 & Hf & Hlt & E)]; [by left|right]. exists f, t0. split_and!; [done|lia|done]. Qed.
End Waits.

Section Joins.
Context {O HS : Type} (file live : ForkableSourceFactory O) (start : Z) (c : option Cursor) (target : bool) (h : Handler O HS).
Notation s := (mkJoining file None live None h start c target).
Implicit Types (j : Joined O HS).

(** What a factory is asked for first, and the live one at each event of the files. *)
Definition opening (factory : ForkableSourceFactory O) (t : nat) : outcome (option (Source O)) :=
  match c with
  | Some c => if target then SourceThroughCursor factory t start (Some c) else SourceFromCursor factory t c
  | None => SourceFromBlockNum factory t start
  end.

Definition rejoin (t : nat) (n : Z) : outcome (option (Source O)) :=
  if target then SourceThroughCursor live t n c else SourceFromBlockNum live t n.

(** The live factory answers when it is asked for these events. *)
Definition rejoins (evs : list (event O)) : Prop := forall t ev, ev ∈ evs -> exists r, rejoin t (Number ev.1) = Ok r.
Notation lowest_answers := (forall f t, LowestBlockNum live = Some f -> exists n, f t = Ok n).

Lemma run_source_live src j :
  run_source (call h) src j =
    (ended (deliver h (src_events src) (j_state j)).1 (src_end src),
     set_state (deliver h (src_events src) (j_state j)).2 j).
Proof.
  unfold run_source. generalize (src_events src) as evs. intros evs. revert j.
  induction evs as [|[b o] evs IH]; intros j.
  { erewrite bind_Ok by reflexivity. cbn. destruct j. by destruct (src_end src). }
  cbn [mfor deliver fst snd].
  assert (Ec : call h b o j = (match (h b o (j_state j)).1 with Some e => Err e | None => Ok tt end,
                               set_state (h b o (j_state j)).2 j))
    by (unfold call; by destruct (h b o (j_state j)) as [[] ?]).
  unfold mbind, M_bind in *. rewrite Ec.
  destruct (h b o (j_state j)) as [[e|] hs']; [done|]. exact (IH (set_state hs' j)).
Qed.

Lemma readLowest_run j : lowest_answers -> kept live (lowestLiveBlockNum j) (questions j) ->
  exists n t, readLowest s j = (Ok tt, mkJoined n (liveSource j) t (j_state j)) /\ (questions j <= t)%nat /\ kept live n t.
Proof.
  intros Ha Hk. unfold readLowest. destruct j as [n src t hs]. cbn [liveSourceFactory].
  destruct (LowestBlockNum live) as [f|] eqn:E; [|exists n, t; by split_and!].
  destruct (Ha f t eq_refl) as [m Em]. exists m, (Datatypes.S t).
  unfold mbind, M_bind, ask. cbn [questions]. rewrite Em. split; [done|]. split; [cbn; lia|]. right. exists f, t. split_and!; [done|lia|done].
Qed.

(** One event of the files: handed on, or replaced by the live source. *)
Lemma file_event ev j : lowest_answers -> (forall t, exists r, rejoin t (Number ev.1) = Ok r) -> liveSource j = None ->
  kept live (lowestLiveBlockNum j) (questions j) ->
  (exists n t, fileSourceHandler s ev.1 ev.2 j =
     (match (h ev.1 ev.2 (j_state j)).1 with Some e => Err e | None => Ok tt end,
      mkJoined n None t (h ev.1 ev.2 (j_state j)).2) /\
     (0 <= Number ev.1 -> declined live rejoin (questions j) (Number ev.1)) /\ (questions j <= t)%nat /\ kept live n t) \/
  (exists n t src, fileSourceHandler s ev.1 ev.2 j = (Err stopSourceOnJoin, mkJoined n (Some src) t (j_state j)) /\
     rejoin (questions j) (Number ev.1) = Ok (Some src)).
Proof.
  intros Ha Hr Hn Hk. destruct j as [n src t hs]. cbn in Hn, Hk. subst src. unfold fileSourceHandler.
  rewrite bind_mget. cbn [liveSource lowestLiveBlockNum questions]. rewrite bool_decide_false by by intros [].
  assert (Hcall : forall n t, call (middleware (fileSourceHandlerMiddleware s) (handler s)) ev.1 ev.2 (mkJoined n None t hs) =
    (match (h ev.1 ev.2 hs).1 with Some e => Err e | None => Ok tt end, mkJoined n None t (h ev.1 ev.2 hs).2)).
  { intros n1 t1. unfold call. cbn. by destruct (h ev.1 ev.2 hs) as [[] ?]. }
  destruct (Z.leb_spec n (Number ev.1)) as [Hle|Hlt].
  2: { left. exists n, t. split; [exact (Hcall n t)|]. split_and!; [|done|done]. intros H0. right. exists n.
       destruct Hk as [->|Hk]; [lia|done]. }
  assert (Eask : (if target then ask (O := O) (HS := HS) (fun t => SourceThroughCursor live t (Number ev.1) c)
      else ask (O := O) (HS := HS) (fun t => SourceFromBlockNum live t (Number ev.1))) (mkJoined n None t hs) =
    (rejoin t (Number ev.1), mkJoined n None (Datatypes.S t) hs)) by (unfold rejoin, ask; by destruct target).
  cbn [cursorIsTarget liveSourceFactory cursor]. unfold mbind, M_bind. rewrite Eask.
  destruct (Hr t) as [[src|] Er]; [right|left]; rewrite Er.
  - exists n, (Datatypes.S t), src. by split.
  - destruct (readLowest_run (mkJoined n None (Datatypes.S t) hs) Ha) as (n' & t' & El & Ht & Hk').
    { cbn. eapply kept_later; [|exact Hk]. lia. }
    exists n', t'. cbn -[readLowest call] in Ht |- *. rewrite El. split; [exact (Hcall n' t')|]. split; [by left|]. split; [lia|done].
Qed.

Notation numbered := (Forall (fun ev => 0 <= Number ev.1)).

(** The run over the events of the files. *)
Lemma file_events evs : lowest_answers -> rejoins evs -> forall j, liveSource j = None -> kept live (lowestLiveBlockNum j) (questions j) ->
  (exists n t, mfor evs (fun ev => fileSourceHandler s ev.1 ev.2) j =
     (match (deliver h evs (j_state j)).1 with Some e => Err e | None => Ok tt end,
      mkJoined n None t (deliver h evs (j_state j)).2) /\
     ((deliver h evs (j_state j)).1 = None -> numbered evs -> waits live rejoin (questions j) evs t)) \/
  (exists pre ev post n t src t0, evs = pre ++ ev :: post /\ (deliver h pre (j_state j)).1 = None /\
     mfor evs (fun ev => fileSourceHandler s ev.1 ev.2) j =
       (Err stopSourceOnJoin, mkJoined n (Some src) t (deliver h pre (j_state j)).2) /\
     rejoin t0 (Number ev.1) = Ok (Some src) /\ (numbered evs -> waits live rejoin (questions j) pre t0)).
Proof.
  intros Ha. induction evs as [|ev evs IH]; intros Hr j Hn Hk.
  { left. exists (lowestLiveBlockNum j), (questions j). destruct j. cbn in *. subst. split; [done|]. intros _ _. constructor. }
  cbn [mfor]. destruct (file_event ev j Ha (fun t => Hr t ev ltac:(left)) Hn Hk) as [(n & t & E & Hd & Ht & Hk')|(n & t & src & E & Es)].
  - cbn [deliver]. destruct (h ev.1 ev.2 (j_state j)) as [[e|] hs'] eqn:Eh; cbn [fst snd] in E.
    { left. exists n, t. by erewrite bind_Err by exact E. }
    erewrite bind_Ok by exact E.
    destruct (IH (fun t ev' Hin => Hr t ev' ltac:(by right)) (mkJoined n None t hs') eq_refl Hk')
      as [(n' & t' & E' & Hw)|(pre & e & post & n' & t' & src & t0 & -> & Ep & E' & Es & Hw)].
    + left. exists n', t'. split; [exact E'|]. intros Hnone [H0 H1]%Forall_cons. eapply waits_next; [by apply Hd|exact Ht|by apply Hw].
    + right. exists (ev :: pre), e, post, n', t', src, t0. cbn [deliver]. rewrite Eh. split_and!; try done.
      intros [H0 H1]%Forall_cons. eapply waits_next; [by apply Hd|exact Ht|by apply Hw].
  - right. exists [], ev, evs, n, t, src, (questions j). split_and!; try done; [by erewrite bind_Err by exact E|]. intros _. constructor.
Qed.

Lemma tryGetSource_run factory n l t hs : tryGetSource s factory (mkJoined n l t hs) =
  (opening factory t, mkJoined n l (Datatypes.S t) hs).
Proof. unfold tryGetSource, opening, ask. destruct c; [by destruct target|done]. Qed.

(** From a block number or a cursor the live source does not have: the handler is
    given one stream, and it is joined as soon as the live source serves it. *)
Lemma joining_run_at src hs : lowest_answers -> rejoins (src_events src) -> opening live 0 = Ok None -> (forall t, opening file t = Ok (Some src)) ->
  exists evs e, stream_of rejoin src evs e /\
    (JoiningSource.Run (NewJoiningSource file live h start c target []) hs).1 = ended (deliver h evs hs).1 e /\
    j_state (JoiningSource.Run (NewJoiningSource file live h start c target []) hs).2 = (deliver h evs hs).2 /\
    ((deliver h evs hs).1 = None -> numbered (src_events src) -> joined_stream live rejoin src evs e).
Proof.
  intros Ha Hr H0 Hf. unfold JoiningSource.Run, NewJoiningSource, run. cbn [foldl].
  assert (Ef : tryGetSource s live (mkJoined 0 None 0 hs) = (Ok None, mkJoined 0 None 1 hs)).
  { by rewrite tryGetSource_run, H0. }
  erewrite (bind_Ok (tryGetSource _ _)) by exact Ef.
  destruct (readLowest_run (mkJoined 0 None 1 hs) Ha ltac:(by left)) as (n & t & El & _ & Hk). erewrite bind_Ok by exact El.
  cbn [liveSource j_state].
  assert (Eg : tryGetSource s file (mkJoined n None t hs) = (Ok (Some src), mkJoined n None (Datatypes.S t) hs)).
  { by rewrite tryGetSource_run, Hf. }
  erewrite (bind_Ok (tryGetSource _ _)) by exact Eg.
  destruct (file_events (src_events src) Ha Hr (mkJoined n None (Datatypes.S t) hs) eq_refl)
    as [(n' & t' & E & Hw)|(pre & ev & post & n' & t' & lsrc & t0 & Epre & Ep & E & Es & Hw)];
    [eapply kept_later; [|exact Hk]; cbn; lia| |]; cbn [j_state questions] in *.
  - exists (src_events src), (src_end src). split; [constructor|].
    assert (Er : run_source (fileSourceHandler s) src (mkJoined n None (Datatypes.S t) hs) =
      (ended (deliver h (src_events src) hs).1 (src_end src), mkJoined n' None t' (deliver h (src_events src) hs).2)).
    { unfold run_source, mbind, M_bind. rewrite E. destruct (deliver h (src_events src) hs) as [[e|] hs']; [done|]. by cbn. }
    unfold mbind at 1 3, M_bind at 1 3, ignore. rewrite Er.
    destruct (ended (deliver h (src_events src) hs).1 (src_end src)); [rewrite bind_mget|rewrite bind_mget|..];
      (split; [done|]; split; [done|]; intros Hnone Hnum; by eapply never_served, Hw).
  - exists (pre ++ src_events lsrc), (src_end lsrc). split; [by econstructor|].
    assert (Er : ignore (run_source (fileSourceHandler s) src) (mkJoined n None (Datatypes.S t) hs) =
      (Ok (Err stopSourceOnJoin), mkJoined n' (Some lsrc) t' (deliver h pre hs).2)).
    { unfold ignore, run_source. by erewrite bind_Err by exact E. }
    erewrite bind_Ok by exact Er. rewrite bind_mget. cbn [liveSource middleware liveSourceHandlerMiddleware handler].
    rewrite run_source_live, deliver_app. cbn [fst snd j_state set_state].
    destruct (deliver h pre hs) as [f hs']. cbn [fst] in Ep. subst f.
    split; [done|]. split; [done|]. intros _ Hnum. eapply served_at; [exact Epre|by apply Hw|exact Es].
Qed.

Lemma joining_run src hs : lowest_answers -> rejoins (src_events src) -> opening live 0 = Ok None -> (forall t, opening file t = Ok (Some src)) ->
  exists evs e, stream_of rejoin src evs e /\
    (JoiningSource.Run (NewJoiningSource file live h start c target []) hs).1 = ended (deliver h evs hs).1 e /\
    j_state (JoiningSource.Run (NewJoiningSource file live h start c target []) hs).2 = (deliver h evs hs).2.
Proof. intros Ha Hr H0 Hf. destruct (joining_run_at src hs Ha Hr H0 Hf) as (evs & e & ? & ? & ? & _). by exists evs, e. Qed.

End Joins.

(** From a cursor the live source knows, or through it: it is asked first, and the
    files are not. *)
Lemma joining_live {O HS} (file live : ForkableSourceFactory O) start (h : Handler O HS) c (target : bool) src hs :
  (if target then SourceThroughCursor live 0 start (Some c) else SourceFromCursor live 0 c) = Ok (Some src) ->
  let r := JoiningSource.Run (NewJoiningSource file live h start (Some c) target []) hs in
  r.1 = ended (deliver h (src_events src) hs).1 (src_end src) /\ j_state r.2 = (deliver h (src_events src) hs).2.
Proof.
  intros Es r. unfold r, JoiningSource.Run, NewJoiningSource, run. cbn [foldl].
  assert (Ef : tryGetSource (mkJoining file None live None h start (Some c) target) live (mkJoined 0 None 0 hs) =
    (Ok (Some src), mkJoined 0 None 1 hs)).
  { unfold tryGetSource, ask. destruct target; cbn in Es |- *; by rewrite Es. }
  erewrite (bind_Ok (tryGetSource _ _)) by exact Ef. cbv beta iota. rewrite bind_mmodify.
  cbn [middleware liveSourceHandlerMiddleware handler]. rewrite run_source_live. by split.
Qed.
(** The stream of a joining source is one a consumer accepts when its two parts
    are. *)
Lemma stream_consumed {O} (live : ForkableSourceFactory O) src blocks top evs e :
  stream_of (SourceFromBlockNum live) src evs e ->
  Forall2 (ev_is StepNewIrreversible Id) (src_events src) blocks -> chained top blocks ->
  (forall t b lsrc, b ∈ blocks -> SourceFromBlockNum live t (Number b) = Ok (Some lsrc) ->
     exists v, consume (mkView (ParentId b) []) (src_events lsrc) = Some v) ->
  exists v, consume (mkView top []) evs = Some v.
Proof.
  intros [|pre ev post lsrc t Epre Es] Hev Hch Hlive; [eexists; by apply (consume_final _ _ _ Hev)|].
  rewrite Epre in Hev. apply Forall2_app_inv_l in Hev as (b1 & b2 & Hb1 & Hb2 & ->).
  inversion Hb2 as [|? b ? b2' Hb Hb2']; subst. apply CursorResolver.chained_app in Hch as [Hc1 [Hp Hc2]].
  destruct Hb as (Hb & _). rewrite Hb in Es.
  destruct (Hlive t b lsrc ltac:(set_solver) Es) as [v Hv]. exists v.
  rewrite consume_app, (consume_final _ _ _ Hb1 Hc1). cbn [mbind option_bind]. by rewrite <- Hp.
Qed.

(** C18: a joining source that starts at a block number the live source does not
    have yet is one stream: the client receives the final blocks of the files, in
    order, up to the first one that the live source serves at its turn, then what the
    live source delivers from that very block; each block of the files that is handed
    on was refused by the live source, or lies under the lowest block that it told,
    and all of them are handed on only when the live source serves none. Nothing is
    lost or sent twice and a consumer that was on the parent of the first block
    accepts all of it. *)
Theorem join_seamless {O} (file live : ForkableSourceFactory O) start src blocks top :
  answers live -> SourceFromBlockNum live 0 start = Ok None ->
  (forall t, SourceFromBlockNum file t start = Ok (Some src)) ->
  Forall2 (ev_is StepNewIrreversible Id) (src_events src) blocks -> chained top blocks ->
  Forall (fun b => 0 <= Number b) blocks ->
  (forall t b lsrc, b ∈ blocks -> SourceFromBlockNum live t (Number b) = Ok (Some lsrc) ->
     exists v, consume (mkView (ParentId b) []) (src_events lsrc) = Some v) ->
  let r := JoiningSource.Run (NewJoiningSource file live recorder start None false []) [] in
  exists evs e, joined_stream live (SourceFromBlockNum live) src evs e /\ r.1 = ended None e /\ reverse (j_state r.2) = evs /\
    exists v, consume (mkView top []) evs = Some v.
Proof.
  intros Ha H0 Hf Hev Hch Hnum Hlive. cbv zeta.
  destruct (joining_run_at file live start None false recorder src [] (a_lowest _ Ha) (fun t ev _ => a_num _ Ha t _) H0 Hf)
    as (evs & e & Hs & E1 & E2 & Hj).
  change (stream_of (SourceFromBlockNum live) src evs e) in Hs.
  exists evs, e. rewrite deliver_recorder in E1, E2, Hj. cbn [fst snd] in E1, E2, Hj. split.
  { apply Hj; [done|]. clear -Hev Hnum. induction Hev as [|ev b evs blocks [Hb _] _ IH]; [constructor|].
    apply Forall_cons in Hnum as [Hn Hnum]. constructor; [by rewrite Hb|by apply IH]. }
  split; [done|]. rewrite E2, app_nil_r, reverse_involutive. split; [done|]. by eapply stream_consumed.
Qed.

(** *** The example: files up to 6a, a live source from number 5 on *)

Definition ex_live_event (step : Z) (b : Block) (lib : BlockRef) : event unit :=
  (b, IForkable (mkForkableObject step 0 0 [] None None (Some (AsRef (Some b))) (Some lib) None)).

Definition ex_5a : event unit := CursorResolver.ex_merged 5 "5a" "4a".
Definition ex_7a : Block := mkBlock 7 "7a" "6a" None 5 0 0 "" 0 6 None.

Definition ex_file_src : Source unit :=
  mkSource [CursorResolver.ex_merged 3 "3a" "2a"; CursorResolver.ex_merged 4 "4a" "3a"; ex_5a;
            CursorResolver.ex_merged 6 "6a" "5a"] (Err (ESentinel "missing file")).

Definition ex_live_src : Source unit :=
  mkSource [ex_live_event StepNewIrreversible ex_5a.1 (NewBlockRef "5a" 5);
            ex_live_event StepNew (CursorResolver.ex_merged 6 "6a" "5a").1 (NewBlockRef "5a" 5);
            ex_live_event StepNew ex_7a (NewBlockRef "5a" 5)] Diverge.

Definition ex_file : ForkableSourceFactory unit :=
  mkFactory (fun _ _ => Ok (Some ex_file_src)) (fun _ _ => Ok None) (fun _ _ _ => Ok None) None.

Definition ex_live : ForkableSourceFactory unit :=
  mkFactory (fun _ n => Ok (if n =? 5 then Some ex_live_src else None)) (fun _ _ => Ok None)
    (fun _ _ _ => Ok None) (Some (fun _ => Ok 5)).

Definition join_summary (evs : list (event unit)) : list (option Z * string) :=
  (fun ev => (ev_step ev.2, Id ev.1)) <$> evs.

Lemma ex_answers : answers ex_live.
Proof. split; [by eexists|]. intros f t [= <-]. by eexists. Qed.

Lemma join_seamless_witness :
  let r := JoiningSource.Run (NewJoiningSource ex_file ex_live recorder 3 None false []) [] in
  (exists v, consume (mkView "2a" []) (reverse (j_state r.2)) = Some v) /\
  (exists e, joined_stream ex_live (SourceFromBlockNum ex_live) ex_file_src (reverse (j_state r.2)) e) /\
  join_summary (reverse (j_state r.2)) =
      [(Some StepNewIrreversible, "3a"); (Some StepNewIrreversible, "4a"); (Some StepNewIrreversible, "5a");
       (Some StepNew, "6a"); (Some StepNew, "7a")].
Proof.
  cbv zeta.
  destruct (join_seamless ex_file ex_live 3 ex_file_src (src_events ex_file_src).*1 "2a") as (evs & e & Hs & _ & E & C).
  - apply ex_answers.
  - reflexivity.
  - reflexivity.
  - repeat constructor.
  - repeat constructor.
  - repeat constructor; discriminate.
  - intros t b lsrc Hb E. repeat (apply elem_of_cons in Hb as [->|Hb];
      [first [discriminate E|injection E as <-; eexists; vm_compute; reflexivity]|]).
    by apply elem_of_nil in Hb.
  - split; [rewrite E; exact C|]. split; [exists e; rewrite E; exact Hs|vm_compute; reflexivity].
Defined.

(** ** From a cursor: the join comes too early

    The live source is asked for the number of the first event of the files,
    whatever its step.  When this event takes a block of the client back, or
    makes one final, the live source starts in the middle of what the client
    already has. *)

Section Cursor.
#[local] Existing Instance CursorResolver.proto0.
#[local] Existing Instance CursorResolver.ex_store.
#[local] Existing Instance CursorResolver.ex_dbin.

(** A hub that saw 4a to 7a above 3a, and nothing else. *)
Definition hub_inputs : list (Input unit) :=
  ex_input <$> [("4a", "3a", 3); ("5a", "4a", 3); ("6a", "5a", 3); ("7a", "6a", 4)].
Definition hub_forkable : Forkable unit (list (event unit)) := (feed kept10 hub_inputs ex_start).2.

Definition source_of (r : outcome (list (event unit))) : outcome (option (Source unit)) :=
  match r with
  | Ok evs => Ok (Some (mkSource evs (Ok tt)))
  | Err _ => Ok None
  | Panic w => Panic w
  | Diverge => Diverge
  end.

Definition hub_factory : ForkableSourceFactory unit :=
  mkFactory (fun _ n => source_of (blocksFromNum hub_forkable n))
    (fun _ c => source_of (blocksFromCursor hub_forkable c))
    (fun _ n c => c ← deref c; source_of (blocksThroughCursor hub_forkable n c))
    (Some (fun _ => ForkableQueries.LowestBlockNum hub_forkable)).

(** The merged blocks 3a to 6a, through the resolver of the cursor. *)
Definition resolved (c : Cursor) : list (event unit) :=
  let f := (mfor [CursorResolver.ex_merged 3 "3a" "2a"; CursorResolver.ex_merged 4 "4a" "3a";
                  CursorResolver.ex_merged 5 "5a" "4a"; CursorResolver.ex_merged 6 "6a" "5a"]
              (fun x => CursorResolver.ProcessBlock recorder c false x.1 x.2)
              (CursorResolver.newCursorResolverHandler [])).2 in
  reverse (CursorResolver.next f).

Definition file_factory : ForkableSourceFactory unit :=
  mkFactory (fun _ _ => Ok None) (fun _ c => Ok (Some (mkSource (resolved c) (Ok tt)))) (fun _ _ _ => Ok None) None.

Definition join_from (c : Cursor) : list (event unit) :=
  reverse (j_state (JoiningSource.Run
    (NewJoiningSource file_factory hub_factory recorder 0 (Some c) false []) []).2).

(** The client on 5b would have been told to undo it; it is sent 5a on top of
    it. *)
Lemma join_skips_undo :
  join_summary (resolved CursorResolver.ex_client) =
    [(Some StepUndo, "5b"); (Some StepIrreversible, "4a"); (Some StepNewIrreversible, "5a");
     (Some StepNewIrreversible, "6a")] /\
  join_summary (join_from CursorResolver.ex_client) =
    [(Some StepNew, "5a"); (Some StepNew, "6a"); (Some StepNew, "7a")] /\
  consume (mkView "3a" ["5b"; "4a"]) (join_from CursorResolver.ex_client) = None.
Proof. split_and!; vm_compute; reflexivity. Qed.

(** The client on 5a would have been told that 4a and 5a are final; it is sent
    both again. *)
Definition client_5a : Cursor :=
  mkCursor StepNew (Some (NewBlockRef "5a" 5)) (Some (NewBlockRef "3a" 3)) (Some (NewBlockRef "5a" 5)).

Lemma join_repeats_blocks :
  join_summary (resolved client_5a) =
    [(Some StepIrreversible, "4a"); (Some StepIrreversible, "5a"); (Some StepNewIrreversible, "6a")] /\
  join_summary (join_from client_5a) =
    [(Some StepNewIrreversible, "4a"); (Some StepNew, "5a"); (Some StepNew, "6a"); (Some StepNew, "7a")] /\
  consume (mkView "3a" ["5a"; "4a"]) (join_from client_5a) = None.
Proof. split_and!; vm_compute; reflexivity. Qed.
End Cursor.
