(* ===== verification/Stream.v ===== *)
(** * The stream, entry point of the library ([stream/])

    A stream checks a request, wraps the client's handler in the filters the
    request asks for and runs a joining source.  A handler that panics stops the
    program: the state of the handlers keeps the panic. *)

From S2P Require Import Prelude GoStrings Types Cursors Gates OneBlockFiles CursorResolver FileSource JoiningSource.

Module Stream.
Import JoiningSource.

Definition ErrStopBlockReached : error := ESentinel "stream.ErrStopBlockReached".

(** [ErrInvalidArg] is known by its message. *)
Definition NewErrInvalidArg (message : string) : error := EMsg message.

(** ** The handlers *)

Section Handlers.
Context {O HS : Type}.

(** The state of the client's handler and the panic that ended the program. *)
Definition Caught : Type := HS * option string.

Definition panics (w : string) (s : Caught) : option error * Caught := (Some (EMsg "panic"), (s.1, Some w)).

Definition user (h : Handler O HS) : Handler O Caught := fun blk obj s =>
  let '(e, hs) := h blk obj s.1 in (e, (hs, s.2)).

(** [obj.(bstream.Stepable).Step()] then the handler when the step is kept. *)
Definition step_filter (keep : Z -> bool) (h : Handler O Caught) : Handler O Caught := fun blk obj s =>
  match iface_Step obj with
  | Ok step => if keep step then h blk obj s else (None, s)
  | Panic w => panics w s
  | _ => (None, s)
  end.

Definition newOrUndoFilterHandler : Handler O Caught -> Handler O Caught :=
  step_filter (fun step => Matches step StepNew || Matches step StepUndo).

Definition finalBlocksFilterHandler : Handler O Caught -> Handler O Caught :=
  step_filter (fun step => Matches step StepIrreversible).

Definition customStepFilterHandler (step : Z) : Handler O Caught -> Handler O Caught :=
  step_filter (fun st => Matches st step).

Definition stopBlockHandler (stopBlockNum : Z) (h : Handler O Caught) : Handler O Caught :=
  if 0 <? stopBlockNum then fun blk obj s =>
    if stopBlockNum <? Number blk then (Some ErrStopBlockReached, s)
    else
      match h blk obj s with
      | (Some e, s') => (Some e, s')
      | (None, s') => if Number blk =? stopBlockNum then (Some ErrStopBlockReached, s') else (None, s')
      end
  else h.

(** [bstream.NewPreprocessor]. *)
Definition preprocessor (f : Block -> outcome O) (h : Handler O Caught) : Handler O Caught := fun blk obj s =>
  match Gates.Preprocessor_ProcessBlock h (fun b => Some <$> f b) blk obj s with
  | (Ok _, s') => (None, s')
  | (Err e, s') => (Some e, s')
  | (Panic w, s') => panics w s'
  | (Diverge, s') => panics "never returns" s'
  end.
End Handlers.
Arguments Caught : clear implicits.

(** ** The stream *)

Record Stream (O HS : Type) := mkStream {
  fileSourceFactory : ForkableSourceFactory O;
  fileSourceHandlerMiddleware : option (Handler O (Caught HS) -> Handler O (Caught HS));
  liveSourceFactory : ForkableSourceFactory O;
  liveSourceHandlerMiddleware : option (Handler O (Caught HS) -> Handler O (Caught HS));
  currentHeadGetter : option Z;
  startBlockNum : Z;
  handler : Handler O HS;
  cursor : option Cursor;
  cursorIsTarget : bool;
  stopBlockNum : Z;
  preprocessFunc : option (Block -> outcome O);
  preprocessThreads : Z;
  hasBlockIndexProvider : bool;
  finalBlocksOnly : bool;
  customStepTypeFilter : option Z;
}.
Arguments mkStream {O HS}. Arguments fileSourceFactory {O HS}. Arguments fileSourceHandlerMiddleware {O HS}.
Arguments liveSourceFactory {O HS}. Arguments liveSourceHandlerMiddleware {O HS}.
Arguments currentHeadGetter {O HS}. Arguments startBlockNum {O HS}. Arguments handler {O HS}.
Arguments cursor {O HS}. Arguments cursorIsTarget {O HS}. Arguments stopBlockNum {O HS}.
Arguments preprocessFunc {O HS}. Arguments preprocessThreads {O HS}.
Arguments hasBlockIndexProvider {O HS}. Arguments finalBlocksOnly {O HS}.
Arguments customStepTypeFilter {O HS}.

Section Options.
Context {O HS : Type}.
Definition Option_ : Type := Stream O HS -> Stream O HS.

Definition WithPreprocessFunc (pp : Block -> outcome O) (threads : Z) : Option_ := fun s =>
  mkStream (fileSourceFactory s) (fileSourceHandlerMiddleware s) (liveSourceFactory s)
    (liveSourceHandlerMiddleware s) (currentHeadGetter s) (startBlockNum s) (handler s) (cursor s)
    (cursorIsTarget s) (stopBlockNum s) (Some pp) threads (hasBlockIndexProvider s)
    (finalBlocksOnly s) (customStepTypeFilter s).

Definition DefaultPreprocessFuncThreadNumber : Z := 4.

Definition WithPreprocessFuncDefaultThreadNumber (pp : Block -> outcome O) : Option_ :=
  WithPreprocessFunc pp DefaultPreprocessFuncThreadNumber.

Definition WithFinalBlocksOnly : Option_ := fun s =>
  mkStream (fileSourceFactory s) (fileSourceHandlerMiddleware s) (liveSourceFactory s)
    (liveSourceHandlerMiddleware s) (currentHeadGetter s) (startBlockNum s) (handler s) (cursor s)
    (cursorIsTarget s) (stopBlockNum s) (preprocessFunc s) (preprocessThreads s)
    (hasBlockIndexProvider s) true (customStepTypeFilter s).

Definition WithCustomStepTypeFilter (step : Z) : Option_ := fun s =>
  mkStream (fileSourceFactory s) (fileSourceHandlerMiddleware s) (liveSourceFactory s)
    (liveSourceHandlerMiddleware s) (currentHeadGetter s) (startBlockNum s) (handler s) (cursor s)
    (cursorIsTarget s) (stopBlockNum s) (preprocessFunc s) (preprocessThreads s)
    (hasBlockIndexProvider s) (finalBlocksOnly s) (Some step).

Definition WithBlockIndexProvider : Option_ := fun s =>
  mkStream (fileSourceFactory s) (fileSourceHandlerMiddleware s) (liveSourceFactory s)
    (liveSourceHandlerMiddleware s) (currentHeadGetter s) (startBlockNum s) (handler s) (cursor s)
    (cursorIsTarget s) (stopBlockNum s) (preprocessFunc s) (preprocessThreads s) true
    (finalBlocksOnly s) (customStepTypeFilter s).

Definition set_cursor (c : option Cursor) (target : bool) (s : Stream O HS) : Stream O HS :=
  mkStream (fileSourceFactory s) (fileSourceHandlerMiddleware s) (liveSourceFactory s)
    (liveSourceHandlerMiddleware s) (currentHeadGetter s) (startBlockNum s) (handler s) c target
    (stopBlockNum s) (preprocessFunc s) (preprocessThreads s) (hasBlockIndexProvider s)
    (finalBlocksOnly s) (customStepTypeFilter s).

Definition WithCursor (c : option Cursor) : Option_ := fun s => set_cursor c (cursorIsTarget s) s.
Definition WithTargetCursor (c : option Cursor) : Option_ := set_cursor c true.

Definition WithStopBlock (stop : Z) : Option_ := fun s =>
  mkStream (fileSourceFactory s) (fileSourceHandlerMiddleware s) (liveSourceFactory s)
    (liveSourceHandlerMiddleware s) (currentHeadGetter s) (startBlockNum s) (handler s) (cursor s)
    (cursorIsTarget s) stop (preprocessFunc s) (preprocessThreads s) (hasBlockIndexProvider s)
    (finalBlocksOnly s) (customStepTypeFilter s).

Definition WithLiveSourceHandlerMiddleware (mw : Handler O (Caught HS) -> Handler O (Caught HS)) : Option_ := fun s =>
  mkStream (fileSourceFactory s) (fileSourceHandlerMiddleware s) (liveSourceFactory s) (Some mw)
    (currentHeadGetter s) (startBlockNum s) (handler s) (cursor s) (cursorIsTarget s) (stopBlockNum s)
    (preprocessFunc s) (preprocessThreads s) (hasBlockIndexProvider s) (finalBlocksOnly s)
    (customStepTypeFilter s).

Definition WithFileSourceHandlerMiddleware (mw : Handler O (Caught HS) -> Handler O (Caught HS)) : Option_ := fun s =>
  mkStream (fileSourceFactory s) (Some mw) (liveSourceFactory s) (liveSourceHandlerMiddleware s)
    (currentHeadGetter s) (startBlockNum s) (handler s) (cursor s) (cursorIsTarget s) (stopBlockNum s)
    (preprocessFunc s) (preprocessThreads s) (hasBlockIndexProvider s) (finalBlocksOnly s)
    (customStepTypeFilter s).
End Options.
Arguments Option_ : clear implicits.

Section Run.
Context {O HS : Type} `{Protocol}.
Context (NewFileSourceFactory : list (FileSource.FileSourceOption (O := O)) -> ForkableSourceFactory O).

(** The options the files are read with. *)
Definition fileSourceOptions (s : Stream O HS) : list (FileSource.FileSourceOption (O := O)) :=
  (if stopBlockNum s =? 0 then [] else [FileSource.FileSourceWithStopBlock (stopBlockNum s)]) ++
  match preprocessFunc s with
  | Some f => [FileSource.FileSourceWithConcurrentPreprocess f (preprocessThreads s)]
  | None => []
  end ++
  (if hasBlockIndexProvider s then [FileSource.FileSourceWithBlockIndexProvider] else []).

(** [headNum] is what [hub.HeadNum] will answer. *)
Definition New (hub : ForkableSourceFactory O) (headNum : Z) (start : Z) (h : Handler O HS)
  (options : list (Option_ O HS)) : Stream O HS :=
  let s := foldl (fun s option => option s)
    (mkStream hub None hub None (Some headNum) start h None false 0 None 0 false false None) options in
  mkStream (NewFileSourceFactory (fileSourceOptions s)) (fileSourceHandlerMiddleware s)
    (liveSourceFactory s) (liveSourceHandlerMiddleware s) (currentHeadGetter s) (startBlockNum s)
    (handler s) (cursor s) (cursorIsTarget s) (stopBlockNum s) (preprocessFunc s) (preprocessThreads s)
    (hasBlockIndexProvider s) (finalBlocksOnly s) (customStepTypeFilter s).

Definition resolveNegativeStartBlockNum (start : Z) (head_ : option Z) : outcome Z :=
  if start <? 0 then
    match head_ with
    | None => Err (EMsg "cannot resolve negative start block: no headGetter set up")
    | Some head_ =>
        let delta := u64 (i64 (- start)) in
        if head_ <? delta then Ok 0 else Ok (u64_sub head_ delta)
    end
  else Ok (u64 start).

(** The client's handler in its filters. *)
Definition wrapped_handler (s : Stream O HS) : Handler O (Caught HS) :=
  let h := user (handler s) in
  let h := if stopBlockNum s =? 0 then h else stopBlockHandler (stopBlockNum s) h in
  let h := if finalBlocksOnly s then finalBlocksFilterHandler h
           else match customStepTypeFilter s with
                | Some step => customStepFilterHandler step h
                | None => newOrUndoFilterHandler h
                end in
  match preprocessFunc s with Some f => preprocessor f h | None => h end.

Definition createSource (s : Stream O HS) : outcome (JoiningSource O (Caught HS)) :=
  resolved ← resolveNegativeStartBlockNum (startBlockNum s) (currentHeadGetter s);
  let absoluteStartBlockNum :=
    if resolved <? GetProtocolFirstStreamableBlock then GetProtocolFirstStreamableBlock else resolved in
  if (0 <? stopBlockNum s) && (stopBlockNum s <? absoluteStartBlockNum)
  then Err (NewErrInvalidArg "start block %d is after stop block %d")
  else
    let hasCursor := negb (Cursors.Cursor_IsEmpty (cursor s)) in
    onFinal ← (if finalBlocksOnly s && hasCursor
               then c ← deref (cursor s); Cursors.IsOnFinalBlock c else Ok true);
    if (onFinal : bool) then
      Ok (NewJoiningSource (fileSourceFactory s) (liveSourceFactory s) (wrapped_handler s)
            absoluteStartBlockNum (cursor s) (cursorIsTarget s)
            ((match liveSourceHandlerMiddleware s with
              | Some mw => [JoiningSourceWithLiveSourceHandlerMiddleware mw] | None => [] end) ++
             (match fileSourceHandlerMiddleware s with
              | Some mw => [JoiningSourceWithFileSourceHandlerMiddleware mw] | None => [] end)))
    else Err (NewErrInvalidArg "cannot stream with final-blocks-only from this non-final cursor").

(** The error of the source, as [Run] reports it. *)
Definition reported (r : outcome unit) : outcome unit :=
  match r with
  | Err e =>
      if errors_Is e CursorResolver.ErrResolveCursor then Err (NewErrInvalidArg "%s")
      else if errors_Is e "bstream.ErrStopBlockReached" then Err ErrStopBlockReached
      else Err e
  | r => r
  end.

(** The context is never done. *)
Definition Run (s : Stream O HS) (hs : HS) : outcome unit * HS :=
  match createSource s with
  | Ok source =>
      let '(r, j) := JoiningSource.Run source (hs, None) in
      (match (j_state j).2 with Some w => Panic w | None => reported r end, (j_state j).1)
  | Err e => (Err e, hs)
  | Panic w => (Panic w, hs)
  | Diverge => (Diverge, hs)
  end.
End Run.
End Stream.
