(* ===== verification/StreamProps.v ===== *)
(** * What a stream delivers *)

From S2P Require Import Prelude GoStrings Types Consumer Cursors Gates OneBlockFiles CursorResolver FileSource.
From S2P Require Import JoiningSource JoiningProps Stream.
Import JoiningSource Stream.

Section Handlers.
Context {O : Type}.
Notation L := (list (event O)).

(** The events of a source carry their step. *)
Definition stepable (ev : event O) : Prop := is_Some (ev_step ev.2).

Definition passes (keep : Z -> bool) (ev : event O) : Prop :=
  match ev_step ev.2 with Some st => keep st = true | None => False end.

#[export] Instance passes_dec keep ev : Decision (passes keep ev).
Proof. unfold passes. destruct (ev_step ev.2); apply _. Defined.

(** The events up to the stop block, which is sent, or up to the first one above
    it, which is not; whether the stop block was reached. *)
Fixpoint until (stop : Z) (evs : L) : L * bool :=
  match evs with
  | [] => ([], false)
  | ev :: evs' =>
      if stop <? Number ev.1 then ([], true)
      else if Number ev.1 =? stop then ([ev], true)
      else let '(sent, stopped) := until stop evs' in (ev :: sent, stopped)
  end.

Lemma iface_Step_ev (o : iface O) st : ev_step o = Some st -> iface_Step o = Ok st.
Proof. destruct o; cbn; unfold FO_Step, W_Step, P_Step; congruence. Qed.

(** The filters and the stop of a recording client. *)
Lemma deliver_filtered keep stop evs : 0 < stop -> Forall stepable evs -> forall log,
  deliver (step_filter keep (stopBlockHandler stop (user (recorder (O := O))))) evs (log, None) =
    (if (until stop (filter (passes keep) evs)).2 then Some ErrStopBlockReached else None,
     (reverse (until stop (filter (passes keep) evs)).1 ++ log, None)).
Proof.
  intros Hs. induction 1 as [|[b o] evs [st Est] _ IH]; intros log; [done|]. cbn [deliver fst snd] in *.
  unfold step_filter at 1. rewrite (iface_Step_ev _ _ Est). destruct (keep st) eqn:Ek.
  - rewrite filter_cons_True by (unfold passes; cbn [snd]; by rewrite Est). cbn [until fst].
    unfold stopBlockHandler at 1. destruct (Z.ltb_spec 0 stop); [|lia].
    destruct (Z.ltb_spec stop (Number b)); [done|]. cbn [user recorder fst snd].
    destruct (Z.eqb_spec (Number b) stop); [done|]. rewrite IH.
    destruct (until stop (filter (passes keep) evs)) as [sent stopped]. cbn [fst snd].
    by rewrite reverse_cons, <- app_assoc.
  - rewrite filter_cons_False by (unfold passes; cbn [snd]; rewrite Est; congruence). apply IH.
Qed.
(** What a stop block leaves of the events, 0 standing for none. *)
Definition cut (stop : Z) (evs : L) : L * bool := if stop =? 0 then (evs, false) else until stop evs.

(** The handler of a recording client, with or without a stop block. *)
Lemma deliver_cut keep stop evs : 0 <= stop -> Forall stepable evs ->
  deliver (step_filter keep (if stop =? 0 then user recorder
                             else stopBlockHandler stop (user recorder))) evs ([], None) =
    (if (cut stop (filter (passes keep) evs)).2 then Some ErrStopBlockReached else None,
     (reverse (cut stop (filter (passes keep) evs)).1, None)).
Proof.
  intros Hs Hall. unfold cut. destruct (Z.eqb_spec stop 0) as [->|].
  - rewrite <- (app_nil_r (reverse _)). generalize (@nil (event O)). cbn [fst snd].
    induction Hall as [|[b o] evs [st Est] _ IH]; intros log; [done|]. cbn [deliver fst snd] in *.
    unfold step_filter at 1. rewrite (iface_Step_ev _ _ Est). destruct (keep st) eqn:Ek.
    + rewrite filter_cons_True by (unfold passes; cbn [snd]; by rewrite Est). cbn [user recorder fst snd].
      by rewrite IH, reverse_cons, <- app_assoc.
    + rewrite filter_cons_False by (unfold passes; cbn [snd]; rewrite Est; congruence). apply IH.
  - rewrite (deliver_filtered keep stop evs) by (done || lia). by rewrite app_nil_r.
Qed.
End Handlers.

Definition newOrUndo (step : Z) : bool := Matches step StepNew || Matches step StepUndo.

(** The options of the files of a stream with this stop block and nothing else. *)
Definition stop_options {O} (stop : Z) : list (FileSource.FileSourceOption (O := O)) :=
  if stop =? 0 then [] else [FileSource.FileSourceWithStopBlock stop].

(** A stream hands the events of its joining source over to the filters. *)
Lemma stream_run {O} `{Protocol} files (hub : ForkableSourceFactory O) headNum start stop c target evs e :
  0 <= start < two63 -> 0 <= stop -> (stop = 0 \/ Z.max start GetProtocolFirstStreamableBlock <= stop) ->
  Forall stepable evs ->
  let s := New files hub headNum start recorder [set_cursor c target; WithStopBlock stop] in
  let h := wrapped_handler s in
  let J := JoiningSource.Run (NewJoiningSource (files (stop_options stop)) hub h
    (Z.max start GetProtocolFirstStreamableBlock) c target []) ([], None) in
  J.1 = ended (deliver h evs ([], None)).1 e -> j_state J.2 = (deliver h evs ([], None)).2 ->
  let kept := cut stop (filter (passes newOrUndo) evs) in
  Run s [] = (if kept.2 then Err ErrStopBlockReached else reported e, reverse kept.1).
Proof.
  intros Hst Hs Hle Hall s h J E1 E2 kept. set (abs := Z.max start GetProtocolFirstStreamableBlock) in *.
  assert (Hw : h = step_filter newOrUndo (if stop =? 0 then user recorder else stopBlockHandler stop (user recorder))) by done.
  assert (Ec : createSource s = Ok (NewJoiningSource (files (stop_options stop)) hub h abs c target [])).
  { unfold createSource, resolveNegativeStartBlockNum. cbn -[wrapped_handler Cursors.Cursor_IsEmpty].
    destruct (Z.ltb_spec start 0); [lia|]. cbn -[wrapped_handler Cursors.Cursor_IsEmpty].
    rewrite u64_small by (unfold is_u64, two63, two64 in *; lia).
    replace (if start <? GetProtocolFirstStreamableBlock then GetProtocolFirstStreamableBlock else start) with abs
      by (unfold abs; destruct (Z.ltb_spec start GetProtocolFirstStreamableBlock); lia).
    unfold fileSourceOptions. cbn -[wrapped_handler Cursors.Cursor_IsEmpty]. rewrite app_nil_r.
    destruct (Z.ltb_spec 0 stop), (Z.ltb_spec stop abs); try lia; done. }
  unfold Run. rewrite Ec. fold J. destruct J as [r j]. cbn [fst snd] in E1, E2. rewrite E1, E2, Hw.
  rewrite deliver_cut by done. cbn [fst snd]. fold kept. by destruct kept as [k []].
Qed.

(** A stream whose live source takes the cursor, to go on from it or as a target. *)
Lemma stream_over_live {O} `{Protocol} files (live : ForkableSourceFactory O) headNum start stop c (target : bool) lsrc :
  0 <= start < two63 -> 0 <= stop -> (stop = 0 \/ Z.max start GetProtocolFirstStreamableBlock <= stop) ->
  Forall stepable (src_events lsrc) ->
  (if target then SourceThroughCursor live 0 (Z.max start GetProtocolFirstStreamableBlock) (Some c)
   else SourceFromCursor live 0 c) = Ok (Some lsrc) ->
  let kept := cut stop (filter (passes newOrUndo) (src_events lsrc)) in
  Run (New files live headNum start recorder
         [if target then WithTargetCursor (Some c) else WithCursor (Some c); WithStopBlock stop]) [] =
    (if kept.2 then Err ErrStopBlockReached else reported (src_end lsrc), reverse kept.1).
Proof.
  intros Hst Hs Hle Hall Es.
  set (s := New files live headNum start recorder [set_cursor (Some c) target; WithStopBlock stop]).
  destruct (joining_live (files (stop_options stop)) live (Z.max start GetProtocolFirstStreamableBlock)
    (wrapped_handler s) c target lsrc ([], None) Es) as [E1 E2].
  pose proof (stream_run files live headNum start stop (Some c) target _ _ Hst Hs Hle Hall E1 E2) as E.
  by destruct target.
Qed.

(** A stream over files that may be joined by the live source. *)
Lemma stream_over_files {O} `{Protocol} files (hub : ForkableSourceFactory O) headNum start stop c target src :
  (forall f t, LowestBlockNum hub = Some f -> exists n, f t = Ok n) -> rejoins hub c target (src_events src) ->
  0 <= start < two63 -> 0 <= stop -> (stop = 0 \/ Z.max start GetProtocolFirstStreamableBlock <= stop) ->
  let abs := Z.max start GetProtocolFirstStreamableBlock in
  opening abs c target hub 0 = Ok None ->
  (forall t, opening abs c target (files (stop_options stop)) t = Ok (Some src)) ->
  Forall stepable (src_events src) ->
  (forall t ev lsrc, ev ∈ src_events src -> rejoin hub c target t (Number ev.1) = Ok (Some lsrc) ->
     Forall stepable (src_events lsrc)) ->
  exists evs e, stream_of (rejoin hub c target) src evs e /\
    let kept := cut stop (filter (passes newOrUndo) evs) in
    Run (New files hub headNum start recorder [set_cursor c target; WithStopBlock stop]) [] =
      (if kept.2 then Err ErrStopBlockReached else reported e, reverse kept.1).
Proof.
  intros Ha Hr Hst Hs Hle abs H0 Hf Hsrc Hlive.
  set (s := New files hub headNum start recorder [set_cursor c target; WithStopBlock stop]).
  destruct (joining_run (files (stop_options stop)) hub abs c target (wrapped_handler s) src ([], None) Ha Hr H0 Hf)
    as (evs & e & Hstr & E1 & E2).
  assert (Hall : Forall stepable evs).
  { destruct Hstr as [|pre ev post lsrc t Epre Es]; [done|]. apply Forall_app. split; [|apply (Hlive t ev lsrc); [rewrite Epre; set_solver|exact Es]].
    rewrite Epre in Hsrc. by apply Forall_app in Hsrc as [? _]. }
  exists evs, e. split; [done|]. exact (stream_run files hub headNum start stop c target _ _ Hst Hs Hle Hall E1 E2).
Qed.

(** ** Properties *)

(** C19: a stream from a block number, with or without a stop block, sends its
    client, out of the single stream of the files and the hub, the new and undone
    blocks, up to the stop block included when there is one, in order, nothing
    beyond; and it ends with the one error of the package for a reached stop block,
    whether the client's handler met the block or the files ended after it, or as
    its last source does. *)
Theorem Stream_serves {O} `{Protocol} files (hub : ForkableSourceFactory O) headNum start stop src :
  answers hub -> 0 <= start < two63 -> 0 <= stop -> (stop = 0 \/ Z.max start GetProtocolFirstStreamableBlock <= stop) ->
  let abs := Z.max start GetProtocolFirstStreamableBlock in
  SourceFromBlockNum hub 0 abs = Ok None ->
  (forall t, SourceFromBlockNum (files (stop_options stop)) t abs = Ok (Some src)) ->
  Forall stepable (src_events src) ->
  (forall t ev lsrc, ev ∈ src_events src -> SourceFromBlockNum hub t (Number ev.1) = Ok (Some lsrc) ->
     Forall stepable (src_events lsrc)) ->
  exists evs e, stream_of (SourceFromBlockNum hub) src evs e /\
    let '(kept, stopped) := cut stop (filter (passes newOrUndo) evs) in
    Run (New files hub headNum start recorder [WithStopBlock stop]) [] =
      (if stopped then Err ErrStopBlockReached else reported e, reverse kept).
Proof.
  intros Ha Hst Hs Hle abs H0 Hf Hsrc Hlive.
  destruct (stream_over_files files hub headNum start stop None false src (a_lowest _ Ha) (fun t ev _ => a_num _ Ha t _)
    Hst Hs Hle H0 Hf Hsrc Hlive) as (evs & e & Hstr & E).
  exists evs, e. split; [done|]. cbv zeta in E. by destruct (cut stop _).
Qed.

Section Witness.
#[local] Existing Instance CursorResolver.proto0.

Lemma Stream_serves_witness :
  (exists evs e, stream_of (SourceFromBlockNum ex_live) ex_file_src evs e /\
    let '(kept, stopped) := cut 6 (filter (passes newOrUndo) evs) in
    Run (New (fun _ => ex_file) ex_live 7 3 recorder [WithStopBlock 6]) [] =
      (if stopped then Err ErrStopBlockReached else reported e, reverse kept)) /\
  (Run (New (fun _ => ex_file) ex_live 7 3 recorder [WithStopBlock 6]) []).1 = Err ErrStopBlockReached /\
  join_summary (reverse (Run (New (fun _ => ex_file) ex_live 7 3 recorder [WithStopBlock 6]) []).2) =
    [(Some StepNewIrreversible, "3a"); (Some StepNewIrreversible, "4a"); (Some StepNewIrreversible, "5a");
     (Some StepNew, "6a")].
Proof.
  split; [|split; vm_compute; reflexivity].
  refine (Stream_serves (fun _ => ex_file) ex_live 7 3 6 ex_file_src ex_answers _ _ _ _ _ _ _).
  - by vm_compute.
  - lia.
  - right. by vm_compute.
  - reflexivity.
  - reflexivity.
  - repeat constructor; by eexists.
  - intros t ev lsrc _ E. cbn in E. destruct (Number ev.1 =? 5); [|discriminate E]. injection E as <-.
    repeat constructor; by eexists.
Defined.
End Witness.

(** C20: the checks of a stream on its request, whatever its options: the start
    block is the requested one, counted from the head when it is negative (never
    below 0) and raised to the first streamable block; a stop block before it and
    a cursor that is not on a final block when only final blocks are wanted are
    refused, and nothing else is. *)
Theorem createSource_checks {O HS} `{Protocol} (s : Stream O HS) head_ :
  currentHeadGetter s = Some head_ -> is_u64 head_ -> is_i64 (startBlockNum s) ->
  let requested := if startBlockNum s <? 0 then Z.max 0 (head_ + startBlockNum s) else startBlockNum s in
  let abs := Z.max requested GetProtocolFirstStreamableBlock in
  let refused := exists c b l, cursor s = Some c /\ cBlock c = Some b /\ LIB c = Some l /\
    Cursors.Cursor_IsEmpty (Some c) = false /\ finalBlocksOnly s = true /\ Num b <> Num l in
  (0 < stopBlockNum s < abs /\ is_Err (createSource s) = true) \/
  (~ 0 < stopBlockNum s < abs /\ refused /\ is_Err (createSource s) = true) \/
  (~ 0 < stopBlockNum s < abs /\ ~ refused /\ exists j, createSource s = Ok j /\
     JoiningSource.startBlockNum j = abs /\ JoiningSource.cursor j = cursor s /\
     JoiningSource.cursorIsTarget j = cursorIsTarget s).
Proof.
  intros Hh Hhead Hst requested abs refused. unfold createSource. rewrite Hh.
  assert (Hr : resolveNegativeStartBlockNum (startBlockNum s) (Some head_) = Ok requested).
  { unfold resolveNegativeStartBlockNum, requested. unfold is_u64, is_i64, two63, two64 in *.
    destruct (Z.ltb_spec (startBlockNum s) 0).
    - assert (u64 (i64 (- startBlockNum s)) = - startBlockNum s) as -> by u64_solve.
      destruct (Z.ltb_spec head_ (- startBlockNum s)); f_equal; [lia|].
      rewrite u64_sub_le by (unfold is_u64, two64; lia). lia.
    - rewrite u64_small by (unfold is_u64, two64; lia). done. }
  rewrite Hr. cbn [mbind outcome_bind].
  replace (if requested <? GetProtocolFirstStreamableBlock then GetProtocolFirstStreamableBlock else requested) with abs
    by (unfold abs; destruct (Z.ltb_spec requested GetProtocolFirstStreamableBlock); lia).
  destruct (Z.ltb_spec 0 (stopBlockNum s)), (Z.ltb_spec (stopBlockNum s) abs); cbn [andb]; [by left|right..];
    (assert (Hno : ~ 0 < stopBlockNum s < abs) by lia).
  all: destruct (finalBlocksOnly s) eqn:Ef; cbn [andb];
    [|right; split; [done|]; split; [intros (? & ? & ? & _ & _ & _ & _ & ? & _); congruence|]].
  all: try (eexists; cbn [mbind outcome_bind]; split; [reflexivity|];
    destruct (liveSourceHandlerMiddleware s), (fileSourceHandlerMiddleware s); done).
  all: destruct (Cursors.Cursor_IsEmpty (cursor s)) eqn:Ee; cbn [negb andb mbind outcome_bind];
    [right; split; [done|]; split; [intros (c & ? & ? & Ec & _ & _ & ? & _); rewrite Ec in Ee; congruence|];
     eexists; split; [reflexivity|]; destruct (liveSourceHandlerMiddleware s), (fileSourceHandlerMiddleware s); done|].
  all: destruct (cursor s) as [c|] eqn:Ec; [|done]; pose proof Ee as Ee'; unfold Cursors.Cursor_IsEmpty in Ee;
    destruct (cBlock c) as [b|] eqn:Eb; [|done]; destruct (LIB c) as [l|] eqn:El; [|cbn in Ee; by rewrite !orb_true_r in Ee];
    cbn [deref mbind outcome_bind]; unfold Cursors.IsOnFinalBlock; rewrite Eb, El; cbn [deref mbind outcome_bind];
    destruct (Z.eqb_spec (Num b) (Num l)).
  all: try (left; split; [done|]; split; [by exists c, b, l|done]).
  all: right; split; [done|]; (split; [intros (c' & b' & l' & [= <-] & Eb' & El' & _ & _ & Hne); apply Hne; congruence|]);
    eexists; (split; [reflexivity|]); destruct (liveSourceHandlerMiddleware s), (fileSourceHandlerMiddleware s); done.
Qed.

Lemma createSource_checks_witness :
  let s := New (O := unit) (fun _ => ex_file) ex_live 100 (-30) recorder [WithStopBlock 80] in
  exists j, createSource (H := CursorResolver.proto0) s = Ok j /\ JoiningSource.startBlockNum j = 70.
Proof.
  cbv zeta.
  destruct (createSource_checks (H := CursorResolver.proto0)
    (New (O := unit) (fun _ => ex_file) ex_live 100 (-30) recorder [WithStopBlock 80]) 100)
    as [[[_ A] _]|[(_ & (c & _ & _ & A & _) & _)|(_ & _ & j & E & Es & _)]].
  - reflexivity.
  - by vm_compute.
  - by vm_compute.
  - by vm_compute in A.
  - discriminate A.
  - by exists j.
Defined.

(** A client that comes back on the stop block while it was forked: the undo is
    of the stop block's number and ends the stream, the canonical block is never
    sent. *)
Lemma stop_on_undo {O} stop (undone canonical : event O) rest :
  0 < stop -> ev_step undone.2 = Some StepUndo -> Number undone.1 = stop ->
  deliver (newOrUndoFilterHandler (stopBlockHandler stop (user recorder))) (undone :: canonical :: rest) ([], None) =
    (Some ErrStopBlockReached, ([undone], None)).
Proof.
  intros Hs Hu Hn. cbn [deliver]. unfold newOrUndoFilterHandler, step_filter at 1.
  rewrite (iface_Step_ev _ _ Hu). cbn [Matches]. change (Matches StepUndo StepNew || Matches StepUndo StepUndo) with true.
  cbv iota. unfold stopBlockHandler at 1. destruct (Z.ltb_spec 0 stop); [|lia].
  destruct (Z.ltb_spec stop (Number undone.1)); [lia|]. cbn [user recorder].
  destruct (Z.eqb_spec (Number undone.1) stop); [|lia]. by destruct undone.
Qed.
