(* ===== verification/BlockIndex.v ===== *)
(** * Block indexes ([transform/block_index*.go], [transform/block_indexer.go])

    An indexer collects, per key, the numbers of the blocks of a range and writes
    one file per range; a provider finds the file of a range, lets the client's
    filter choose among its keys and answers the file source.  The bitmaps, the
    protobuf message and the object store are external. *)

From stdpp Require Import fin_maps.
From Stdlib Require Import Ascii.
From S2P Require Import Prelude GoStrings Types.

(** [roaring64.Bitmap]: a set of numbers, [bm_elem] tells its elements. *)
Class Bitmap (BM : Type) := {
  BitmapOf : Z -> BM;
  bm_Add : BM -> Z -> BM;
  FastOr : list BM -> BM;
  ToBytes : BM -> string;
  UnmarshalBinary : string -> outcome BM;
}.

(** [proto.Marshal] and [proto.Unmarshal] of the message [GenericBlockIndex]:
    its list of keys and bitmaps. *)
Class IndexCodec := {
  MarshalIndex : list (string * string) -> string;
  UnmarshalIndex : string -> outcome (list (string * string));
}.

Module BlockIndex.

(** ** File names *)

Definition toIndexFilename (bundleSize baseBlockNum : Z) (shortname : string) : string :=
  Join [fmt_010d baseBlockNum; fmt_d bundleSize; shortname; "idx"] ".".

Definition parseIndexFilename (name : string) : outcome (Z * Z * string) :=
  match Split "."%char name with
  | [p0; p1; p2; p3] =>
      if decide (p3 = "idx") then
        baseBlockNum ← ParseUint p0 64;
        bundleSize ← ParseUint p1 64;
        Ok (bundleSize, baseBlockNum, p2)
      else Err (EMsg "invalid parsed index filename: %s")
  | _ => Err (EMsg "invalid parsed index filename: %s")
  end.

Section Index.
Context {BM : Type} `{Bitmap BM} `{IndexCodec} `{Protocol}.

(** ** The index of a range *)

Record blockIndex := mkBlockIndex {
  kv : gmap string BM;
  lowBlockNum : Z;
  bi_indexSize : Z;
}.

Definition NewBlockIndex (low size : Z) : blockIndex := mkBlockIndex ∅ low size.

Definition Get (i : blockIndex) (key : string) : option BM := kv i !! key.

Definition matches (prefix suffix key : string) : bool :=
  (bool_decide (prefix = "") || HasPrefix key prefix) && (bool_decide (suffix = "") || HasSuffix key suffix).

(** [order] is the order in which Go iterates the map. *)
Definition GetByPrefixAndSuffix (order : list (string * BM)) (prefix suffix : string) : option BM :=
  if decide (prefix = "" /\ suffix = "") then None
  else
    match filter (fun kv => matches prefix suffix kv.1 = true) order with
    | [] => None
    | [(_, bm)] => Some bm
    | matching => Some (FastOr matching.*2)
    end.

Definition add (key : string) (blocknum : Z) (i : blockIndex) : blockIndex :=
  mkBlockIndex
    (<[key := match kv i !! key with Some bitmap => bm_Add bitmap blocknum | None => BitmapOf blocknum end]> (kv i))
    (lowBlockNum i) (bi_indexSize i).

Definition marshal (i : blockIndex) : string :=
  MarshalIndex ((fun kb => (kb.1, ToBytes kb.2)) <$> map_to_list (kv i)).

Fixpoint read_kv (l : list (string * string)) (m : gmap string BM) : outcome (gmap string BM) :=
  match l with
  | [] => Ok m
  | (key, bytes) :: l' =>
      match UnmarshalBinary bytes with
      | Ok bm => read_kv l' (<[key := bm]> m)
      | Err _ => Err (EMsg "coudln't unmarshal kv bitmap: %s")
      | Panic w => Panic w
      | Diverge => Diverge
      end
  end.

Definition unmarshal (data : string) (i : blockIndex) : outcome blockIndex :=
  match UnmarshalIndex data with
  | Ok l => m ← read_kv l (kv i); Ok (mkBlockIndex m (lowBlockNum i) (bi_indexSize i))
  | Err _ => Err (EMsg "couldn't unmarshal GenericBlockIndex: %s")
  | Panic w => Panic w
  | Diverge => Diverge
  end.

(** The bounds of the index are not in the file. *)
Definition ReadNewBlockIndex (data : string) : outcome blockIndex :=
  match unmarshal data (mkBlockIndex ∅ 0 0) with
  | Err _ => Err (EMsg "couldn't unmarshal index: %s")
  | r => r
  end.

(** ** The indexer *)

Record BlockIndexer := mkBlockIndexer {
  currentIndex : option blockIndex;
  indexSize : Z;
  indexShortname : string;
  maxAttempts : Z;
  definedStartBlock : option Z;
}.

(** The indexer, the objects of its store and the answers of the store to its
    next writes, all successful after these. *)
Record Indexing := mkIndexing {
  indexer : BlockIndexer;
  objects : gmap string string;
  write_answers : list (option error);
}.

Definition BlockIndexer_String (i : BlockIndexer) : string :=
  match currentIndex i with
  | None => "indexSize: " +:+ fmt_d (indexSize i) +:+ ", len(kv): nil"
  | Some index => "indexSize: " +:+ fmt_d (indexSize i) +:+ ", len(kv): " +:+ fmt_d (Z.of_nat (size (kv index)))
  end.

Definition IndexerOption : Type := BlockIndexer -> BlockIndexer.

Definition WithMaxAttempts (attempts : Z) : IndexerOption := fun i =>
  mkBlockIndexer (currentIndex i) (indexSize i) (indexShortname i) attempts (definedStartBlock i).

Definition WithDefinedStartBlock (startBlock : Z) : IndexerOption := fun i =>
  mkBlockIndexer (currentIndex i) (indexSize i) (indexShortname i) (maxAttempts i) (Some startBlock).

Definition NewBlockIndexer (size : Z) (shortname : string) (opts : list IndexerOption) : outcome BlockIndexer :=
  let i := foldl (fun i opt => opt i)
    (mkBlockIndexer None size (if decide (shortname = "") then "default" else shortname) 3 None) opts in
  match definedStartBlock i with
  | None => Ok i
  | Some start =>
      if size =? 0 then Panic "integer divide by zero"
      else if start mod size =? 0 then Ok i
      else Panic "cannot start block indexer with defined start block (%d) not aligned with index size (%d)"
  end.

Notation IM := (M Indexing).

Definition set_index (i : option blockIndex) (s : Indexing) : Indexing :=
  mkIndexing
    (mkBlockIndexer i (indexSize (indexer s)) (indexShortname (indexer s)) (maxAttempts (indexer s))
       (definedStartBlock (indexer s))) (objects s) (write_answers s).

(** The attempts to write an object. *)
Fixpoint write_loop (max attempt : Z) (filename data : string) (objs : gmap string string)
  (answers : list (option error)) : outcome unit * (gmap string string * list (option error)) :=
  match answers with
  | [] => (Ok tt, (<[filename := data]> objs, []))
  | None :: answers' => (Ok tt, (<[filename := data]> objs, answers'))
  | Some e :: answers' =>
      if (0 <? max) && (max <=? attempt + 1)
      then (Err (EWrap "cannot write file to store after %d attempts" e), (objs, answers'))
      else write_loop max (attempt + 1) filename data objs answers'
  end.

Definition writeIndex : IM unit := fun s =>
  match currentIndex (indexer s) with
  | None => (Err (EMsg "attempted to write a nil index"), s)
  | Some index =>
      let '(r, (objs, answers)) :=
        write_loop (maxAttempts (indexer s)) 0
          (toIndexFilename (indexSize (indexer s)) (lowBlockNum index) (indexShortname (indexer s)))
          (marshal index) (objects s) (write_answers s) in
      (r, mkIndexing (indexer s) objs answers)
  end.

(** The index [Add] starts with, when there is none. *)
Definition first_index (i : BlockIndexer) (blockNum : Z) : outcome (option blockIndex) :=
  if indexSize i =? 0 then Panic "integer divide by zero"
  else if blockNum mod indexSize i =? 0 then Ok (Some (NewBlockIndex blockNum (indexSize i)))
  else if blockNum =? GetProtocolFirstStreamableBlock then
    lb ← lowBoundary blockNum (indexSize i); Ok (Some (NewBlockIndex lb (indexSize i)))
  else
    match definedStartBlock i with
    | Some start => Ok (Some (NewBlockIndex start (indexSize i)))
    | None => Ok None
    end.

Definition Add (keys : list string) (blockNum : Z) : IM unit :=
  s ← mget;
  index ← (match currentIndex (indexer s) with
           | Some index => mret (Some index)
           | None => mlift (first_index (indexer s) blockNum)
           end);
  match index with
  | None => mret tt
  | Some index =>
      _ ← mmodify (set_index (Some index));
      index ←
        (if u64_add (lowBlockNum index) (indexSize (indexer s)) <=? blockNum then
           _ ← (fun s => match writeIndex s with (Err _, s') => (Ok tt, s') | r => r end);
           lb ← mlift (lowBoundary blockNum (indexSize (indexer s)));
           mret (NewBlockIndex lb (indexSize (indexer s)))
         else mret index);
      mmodify (set_index (Some (foldl (fun i key => add key blockNum i) index keys)))
  end.

(** *** The next range without an index *)

Section Find.
Context (FileExists : string -> bool) (WalkFrom : string -> list string).

Fixpoint first_indexed (start : Z) (sizes : list Z) (shortName : string) : outcome (option Z) :=
  match sizes with
  | [] => Ok None
  | size :: sizes' =>
      base ← lowBoundary start size;
      if FileExists (toIndexFilename size base shortName) then Ok (Some (u64_add base size))
      else first_indexed start sizes' shortName
  end.

Definition skip_file (sizes : list Z) (shortName : string) (next : Z) (filename : string) : Z :=
  match parseIndexFilename filename with
  | Ok (size, blockNum, short) =>
      if negb (bool_decide (size ∈ sizes)) || negb (bool_decide (short = shortName)) then next
      else
        let end_ := u64_add blockNum size in
        if (blockNum <=? next) && (next <? end_) then end_ else next
  | _ => next
  end.

Definition FindNextUnindexed (startBlockNum : Z) (possibleIndexSizes : list Z) (shortName : string) : outcome Z :=
  let start := if startBlockNum <? GetProtocolFirstStreamableBlock
               then GetProtocolFirstStreamableBlock else startBlockNum in
  next ← first_indexed start possibleIndexSizes shortName;
  match next with
  | None => Ok start
  | Some next => Ok (foldl (skip_file possibleIndexSizes shortName) next (WalkFrom (fmt_010d next)))
  end.
End Find.

(** ** The provider *)

Record GenericBlockIndexProvider := mkProvider {
  loadedLowBoundary : Z;
  loadedExclusiveHighBoundary : Z;
  matchingBlocks : list Z;
  filterFunc : blockIndex -> list Z;
  ip_indexShortname : string;
  possibleIndexSizes : list Z;
}.

Definition NewGenericBlockIndexProvider (shortname : string) (sizes : option (list Z))
  (filter : blockIndex -> list Z) : GenericBlockIndexProvider :=
  mkProvider 0 0 [] filter shortname (default [100000; 10000; 1000; 100] sizes).

Notation PM := (M GenericBlockIndexProvider).

(** [store] gives the content of an object, or nothing when it cannot be opened;
    the operations do not time out. *)
Context (store : string -> option string).

Fixpoint findIndexContaining (sizes : list Z) (shortname : string) (blockNum bundleSize : Z)
  : outcome (option (string * Z * Z)) :=
  match sizes with
  | [] => Ok None
  | size :: sizes' =>
      if size <? bundleSize then findIndexContaining sizes' shortname blockNum bundleSize
      else
        base ← lowBoundary blockNum size;
        match store (toIndexFilename size base shortname) with
        | Some data => Ok (Some (data, base, size))
        | None => findIndexContaining sizes' shortname blockNum bundleSize
        end
  end.

Definition loadRange (blockNum bundleSize : Z) : PM unit :=
  ip ← mget;
  if (loadedLowBoundary ip <=? blockNum) && (u64_add blockNum bundleSize <=? loadedExclusiveHighBoundary ip)
  then mret tt
  else
    found ← mlift (findIndexContaining (possibleIndexSizes ip) (ip_indexShortname ip) blockNum bundleSize);
    match found with
    | None => merr (EMsg "couldn't find index containing block_num: %d")
    | Some (data, low, size) =>
        idx ← mlift (ReadNewBlockIndex data);
        mmodify (fun ip => mkProvider low (u64_add low size) (filterFunc ip idx) (filterFunc ip)
                             (ip_indexShortname ip) (possibleIndexSizes ip))
    end.

(** The loop over the blocks of the index. *)
Fixpoint in_range (baseBlock exclusiveUpperBound : Z) (blocks : list Z) : list Z :=
  match blocks with
  | [] => []
  | block :: blocks' =>
      if block <? baseBlock then in_range baseBlock exclusiveUpperBound blocks'
      else if exclusiveUpperBound <? block then []
      else block :: in_range baseBlock exclusiveUpperBound blocks'
  end.

Definition BlocksInRange (baseBlock bundleSize : Z) : PM (list Z) :=
  if bundleSize =? 0 then mpanic "integer divide by zero"
  else if negb (baseBlock mod bundleSize =? 0) then merr (EMsg "blocks_in_range called not on boundary")
  else
    _ ← (fun ip => match loadRange baseBlock bundleSize ip with
                   | (Err _, ip') => (Err (EMsg "cannot load range: %s"), ip')
                   | r => r
                   end);
    ip ← mget;
    let low := if baseBlock <? GetProtocolFirstStreamableBlock
               then GetProtocolFirstStreamableBlock else baseBlock in
    mret (in_range low (u64_add baseBlock bundleSize) (matchingBlocks ip)).
End Index.
Arguments blockIndex : clear implicits.
Arguments BlockIndexer : clear implicits.
Arguments Indexing : clear implicits.
Arguments GenericBlockIndexProvider : clear implicits.
End BlockIndex.
