(* ===== verification/BlockIndexProps.v ===== *)
(** * The index written and the index read

    File names, the search for the next range to index, and the round trip of an
    index from the indexer through the store to the provider. *)

From stdpp Require Import fin_maps.
From Stdlib Require Import Ascii.
From S2P Require Import Prelude GoStrings Types BlockIndex.
Import BlockIndex.

(** ** File names *)

Lemma parse_toIndexFilename size base shortname : is_u64 size -> is_u64 base ->
  free_of "."%char shortname = true -> parseIndexFilename (toIndexFilename size base shortname) = Ok (size, base, shortname).
Proof.
  intros Hs Hb Hf. unfold parseIndexFilename, toIndexFilename.
  rewrite (Split_Join "."%char [fmt_010d base; fmt_d size; shortname; "idx"]); [|done|].
  - rewrite decide_True by done.
    rewrite (ParseUint_digits _ _ base (fmt_010d_nonempty base) (parse_fmt_010d base Hb)).
    2: { change (2 ^ 64) with two64. apply Hb. }
    cbn [mbind outcome_bind]. by rewrite ParseUint_fmt_d.
  - unfold is_u64 in *. repeat (apply Forall_cons; split); [apply fmt_010d_free; [done|lia]|apply fmt_d_free; [done|lia]|done|done|constructor].
Qed.

(** ** The next range to index *)

Section Find.
Context `{Protocol} (FileExists : string -> bool) (WalkFrom : string -> list string).
Context (sizes : list Z) (shortName : string).

(** [n] is in the range of an index of the list, seen by the store. *)
Definition indexed (n : Z) : Prop :=
  exists size base, size ∈ sizes /\ base <= n < base + size /\
    (FileExists (toIndexFilename size base shortName) = true \/
     exists name from, name ∈ WalkFrom from /\ parseIndexFilename name = Ok (size, base, shortName)).

Lemma skip_file_indexed from start next name : 0 <= next -> name ∈ WalkFrom from ->
  (forall n, start <= n < next -> indexed n) ->
  0 <= skip_file sizes shortName next name /\ next <= skip_file sizes shortName next name /\
  forall n, start <= n < skip_file sizes shortName next name -> indexed n.
Proof.
  intros Hpos Hname Hn. unfold skip_file. destruct (parseIndexFilename name) as [[[size base] short]|e|w|] eqn:E;
    [|split; [done|split; [lia|done]]..].
  destruct (bool_decide_reflect (size ∈ sizes)) as [Hsz|]; [|cbn [negb orb]; split; [done|split; [lia|done]]].
  destruct (bool_decide_reflect (short = shortName)) as [->|]; [|cbn [negb orb]; split; [done|split; [lia|done]]]. cbn [negb orb].
  destruct (Z.leb_spec base next), (Z.ltb_spec next (u64_add base size)); cbn [andb]; try (split; [done|split; [lia|done]]).
  split; [lia|]. split; [lia|]. intros n Hr. destruct (Z.lt_ge_cases n next); [apply Hn; lia|].
  assert (Hu : 0 <= base /\ 0 <= size).
  { unfold parseIndexFilename in E. destruct (Split _ _) as [|p0 [|p1 [|p2 [|p3 [|? ?]]]]]; try done.
    destruct (decide (p3 = "idx")); [|done]. destruct (ParseUint p0 64) as [b| | |] eqn:E0; try done.
    destruct (ParseUint p1 64) as [z| | |] eqn:E1; try done. injection E as <- <- _.
    apply ParseUint_range in E0, E1. unfold is_u64 in *. lia. }
  exists size, base. split; [done|]. split; [|right; by exists name, from].
  assert (u64_add base size <= base + size); [|lia]. unfold u64_add, u64. apply Z.mod_le; [lia|done].
Qed.

(** Where the indexing of a store resumes: either nothing is indexed at the
    start block, which is returned, or every number from there up to the returned
    one is in the range of an index file of the right name and size: no block is
    left without an index. *)
Theorem FindNextUnindexed_covers startBlockNum next : is_u64 startBlockNum -> is_u64 GetProtocolFirstStreamableBlock ->
  Forall (fun size => 0 < size) sizes ->
  FindNextUnindexed FileExists WalkFrom startBlockNum sizes shortName = Ok next ->
  let start := Z.max startBlockNum GetProtocolFirstStreamableBlock in
  (next = start /\ forall size base, size ∈ sizes -> lowBoundary start size = Ok base ->
     FileExists (toIndexFilename size base shortName) = false) \/
  (forall n, start <= n < next -> indexed n).
Proof.
  intros Hu Hp Hs E start. unfold FindNextUnindexed in E.
  replace (if startBlockNum <? GetProtocolFirstStreamableBlock then GetProtocolFirstStreamableBlock else startBlockNum)
    with start in E by (unfold start; destruct (Z.ltb_spec startBlockNum GetProtocolFirstStreamableBlock); lia).
  assert (Hst : is_u64 start) by (unfold start, is_u64 in *; lia).
  destruct (first_indexed FileExists start sizes shortName) as [[nx|]|e|w|] eqn:Ef; try done; cbn in E; injection E as <-.
  - right. assert (H0 : 0 <= nx /\ forall n, start <= n < nx -> indexed n).
    { assert (Hsub : forall sz, sz ∈ sizes -> sz ∈ sizes) by done. revert Hsub Hs Ef.
      generalize sizes at 1 3 4 as ss. induction ss as [|size ss IH]; intros Hsub Hs Ef; [done|].
      apply Forall_cons in Hs as [Hsz Hs]. cbn [first_indexed] in Ef.
      destruct (lowBoundary_spec start size Hst Hsz) as (lb & El & Hr & _ & Hlb). rewrite El in Ef. cbn [mbind outcome_bind] in Ef.
      destruct (FileExists _) eqn:Ex; [|apply IH; [intros; apply Hsub; by right|done|exact Ef]].
      injection Ef as <-. split; [apply u64_range|]. intros n Hn. exists size, lb.
      split; [apply Hsub; left|]. split; [|by left].
      assert (u64_add lb size <= lb + size); [|lia]. unfold u64_add, u64. apply Z.mod_le; [lia|done]. }
    assert (Hname : forall nm, nm ∈ WalkFrom (fmt_010d nx) -> nm ∈ WalkFrom (fmt_010d nx)) by done. revert Hname H0.
    generalize (WalkFrom (fmt_010d nx)) at 1 3 as names. intros names. generalize (fmt_010d nx) as from. clear Ef. revert nx.
    induction names as [|name names IH]; intros nx from Hname [Hpos Hn]; [exact Hn|]. cbn [foldl].
    destruct (skip_file_indexed from start nx name Hpos (Hname name ltac:(left)) Hn) as (H1 & _ & H3).
    apply (IH (skip_file sizes shortName nx name)) with (from := from); [by intros; apply Hname; right|done].
  - left. split; [done|]. intros size base Hin El. revert Ef Hin. clear Hs. generalize sizes as ss.
    induction ss as [|z ss IH]; intros Ef Hin; [by apply elem_of_nil in Hin|]. cbn [first_indexed] in Ef.
    destruct (lowBoundary start z) as [b| | |] eqn:Eb; try done. cbn [mbind outcome_bind] in Ef.
    destruct (FileExists (toIndexFilename z b shortName)) eqn:Ex; [done|]. apply elem_of_cons in Hin as [->|Hin]; [congruence|by apply IH].
Qed.
End Find.

Section FindExample.
#[local] Instance proto_find : Protocol := {| GetProtocolFirstStreamableBlock := 0 |}.

Definition find_exists (name : string) : bool := bool_decide (name = "0000000100.100.t.idx").
Definition find_walk (from : string) : list string :=
  ["0000000200.100.t.idx"; "0000000250.100.u.idx"; "0000000300.100.t.idx"; "0000000500.100.t.idx"].

Lemma FindNextUnindexed_covers_witness :
  FindNextUnindexed find_exists find_walk 150 [1000; 100] "t" = Ok 400 /\
  (forall n, 150 <= n < 400 -> indexed find_exists find_walk [1000; 100] "t" n).
Proof.
  assert (E : FindNextUnindexed find_exists find_walk 150 [1000; 100] "t" = Ok 400) by (vm_compute; reflexivity).
  split; [exact E|].
  destruct (FindNextUnindexed_covers find_exists find_walk [1000; 100] "t" 150 400) as [[A _]|A]; [| | |exact E| |].
  - by vm_compute.
  - by vm_compute.
  - repeat constructor.
  - discriminate A.
  - exact A.
Defined.
End FindExample.

(** ** The round trip of an index *)

Section Trip.
Context {BM : Type} `{Bitmap BM} `{IndexCodec} `{Protocol}.

(** What the code relies on of the bitmaps and of the message: a bitmap is a set
    of numbers, and both read back as they were written. *)
Record bitmap_laws (bm_elem : BM -> Z -> Prop) : Prop := {
  l_of : forall n x, bm_elem (BitmapOf n) x <-> x = n;
  l_add : forall b n x, bm_elem (bm_Add b n) x <-> x = n \/ bm_elem b x;
  l_bytes : forall b, exists b', UnmarshalBinary (ToBytes b) = Ok b' /\ forall x, bm_elem b' x <-> bm_elem b x;
  l_message : forall l, UnmarshalIndex (MarshalIndex l) = Ok l;
}.

Context (bm_elem : BM -> Z -> Prop) (laws : bitmap_laws bm_elem).
Notation Index := (blockIndex BM).
Notation Blk := (list string * Z)%type.
Implicit Types (i : Index) (l : list Blk).

(** The number [x] under the key. *)
Definition indexes i key x : Prop := exists bm, Get i key = Some bm /\ bm_elem bm x.

Definition keyed l key x : Prop := exists keys, (keys, x) ∈ l /\ key ∈ keys.

(** The index of exactly these blocks. *)
Definition holds i l : Prop := forall key x, indexes i key x <-> keyed l key x.

Lemma add_indexes i k n key x : indexes (add k n i) key x <-> (key = k /\ x = n) \/ indexes i key x.
Proof.
  unfold indexes, Get, add. cbn [kv]. rewrite lookup_insert. case_decide as E; [subst key|].
  - destruct (kv i !! k) as [b|]; split.
    + intros (bm & [= <-] & Hb). apply (l_add _ laws) in Hb as [->|Hb]; [by left|right; by exists b].
    + intros [[_ ->]|(bm & [= <-] & Hb)]; eexists; (split; [reflexivity|]); apply (l_add _ laws); auto.
    + intros (bm & [= <-] & Hb). apply (l_of _ laws) in Hb as ->. by left.
    + intros [[_ ->]|(bm & ? & _)]; [|done]. eexists. split; [reflexivity|]. by apply (l_of _ laws).
  - split; [by right|]. intros [[-> _]|?]; done.
Qed.

Lemma adds_indexes keys n : forall i key x,
  indexes (foldl (fun i k => add k n i) i keys) key x <-> (key ∈ keys /\ x = n) \/ indexes i key x.
Proof.
  induction keys as [|k keys IH]; intros i key x; cbn [foldl]; [rewrite elem_of_nil; tauto|].
  rewrite IH, add_indexes, elem_of_cons. tauto.
Qed.

Lemma adds_holds i l keys n : holds i l -> holds (foldl (fun i k => add k n i) i keys) (l ++ [(keys, n)]).
Proof.
  intros Hh key x. rewrite adds_indexes, (Hh key x). unfold keyed. split.
  - intros [[Hk ->]|(ks & Hin & Hk)]; [exists keys|exists ks]; (split; [|done]); set_solver.
  - intros (ks & [Hin|Hin%list_elem_of_singleton]%elem_of_app & Hk); [right; by exists ks|left; by injection Hin as -> ->].
Qed.

Lemma adds_bounds keys n i : lowBlockNum (foldl (fun i k => add k n i) i keys) = lowBlockNum i.
Proof. revert i. induction keys as [|k keys IH]; intros i; [done|]. cbn [foldl]. by rewrite IH. Qed.

(** Reading the entries of a map, in any order. *)
Lemma read_kv_elems (es : list (string * BM)) : NoDup es.*1 -> forall m : gmap string BM,
  exists m', read_kv ((fun kb => (kb.1, ToBytes kb.2)) <$> es) m = Ok m' /\
    forall key x, (exists bm, m' !! key = Some bm /\ bm_elem bm x) <->
      (exists bm, (key, bm) ∈ es /\ bm_elem bm x) \/
      (key ∉ es.*1 /\ exists bm, m !! key = Some bm /\ bm_elem bm x).
Proof.
  induction es as [|[k b] es IH]; intros Hnd m.
  { exists m. split; [done|]. intros key x. split; [intros ?; right; split; [apply not_elem_of_nil|done]|].
    intros [(? & Hin & _)|[_ ?]]; [by apply elem_of_nil in Hin|done]. }
  rewrite fmap_cons in *. cbn [read_kv fst snd]. destruct (l_bytes _ laws b) as (b' & Eb & Hb). rewrite Eb.
  apply NoDup_cons in Hnd as [Hk Hnd]. destruct (IH Hnd (<[k := b']> m)) as (m' & E & Hm'). exists m'.
  split; [exact E|]. intros key x. rewrite Hm'. cbn [fst] in *. rewrite ?fmap_cons, not_elem_of_cons; cbn [fst]. split.
  - intros [(bm & Hin & Hx)|[Hno (bm & Hl & Hx)]]; [left; exists bm; split; [by right|done]|].
    rewrite lookup_insert in Hl. case_decide; [subst; injection Hl as <-; left; exists b; split; [left|by apply Hb]|].
    right. split; [by split|]. by exists bm.
  - intros [(bm & [[= -> ->]|Hin]%elem_of_cons & Hx)|[[Hne Hno] (bm & Hl & Hx)]].
    + right. split; [done|]. exists b'. rewrite lookup_insert_eq. split; [done|]. by apply Hb.
    + left. by exists bm.
    + right. split; [done|]. exists bm. by rewrite lookup_insert_ne.
Qed.

Lemma marshal_trip i l : holds i l -> exists i', ReadNewBlockIndex (marshal i) = Ok i' /\ holds i' l.
Proof.
  intros Hh. unfold ReadNewBlockIndex, unmarshal, marshal. rewrite (l_message _ laws).
  destruct (read_kv_elems (map_to_list (kv i)) (NoDup_fst_map_to_list _) ∅) as (m & E & Hm).
  cbn [kv]. rewrite E. cbn [mbind outcome_bind]. eexists. split; [reflexivity|]. intros key x.
  rewrite <- (Hh key x). unfold indexes, Get. cbn [kv]. rewrite Hm. split.
  - intros [(bm & Hin & Hx)|[_ (bm & Hl & _)]]; [|by rewrite lookup_empty in Hl].
    apply elem_of_map_to_list in Hin. by exists bm.
  - intros (bm & Hl & Hx). left. exists bm. split; [by apply elem_of_map_to_list|done].
Qed.

(** *** The indexer over a range *)

Definition add_all (l : list Blk) : M (Indexing BM) unit := mfor l (fun b => Add b.1 b.2).

Lemma add_range l : forall (s : Indexing BM) i l0,
  currentIndex (indexer s) = Some i -> holds i l0 ->
  lowBlockNum i + indexSize (indexer s) < two64 -> 0 <= lowBlockNum i -> 0 <= indexSize (indexer s) ->
  Forall (fun b => b.2 < lowBlockNum i + indexSize (indexer s)) l ->
  exists i', add_all l s = (Ok tt, set_index (Some i') s) /\ holds i' (l0 ++ l) /\ lowBlockNum i' = lowBlockNum i.
Proof.
  induction l as [|[keys n] l IH]; intros s i l0 Ec Hh Hw Hlow Hz HF.
  { exists i. rewrite app_nil_r. split; [|done]. destruct s as [[]]. cbn in *. by subst. }
  apply Forall_cons in HF as [Hn HF]. cbn [snd] in Hn. unfold add_all. cbn [mfor fst snd].
  set (i1 := foldl (fun i k => add k n i) i keys).
  assert (E1 : Add keys n s = (Ok tt, set_index (Some i1) s)).
  { unfold Add. rewrite bind_mget, Ec. erewrite bind_Ok by reflexivity. cbv beta iota. rewrite bind_mmodify.
    rewrite u64_add_lt by lia. destruct (Z.leb_spec (lowBlockNum i + indexSize (indexer s)) n); [lia|].
    erewrite bind_Ok by reflexivity. reflexivity. }
  erewrite bind_Ok by exact E1.
  destruct (IH (set_index (Some i1) s) i1 (l0 ++ [(keys, n)])) as (i' & E & Hh' & El).
  - done.
  - by apply adds_holds.
  - unfold i1. rewrite adds_bounds. exact Hw.
  - unfold i1. by rewrite adds_bounds.
  - done.
  - unfold i1. rewrite adds_bounds. exact HF.
  - exists i'. rewrite <- app_assoc in Hh'. split; [exact E|]. split; [exact Hh'|].
    rewrite El. unfold i1. by rewrite adds_bounds.
Qed.

(** Closing a range: its file holds the index, a new one is started. *)
Lemma close_range (s : Indexing BM) i keys n : currentIndex (indexer s) = Some i -> write_answers s = [] ->
  0 < indexSize (indexer s) -> 0 <= lowBlockNum i -> lowBlockNum i + indexSize (indexer s) <= n -> is_u64 n ->
  exists s' i', Add keys n s = (Ok tt, s') /\ currentIndex (indexer s') = Some i' /\
    lowBlockNum i' = n - n mod indexSize (indexer s) /\ holds i' [(keys, n)] /\
    objects s' = <[toIndexFilename (indexSize (indexer s)) (lowBlockNum i) (indexShortname (indexer s)) := marshal i]> (objects s).
Proof.
  intros Ec Ew Hz Hlow Hn Hu. unfold Add. rewrite bind_mget, Ec. erewrite bind_Ok by reflexivity. cbv beta iota.
  rewrite bind_mmodify, u64_add_lt by (unfold is_u64 in Hu; lia).
  destruct (Z.leb_spec (lowBlockNum i + indexSize (indexer s)) n); [|lia].
  destruct (lowBoundary_spec n (indexSize (indexer s)) Hu Hz) as (lb & El & Hlb & Hm & _).
  set (s1 := set_index (Some i) s).
  assert (Hwr : writeIndex s1 = (Ok tt, mkIndexing (indexer s1)
    (<[toIndexFilename (indexSize (indexer s)) (lowBlockNum i) (indexShortname (indexer s)) := marshal i]> (objects s)) [])).
  { unfold writeIndex. cbn [s1 set_index indexer currentIndex indexSize indexShortname maxAttempts objects write_answers].
    rewrite Ew. reflexivity. }
  set (i' := foldl (fun i key => add key n i) (NewBlockIndex lb (indexSize (indexer s))) keys).
  exists (set_index (Some i') (mkIndexing (indexer s1)
    (<[toIndexFilename (indexSize (indexer s)) (lowBlockNum i) (indexShortname (indexer s)) := marshal i]> (objects s)) [])), i'.
  split; [|split; [done|split; [|split; [|done]]]].
  - unfold mbind, M_bind. rewrite Hwr. unfold mlift. rewrite El. reflexivity.
  - unfold i'. rewrite adds_bounds. cbn [NewBlockIndex lowBlockNum].
    pose proof (Z.div_mod lb (indexSize (indexer s)) ltac:(lia)) as Ediv.
    rewrite <- (Z.mod_unique_pos n (indexSize (indexer s)) (lb / indexSize (indexer s)) (n - lb)); lia.
  - apply (adds_holds _ []). intros key x. unfold indexes, keyed, Get. cbn. split; [by intros (? & ? & _)|]. by intros (? & ?%elem_of_nil & _).
Qed.

Lemma in_range_spec lo hi blocks : StronglySorted Z.lt blocks ->
  StronglySorted Z.lt (in_range lo hi blocks) /\
  forall x, x ∈ in_range lo hi blocks <-> x ∈ blocks /\ lo <= x <= hi.
Proof.
  induction 1 as [|b blocks Hs [IHs IH] Hb]; cbn; [split; [constructor|]; intros x; rewrite elem_of_nil; tauto|].
  rewrite Forall_forall in Hb. destruct (Z.ltb_spec b lo); [|destruct (Z.ltb_spec hi b)].
  - split; [done|]. intros x. rewrite IH, elem_of_cons. naive_solver lia.
  - split; [constructor|]. intros x. rewrite elem_of_nil, elem_of_cons. split; [done|].
    intros [[->|Hx] ?]; [lia|]. specialize (Hb x Hx). lia.
  - split.
    + constructor; [done|]. apply Forall_forall. intros x Hx. apply Hb. by apply IH in Hx as [? _].
    + intros x. rewrite !elem_of_cons, IH. naive_solver lia.
Qed.

Lemma low_of_range low size n : 0 < size -> 0 <= low -> low mod size = 0 -> low + size < two64 ->
  low <= n < low + size -> lowBoundary n size = Ok low.
Proof.
  intros Hz Hlow Hmod Hw Hn. unfold lowBoundary. destruct (Z.eqb_spec size 0); [lia|]. f_equal.
  assert (n mod size = n - low) as ->.
  { symmetry. apply Z.mod_unique_pos with (q := low / size); [lia|].
    pose proof (Z.div_mod low size ltac:(lia)). lia. }
  rewrite u64_sub_le by (unfold is_u64; lia). lia.
Qed.

(** The first block of a range, on its boundary or the first of the chain. *)
Lemma open_range size low short max objs keys0 n0 : 0 < size -> 0 <= low -> low mod size = 0 -> low + size < two64 ->
  n0 = low \/ (n0 = GetProtocolFirstStreamableBlock /\ low <= n0 < low + size) ->
  let s0 := mkIndexing (mkBlockIndexer None size short max None) objs [] in
  exists i0, Add keys0 n0 s0 = (Ok tt, set_index (Some i0) s0) /\
    holds i0 [(keys0, n0)] /\ lowBlockNum i0 = low.
Proof.
  intros Hz Hlow Hmod Hw Hn0 s0. pose proof (fun n => low_of_range low size n Hz Hlow Hmod Hw) as Hlow0.
  exists (foldl (fun i k => add k n0 i) (NewBlockIndex low size) keys0). split; [|split; [|by rewrite adds_bounds]].
  - unfold Add. rewrite bind_mget. cbn [s0 indexer currentIndex].
    assert (Hfi : first_index (BM := BM) (mkBlockIndexer None size short max None) n0 = Ok (Some (NewBlockIndex low size))).
    { unfold first_index. cbn [indexSize]. destruct (Z.eqb_spec size 0); [lia|].
      destruct Hn0 as [->|[Hp Hr]]; [rewrite Hmod; done|].
      destruct (Z.eqb_spec (n0 mod size) 0) as [Em|_].
      - assert (n0 = low) as ->; [|done]. specialize (Hlow0 n0 Hr). unfold lowBoundary in Hlow0.
        destruct (Z.eqb_spec size 0); [lia|]. rewrite Em in Hlow0. injection Hlow0 as Hlow0.
        rewrite u64_sub_le in Hlow0 by (unfold is_u64; lia). lia.
      - destruct (Z.eqb_spec n0 GetProtocolFirstStreamableBlock); [|lia]. by rewrite (Hlow0 n0 Hr). }
    erewrite bind_Ok by (unfold mlift; rewrite Hfi; reflexivity). cbv beta iota. rewrite bind_mmodify.
    cbn [NewBlockIndex lowBlockNum indexSize indexer]. rewrite u64_add_lt by lia.
    destruct (Z.leb_spec (low + size) n0); [lia|]. erewrite bind_Ok by reflexivity. reflexivity.
  - apply (adds_holds _ []). intros key x. split.
    + intros (bm & Hg & _). unfold Get in Hg. cbn in Hg. by rewrite lookup_empty in Hg.
    + intros (ks & Hin & _). by apply elem_of_nil in Hin.
Qed.

(** A fresh provider over a store with the file of the range. *)
Lemma provider_reads store short size low data i f base bundle : 0 < size -> 0 <= low -> low mod size = 0 ->
  low + size < two64 -> store (toIndexFilename size low short) = Some data -> ReadNewBlockIndex data = Ok i ->
  0 < bundle <= size -> base mod bundle = 0 -> low <= base -> base + bundle <= low + size ->
  exists ip', BlocksInRange store base bundle (NewGenericBlockIndexProvider short (Some [size]) f) =
    (Ok (in_range (Z.max base GetProtocolFirstStreamableBlock) (base + bundle) (f i)), ip').
Proof.
  intros Hz Hlow Hmod Hw Est Er Hb Hbm Hlb Hhb. eexists.
  unfold BlocksInRange. destruct (Z.eqb_spec bundle 0); [lia|]. rewrite Hbm. cbn [Z.eqb negb].
  erewrite bind_Ok.
  2: { unfold loadRange. rewrite bind_mget. cbn [NewGenericBlockIndexProvider loadedLowBoundary loadedExclusiveHighBoundary].
    rewrite u64_add_lt by lia. destruct (Z.leb_spec (base + bundle) 0); [lia|]. rewrite andb_false_r.
    cbn [possibleIndexSizes ip_indexShortname NewGenericBlockIndexProvider]. change (default _ (Some [size])) with [size].
    cbn [findIndexContaining].
    destruct (Z.ltb_spec size bundle); [lia|]. rewrite (low_of_range low size base) by lia. cbn [mbind outcome_bind].
    rewrite Est. erewrite bind_mlift_Ok by reflexivity. cbv beta iota.
    erewrite bind_mlift_Ok by exact Er. reflexivity. }
  rewrite bind_mget. cbv zeta. cbn [matchingBlocks].
  replace (if base <? GetProtocolFirstStreamableBlock then GetProtocolFirstStreamableBlock else base)
    with (Z.max base GetProtocolFirstStreamableBlock) by (destruct (Z.ltb_spec base GetProtocolFirstStreamableBlock); lia).
  rewrite u64_add_lt by lia. reflexivity.
Qed.

(** The client's filter: the numbers under one key, in order. *)
Definition filters (f : Index -> list Z) (k : string) : Prop :=
  forall i, StronglySorted Z.lt (f i) /\ forall x, x ∈ f i <-> indexes i k x.
End Trip.

(** C24: the blocks an indexer received over a range are the blocks a provider
    answers from the file it wrote when it reached the next range: for a bundle of
    the range, the increasing numbers of exactly the blocks that carry the key of
    the filter, from the bundle's base or the first streamable block on. The
    bound above is the base of the next bundle, included. The indexer is then at the
    range of the block that closed the file, and holds that block alone. *)
Theorem index_roundtrip {BM} `{Bitmap BM} `{IndexCodec} `{Protocol} (bm_elem : BM -> Z -> Prop) size low short max objs
  keys0 n0 l keys' n' f k base bundle :
  bitmap_laws bm_elem -> filters bm_elem f k ->
  0 < size -> 0 <= low -> low mod size = 0 -> low + size <= n' -> is_u64 n' ->
  n0 = low \/ (n0 = GetProtocolFirstStreamableBlock /\ low <= n0 < low + size) ->
  Forall (fun b => b.2 < low + size) l ->
  0 < bundle <= size -> base mod bundle = 0 -> low <= base -> base + bundle <= low + size ->
  let blocks := (keys0, n0) :: l in
  exists s i' out ip', add_all (blocks ++ [(keys', n')]) (mkIndexing (mkBlockIndexer None size short max None) objs []) = (Ok tt, s) /\
    currentIndex (indexer s) = Some i' /\ lowBlockNum i' = n' - n' mod size /\ holds bm_elem i' [(keys', n')] /\
    BlocksInRange (fun name => objects s !! name) base bundle (NewGenericBlockIndexProvider short (Some [size]) f) = (Ok out, ip') /\
    StronglySorted Z.lt out /\
    forall x, x ∈ out <-> keyed blocks k x /\ Z.max base GetProtocolFirstStreamableBlock <= x <= base + bundle.
Proof.
  intros Hlaws Hf Hz Hlow Hmod Hn' Hu Hn0 HF Hb Hbm Hlb Hhb blocks. unfold is_u64 in Hu.
  destruct (open_range bm_elem Hlaws size low short max objs keys0 n0) as (i0 & E0 & Hh0 & El0); [lia..|done|].
  set (s0 := mkIndexing _ objs []) in *.
  destruct (add_range bm_elem Hlaws l (set_index (Some i0) s0) i0 [(keys0, n0)] eq_refl Hh0) as (i1 & E1 & Hh1 & El1);
    rewrite ?El0; cbn [indexer set_index indexSize s0]; try done; try lia.
  destruct (close_range bm_elem Hlaws (set_index (Some i1) s0) i1 keys' n' eq_refl eq_refl) as (s & i' & E2 & Ei & Eli & Hi & Eo);
    rewrite ?El1, ?El0; cbn [indexer set_index indexSize s0]; try done; try lia.
  destruct (marshal_trip bm_elem Hlaws i1 _ Hh1) as (i2 & E3 & Hh2). destruct (Hf i2) as [Hsort Hin].
  destruct (in_range_spec (Z.max base GetProtocolFirstStreamableBlock) (base + bundle) (f i2) Hsort) as [Hs' Hin'].
  destruct (provider_reads (fun name => objects s !! name) short size low (marshal i1) i2 f base bundle)
    as (ip' & Er); try done; try lia.
  { rewrite Eo. cbn [indexer set_index indexSize indexShortname objects s0]. rewrite El1, El0. apply lookup_insert_eq. }
  exists s, i', (in_range (Z.max base GetProtocolFirstStreamableBlock) (base + bundle) (f i2)), ip'.
  split; [|split; [exact Ei|split; [|split; [exact Hi|split; [exact Er|split; [exact Hs'|]]]]]].
  2: { rewrite Eli. reflexivity. }
  - unfold add_all, blocks. cbn [app mfor fst snd]. erewrite bind_Ok by exact E0.
    erewrite mfor_app by exact E1. cbn [mfor fst snd]. by erewrite bind_Ok by exact E2.
  - intros x. rewrite Hin', Hin, (Hh2 k x). done.
Qed.

(** *** The example: bitmaps as lists of numbers, bytes as the bits of their code *)

Section TripExample.
#[local] Instance proto_trip : Protocol := {| GetProtocolFirstStreamableBlock := 1 |}.
#[local] Instance list_bitmap : Bitmap (list Z) := {|
  BitmapOf := fun n => [n];
  bm_Add := fun b n => n :: b;
  FastOr := fun bs => concat bs;
  ToBytes := fun b => bits_of (countable.encode b);
  UnmarshalBinary := decoded;
|}.
#[local] Instance list_codec : IndexCodec := {|
  MarshalIndex := fun l => bits_of (countable.encode l);
  UnmarshalIndex := decoded;
|}.

Lemma list_laws : bitmap_laws (fun b x => x ∈ b).
Proof.
  split.
  - intros n x. apply list_elem_of_singleton.
  - intros b n x. apply elem_of_cons.
  - intros b. exists b. split; [apply decoded_encode|done].
  - intros l. apply decoded_encode.
Qed.

Definition by_key (k : string) (i : blockIndex (list Z)) : list Z :=
  merge_sort Z.le (remove_dups (default [] (Get i k))).

Lemma by_key_filters k : filters (fun b x => x ∈ b) (by_key k) k.
Proof.
  intros i. unfold by_key. split.
  - apply StronglySorted_lt_of_le; [by apply (StronglySorted_merge_sort _)|].
    rewrite merge_sort_Permutation. apply NoDup_remove_dups.
  - intros x. rewrite merge_sort_Permutation, elem_of_remove_dups. unfold indexes.
    destruct (Get i k) as [b|]; cbn; [naive_solver|]. split; [intros Hx; by apply elem_of_nil in Hx|by intros (? & ? & _)].
Qed.

Definition ex_blocks : list (list string * Z) := [(["a"], 11); (["b"; "a"], 14); (["b"], 15); (["a"], 17)].

Lemma index_roundtrip_witness :
  exists s out ip', add_all ((["b"], 10) :: ex_blocks ++ [(["a"], 20)])
      (mkIndexing (mkBlockIndexer None 10 "t" 3 None) ∅ []) = (Ok tt, s) /\
    BlocksInRange (fun name => objects s !! name) 10 5 (NewGenericBlockIndexProvider "t" (Some [10]) (by_key "a")) = (Ok out, ip') /\
    StronglySorted Z.lt out /\ 14 ∈ out /\ 15 ∉ out.
Proof.
  destruct (index_roundtrip (fun b x => x ∈ b) 10 10 "t" 3 ∅ ["b"] 10 ex_blocks ["a"] 20 (by_key "a") "a" 10 5)
    as (s & i' & out & ip' & E1 & _ & _ & _ & E2 & Hs & Hout).
  - exact list_laws.
  - apply by_key_filters.
  - lia.
  - lia.
  - reflexivity.
  - lia.
  - by vm_compute.
  - by left.
  - repeat constructor; by vm_compute.
  - lia.
  - reflexivity.
  - lia.
  - lia.
  - exists s, out, ip'. split; [exact E1|]. split; [exact E2|]. split; [exact Hs|]. split.
    + apply Hout. split; [exists ["b"; "a"]; split; [do 2 right; left|right; left]|by vm_compute].
    + intros Hin. apply Hout in Hin as [(ks & Hks & Hk) _]. unfold ex_blocks in Hks.
      repeat (apply elem_of_cons in Hks as [Hks|Hks]; [first [discriminate Hks|injection Hks as ->; by set_solver]|]).
      by apply elem_of_nil in Hks.
Defined.
End TripExample.

(** The upper bound of a bundle is called exclusive and included: the first block
    of the next bundle is in the answer. *)
Lemma upper_bound_included lo hi blocks : StronglySorted Z.lt blocks -> lo <= hi -> hi ∈ blocks ->
  hi ∈ in_range lo hi blocks.
Proof. intros Hs Hle Hin. apply in_range_spec; [done|]. split; [done|lia]. Qed.
