(* ===== verification/BlockStream.v ===== *)
(** * The block stream server and its client ([blockstream/])

    The server keeps the last blocks in a buffer and pushes every block to its
    subscriptions, queues of bounded size that are closed when they are full; a
    request starts with a burst of the buffered blocks.  The transport is
    external: what a client is sent is a list of blocks. *)

From stdpp Require Import fin_maps.
From S2P Require Import Prelude Types Buffers Gates.

Module BlockStream.

(** ** Subscriptions ([subscription.go]) *)

(** [sent] is what [stream.Send] was given. *)
Record subscription := mkSubscription {
  closed : bool;
  incomingBlock : list Block;
  capacity : Z;
  sent : list Block;
}.

Definition newSubscription (chanSize : Z) : outcome subscription :=
  if chanSize <? 0 then Panic "makechan: size out of range" else Ok (mkSubscription false [] chanSize []).

Definition Push (blk : Block) (s : subscription) : subscription :=
  if Z.of_nat (length (incomingBlock s)) =? capacity s
  then mkSubscription true (incomingBlock s) (capacity s) (sent s)
  else if closed s then s
  else mkSubscription false (incomingBlock s ++ [blk]) (capacity s) (sent s).

(** ** The server ([server.go]) *)

Record headInfo := mkHeadInfo { hi_libNum : Z; hi_Num : Z; hi_ID : string; hi_time : option Z }.

(** The order of the subscriptions is not observable: each has its own queue.
    [nextSub] is the identity the next one takes, its address. *)
Record Server := mkServer {
  server_headInfo : option headInfo;
  buffer : option Buffer.Buffer;
  bufferSize : Z;
  subscriptions : gmap nat subscription;
  nextSub : nat;
}.

Definition set_subscriptions (subs : gmap nat subscription) (s : Server) : Server :=
  mkServer (server_headInfo s) (buffer s) (bufferSize s) subs (nextSub s).

Definition ServerOption : Type := Server -> Server.

Definition ServerOptionWithBuffer (size : Z) : ServerOption := fun s =>
  mkServer (server_headInfo s) (Some Buffer.NewBuffer) size (subscriptions s) (nextSub s).

Definition NewUnmanagedServer (opts : list ServerOption) : Server :=
  foldl (fun s opt => opt s) (mkServer None None 0 ∅ 0) opts.

Definition NewServer (opts : list ServerOption) : Server := NewUnmanagedServer opts.

Definition NewBufferedServer (size : Z) (opts : list ServerOption) : Server :=
  ServerOptionWithBuffer size (NewServer opts).

Definition GetHeadInfo (s : Server) : outcome headInfo :=
  match server_headInfo s with Some hi => Ok hi | None => Err (EMsg "not ready") end.

Definition Ready (s : Server) : bool :=
  match buffer s with None => true | Some b => bufferSize s <=? Z.of_nat (Buffer.Len b) end.

Section Push.
(** [ptypes.TimestampProto], nil for a time out of its range. *)
Context (TimestampProto : option Z -> option Z).

Definition SetHeadInfo (num : Z) (id : string) (blkTime : option Z) (libNum : Z) (s : Server) : Server :=
  mkServer (Some (mkHeadInfo libNum num id (TimestampProto blkTime)))
    (buffer s) (bufferSize s) (subscriptions s) (nextSub s).

Definition PushBlock (blk : Block) (s : Server) : outcome Server :=
  t ← Time (Some blk);
  let s := SetHeadInfo (Number blk) (Id blk) t (LibNum blk) s in
  buffer' ← (match buffer s with
             | None => Ok None
             | Some b =>
                 b' ← (if bufferSize s <=? Z.of_nat (Buffer.Len b) then
                         match Buffer.Tail b with
                         | Some tail => Ok (Buffer.Delete tail b)
                         | None => Panic "invalid memory address or nil pointer dereference"
                         end
                       else Ok b);
                 Ok (Some (Buffer.AppendHead blk b'))
             end);
  Ok (mkServer (server_headInfo s) buffer' (bufferSize s)
        ((fun sub => if closed sub then sub else Push blk sub) <$> subscriptions s) (nextSub s)).
End Push.

(** The burst of a request: the last blocks of the buffer and the room they
    take. *)
Definition burst_blocks (requestedBurst : Z) (s : Server) : outcome (list Block * Z) :=
  match buffer s with
  | None => Ok ([], 0)
  | Some b =>
      let blocks := Buffer.AllBlocks b in
      let n := Z.of_nat (length blocks) in
      if requestedBurst <? n then
        if requestedBurst <? 0 then Panic "slice bounds out of range"
        else Ok (drop (Z.to_nat (n - requestedBurst)) blocks, requestedBurst)
      else Ok (blocks, n)
  end.

(** The loop that queues the burst. *)
Fixpoint send_burst (blocks : list Block) (sub : subscription) : option subscription :=
  match blocks with
  | [] => Some sub
  | blk :: blocks' => if closed sub then None else send_burst blocks' (Push blk sub)
  end.

Definition subscribe (requestedBurst : Z) (s : Server) : outcome (option nat * Server) :=
  '(blocks, room) ← burst_blocks requestedBurst s;
  sub ← newSubscription (200 + room);
  match send_burst blocks sub with
  | None => Ok (None, s)
  | Some sub =>
      Ok (Some (nextSub s),
          mkServer (server_headInfo s) (buffer s) (bufferSize s)
            (<[nextSub s := sub]> (subscriptions s)) (S (nextSub s)))
  end.

Definition unsubscribe (toRemove : nat) (s : Server) : Server :=
  set_subscriptions (delete toRemove (subscriptions s)) s.

(** The ways a turn of the loop of [Blocks] goes: the context of the request is
    done, or a block is received, and sent to the client or not. *)
Inductive turn := CtxDone | Received (sendOk : bool).

Definition Blocks_turn (l : nat) (t : turn) (s : Server) : Server :=
  match subscriptions s !! l with
  | None => s
  | Some sub =>
      match t with
      | CtxDone => unsubscribe l s
      | Received sendOk =>
          match incomingBlock sub with
          | [] => if closed sub then unsubscribe l s else s
          | blk :: rest =>
              if sendOk then
                set_subscriptions
                  (<[l := mkSubscription (closed sub) rest (capacity sub) (sent sub ++ [blk])]> (subscriptions s)) s
              else unsubscribe l s
          end
      end
  end.

(** What happens to a server: a block is pushed, a request arrives, the loop of
    a request takes a turn. *)
Inductive event := EPush (blk : Block) | ERequest (burst : Z) | ETurn (l : nat) (t : turn).

Section Run.
Context (TimestampProto : option Z -> option Z).

(** A request that gets no subscription is answered with an error. *)
Definition step (e : event) (s : Server) : outcome Server :=
  match e with
  | EPush blk => PushBlock TimestampProto blk s
  | ERequest burst => '(_, s) ← subscribe burst s; Ok s
  | ETurn l t => Ok (Blocks_turn l t s)
  end.

Fixpoint steps (es : list event) (s : Server) : outcome Server :=
  match es with
  | [] => Ok s
  | e :: es' => s ← step e s; steps es' s
  end.
End Run.

(** ** The client ([source.go]) *)

Section Source.
Context {O HS : Type}.

Inductive gate := NoGator | TimeGator (g : Gates.TimeThresholdGator) | NumGator (g : Gates.BlockNumberGator).

Record Source := mkSource {
  burst : Z;
  handler : Handler O HS;
  preprocFunc : option (Block -> outcome (option O));
  preprocThreads : Z;
  gator : gate;
  requester : string;
}.

Definition SourceOption : Type := Source -> Source.

Definition set_gator (g : gate) : SourceOption := fun s =>
  mkSource (burst s) (handler s) (preprocFunc s) (preprocThreads s) g (requester s).

Definition WithRequester (r : string) : SourceOption := fun s =>
  mkSource (burst s) (handler s) (preprocFunc s) (preprocThreads s) (gator s) r.
Definition WithTimeThresholdGator (threshold : Z) : SourceOption :=
  set_gator (TimeGator (Gates.NewTimeThresholdGator threshold)).
Definition WithNumGator (blockNum : Z) (exclusive : bool) : SourceOption :=
  set_gator (NumGator (if exclusive then Gates.NewExclusiveBlockNumberGator blockNum
                       else Gates.NewBlockNumberGator blockNum)).
Definition WithParallelPreproc (f : Block -> outcome (option O)) (threads : Z) : SourceOption := fun s =>
  mkSource (burst s) (handler s) (Some f) threads (gator s) (requester s).
Definition SetParallelPreproc := WithParallelPreproc.

Definition NewSource (b : Z) (h : Handler O HS) (options : list SourceOption) : Source :=
  foldl (fun s option => option s) (mkSource b h None 0 NoGator "") options.

(** [gator.Pass]; [now] is the reading of the clock for the block. *)
Definition pass (now : Block -> Z) (g : gate) (blk : Block) : bool * gate :=
  match g with
  | NoGator => (true, g)
  | TimeGator t => let '(p, t') := Gates.TimeThresholdGator_Pass (now blk) t blk in (p, TimeGator t')
  | NumGator n => let '(p, n') := Gates.BlockNumberGator_Pass n blk in (p, NumGator n')
  end.

(** [readStream]: the blocks the server sends, then the error [Recv] ends with.
    The blocks are preprocessed ahead of the handler: what the goroutines that do it
    change is in [ClientPipeline.v]. *)
Fixpoint readStream (s : Source) (now : Block -> Z) (g : gate) (blocks : list Block) (recvErr : error) : M HS unit :=
  match blocks with
  | [] => merr recvErr
  | blk :: blocks' =>
      let '(passed, g') := pass now g blk in
      if negb passed then readStream s now g' blocks' recvErr
      else
        obj ← mlift (match preprocFunc s with None => Ok None | Some f => f blk end);
        _ ← (fun hs => match handler s blk (match obj with Some o => IUser o | None => INil end) hs with
                       | (Some e, hs') => (Err e, hs')
                       | (None, hs') => (Ok tt, hs')
                       end);
        readStream s now g' blocks' recvErr
  end.

(** [client.Blocks] fails, or answers with a stream. *)
Definition run (s : Source) (now : Block -> Z) (answer : error + (list Block * error)) : M HS unit :=
  match answer with
  | inl e => merr (EWrap "failed to strart block source streamer" e)
  | inr (blocks, recvErr) => readStream s now (gator s) blocks recvErr
  end.

(** [Run]: [LockedInit] dials the server, and fails when that fails or the source
    was already shut down; the source is shut down with what is returned. *)
Definition Run (s : Source) (now : Block -> Z) (init : option error) (answer : error + (list Block * error)) : M HS unit :=
  match init with
  | Some e => merr e
  | None => run s now answer
  end.
End Source.
End BlockStream.
