(* ===== verification/BlockStreamProps.v ===== *)
(** * What a client of the block stream server is sent

    The buffer is a window on the pushed blocks, the burst is the end of the
    window, and a request is sent the burst and then every block pushed, until its
    queue overflows. *)

From stdpp Require Import fin_maps.
From S2P Require Import Prelude Types Buffers Gates BlockStream.
Import BlockStream.

(** The last [n] elements of a list. *)
Definition lastn {A} (n : nat) (l : list A) : list A := drop (length l - n) l.

Lemma length_lastn {A} n (l : list A) : length (lastn n l) = (n `min` length l)%nat.
Proof. unfold lastn. rewrite length_drop. lia. Qed.

Lemma lastn_all {A} n (l : list A) : (length l <= n)%nat -> lastn n l = l.
Proof. intros Hn. unfold lastn. by replace (length l - n)%nat with 0%nat by lia. Qed.

Lemma lastn_lastn {A} n m (l : list A) : lastn n (lastn m l) = lastn (n `min` m) l.
Proof. unfold lastn. rewrite length_drop, drop_drop. f_equal. lia. Qed.

Lemma lastn_snoc {A} n (l : list A) x : (0 < n)%nat -> lastn n (lastn n l ++ [x]) = lastn n (l ++ [x]).
Proof.
  intros Hn. unfold lastn. rewrite !length_app, length_drop. cbn [length].
  destruct (decide (length l < n)%nat).
  - replace (length l - n)%nat with 0%nat by lia. rewrite drop_0. f_equal. lia.
  - rewrite !drop_app_le by (rewrite ?length_drop; lia).
    rewrite drop_drop. do 2 f_equal. lia.
Qed.

Lemma lastn_app_tail {A} n (l : list A) x : length l = n -> (0 < n)%nat -> tail l ++ [x] = lastn n (l ++ [x]).
Proof.
  intros Hl Hn. unfold lastn. rewrite length_app. cbn [length]. replace (length l + 1 - n)%nat with 1%nat by lia.
  destruct l; [cbn in Hl; lia|done].
Qed.

(** ** The buffer *)

Lemma AppendHead_fresh blk b : Buffer.ok b -> Id blk ∉ Id <$> Buffer.AllBlocks b ->
  Buffer.AllBlocks (Buffer.AppendHead blk b) = Buffer.AllBlocks b ++ [blk].
Proof.
  intros Hok Hid. unfold Buffer.AppendHead. destruct (Buffer.elements b !! Id blk) as [t|] eqn:E.
  - exfalso. apply (Buffer.ok_map _ Hok) in E as (x & Hin & Hx). apply Hid. rewrite <- Hx.
    apply list_elem_of_fmap_2, list_elem_of_fmap. by exists (t, x).
  - unfold Buffer.AllBlocks. cbn. by rewrite fmap_app.
Qed.

Lemma Delete_tail blk b : Buffer.ok b -> Buffer.Tail b = Some blk ->
  Buffer.AllBlocks (Buffer.Delete blk b) = tail (Buffer.AllBlocks b).
Proof.
  intros Hok Ht. unfold Buffer.Tail in Ht. destruct (Buffer.blist b) as [|[t x] l] eqn:El; [done|].
  cbn in Ht. injection Ht as ->.
  assert (E : Buffer.elements b !! Id blk = Some t) by (apply (Buffer.ok_map _ Hok); exists blk; rewrite El; split; [left|done]).
  pose proof (Buffer.ok_tokens _ Hok) as Hnd. rewrite El in Hnd. cbn in Hnd. apply NoDup_cons in Hnd as [Hnt _].
  unfold Buffer.Delete, Buffer.AllBlocks. cbn. rewrite E, El. unfold Buffer.list_Remove.
  rewrite filter_cons, decide_False by (cbn; tauto). cbn. f_equal.
  clear -Hnt. induction l as [|y l IH]; [done|]. cbn in Hnt. apply not_elem_of_cons in Hnt as [H1 H2].
  rewrite filter_cons, decide_True by done. f_equal. by apply IH.
Qed.

(** What [PushBlock] does to the buffer. *)
Definition pushed_buffer (size : Z) (blk : Block) (b : Buffer.Buffer) : outcome Buffer.Buffer :=
  b' ← (if size <=? Z.of_nat (Buffer.Len b) then
          match Buffer.Tail b with
          | Some tail => Ok (Buffer.Delete tail b)
          | None => Panic "invalid memory address or nil pointer dereference"
          end
        else Ok b);
  Ok (Buffer.AppendHead blk b').

Lemma pushed_buffer_window size blk b pushed : 0 < size ->
  Buffer.ok b -> Buffer.AllBlocks b = lastn (Z.to_nat size) pushed -> NoDup (Id <$> pushed ++ [blk]) ->
  exists b', pushed_buffer size blk b = Ok b' /\ Buffer.ok b' /\
    Buffer.AllBlocks b' = lastn (Z.to_nat size) (pushed ++ [blk]).
Proof.
  intros Hz Hok Hw Hnd. rewrite fmap_app, NoDup_app in Hnd. destruct Hnd as (_ & Hfr & _).
  assert (Hid : forall l : list Block, (forall x, x ∈ l -> x ∈ lastn (Z.to_nat size) pushed) -> Id blk ∉ Id <$> l).
  { intros l Hl Hin. apply list_elem_of_fmap in Hin as (x & Ex & Hx). apply (Hfr (Id blk)); [|cbn; left].
    rewrite Ex. apply list_elem_of_fmap_2. by eapply (subseteq_drop (A := Block)), Hl. }
  unfold pushed_buffer. assert (El : Buffer.Len b = length (Buffer.AllBlocks b)) by (unfold Buffer.AllBlocks; by rewrite length_fmap).
  rewrite El, Hw, length_lastn. destruct (Z.leb_spec size (Z.of_nat (Z.to_nat size `min` length pushed))) as [Hfull|Hfull].
  - assert (Hl : length (Buffer.AllBlocks b) = Z.to_nat size) by (rewrite Hw, length_lastn; lia).
    destruct (Buffer.Tail b) as [t|] eqn:Et.
    + cbn [mbind outcome_bind]. eexists. split; [done|].
      split; [by apply Buffer.AppendHead_ok, Buffer.Delete_ok|].
      rewrite AppendHead_fresh; [|by apply Buffer.Delete_ok|].
      * rewrite (Delete_tail t b Hok Et), (lastn_app_tail (Z.to_nat size)) by lia. rewrite Hw. apply lastn_snoc. lia.
      * rewrite (Delete_tail t b Hok Et). apply Hid. intros x Hx. rewrite <- Hw. destruct (Buffer.AllBlocks b); [done|by right].
    + exfalso. unfold Buffer.Tail in Et. unfold Buffer.AllBlocks in Hl. destruct (Buffer.blist b); cbn in Hl, Et; [lia|done].
  - cbn [mbind outcome_bind]. eexists. split; [done|]. split; [by apply Buffer.AppendHead_ok|].
    rewrite AppendHead_fresh by (try done; rewrite Hw; by apply Hid). rewrite Hw.
    rewrite <- (lastn_snoc _ pushed) by lia. rewrite (lastn_all _ (_ ++ [_])); [done|].
    rewrite length_app, length_lastn. cbn. lia.
Qed.

(** ** The subscriptions *)

Lemma Push_open blk sub : closed sub = false -> Z.of_nat (length (incomingBlock sub)) < capacity sub ->
  Push blk sub = mkSubscription false (incomingBlock sub ++ [blk]) (capacity sub) (sent sub).
Proof. intros Hc Hl. unfold Push. rewrite Hc. by destruct (Z.eqb_spec (Z.of_nat (length (incomingBlock sub))) (capacity sub)); [lia|]. Qed.

Lemma send_burst_room blocks sub : closed sub = false ->
  Z.of_nat (length (incomingBlock sub) + length blocks) <= capacity sub ->
  send_burst blocks sub = Some (mkSubscription false (incomingBlock sub ++ blocks) (capacity sub) (sent sub)).
Proof.
  revert sub. induction blocks as [|blk blocks IH]; intros [c inc cap snt] Hc Hl; cbn in Hc, Hl; subst c.
  - cbn. by rewrite app_nil_r.
  - cbn [send_burst closed]. rewrite Push_open by (cbn; lia). cbn [incomingBlock capacity sent].
    rewrite IH; cbn; [by rewrite <- app_assoc|done|]. rewrite length_app. cbn. lia.
Qed.

(** A subscription follows the blocks [all]: what was sent and what waits are
    their beginning, and everything unless the queue of [room] blocks
    overflowed. *)
Record follows (room : nat) (all : list Block) (sub : subscription) : Prop := {
  fo_prefix : sent sub ++ incomingBlock sub `prefix_of` all;
  fo_open : closed sub = false -> sent sub ++ incomingBlock sub = all;
  fo_closed : closed sub = true -> (room <= length (sent sub ++ incomingBlock sub))%nat;
  fo_cap : capacity sub = Z.of_nat room;
}.

Lemma Push_follows room all sub blk : follows room all sub ->
  follows room (all ++ [blk]) (if closed sub then sub else Push blk sub).
Proof.
  intros [Hp Ho Hc Hr]. destruct (closed sub) eqn:E.
  - split; [by apply prefix_app_r|congruence|by intros _; apply Hc|done].
  - unfold Push. rewrite E. destruct (Z.eqb_spec (Z.of_nat (length (incomingBlock sub))) (capacity sub)) as [El|El].
    + split; cbn; [by apply prefix_app_r|done|intros _; rewrite length_app; lia|done].
    + specialize (Ho eq_refl). split; cbn; rewrite ?app_assoc, ?Ho; done.
Qed.

Lemma sent_follows room all c blk rest cap snt :
  follows room all (mkSubscription c (blk :: rest) cap snt) -> follows room all (mkSubscription c rest cap (snt ++ [blk])).
Proof. intros [Hp Ho Hc Hr]; split; cbn in *; by rewrite <- ?app_assoc. Qed.

(** ** The runs of a server *)

(** The blocks pushed by events. *)
Definition pushed (es : list event) : list Block :=
  omap (fun e => match e with EPush blk => Some blk | _ => None end) es.

Lemma pushed_app es es' : pushed (es ++ es') = pushed es ++ pushed es'.
Proof. apply omap_app. Qed.

(** Events on which the code does not panic: requests of bursts that are not
    negative, blocks with a timestamp. *)
Definition served (e : event) : Prop :=
  match e with EPush blk => is_Some (Timestamp blk) | ERequest burst => 0 <= burst | ETurn _ _ => True end.

Record serving (size : Z) (blocks : list Block) (s : Server) : Prop := {
  se_size : bufferSize s = size;
  se_buffer : exists b, buffer s = Some b /\ Buffer.ok b /\ Buffer.AllBlocks b = lastn (Z.to_nat size) blocks;
  se_subs : forall l, is_Some (subscriptions s !! l) -> (l < nextSub s)%nat;
}.

Section Server.
Context (TP : option Z -> option Z) (size : Z) (Hsize : 0 < size).

Lemma push_serving blocks s blk : is_Some (Timestamp blk) -> serving size blocks s -> NoDup (Id <$> blocks ++ [blk]) ->
  exists s', PushBlock TP blk s = Ok s' /\ serving size (blocks ++ [blk]) s' /\ nextSub s' = nextSub s /\
    subscriptions s' = (fun sub => if closed sub then sub else Push blk sub) <$> subscriptions s.
Proof.
  intros [t Ht] [Es (b & Eb & Hok & Hw) Hsubs] Hnd.
  destruct (pushed_buffer_window size blk b blocks) as (b' & Ep & Hok' & Hw'); try done.
  unfold pushed_buffer in Ep. apply outcome_bind_Ok in Ep as (b1 & E1 & [= E2]).
  eexists. split; [|split; [|split]].
  - unfold PushBlock, Time. rewrite Ht. cbn [mbind outcome_bind SetHeadInfo buffer bufferSize]. rewrite Eb, Es.
    cbv zeta. rewrite E1. cbn [mbind outcome_bind]. reflexivity.
  - split; cbn; [done|exists b'; by subst b'|]. intros l Hl. apply Hsubs. rewrite lookup_fmap in Hl. by apply fmap_is_Some in Hl.
  - done.
  - done.
Qed.

(** The answer to a request. *)
Lemma subscribe_serving burst blocks s : 0 <= burst -> serving size blocks s ->
  let first := lastn (Z.to_nat (Z.min burst size)) blocks in
  subscribe burst s = Ok (Some (nextSub s),
    mkServer (server_headInfo s) (buffer s) (bufferSize s)
      (<[nextSub s := mkSubscription false first (Z.of_nat (200 + length first)) []]> (subscriptions s)) (S (nextSub s))).
Proof.
  intros Hb [Es (b & Eb & Hok & Hw) Hsubs] first.
  assert (E : burst_blocks burst s = Ok (first, Z.of_nat (length first))).
  { unfold burst_blocks. rewrite Eb, Hw, length_lastn. unfold first. rewrite length_lastn.
    destruct (Z.ltb_spec burst (Z.of_nat (Z.to_nat size `min` length blocks))).
    - rewrite (proj2 (Z.ltb_ge burst 0)) by lia. f_equal. f_equal; [|lia].
      unfold lastn. rewrite drop_drop. f_equal. lia.
    - f_equal. f_equal; [|lia]. destruct (decide (length blocks <= Z.to_nat size)%nat).
      + rewrite !lastn_all by lia. done.
      + by replace (Z.min burst size) with size by lia. }
  unfold subscribe. rewrite E. cbn [mbind outcome_bind]. unfold newSubscription.
  rewrite (proj2 (Z.ltb_ge _ 0)) by lia. cbn [mbind outcome_bind].
  rewrite send_burst_room by (cbn; lia). cbn [app incomingBlock capacity sent]. do 5 f_equal. lia.
Qed.

(** What an event does to the subscription [l]. *)
Definition carried (l : nat) (e : event) (s s' : Server) : Prop :=
  match subscriptions s' !! l with
  | Some sub' => exists sub, subscriptions s !! l = Some sub /\
      forall room all, follows room all sub -> follows room (all ++ pushed [e]) sub'
  | None => subscriptions s !! l = None \/ exists t, e = ETurn l t
  end.

Lemma carried_same l e s s' : pushed [e] = [] -> subscriptions s' !! l = subscriptions s !! l -> carried l e s s'.
Proof.
  intros Hp E. unfold carried. rewrite E, Hp. destruct (subscriptions s !! l) as [sub|]; [|by left].
  exists sub. split; [done|]. intros room all. by rewrite app_nil_r.
Qed.

Lemma turn_subs l t s : exists subs', Blocks_turn l t s = set_subscriptions subs' s /\
  (forall l', l' <> l -> subs' !! l' = subscriptions s !! l') /\
  (forall l', is_Some (subs' !! l') -> is_Some (subscriptions s !! l')) /\
  forall sub', subs' !! l = Some sub' -> exists sub, subscriptions s !! l = Some sub /\
    forall room all, follows room all sub -> follows room all sub'.
Proof.
  assert (Hsame : s = set_subscriptions (subscriptions s) s) by by destruct s.
  assert (Hdel : forall l', is_Some (delete l (subscriptions s) !! l') -> is_Some (subscriptions s !! l')).
  { intros l' [x Hx]. apply lookup_delete_Some in Hx as [_ Hx]. by exists x. }
  assert (Hd : forall l', l' <> l -> delete l (subscriptions s) !! l' = subscriptions s !! l')
    by (intros l' Hne; by apply lookup_delete_ne).
  assert (Hdl : forall sub', delete l (subscriptions s) !! l = Some sub' -> exists sub, subscriptions s !! l = Some sub /\
    forall room all, follows room all sub -> follows room all sub') by (intros sub' Hx; by rewrite lookup_delete_eq in Hx).
  unfold Blocks_turn, unsubscribe. destruct (subscriptions s !! l) as [[c [|blk rest] cap snt]|] eqn:E; [destruct t as [|ok]..|].
  - eauto.
  - cbn [incomingBlock closed]. destruct c; [eauto|]. exists (subscriptions s). repeat split; try done. intros sub' E'. exists sub'. by rewrite <- E, <- E'.
  - eauto.
  - cbn [incomingBlock]. destruct ok; [|eauto]. eexists. split; [done|]. split; [|split].
    + intros l' Hne. by rewrite lookup_insert_ne.
    + intros l' [x Hx]. apply lookup_insert_Some in Hx as [[<- _]|[_ Hx]]; eauto.
    + intros sub' Hx. rewrite lookup_insert_eq in Hx. injection Hx as <-. eexists. split; [done|].
      intros room all. apply sent_follows.
  - exists (subscriptions s). repeat split; try done. intros sub' E'. congruence.
Qed.

Lemma step_serving blocks s e : served e -> serving size blocks s -> NoDup (Id <$> blocks ++ pushed [e]) ->
  exists s', step TP e s = Ok s' /\ serving size (blocks ++ pushed [e]) s' /\ (nextSub s <= nextSub s')%nat /\
    forall l, (l < nextSub s)%nat -> carried l e s s'.
Proof.
  intros Hv Hs Hnd. destruct e as [blk|burst|l t]; cbn [served step] in *.
  - destruct (push_serving blocks s blk Hv Hs Hnd) as (s' & -> & Hs' & En & Esub).
    exists s'. split; [done|]. split; [done|]. split; [lia|]. intros l _. unfold carried. rewrite Esub, lookup_fmap.
    destruct (subscriptions s !! l) as [sub|]; cbn; [|by left]. exists sub. split; [done|]. intros room all. apply Push_follows.
  - rewrite (subscribe_serving burst blocks s Hv Hs). cbn [mbind outcome_bind]. eexists. split; [done|].
    cbn [pushed omap list_omap] in *. rewrite app_nil_r in *. destruct Hs as [Es Eb Hsubs]. split; [|split; [cbn; lia|]].
    + split; cbn; [done|done|]. intros l [x Hx]. apply lookup_insert_Some in Hx as [[<- _]|[_ Hx]]; [lia|].
      specialize (Hsubs l (mk_is_Some _ _ Hx)). lia.
    + intros l Hl. apply carried_same; [done|]. cbn. apply lookup_insert_ne. lia.
  - destruct (turn_subs l t s) as (subs' & -> & Hne & Hin & Hl). eexists. split; [done|].
    cbn [pushed omap list_omap] in *. rewrite app_nil_r in *. destruct Hs as [Es Eb Hsubs]. split; [|split; [done|]].
    + split; cbn; auto.
    + intros l' Hlt. destruct (decide (l' = l)) as [->|Hd]; [|apply carried_same; cbn; auto].
      unfold carried. cbn. destruct (subs' !! l) as [sub'|]; [|eauto]. destruct (Hl sub' eq_refl) as (sub & E & Hf).
      exists sub. split; [done|]. intros room all Ha. rewrite app_nil_r. by apply Hf.
Qed.

Lemma steps_serving es blocks s : Forall served es -> serving size blocks s -> NoDup (Id <$> blocks ++ pushed es) ->
  exists s', steps TP es s = Ok s' /\ serving size (blocks ++ pushed es) s' /\
    forall l, (l < nextSub s)%nat ->
      match subscriptions s' !! l with
      | Some sub' => exists sub, subscriptions s !! l = Some sub /\
          forall room all, follows room all sub -> follows room (all ++ pushed es) sub'
      | None => subscriptions s !! l = None \/ exists t, ETurn l t ∈ es
      end.
Proof.
  intros Hv. revert blocks s. induction Hv as [|e es He Hv IH]; intros blocks s Hs Hnd.
  - exists s. split; [done|]. cbn. rewrite app_nil_r. split; [done|]. intros l _.
    destruct (subscriptions s !! l) as [sub|]; [|by left]. exists sub. split; [done|]. intros room all. by rewrite app_nil_r.
  - change (e :: es) with ([e] ++ es) in *. rewrite pushed_app, app_assoc in *.
    destruct (step_serving blocks s e He Hs) as (s1 & E1 & Hs1 & Hle & Hc).
    { rewrite fmap_app in Hnd. by apply NoDup_app in Hnd as [? _]. }
    destruct (IH _ s1 Hs1 Hnd) as (s' & E2 & Hs' & Hl). exists s'. split; [cbn [app steps]; by rewrite E1|].
    split; [done|]. intros l Hlt. specialize (Hc l Hlt). specialize (Hl l ltac:(lia)). unfold carried in Hc.
    destruct (subscriptions s' !! l) as [sub'|].
    + destruct Hl as (sub1 & Ey & Hy). rewrite Ey in Hc. destruct Hc as (sub & Ex & Hx). exists sub. split; [done|].
      intros room all Hf. rewrite app_assoc. by apply Hy, Hx.
    + destruct Hl as [Hl|[t Ht]]; [|right; exists t; by right]. rewrite Hl in Hc.
      destruct Hc as [?|[t ->]]; [by left|right; exists t; left].
Qed.
End Server.

(** C22: a buffered server, pushed any blocks of distinct IDs and serving any
    requests, never panics and accepts every request of a burst that is not
    negative. What it sent to the client and what waits for it are the beginning
    of this: the last blocks pushed before the request, as many as the burst and
    the buffer allow, then the blocks pushed since; all of it unless the queue was
    closed, which takes 200 blocks more than the burst, and the request ends only
    by its own loop. The server is ready exactly once the buffer is full. *)
Theorem server_serves TP size burst before after : 0 < size -> 0 <= burst ->
  Forall served before -> Forall served after -> NoDup (Id <$> pushed (before ++ after)) ->
  let first := lastn (Z.to_nat (Z.min burst size)) (pushed before) in
  exists s0 l s1 s2, steps TP before (NewBufferedServer size []) = Ok s0 /\
    subscribe burst s0 = Ok (Some l, s1) /\ steps TP after s1 = Ok s2 /\
    (Ready s2 = true <-> size <= Z.of_nat (length (pushed (before ++ after)))) /\
    match subscriptions s2 !! l with
    | None => exists t, ETurn l t ∈ after
    | Some sub =>
        sent sub ++ incomingBlock sub `prefix_of` first ++ pushed after /\
        (closed sub = false -> sent sub ++ incomingBlock sub = first ++ pushed after) /\
        (closed sub = true -> (200 + length first <= length (sent sub ++ incomingBlock sub))%nat)
    end.
Proof.
  intros Hz Hb Hv1 Hv2 Hnd first. rewrite pushed_app in *.
  assert (Hnew : serving size [] (NewBufferedServer size [])).
  { split; [done| |intros l [x Hx]; destruct (lookup_empty_Some (M := gmap nat) l x Hx)]. exists Buffer.NewBuffer.
    split; [done|]. split; [apply Buffer.reachable_ok; constructor|]. unfold lastn. by rewrite drop_nil. }
  destruct (steps_serving TP size Hz before [] _ Hv1 Hnew) as (s0 & E0 & Hs0 & _).
  { rewrite fmap_app in Hnd. by apply NoDup_app in Hnd as [? _]. }
  pose proof (subscribe_serving size Hz burst _ s0 Hb Hs0) as E1. cbv zeta in E1. cbn [app] in E1, Hs0. fold first in E1.
  set (s1 := mkServer _ _ _ _ _) in E1.
  assert (Hs1 : serving size (pushed before) s1).
  { destruct Hs0 as [Es Eb Hsubs]. split; cbn; [done|done|]. intros l [x Hx].
    apply lookup_insert_Some in Hx as [[<- _]|[_ Hx]]; [lia|]. specialize (Hsubs l (mk_is_Some _ _ Hx)). lia. }
  destruct (steps_serving TP size Hz after _ s1 Hv2 Hs1 Hnd) as (s2 & E2 & Hs2 & Hl).
  exists s0, (nextSub s0), s1, s2. split; [done|]. split; [done|]. split; [done|]. split.
  - destruct Hs2 as [Es (b & Eb & _ & Hw) _]. unfold Ready. rewrite Eb, Es, Z.leb_le.
    assert (El : Buffer.Len b = length (Buffer.AllBlocks b)) by (unfold Buffer.AllBlocks; by rewrite length_fmap).
    rewrite El, Hw, length_lastn. lia.
  - specialize (Hl (nextSub s0) ltac:(cbn; lia)). destruct (subscriptions s2 !! nextSub s0) as [sub|].
    + destruct Hl as (sub1 & Ex & Hf). cbn [s1 subscriptions] in Ex. rewrite lookup_insert_eq in Ex. injection Ex as <-.
      destruct (Hf (200 + length first)%nat first) as [Hp Ho Hc _]; [|done]. by split.
    + destruct Hl as [Hl|Hl]; [|done]. cbn [s1 subscriptions] in Hl. by rewrite lookup_insert_eq in Hl.
Qed.

(** A server with a buffer of two blocks, three blocks before the request and two
    after it. *)
Definition ex_block (n : Z) (id : string) : Block := mkBlock n id "" (Some n) 0 0 0 "" 0 0 None.
Definition ex_before : list event := [EPush (ex_block 1 "1a"); EPush (ex_block 2 "2a"); EPush (ex_block 3 "3a")].
Definition ex_after : list event :=
  [EPush (ex_block 4 "4a"); ETurn 0 (Received true); ERequest 0; ETurn 1 CtxDone; EPush (ex_block 5 "5a"); ETurn 0 (Received true)].

Lemma server_serves_witness :
  exists s0 l s1 s2 sub, steps id ex_before (NewBufferedServer 2 []) = Ok s0 /\
    subscribe 5 s0 = Ok (Some l, s1) /\ steps id ex_after s1 = Ok s2 /\ Ready s2 = true /\
    subscriptions s2 !! l = Some sub /\ Id <$> sent sub = ["2a"; "3a"] /\
    sent sub ++ incomingBlock sub = [ex_block 2 "2a"; ex_block 3 "3a"; ex_block 4 "4a"; ex_block 5 "5a"].
Proof.
  destruct (server_serves id 2 5 ex_before ex_after) as (s0 & l & s1 & s2 & E0 & E1 & E2 & Hr & Hs).
  - lia.
  - lia.
  - repeat (apply Forall_cons_2; [first [done|by eexists|cbn; lia]|]). apply Forall_nil_2.
  - repeat (apply Forall_cons_2; [first [done|by eexists|cbn; lia]|]). apply Forall_nil_2.
  - apply (bool_decide_unpack _). by vm_compute.
  - exists s0, l, s1, s2.
    assert (Ek : forall x, steps id ex_before (NewBufferedServer 2 []) = x -> Ok s0 = x) by (intros x; congruence).
    specialize (Ek _ eq_refl). vm_compute in Ek. injection Ek as ->.
    assert (Ek : forall x, subscribe 5 _ = x -> Ok (Some l, s1) = x) by (intros x Hx; rewrite <- Hx; exact (eq_sym E1)).
    specialize (Ek _ eq_refl). vm_compute in Ek. injection Ek as -> ->.
    assert (Ek : forall x, steps id ex_after _ = x -> Ok s2 = x) by (intros x Hx; rewrite <- Hx; exact (eq_sym E2)).
    specialize (Ek _ eq_refl). vm_compute in Ek. injection Ek as ->.
    eexists. split; [exact E0|]. split; [exact E1|]. split; [exact E2|]. split; [by apply Hr|].
    split; [reflexivity|]. split; [reflexivity|]. exact (proj1 (proj2 Hs) eq_refl).
Defined.

(** ** Requests and pushes that go wrong *)

(** A request of a negative burst panics a server with a buffer. *)
Lemma negative_burst_panics s b burst : buffer s = Some b -> burst < 0 ->
  subscribe burst s = Panic "slice bounds out of range".
Proof.
  intros E Hb. unfold subscribe, burst_blocks. rewrite E.
  rewrite (proj2 (Z.ltb_lt _ _)) by lia. by rewrite (proj2 (Z.ltb_lt burst 0)).
Qed.

(** A block pushed twice into a full buffer takes the oldest block out of it
    without taking a place: the server is no longer ready. *)
Lemma repeated_push_not_ready :
  exists s1 s2, steps id [EPush (ex_block 1 "1a"); EPush (ex_block 2 "2a")] (NewBufferedServer 2 []) = Ok s1 /\ Ready s1 = true /\
    PushBlock id (ex_block 2 "2a") s1 = Ok s2 /\ Ready s2 = false.
Proof. eexists _, _. split; [vm_compute; reflexivity|]. split; [reflexivity|]. split; [vm_compute; reflexivity|]. reflexivity. Qed.
