(* ===== verification/ClientPipeline.v ===== *)
(** * The goroutines of the block stream client ([blockstream/source.go])

    [readStream] of [BlockStream.v] handles the blocks in order; here are its
    goroutines: one that receives the messages of the server, one for each block
    that is preprocessed, and the loop that hands the blocks to the handler, with
    the channels between them. *)

From S2P Require Import Prelude Schedules Types BlockStream.

Module ClientPipeline.
Section Client.
Context {O HS : Type} (s : BlockStream.Source (O := O) (HS := HS)) (now : Block -> Z).
(** The error [Recv] returns once the messages were received. *)
Context (recvErr : error).

(** ** State *)

(** The channel of a block: its goroutine works, offers the block, or has closed
    the channel after an error. *)
Inductive slot := Working (blk : Block) | Offered (blk : Block) (obj : option O) | Closed.

(** The first goroutine: before [Recv], or offering a channel to [blkchan]. *)
Inductive receiver := Receiving (messages : list Block) | Sending (c : slot) (messages : list Block) | Stopped.

(** The loop that handles the blocks. *)
Inductive consumer := Waiting | Holding (c : slot) | Returned.

Record state := mkState {
  rcv : receiver;
  gator : BlockStream.gate;
  blkchan : list slot;
  loop : consumer;
  shutdown : option (option error);  (* the error of the first call of [Shutdown] *)
  crashed : bool;                    (* a goroutine panicked *)
  hs : HS;
}.

Definition set_rcv (r : receiver) (p : state) : state :=
  mkState r (gator p) (blkchan p) (loop p) (shutdown p) (crashed p) (hs p).
Definition set_gator (g : BlockStream.gate) (p : state) : state :=
  mkState (rcv p) g (blkchan p) (loop p) (shutdown p) (crashed p) (hs p).
Definition set_blkchan (q : list slot) (p : state) : state :=
  mkState (rcv p) (gator p) q (loop p) (shutdown p) (crashed p) (hs p).
Definition set_loop (c : consumer) (p : state) : state :=
  mkState (rcv p) (gator p) (blkchan p) c (shutdown p) (crashed p) (hs p).
Definition set_hs (h : HS) (p : state) : state :=
  mkState (rcv p) (gator p) (blkchan p) (loop p) (shutdown p) (crashed p) h.
Definition crash (p : state) : state :=
  mkState (rcv p) (gator p) (blkchan p) (loop p) (shutdown p) true (hs p).

(** Only the first call of [Shutdown] has an effect. *)
Definition Shutdown (e : option error) (p : state) : state :=
  mkState (rcv p) (gator p) (blkchan p) (loop p)
    (match shutdown p with Some e' => Some e' | None => Some e end) (crashed p) (hs p).

Definition IsTerminating (p : state) : bool := bool_decide (is_Some (shutdown p)).

Definition init (messages : list Block) (h : HS) : state :=
  mkState (Receiving messages) (BlockStream.gator s) [] Waiting None false h.

(** ** Actions *)

(** Where the channel of a block is. *)
Inductive place := AtReceiver | InChannel (i : nat) | AtLoop.

Inductive action :=
  | Recv                       (* a message, or the end of the stream *)
  | Preprocess (at_ : place)   (* a preprocessing ends *)
  | Send                       (* [blkchan <- singleBlockChan] *)
  | HandOver                   (* the same, to a loop that waits *)
  | StopReceiving              (* the receiver sees [Terminating] *)
  | Take                       (* [singleBlockChan := <-blkchan] *)
  | Handle                     (* [ppblk, ok := <-singleBlockChan] *)
  | StopLoop                   (* the loop sees [Terminating] *)
  | External (e : option error).  (* [Shutdown] from outside *)

Definition recv (p : state) : option state :=
  match rcv p with
  | Receiving [] => Some (set_rcv Stopped (Shutdown (Some recvErr) p))
  | Receiving (blk :: messages) =>
      let '(passed, g) := BlockStream.pass now (gator p) blk in
      Some (set_gator g (set_rcv (if passed then Sending (Working blk) messages else Receiving messages) p))
  | _ => None
  end.

(** The goroutine of a block: its channel afterwards. *)
Definition preprocess (c : slot) (p : state) : option (slot * state) :=
  match c with
  | Working blk =>
      match BlockStream.preprocFunc s with
      | None => Some (Offered blk None, p)
      | Some f =>
          match f blk with
          | Ok obj => Some (Offered blk obj, p)
          | Err e => Some (Closed, Shutdown (Some e) p)
          | Panic _ => Some (c, crash p)
          | Diverge => None
          end
      end
  | _ => None
  end.

Definition preprocess_at (at_ : place) (p : state) : option state :=
  match at_ with
  | AtReceiver =>
      match rcv p with
      | Sending c messages => '(c', p') ← preprocess c p; Some (set_rcv (Sending c' messages) p')
      | _ => None
      end
  | InChannel i =>
      c ← blkchan p !! i;
      '(c', p') ← preprocess c p;
      Some (set_blkchan (<[i := c']> (blkchan p)) p')
  | AtLoop =>
      match loop p with
      | Holding c => '(c', p') ← preprocess c p; Some (set_loop (Holding c') p')
      | _ => None
      end
  end.

Definition send (p : state) : option state :=
  match rcv p with
  | Sending c messages =>
      if Z.of_nat (length (blkchan p)) <? BlockStream.preprocThreads s
      then Some (set_rcv (Receiving messages) (set_blkchan (blkchan p ++ [c]) p)) else None
  | _ => None
  end.

Definition hand_over (p : state) : option state :=
  match rcv p, blkchan p, loop p with
  | Sending c messages, [], Waiting => Some (set_rcv (Receiving messages) (set_loop (Holding c) p))
  | _, _, _ => None
  end.

Definition stop_receiving (p : state) : option state :=
  match rcv p with
  | Sending _ _ => if IsTerminating p then Some (set_rcv Stopped p) else None
  | _ => None
  end.

Definition next_channel (p : state) : option state :=
  match loop p, blkchan p with
  | Waiting, c :: q => Some (set_blkchan q (set_loop (Holding c) p))
  | _, _ => None
  end.

Definition object (obj : option O) : iface O := match obj with Some o => IUser o | None => INil end.

Definition handle (p : state) : option state :=
  match loop p with
  | Holding (Offered blk obj) =>
      if IsTerminating p then Some (set_loop Returned p)
      else
        let '(e, h) := BlockStream.handler s blk (object obj) (hs p) in
        Some (match e with
              | Some e => set_loop Returned (Shutdown (Some e) (set_hs h p))
              | None => set_loop Waiting (set_hs h p)
              end)
  | Holding Closed =>
      Some (if IsTerminating p then set_loop Returned p
            else set_loop Returned (Shutdown (Some (EMsg "preprocess channel closed")) p))
  | _ => None
  end.

Definition stop_loop (p : state) : option state :=
  match loop p with
  | Waiting | Holding _ => if IsTerminating p then Some (set_loop Returned p) else None
  | Returned => None
  end.

Definition external (e : option error) (p : state) : option state :=
  if IsTerminating p then None else Some (Shutdown e p).

Definition fire (a : action) (p : state) : option state :=
  if crashed p then None
  else
    match a with
    | Recv => recv p
    | Preprocess at_ => preprocess_at at_ p
    | Send => send p
    | HandOver => hand_over p
    | StopReceiving => stop_receiving p
    | Take => next_channel p
    | Handle => handle p
    | StopLoop => stop_loop p
    | External e => external e p
    end.

(** [make(chan ..., s.preprocThreads)] panics on a negative size. *)
Definition start (messages : list Block) (h : HS) : outcome state :=
  if BlockStream.preprocThreads s <? 0 then Panic "makechan: size out of range"
  else Ok (init messages h).
End Client.
Arguments state : clear implicits. Arguments slot : clear implicits.
Arguments receiver : clear implicits. Arguments consumer : clear implicits.
End ClientPipeline.
