(* ===== verification/ClientPipelineProps.v ===== *)
(** * What the goroutines of the block stream client do

    Every schedule of the client hands to its handler a prefix of the blocks that
    [BlockStream.readStream] handles, in the same order, and comes to its end. *)

From S2P Require Import Prelude Schedules Types BlockStream ClientPipeline.
Import ClientPipeline.

Section Props.
Context {O HS : Type} (s : BlockStream.Source (O := O) (HS := HS)) (now : Block -> Z) (recvErr : error).
Notation state := (state O HS).
Notation slot := (slot O).
Notation fire := (fire s now recvErr).
Implicit Types p : state.

(** ** The order of the blocks *)

(** The blocks that pass the gator. *)
Fixpoint accepted (g : BlockStream.gate) (messages : list Block) : list Block :=
  match messages with
  | [] => []
  | blk :: messages' =>
      let '(passed, g') := BlockStream.pass now g blk in
      (if passed : bool then [blk] else []) ++ accepted g' messages'
  end.

(** What [readStream] does with one of them. *)
Definition preprocessed (blk : Block) : outcome (option O) :=
  match BlockStream.preprocFunc s with None => Ok None | Some f => f blk end.

Definition deliver (blk : Block) (obj : option O) : M HS unit := fun h =>
  match BlockStream.handler s blk (object obj) h with
  | (Some e, h') => (Err e, h')
  | (None, h') => (Ok tt, h')
  end.

Definition feed (blk : Block) : M HS unit := obj ← mlift (preprocessed blk); deliver blk obj.

Lemma feed_offered blk obj h : preprocessed blk = Ok obj -> feed blk h = deliver blk obj h.
Proof. intros E. unfold feed. by rewrite (bind_mlift_Ok _ _ _ _ E). Qed.

Lemma readStream_feed g messages h : BlockStream.readStream s now g messages recvErr h =
  (_ ← mfor (accepted g messages) feed; merr recvErr) h.
Proof.
  revert g h. induction messages as [|blk messages IH]; intros g h; [done|].
  cbn [BlockStream.readStream accepted]. destruct (BlockStream.pass now g blk) as [[] g']; cbn [negb app]; [|apply IH].
  unfold mbind, M_bind, mlift, deliver. cbn [mfor app]. unfold mbind, M_bind, feed, mlift, mbind, M_bind, deliver, preprocessed.
  destruct (match BlockStream.preprocFunc s with None => Ok None | Some f => f blk end) as [obj|e|w|]; try done.
  change (match obj with Some o => IUser o | None => INil end) with (object obj).
  destruct (BlockStream.handler s blk (object obj) h) as [[e|] h']; [done|]. rewrite IH. unfold mbind, M_bind. done.
Qed.

(** ** The invariant *)

Definition messages_of (r : receiver O) : list Block :=
  match r with Receiving m | Sending _ m => m | Stopped => [] end.

(** The channels between the goroutines, the oldest block first. *)
Definition slots (p : state) : list slot :=
  match loop p with Holding c => [c] | _ => [] end ++ blkchan p ++
  match rcv p with Sending c _ => [c] | _ => [] end.

Definition slot_ok (terminating : bool) (c : slot) (blk : Block) : Prop :=
  match c with
  | Working b => b = blk
  | Offered b obj => b = blk /\ preprocessed blk = Ok obj
  | Closed => terminating = true
  end.

Record inv (all : list Block) (h0 : HS) (p : state) : Prop := mkInv {
  i_stopped : rcv p = Stopped -> IsTerminating p = true;
  i_returned : loop p = Returned -> IsTerminating p = true;
  i_order : match loop p with
    | Returned => exists k, hs p = (mfor (take k all) feed h0).2
    | _ => exists past waiting rest, all = past ++ waiting ++ rest /\
        Forall2 (slot_ok (IsTerminating p)) (slots p) waiting /\
        (rcv p <> Stopped -> rest = accepted (gator p) (messages_of (rcv p))) /\
        mfor past feed h0 = (Ok tt, hs p)
    end;
}.

Lemma slot_ok_mono t t' c blk : (t = true -> t' = true) -> slot_ok t c blk -> slot_ok t' c blk.
Proof. destruct c; cbn; intuition. Qed.

Lemma client_IsTerminating_Shutdown e p : IsTerminating (Shutdown e p) = true.
Proof. unfold IsTerminating, Shutdown. cbn. by destruct (shutdown p). Qed.

Lemma client_init_inv messages h : inv (accepted (BlockStream.gator s) messages) h (init s messages h).
Proof. split; try done. exists [], [], (accepted (BlockStream.gator s) messages). by repeat split. Qed.

(** A loop that returns keeps what was handled. *)
Lemma returned_order all h0 p : inv all h0 p -> exists k, hs p = (mfor (take k all) feed h0).2.
Proof.
  intros [_ _ Ho]. destruct (loop p); [..|done].
  all: destruct Ho as (past & waiting & rest & -> & _ & _ & E); exists (length past); by rewrite take_app_length, E.
Qed.

(** The order does not depend on the shutdown, except for the channels it closes. *)
Lemma order_shutdown all h0 p e : inv all h0 p -> inv all h0 (Shutdown e p).
Proof.
  intros HI. pose proof (client_IsTerminating_Shutdown e p) as HT. split; [done..|]. pose proof (i_order _ _ _ HI) as Ho.
  cbn [Shutdown loop hs rcv gator]. destruct (loop p) eqn:El; [..|done].
  all: destruct Ho as (past & waiting & rest & -> & HF & Hg & E); exists past, waiting, rest; split; [done|]; split; [|done].
  all: rewrite HT; unfold slots in *; cbn; rewrite El in *; eapply Forall2_impl; [exact HF|]; intros ? ?; by apply slot_ok_mono.
Qed.

Lemma order_returned all h0 p : inv all h0 p -> IsTerminating p = true -> inv all h0 (set_loop Returned p).
Proof. intros HI HT. split; [apply HI|done|]. cbn. by eapply returned_order. Qed.

Lemma order_stopped all h0 p : inv all h0 p -> IsTerminating p = true -> inv all h0 (set_rcv Stopped p).
Proof.
  intros HI HT. split; [done|apply HI|]. pose proof (i_order _ _ _ HI) as Ho. cbn [set_rcv loop hs rcv gator].
  destruct (loop p) eqn:El; [..|done]. all: destruct Ho as (past & waiting & rest & -> & HF & _ & E); exists past.
  all: assert (exists w1 w2, waiting = w1 ++ w2 /\ Forall2 (slot_ok (IsTerminating p)) (slots (set_rcv Stopped p)) w1) as (w1 & w2 & -> & HF').
  1, 3: unfold slots in *; cbn; rewrite El in *; rewrite app_nil_r; rewrite (assoc_L (++)) in HF;
    apply Forall2_app_inv_l in HF as (w1 & w2 & H1 & _ & ->); by exists w1, w2.
  all: exists w1, (w2 ++ rest); rewrite <- (assoc_L (++) w1 w2 rest); split; [done|]; split; [exact HF'|done].
Qed.

Lemma recv_inv all h0 p p' : inv all h0 p -> recv now recvErr p = Some p' -> inv all h0 p'.
Proof.
  intros HI E. unfold recv in E. destruct (rcv p) as [[|blk messages]|? ?|] eqn:Er; try done.
  - injection E as <-. apply order_stopped; [by apply order_shutdown|apply client_IsTerminating_Shutdown].
  - destruct (BlockStream.pass now (gator p) blk) as [passed g] eqn:Ep. injection E as <-. split; [by destruct passed|apply HI|].
    pose proof (i_order _ _ _ HI) as Ho. cbn [set_gator set_rcv loop hs rcv gator]. destruct (loop p) eqn:El; [..|done].
    all: destruct Ho as (past & waiting & rest & -> & HF & Hg & E); rewrite Er in Hg; specialize (Hg ltac:(done));
      cbn [messages_of accepted] in Hg; rewrite Ep in Hg.
    all: exists past, (waiting ++ if passed then [blk] else []), (accepted g messages);
      split; [subst rest; by rewrite <- (assoc_L (++))|]; split; [|by destruct passed].
    all: unfold slots in *; cbn [set_gator set_rcv loop rcv blkchan]; rewrite El, Er in *; cbn [app] in *.
    all: rewrite app_nil_r in HF; destruct passed; rewrite ?app_nil_r; [|done].
    all: rewrite ?app_comm_cons; apply Forall2_app; [done|by repeat constructor].
Qed.

(** The preprocessing of a block changes its channel, in place. *)
Lemma preprocess_ok c blk p c' p1 : slot_ok (IsTerminating p) c blk -> preprocess s c p = Some (c', p1) ->
  (p1 = p \/ p1 = crash p \/ exists e, p1 = Shutdown e p) /\ slot_ok (IsTerminating p1) c' blk.
Proof.
  unfold preprocess. destruct c as [b|b obj|]; try done. intros <- E. unfold slot_ok, preprocessed.
  destruct (BlockStream.preprocFunc s) as [f|]; [|injection E as <- <-; by eauto].
  destruct (f b) as [obj|e|w|] eqn:Ef; [..|done]; injection E as <- <-; (split; [by eauto|]); [done| |done].
  apply client_IsTerminating_Shutdown.
Qed.

Lemma preprocess_same c p c' p1 : preprocess s c p = Some (c', p1) ->
  rcv p1 = rcv p /\ gator p1 = gator p /\ blkchan p1 = blkchan p /\ loop p1 = loop p /\ hs p1 = hs p.
Proof.
  unfold preprocess. destruct c as [b|b obj|]; try done. destruct (BlockStream.preprocFunc s) as [f|]; [|by intros [= <- <-]].
  by destruct (f b); intros [= <- <-].
Qed.

(** The shape of the goroutines: a loop waits, holds a channel or returned. *)
Definition shape (l : consumer O) : option bool := match l with Waiting => Some false | Holding _ => Some true | Returned => None end.

Lemma preprocess_at_slot at_ p p' : preprocess_at s at_ p = Some p' -> exists i c c' p1,
  slots p !! i = Some c /\ preprocess s c p = Some (c', p1) /\ slots p' = <[i := c']> (slots p) /\
  shape (loop p') = shape (loop p) /\ (rcv p' = Stopped <-> rcv p = Stopped) /\ messages_of (rcv p') = messages_of (rcv p) /\
  gator p' = gator p /\ hs p' = hs p /\ IsTerminating p' = IsTerminating p1.
Proof.
  unfold preprocess_at, slots. destruct at_ as [|i|].
  - destruct (rcv p) as [|c messages|] eqn:Er; try done.
    destruct (preprocess s c p) as [[c' p1]|] eqn:Ec; [|done]. intros [= <-].
    destruct (preprocess_same _ _ _ _ Ec) as (_ & Eg & Eq & El & Eh).
    exists (length (match loop p with Holding c => [c] | _ => [] end ++ blkchan p)), c, c', p1.
    rewrite !(assoc_L (++)). cbn. rewrite Eq, El. repeat split; try done.
    + by rewrite lookup_app_r, Nat.sub_diag by done.
    + rewrite insert_app_r_alt, Nat.sub_diag by done. done.
  - destruct (blkchan p !! i) as [c|] eqn:Ei; cbn; [|done].
    destruct (preprocess s c p) as [[c' p1]|] eqn:Ec; [|done]. intros [= <-].
    destruct (preprocess_same _ _ _ _ Ec) as (Er & Eg & Eq & El & Eh).
    exists (length (match loop p with Holding c => [c] | _ => [] end) + i)%nat, c, c', p1.
    cbn. rewrite El, Er. repeat split; try done.
    + rewrite lookup_app_r by lia. rewrite Nat.add_sub'. by apply lookup_app_l_Some.
    + rewrite insert_app_r. by rewrite insert_app_l by by eapply lookup_lt_Some.
  - destruct (loop p) as [|c|] eqn:El; try done.
    destruct (preprocess s c p) as [[c' p1]|] eqn:Ec; [|done]. intros [= <-].
    destruct (preprocess_same _ _ _ _ Ec) as (Er & Eg & Eq & _ & Eh).
    exists 0%nat, c, c', p1. cbn. by rewrite Eq, Er.
Qed.

Lemma client_preprocess_at_inv all h0 at_ p p' : inv all h0 p -> preprocess_at s at_ p = Some p' -> inv all h0 p'.
Proof.
  intros HI E. destruct (preprocess_at_slot _ _ _ E) as (i & c & c' & p1 & Hi & Ec & Es & El & Er & Em & Eg & Eh & Et).
  assert (Hmono : IsTerminating p = true -> IsTerminating p' = true).
  { intros HT. rewrite Et. unfold preprocess in Ec. destruct c as [b|b obj|]; try done.
    destruct (BlockStream.preprocFunc s) as [f|]; [|by injection Ec as <- <-].
    destruct (f b); try done; injection Ec as <- <-; try done. apply client_IsTerminating_Shutdown. }
  split.
  - intros H. by apply Hmono, (i_stopped _ _ _ HI), Er.
  - intros H. apply Hmono, (i_returned _ _ _ HI). rewrite H in El. revert El. by destruct (loop p); cbn.
  - pose proof (i_order _ _ _ HI) as Ho. rewrite Eh. revert El. destruct (loop p) eqn:Elp, (loop p') eqn:Elp'; intros El; cbn in El; try done.
    all: destruct Ho as (past & waiting & rest & -> & HF & Hg & Em0); exists past, waiting, rest; split; [done|].
    all: rewrite Es, Em, Eg; (split; [|split; [intros H; by apply Hg; intros ?; apply H, Er|done]]).
    all: destruct (Forall2_lookup_l _ _ _ _ _ HF Hi) as (blk & Hb & Hc); destruct (preprocess_ok _ _ _ _ _ Hc Ec) as [_ Hc'].
    all: rewrite <- (list_insert_id waiting i blk Hb); apply Forall2_insert; [|by rewrite Et].
    all: eapply Forall2_impl; [exact HF|]; intros ? ?; apply slot_ok_mono, Hmono.
Qed.
(** Channels that move keep their order. *)
Lemma move_inv all h0 p p' : inv all h0 p -> slots p' = slots p -> loop p' <> Returned -> loop p <> Returned ->
  (rcv p' = Stopped <-> rcv p = Stopped) -> messages_of (rcv p') = messages_of (rcv p) -> gator p' = gator p ->
  hs p' = hs p -> shutdown p' = shutdown p -> inv all h0 p'.
Proof.
  intros HI Es Hl' Hl Hr Em Eg Eh Et. assert (ET : IsTerminating p' = IsTerminating p) by (unfold IsTerminating; by rewrite Et).
  split; [|done|].
  - intros H. rewrite ET. by apply (i_stopped _ _ _ HI), Hr.
  - pose proof (i_order _ _ _ HI) as Ho. rewrite Eh.
    assert (exists past waiting rest, all = past ++ waiting ++ rest /\ Forall2 (slot_ok (IsTerminating p')) (slots p') waiting /\
      (rcv p' <> Stopped -> rest = accepted (gator p') (messages_of (rcv p'))) /\ mfor past feed h0 = (Ok tt, hs p)) as Hw.
    { rewrite Es, Em, Eg, ET. destruct (loop p); [..|done].
      all: destruct Ho as (past & waiting & rest & ? & ? & Hg & ?); exists past, waiting, rest; repeat split; try done.
      all: intros H'; apply Hg; by rewrite <- Hr. }
    by destruct (loop p').
Qed.

Lemma feed_last past blk rest h0 h : mfor past feed h0 = (Ok tt, h) -> mfor (past ++ blk :: rest) feed h0 = mfor (blk :: rest) feed h.
Proof. apply mfor_app. Qed.

Lemma handle_inv all h0 p p' : inv all h0 p -> handle s p = Some p' -> inv all h0 p'.
Proof.
  intros HI E. unfold handle in E. destruct (loop p) as [|[b|blk obj|]|] eqn:El; try done.
  - destruct (IsTerminating p) eqn:HT; [injection E as <-; by apply order_returned|].
    pose proof (i_order _ _ _ HI) as Ho. rewrite El in Ho. destruct Ho as (past & waiting & rest & -> & HF & Hg & Em).
    unfold slots in HF. rewrite El, HT in HF. cbn [app] in HF.
    apply Forall2_cons_inv_l in HF as (b & waiting' & [<- Hp] & HF & ->).
    pose proof (feed_offered _ _ (hs p) Hp) as Ef. unfold deliver in Ef.
    destruct (BlockStream.handler s blk (object obj) (hs p)) as [[e|] h]; injection E as <-.
    + split; [intros _; apply client_IsTerminating_Shutdown..|]. cbn. exists (S (length past)).
      rewrite (cons_middle blk past), (assoc_L (++)), take_app_length' by (rewrite length_app; cbn; lia).
      rewrite (feed_last _ _ _ _ _ Em). cbn [mfor]. by rewrite (bind_Err _ _ _ _ _ Ef).
    + split; [apply HI|done|]. cbn. exists (past ++ [blk]), waiting', rest. split; [by rewrite <- !(assoc_L (++))|].
      split; [unfold slots; cbn; unfold IsTerminating in *; cbn; by rewrite HT|]. split; [done|].
      rewrite (feed_last _ _ _ _ _ Em). cbn [mfor]. by rewrite (bind_Ok _ _ _ _ _ Ef).
  - injection E as <-. destruct (IsTerminating p) eqn:HT; [by apply order_returned|].
    apply order_returned; [by apply order_shutdown|apply client_IsTerminating_Shutdown].
Qed.

Lemma client_fire_inv all h0 a p p' : inv all h0 p -> fire a p = Some p' -> inv all h0 p'.
Proof.
  intros HI E. unfold ClientPipeline.fire in E. destruct (crashed p); [done|]. destruct a.
  - by eapply recv_inv.
  - by eapply client_preprocess_at_inv.
  - unfold send in E. destruct (rcv p) as [|c m|] eqn:Er; try done. destruct (_ <? _); [|done]. injection E as <-.
    destruct (loop p) eqn:El.
    3: { split; [done|apply HI|]. cbn. rewrite El. by eapply returned_order. }
    all: eapply move_inv; [exact HI|unfold slots; cbn; rewrite ?El, Er, ?app_nil_r, <- ?(assoc_L (++)); done|..]; cbn; rewrite ?El, ?Er; done.
  - unfold hand_over in E. destruct (rcv p) as [|c m|] eqn:Er, (blkchan p) eqn:Eq, (loop p) eqn:El; try done. injection E as <-.
    eapply move_inv; [exact HI|unfold slots; cbn; by rewrite El, Er, Eq|..]; cbn; rewrite ?El, ?Er; done.
  - unfold stop_receiving in E. destruct (rcv p); try done. destruct (IsTerminating p) eqn:HT; [|done]. injection E as <-.
    by apply order_stopped.
  - unfold next_channel in E. destruct (loop p) eqn:El; try done. destruct (blkchan p) as [|c q] eqn:Eq; [done|]. injection E as <-.
    eapply move_inv; [exact HI|unfold slots; cbn; by rewrite El, Eq|..]; cbn; rewrite ?El; done.
  - by eapply handle_inv.
  - unfold stop_loop in E. destruct (loop p), (IsTerminating p) eqn:HT; try done; injection E as <-; by apply order_returned.
  - unfold external in E. destruct (IsTerminating p); [done|]. injection E as <-. by apply order_shutdown.
Qed.

(** ** Every schedule ends *)

Definition work (c : slot) : nat := match c with Working _ => 1 | _ => 0 end.
Definition weight (c : slot) : nat := S (S (S (work c))).
Definition queued (q : list slot) : nat := sum_list_with weight q.
#[local] Arguments queued : simpl never.

Definition receiver_work (r : receiver O) : nat :=
  match r with Receiving m => 7 * length m + 1 | Sending c m => 7 * length m + 6 + work c | Stopped => 0 end.
Definition loop_work (l : consumer O) : nat := match l with Waiting => 1 | Holding c => 2 + work c | Returned => 0 end.
Definition open_work (e : option (option error)) (crashed : bool) : nat :=
  match e with None => 1 | Some _ => 0 end + if crashed then 0 else 1.

#[local] Arguments open_work : simpl never.

Definition measure (p : state) : nat :=
  receiver_work (rcv p) + queued (blkchan p) + loop_work (loop p) + open_work (shutdown p) (crashed p).

Lemma queued_insert q i c c' : q !! i = Some c -> (queued (<[i := c']> q) + work c = queued q + work c')%nat.
Proof.
  revert i. induction q as [|x q IH]; intros [|i]; [done..| |].
  - intros [= ->]. unfold queued, weight. cbn. lia.
  - intros E. specialize (IH i E). unfold queued in *.
    change (sum_list_with weight (<[S i := c']> (x :: q))) with (weight x + sum_list_with weight (<[i := c']> q))%nat.
    cbn [sum_list_with]. lia.
Qed.

Lemma preprocess_work c p c' p1 : preprocess s c p = Some (c', p1) -> crashed p = false ->
  (work c' + open_work (shutdown p1) (crashed p1) < work c + open_work (shutdown p) (crashed p))%nat.
Proof.
  unfold preprocess. destruct c as [b|b obj|]; try done. intros E Ec.
  destruct (BlockStream.preprocFunc s) as [f|]; [|injection E as <- <-; unfold open_work; cbn; lia].
  destruct (f b); try done; injection E as <- <-; unfold open_work; cbn; rewrite ?Ec; destruct (shutdown p); cbn; lia.
Qed.

Lemma preprocess_at_decreases at_ p p' : crashed p = false -> preprocess_at s at_ p = Some p' -> (measure p' < measure p)%nat.
Proof.
  intros Hc E. unfold preprocess_at in E. destruct at_ as [|i|].
  - destruct (rcv p) as [|c m|] eqn:Er; try done. destruct (preprocess s c p) as [[c' p1]|] eqn:Ec; [|done]. injection E as <-.
    pose proof (preprocess_work _ _ _ _ Ec Hc). destruct (preprocess_same _ _ _ _ Ec) as (_ & _ & E2 & E3 & _).
    unfold measure. cbn. rewrite Er, E2, E3. unfold receiver_work. lia.
  - destruct (blkchan p !! i) as [c|] eqn:Ei; cbn in E; [|done].
    destruct (preprocess s c p) as [[c' p1]|] eqn:Ec; [|done]. injection E as <-. pose proof (queued_insert _ _ _ c' Ei).
    pose proof (preprocess_work _ _ _ _ Ec Hc). destruct (preprocess_same _ _ _ _ Ec) as (E1 & _ & _ & E3 & _).
    unfold measure. cbn. rewrite E1, E3. lia.
  - destruct (loop p) as [|c|] eqn:El; try done. destruct (preprocess s c p) as [[c' p1]|] eqn:Ec; [|done]. injection E as <-.
    pose proof (preprocess_work _ _ _ _ Ec Hc). destruct (preprocess_same _ _ _ _ Ec) as (E1 & _ & E2 & _ & _).
    unfold measure. cbn. rewrite El, E1, E2. unfold loop_work. lia.
Qed.

Lemma queued_snoc q c : queued (q ++ [c]) = (queued q + 3 + work c)%nat.
Proof. unfold queued. rewrite sum_list_with_app. cbn. unfold weight. lia. Qed.

Lemma fire_decreases a p p' : fire a p = Some p' -> (measure p' < measure p)%nat.
Proof.
  intros E. unfold ClientPipeline.fire in E. destruct (crashed p) eqn:Ec; [done|].
  destruct a; [| by eapply preprocess_at_decreases| ..].
  all: unfold measure.
  - unfold recv in E. destruct (rcv p) as [[|blk m]|? ?|] eqn:Er; try done.
    + injection E as <-. cbn. unfold open_work. destruct (shutdown p); lia.
    + destruct (BlockStream.pass now (gator p) blk) as [[] g]; injection E as <-; cbn; lia.
  - unfold send in E. destruct (rcv p) as [|c m|] eqn:Er; try done. destruct (_ <? _); [|done]. injection E as <-.
    cbn. rewrite queued_snoc. lia.
  - unfold hand_over in E. destruct (rcv p) as [|c m|] eqn:Er, (blkchan p) eqn:Eq, (loop p) eqn:El; try done. injection E as <-.
    cbn. rewrite Eq. lia.
  - unfold stop_receiving in E. destruct (rcv p) eqn:Er; try done. destruct (IsTerminating p); [|done]. injection E as <-. cbn. lia.
  - unfold next_channel in E. destruct (loop p) eqn:El; try done. destruct (blkchan p) as [|c q] eqn:Eq; [done|]. injection E as <-.
    cbn. unfold queued, weight. cbn. lia.
  - unfold handle in E. destruct (loop p) as [|[b|blk obj|]|] eqn:El; try done; destruct (IsTerminating p) eqn:HT.
    1, 3, 4: injection E as <-; cbn; unfold open_work; destruct (shutdown p); lia.
    destruct (BlockStream.handler s blk (object obj) (hs p)) as [[e|] h]; injection E as <-; cbn; unfold open_work; destruct (shutdown p); lia.
  - unfold stop_loop in E. destruct (loop p) eqn:El, (IsTerminating p); try done; injection E as <-; cbn; lia.
  - unfold external, IsTerminating in E. destruct (shutdown p) as [x|] eqn:Es; [done|]. cbn in E. injection E as <-.
    cbn. rewrite Es. unfold open_work. lia.
Qed.

(** ** The loop is never stuck *)

Definition internal (a : action) : bool := match a with External _ => false | _ => true end.

Lemma loop_progresses all h0 p : (forall blk, preprocessed blk <> Diverge) -> inv all h0 p -> crashed p = false ->
  loop p <> Returned -> exists a, internal a = true /\ is_Some (fire a p).
Proof.
  intros Hpre HI Hc Hl. unfold ClientPipeline.fire. rewrite Hc. destruct (IsTerminating p) eqn:HT.
  { exists StopLoop. split; [done|]. unfold stop_loop. rewrite HT. by destruct (loop p). }
  destruct (loop p) as [|c|] eqn:El; [|clear Hl|done].
  - destruct (blkchan p) as [|c q] eqn:Eq; [|exists Take; split; [done|]; unfold next_channel; by rewrite El, Eq].
    destruct (rcv p) as [[|blk m]|c m|] eqn:Er.
    + exists Recv. unfold recv. rewrite Er. by split.
    + exists Recv. unfold recv. rewrite Er. by destruct (BlockStream.pass now (gator p) blk).
    + exists HandOver. unfold hand_over. rewrite Er, Eq, El. by split.
    + apply (i_stopped _ _ _ HI) in Er. congruence.
  - destruct c as [b|blk obj|].
    + exists (Preprocess AtLoop). split; [done|]. unfold preprocess_at, preprocess. rewrite El. specialize (Hpre b). unfold preprocessed in Hpre.
      destruct (BlockStream.preprocFunc s) as [f|]; [|done]. by destruct (f b).
    + exists Handle. split; [done|]. unfold handle. rewrite El, HT. by destruct (BlockStream.handler s blk (object obj) (hs p)).
    + exists Handle. unfold handle. rewrite El. by split.
Qed.

(** ** Against the client that handles the blocks in order *)

Lemma accepted_prefix g messages j : exists k, accepted g (take k messages) = take j (accepted g messages).
Proof.
  revert g j. induction messages as [|blk messages IH]; intros g j; [exists 0%nat; by destruct j|].
  destruct j as [|j]; [by exists 0%nat|]. cbn [accepted]. destruct (BlockStream.pass now g blk) as [passed g'] eqn:Ep.
  destruct (IH g' (if passed : bool then j else S j)) as [k Hk]. exists (S k). cbn [take accepted]. rewrite Ep, Hk. by destruct passed.
Qed.

Lemma readStream_state g messages h :
  (BlockStream.readStream s now g messages recvErr h).2 = (mfor (accepted g messages) feed h).2.
Proof. rewrite readStream_feed. unfold mbind, M_bind. by destruct (mfor (accepted g messages) feed h) as [[[]|e|w|] h']. Qed.

Lemma step_then a ls p p1 : fire a p = Some p1 -> schedule fire (a :: ls) p = schedule fire ls p1.
Proof. cbn. by intros ->. Qed.

(** Received, preprocessed and handed over one after the other. *)
Lemma one_by_one messages g h e h' : BlockStream.readStream s now g messages recvErr h = (Err e, h') ->
  exists ls p, schedule fire ls (mkState (Receiving messages) g [] Waiting None false h) = Some p /\
    loop p = Returned /\ shutdown p = Some (Some e) /\ hs p = h'.
Proof.
  revert g h. induction messages as [|blk messages IH]; intros g h E; cbn [BlockStream.readStream] in E.
  - injection E as <- <-. by exists [Recv; StopLoop], (mkState Stopped g [] Returned (Some (Some recvErr)) false h).
  - assert (Hr : fire Recv (mkState (Receiving (blk :: messages)) g [] Waiting None false h) =
      let '(passed, g) := BlockStream.pass now g blk in
      Some (mkState (if passed : bool then Sending (Working blk) messages else Receiving messages) g [] Waiting None false h)).
    { cbn. by destruct (BlockStream.pass now g blk) as [[] ?]. }
    destruct (BlockStream.pass now g blk) as [[] g'] eqn:Ep; cbn [negb] in E.
    2: { destruct (IH _ _ E) as (ls & p & Hs & H'). exists (Recv :: ls), p. by rewrite (step_then _ _ _ _ Hr). }
    fold (preprocessed blk) in E.
    assert (Hp : fire (Preprocess AtReceiver) (mkState (Sending (Working blk) messages) g' [] Waiting None false h) =
      match preprocessed blk with
      | Ok obj => Some (mkState (Sending (Offered blk obj) messages) g' [] Waiting None false h)
      | Err e => Some (mkState (Sending Closed messages) g' [] Waiting (Some (Some e)) false h)
      | Panic _ => Some (mkState (Sending (Working blk) messages) g' [] Waiting None true h)
      | Diverge => None
      end).
    { unfold preprocessed. cbn. destruct (BlockStream.preprocFunc s) as [f|]; [|done]. by destruct (f blk). }
    unfold mbind, M_bind, mlift in E. destruct (preprocessed blk) as [obj|e1|w|]; try done.
    + change (match obj with Some o => IUser o | None => INil end) with (object obj) in E.
      destruct (BlockStream.handler s blk (object obj) h) as [[e1|] h1] eqn:Eh.
      * injection E as <- <-. exists [Recv; Preprocess AtReceiver; HandOver; Handle], 
          (mkState (Receiving messages) g' [] Returned (Some (Some e1)) false h1).
        rewrite (step_then _ _ _ _ Hr), (step_then _ _ _ _ Hp). cbn. by rewrite Eh.
      * destruct (IH _ _ E) as (ls & p & Hs & H'). exists (Recv :: Preprocess AtReceiver :: HandOver :: Handle :: ls), p.
        rewrite (step_then _ _ _ _ Hr), (step_then _ _ _ _ Hp). cbn. rewrite Eh. by split.
    + injection E as <- <-. exists [Recv; Preprocess AtReceiver; StopLoop], (mkState (Sending Closed messages) g' [] Returned (Some (Some e1)) false h).
      by rewrite (step_then _ _ _ _ Hr), (step_then _ _ _ _ Hp).
Qed.

End Props.

(** C21: whatever the schedule of the goroutines of the block stream client, its
    handler got what the client in order hands to it for some of the first
    messages, and nothing else; the schedule is at most seven actions long for each
    message and four more, its loop returns only after a shutdown and is never
    stuck before; and the client that handles the blocks one by one is one of the
    schedules. *)
Theorem readStream_interleaved {O HS} (s : BlockStream.Source (O := O) (HS := HS)) now recvErr messages h p0 :
  (forall blk, preprocessed s blk <> Diverge) -> start s messages h = Ok p0 ->
  (forall ls p, schedule (fire s now recvErr) ls p0 = Some p ->
    (exists k, hs p = (BlockStream.readStream s now (BlockStream.gator s) (take k messages) recvErr h).2) /\
    (length ls <= 7 * length messages + 4)%nat /\
    (loop p = Returned -> is_Some (shutdown p)) /\
    (loop p <> Returned -> crashed p = false -> exists a, internal a = true /\ is_Some (fire s now recvErr a p))) /\
  (forall e h', BlockStream.readStream s now (BlockStream.gator s) messages recvErr h = (Err e, h') ->
    exists ls p, schedule (fire s now recvErr) ls p0 = Some p /\ loop p = Returned /\ shutdown p = Some (Some e) /\ hs p = h').
Proof.
  intros Hpre Hs. unfold start in Hs. destruct (_ <? 0); [done|]. injection Hs as <-. split.
  - intros ls p E. assert (HI : inv s now (accepted now (BlockStream.gator s) messages) h p).
    { eapply (schedule_inv _ _ _ _ _ (client_init_inv s now messages h)), E. intros a q q' Hq. by eapply client_fire_inv. }
    split; [|split; [|split]].
    + destruct (returned_order _ _ _ _ _ HI) as [j Hj]. destruct (accepted_prefix now (BlockStream.gator s) messages j) as [k Hk].
      exists k. by rewrite readStream_state, Hk.
    + eapply schedule_bound with (P := fun _ => True) (mu := measure) in E; [|done|intros a q q' _ Hq; split; [done|by eapply fire_decreases]].
      unfold measure, receiver_work in E. cbn in E. unfold open_work, queued in E. cbn in E. lia.
    + intros Hl. apply (i_returned _ _ _ _ _ HI) in Hl. unfold IsTerminating in Hl. by apply bool_decide_eq_true in Hl.
    + intros Hl Hc. by eapply loop_progresses.
  - intros e h' E. by apply one_by_one.
Qed.

Section Example.
Definition ex_block (n : Z) (id parent : string) : Block := mkBlock n id parent None 0 0 0 "" 0 (n - 1) None.
Definition ex_blocks : list Block := [ex_block 1 "1a" "0a"; ex_block 2 "2a" "1a"].
Definition ex_EOF : error := ESentinel "EOF".
Definition ex_client : BlockStream.Source (O := string) (HS := list (Block * iface string)) :=
  BlockStream.NewSource 0 recorder [BlockStream.WithParallelPreproc (fun blk => Ok (Some (Id blk))) 2].
Definition ex_start : state string (list (Block * iface string)) := init ex_client ex_blocks [].

(** The second block is preprocessed before the first one. *)
Definition ex_crossing : list action :=
  [Recv; Send; Recv; Send; Preprocess (InChannel 1); Preprocess (InChannel 0); Take; Handle; Take; Handle; Recv; StopLoop].

Lemma readStream_interleaved_witness :
  schedule (fire ex_client Number ex_EOF) ex_crossing ex_start <> None /\
  (exists ls p, schedule (fire ex_client Number ex_EOF) ls ex_start = Some p /\ shutdown p = Some (Some ex_EOF) /\
    hs p = [(ex_block 2 "2a" "1a", IUser "2a"); (ex_block 1 "1a" "0a", IUser "1a")]).
Proof.
  destruct (readStream_interleaved ex_client Number ex_EOF ex_blocks [] ex_start ltac:(done) eq_refl) as [_ Hn].
  split; [by vm_compute|]. destruct (Hn ex_EOF [(ex_block 2 "2a" "1a", IUser "2a"); (ex_block 1 "1a" "0a", IUser "1a")] eq_refl)
    as (ls & p & Hs & _ & He & Hh). by exists ls, p.
Defined.

(** The end of the stream does not wait for the blocks that were received before it. *)
Lemma received_not_handled : exists p,
  schedule (fire ex_client Number ex_EOF) [Recv; Preprocess AtReceiver; Send; Recv; Send; Recv; StopLoop] ex_start = Some p /\
  loop p = Returned /\ shutdown p = Some (Some ex_EOF) /\ hs p = [].
Proof. eexists. by split; [vm_compute|]. Qed.
End Example.
