(* ===== verification/ForkDBSerial.v ===== *)
(** * Saving and loading a fork database ([forkable/forkdb.go], [Serialize] and [Deserialize])

    The protobuf message, the encodings of the objects and the bytes are external:
    parameters of the model, whose laws are the hypotheses of the round trip. *)

From stdpp Require Import fin_maps.
From S2P Require Import Prelude Loops Types ForkDB.

(** [pbforkable.ForkNodeObject]: its [oneof], [NodeUnset] when it is nil. *)
Inductive ForkNodeObject :=
  | NodeProtobuf (a : Any)
  | NodeJson (s : string)
  | NodeBinary (bytes : string)
  | NodeUnset.

(** [pbforkable.ForkDB]; [None] is a nil map or pointer. *)
Record pbForkDB := mkPbForkDB {
  Links : option (gmap string string);
  Nums : option (gmap string Z);
  Objects : option (gmap string (option ForkNodeObject));
  LibRef : option BlockRef;
}.

(** [proto.Marshal] and [proto.Unmarshal] of the message. *)
Class ForkDBCodec := {
  MarshalForkDB : pbForkDB -> outcome string;
  UnmarshalForkDB : string -> outcome pbForkDB;
}.

(** The first case of the type switch an object falls in. *)
Inductive object_kind := KindProto | KindJson | KindBinary | KindOther.

(** The objects: the interfaces they implement and the encodings of those. *)
Class ObjectCodec (V : Type) := {
  kind_of : V -> object_kind;
  anypb_New : V -> outcome Any;
  UnmarshalNew : Any -> outcome V;
  json_Marshal : V -> outcome string;
  json_Unmarshal : string -> V -> outcome V;
  is_BinaryMarshaler : V -> bool;
  MarshalBinary : V -> outcome string;
  UnmarshalBinaryInto : string -> V -> outcome V;
}.

Module ForkDBSerial.
Section Serial.
Context {V : Type} `{ObjectCodec V} `{ForkDBCodec}.

(** [fmt.Errorf] around the error of a call. *)
Definition wrap {A} (msg : string) (r : outcome A) : outcome A :=
  match r with Err e => Err (EWrap msg e) | _ => r end.

Definition serializeObject (object : option V) : outcome (option ForkNodeObject) :=
  match object with
  | None => Ok None
  | Some v =>
      match kind_of v with
      | KindProto => out ← wrap "new anypb.Any: %w" (anypb_New v); Ok (Some (NodeProtobuf out))
      | KindJson => data ← wrap "marshal json: %w" (json_Marshal v); Ok (Some (NodeJson data))
      | KindBinary => data ← wrap "marshal binary: %w" (MarshalBinary v); Ok (Some (NodeBinary data))
      | KindOther => Err (EMsg "object of type %T is not serializable preventing ForkDB to be serialized")
      end
  end.

(** The loop over the objects, in the order Go iterates them. *)
Fixpoint serializeObjects (l : list (string * option V)) (m : gmap string (option ForkNodeObject))
  : outcome (gmap string (option ForkNodeObject)) :=
  match l with
  | [] => Ok m
  | (id, obj) :: l' =>
      o ← wrap "serialize object for block %s: %w" (serializeObject obj);
      serializeObjects l' (<[id := o]> m)
  end.

Definition Serialize (f : ForkDB V) : outcome string :=
  objs ← serializeObjects (map_to_list (objects f)) ∅;
  MarshalForkDB (mkPbForkDB (Some (links f)) (Some (nums f)) (Some objs) (Some (libRef f))).

(** [objectFactory] is nil or makes an object. *)
Definition deserializeObject (objectFactory : option V) (obj : option ForkNodeObject) : outcome (option V) :=
  match obj with
  | None => Ok None
  | Some (NodeProtobuf a) => v ← wrap "unmarshal any: %w" (UnmarshalNew a); Ok (Some v)
  | Some (NodeJson s) =>
      match objectFactory with
      | None => Err (EMsg "object factory is mandatory when deserializaing %T JSON object")
      | Some o => v ← wrap "unmarshal json: %w" (json_Unmarshal s o); Ok (Some v)
      end
  | Some (NodeBinary bytes) =>
      match objectFactory with
      | None => Err (EMsg "object factory is mandatory when deserializaing %T JSON object")
      | Some o =>
          if is_BinaryMarshaler o then
            v ← wrap "unmarshal binary: %w" (UnmarshalBinaryInto bytes o); Ok (Some v)
          else Err (EMsg "object factory %T created object of type %T which do not implement 'forkable.ObjectBinaryMarshaler' interface")
      end
  | Some NodeUnset => Err (EMsg "serialized object of type %T is not handled properly")
  end.

(** A database with the maps that may be nil: a nil map reads as an empty one
    and cannot be written. *)
Record LoadedDB := mkLoadedDB { db : ForkDB V; nil_links : bool; nil_nums : bool }.

Definition loaded (f : ForkDB V) : LoadedDB := mkLoadedDB f false false.

Definition set_object (id : string) (o : option V) (s : LoadedDB) : LoadedDB :=
  mkLoadedDB (mkForkDB (links (db s)) (nums (db s)) (<[id := o]> (objects (db s))) (libRef (db s)))
    (nil_links s) (nil_nums s).

(** The loop over the objects of the message; an object that is not read is nil
    in the map. *)
Fixpoint deserializeObjects (objectFactory : option V) (l : list (string * option ForkNodeObject)) : M LoadedDB unit :=
  match l with
  | [] => mret tt
  | (id, obj) :: l' =>
      match deserializeObject objectFactory obj with
      | Ok o => _ ← mmodify (set_object id o); deserializeObjects objectFactory l'
      | Err e => _ ← mmodify (set_object id None); merr (EWrap "deserialize object for block %s: %w" e)
      | Panic w => mpanic w
      | Diverge => mlift Diverge
      end
  end.

Definition is_nil {A} (o : option A) : bool := match o with None => true | Some _ => false end.

Definition Deserialize (data : string) (objectFactory : option V) : M LoadedDB unit :=
  msg ← mlift (wrap "unmarshal: %w" (UnmarshalForkDB data));
  _ ← mmodify (fun s => mkLoadedDB
        (mkForkDB (default ∅ (Links msg)) (default ∅ (Nums msg)) ∅ (libRef (db s)))
        (is_nil (Links msg)) (is_nil (Nums msg)));
  _ ← deserializeObjects objectFactory (map_to_list (default ∅ (Objects msg)));
  match LibRef msg with
  | None => mret tt
  | Some r => mmodify (fun s => mkLoadedDB (set_libRef (db s) r) (nil_links s) (nil_nums s))
  end.

(** The writes of a link and of the LIB to the maps of a loaded database. *)
Definition AddLink_loaded (blockRef : BlockRef) (previousRefID : string) (obj : option V) : M LoadedDB (bool * bool) :=
  fun s =>
    let '(r, f') := AddLink (db s) blockRef previousRefID obj in
    let fresh_link := bool_decide (ID blockRef <> previousRefID /\ ID blockRef <> "" /\ link (db s) (ID blockRef) = "") in
    if fresh_link && nil_links s then (Panic "assignment to entry in nil map", s)
    else if fresh_link && nil_nums s then
      (Panic "assignment to entry in nil map",
       mkLoadedDB (mkForkDB (links f') (nums (db s)) (objects (db s)) (libRef (db s))) (nil_links s) (nil_nums s))
    else (Ok r, mkLoadedDB f' (nil_links s) (nil_nums s)).

Definition InitLIB_loaded (ref : BlockRef) : M LoadedDB unit := fun s =>
  if nil_nums s then
    (Panic "assignment to entry in nil map", mkLoadedDB (set_libRef (db s) ref) (nil_links s) (nil_nums s))
  else (Ok tt, mkLoadedDB (InitLIB (db s) ref) (nil_links s) (nil_nums s)).
End Serial.
Arguments LoadedDB : clear implicits.
End ForkDBSerial.
