(* ===== verification/ForkDBSerialProps.v ===== *)
(** * A fork database is read back as it was saved

    The round trip of a fork database through its protobuf message, and the state
    of the maps it leaves behind. *)

From stdpp Require Import fin_maps.
From S2P Require Import Prelude Loops Types ForkDB ForkDBSerial.
Import ForkDBSerial.

Section Trip.
Context {V : Type} `{ObjectCodec V} `{ForkDBCodec}.
Context (valid : string -> Prop) (factory : option V).
Implicit Types (f : ForkDB V).

(** An object the codecs read back, the text in its message being valid UTF-8. *)
Definition object_trip (v : V) : Prop :=
  match kind_of v with
  | KindProto => exists a, anypb_New v = Ok a /\ UnmarshalNew a = Ok v /\ valid (TypeUrl a)
  | KindJson => exists s o, factory = Some o /\ json_Marshal v = Ok s /\ json_Unmarshal s o = Ok v /\ valid s
  | KindBinary => exists s o, factory = Some o /\ MarshalBinary v = Ok s /\
      is_BinaryMarshaler o = true /\ UnmarshalBinaryInto s o = Ok v
  | KindOther => False
  end.

Definition valid_node (o : option ForkNodeObject) : Prop :=
  match o with
  | Some (NodeProtobuf a) => valid (TypeUrl a)
  | Some (NodeJson s) => valid s
  | Some (NodeBinary _) => True
  | _ => False
  end.

(** On the wire an empty map is like a nil one. *)
Definition wire {A} (m : gmap string A) : option (gmap string A) :=
  if decide (size m = 0)%nat then None else Some m.

(** Protobuf writes a message whose strings are valid UTF-8 and whose objects are
    set, and reads it back. *)
Definition message_law : Prop := forall ls ns objs r,
  map_Forall (fun id prev => valid id /\ valid prev) ls -> map_Forall (fun id _ => valid id) ns ->
  map_Forall (fun id o => valid id /\ valid_node o) objs -> valid (ID r) ->
  exists data, MarshalForkDB (mkPbForkDB (Some ls) (Some ns) (Some objs) (Some r)) = Ok data /\
    UnmarshalForkDB data = Ok (mkPbForkDB (wire ls) (wire ns) (wire objs) (Some r)).

Definition saved (v : V) (o : option ForkNodeObject) : Prop :=
  valid_node o /\ deserializeObject factory o = Ok (Some v).

Lemma serializeObject_saved v : object_trip v -> exists o, serializeObject (Some v) = Ok o /\ saved v o.
Proof.
  unfold object_trip, serializeObject, saved. destruct (kind_of v).
  - intros (a & -> & Hu & Hv). eexists. split; [done|]. cbn. by rewrite Hu.
  - intros (s & o & -> & -> & Hu & Hv). eexists. split; [done|]. cbn. by rewrite Hu.
  - intros (s & o & -> & -> & Hb & Hu). eexists. split; [done|]. cbn. by rewrite Hb, Hu.
  - done.
Qed.

Lemma serializeObjects_saved l m :
  Forall (fun p => exists v, p.2 = Some v /\ object_trip v) l -> NoDup l.*1 ->
  exists objs, serializeObjects l m = Ok objs /\ (forall id, id ∉ l.*1 -> objs !! id = m !! id) /\
    forall id o, (id, o) ∈ l -> exists v n, o = Some v /\ objs !! id = Some n /\ saved v n.
Proof.
  intros Hl. revert m. induction Hl as [|[id o] l (v & Eo & Hv) _ IH]; intros m Hnd.
  - exists m. split; [done|]. split; [done|]. intros id o Hin. by apply elem_of_nil in Hin.
  - cbn in Eo. subst o. apply NoDup_cons in Hnd as [Hn Hnd].
    destruct (serializeObject_saved v Hv) as (n & En & Hs).
    destruct (IH (<[id := n]> m) Hnd) as (objs & E & Hout & Hin). exists objs. cbn [serializeObjects].
    rewrite En. cbn [wrap mbind outcome_bind]. split; [done|]. split.
    + intros id' Hid. cbn in Hid. apply not_elem_of_cons in Hid as [Hne Hid]. rewrite Hout by done. by apply lookup_insert_ne.
    + intros id' o Ho. apply elem_of_cons in Ho as [[= -> ->]|Ho]; [|by apply Hin].
      exists v, n. split; [done|]. split; [|done]. rewrite (Hout id Hn). apply lookup_insert_eq.
Qed.

Lemma deserializeObjects_saved l (s : LoadedDB V) (objs : gmap string (option V)) :
  Forall (fun p => exists v, saved v p.2 /\ objs !! p.1 = Some (Some v)) l ->
  exists objs', deserializeObjects factory l s = (Ok tt,
      mkLoadedDB (mkForkDB (links (db s)) (nums (db s)) objs' (libRef (db s))) (nil_links s) (nil_nums s)) /\
    forall id, objs' !! id = if decide (id ∈ l.*1) then objs !! id else objects (db s) !! id.
Proof.
  intros Hl. revert s. induction Hl as [|[id n] l (v & [_ Hd] & Ho) _ IH]; intros s.
  - exists (objects (db s)). split; [by destruct s as [[] ? ?]|]. intros id. done.
  - cbn in Hd, Ho. cbn [deserializeObjects]. rewrite Hd. rewrite bind_mmodify.
    destruct (IH (set_object id (Some v) s)) as (objs' & E & Hlook). exists objs'. split; [exact E|].
    intros id'. rewrite Hlook. cbn. destruct (decide (id' = id)) as [->|Hne].
    + rewrite (decide_True (P := id ∈ id :: _)) by left. rewrite lookup_insert_eq. by case_decide.
    + rewrite lookup_insert_ne by done. destruct (decide (id' ∈ l.*1)) as [Hin|Hin].
      * rewrite decide_True; [done|by right].
      * rewrite decide_False; [done|]. by rewrite elem_of_cons; intros [|].
Qed.

Lemma default_wire {A} (m : gmap string A) : default ∅ (wire m) = m.
Proof. unfold wire. case_decide as E; [|done]. cbn. symmetry. by apply map_size_empty_inv. Qed.

Lemma is_nil_wire {A} (m : gmap string A) : is_nil (wire m) = bool_decide (size m = 0)%nat.
Proof. unfold wire. case_bool_decide; by case_decide. Qed.

(** C31: a database whose objects have codecs that read them back is written
    without an error, and reading the bytes back into any database gives exactly
    the one that was written: links, numbers, objects and LIB. Only a map without
    entries comes back as a nil one. *)
Theorem Serialize_roundtrip f (g : LoadedDB V) : message_law ->
  map_Forall (fun id prev => valid id /\ valid prev) (links f) -> map_Forall (fun id _ => valid id) (nums f) ->
  map_Forall (fun id o => valid id /\ exists v, o = Some v /\ object_trip v) (objects f) -> valid (LIBID f) ->
  exists data, Serialize f = Ok data /\
    Deserialize data factory g =
      (Ok tt, mkLoadedDB f (bool_decide (size (links f) = 0)%nat) (bool_decide (size (nums f) = 0)%nat)).
Proof.
  intros Hlaw Hls Hns Hos Hr.
  destruct (serializeObjects_saved (map_to_list (objects f)) ∅) as (objs & E & Hout & Hin).
  { apply Forall_forall. intros [id o] Hp. apply elem_of_map_to_list in Hp. by destruct (Hos id o Hp). }
  { apply NoDup_fst_map_to_list. }
  assert (Hback : forall id n, objs !! id = Some n -> exists v, saved v n /\ objects f !! id = Some (Some v)).
  { intros id n Hn. destruct (objects f !! id) as [o|] eqn:Eo.
    - destruct (Hin id o) as (v & n' & -> & En & Hs); [by apply elem_of_map_to_list|]. exists v. by replace n with n' by congruence.
    - rewrite Hout in Hn; [by rewrite lookup_empty in Hn|]. intros Hk. apply list_elem_of_fmap in Hk as ([id' o] & -> & Hk).
      apply elem_of_map_to_list in Hk. cbn in Eo. congruence. }
  destruct (Hlaw (links f) (nums f) objs (libRef f) Hls Hns) as (data & Em & Eu); [|done|].
  { intros id n Hn. destruct (Hback id n Hn) as (v & [Hv _] & Eo). by destruct (Hos id _ Eo). }
  exists data. split; [unfold Serialize; by rewrite E|].
  unfold Deserialize. rewrite Eu. erewrite bind_mlift_Ok by reflexivity. rewrite bind_mmodify.
  cbn [Links Nums Objects LibRef]. rewrite !default_wire, !is_nil_wire.
  set (s0 := mkLoadedDB _ _ _).
  destruct (deserializeObjects_saved (map_to_list objs) s0 (objects f)) as (objs' & E' & Hlook).
  { apply Forall_forall. intros [id n] Hp. apply elem_of_map_to_list in Hp. by apply Hback. }
  erewrite bind_Ok by exact E'. unfold mmodify. do 2 f_equal. cbn. destruct f as [ls ns os r]. cbn in *. unfold set_libRef. cbn.
  f_equal. apply map_eq. intros id. rewrite Hlook. destruct (decide (id ∈ (map_to_list objs).*1)) as [Hk|Hk]; [done|]. rewrite lookup_empty.
  destruct (os !! id) as [o|] eqn:Eo; [|done]. exfalso. apply Hk.
  destruct (Hin id o) as (v & n & -> & En & Hs); [by apply elem_of_map_to_list|].
  apply list_elem_of_fmap. exists (id, n). split; [done|]. by apply elem_of_map_to_list.
Qed.
End Trip.

(** ** The example: objects that are JSON strings *)

#[global] Instance ForkNodeObject_eq_dec : EqDecision ForkNodeObject.
Proof. solve_decision. Defined.

Definition node_code (n : ForkNodeObject) : (string * string) + (string + (string + unit)) :=
  match n with
  | NodeProtobuf a => inl (TypeUrl a, Value a)
  | NodeJson s => inr (inl s)
  | NodeBinary s => inr (inr (inl s))
  | NodeUnset => inr (inr (inr tt))
  end.

Definition code_node (c : (string * string) + (string + (string + unit))) : ForkNodeObject :=
  match c with
  | inl (t, v) => NodeProtobuf (mkAny t v)
  | inr (inl s) => NodeJson s
  | inr (inr (inl s)) => NodeBinary s
  | inr (inr (inr _)) => NodeUnset
  end.

#[global] Instance ForkNodeObject_countable : Countable ForkNodeObject.
Proof. refine (inj_countable' node_code code_node _). by intros [[]| | |]. Defined.

Section Example.
#[local] Instance proto_serial : Protocol := {| GetProtocolFirstStreamableBlock := 0 |}.

#[local] Instance json_strings : ObjectCodec string := {|
  kind_of := fun _ => KindJson;
  anypb_New := fun _ => Err (EMsg "not a message");
  UnmarshalNew := fun _ => Err (EMsg "not a message");
  json_Marshal := fun v => Ok v;
  json_Unmarshal := fun s _ => Ok s;
  is_BinaryMarshaler := fun _ => false;
  MarshalBinary := fun _ => Err (EMsg "not binary");
  UnmarshalBinaryInto := fun _ _ => Err (EMsg "not binary");
|}.

Definition wire_code : Type :=
  option (gmap string string) * option (gmap string Z) * option (gmap string (option ForkNodeObject)) * option (string * Z).

#[local] Instance bits_codec : ForkDBCodec := {|
  MarshalForkDB := fun m => Ok (bits_of (countable.encode
    (Links m ≫= wire, Nums m ≫= wire, Objects m ≫= wire, (fun r => (ID r, Num r)) <$> LibRef m)));
  UnmarshalForkDB := fun s =>
    '(ls, ns, os, r) ← decoded (A := wire_code) s;
    Ok (mkPbForkDB ls ns os ((fun p => NewBlockRef p.1 p.2) <$> r));
|}.

Lemma bits_law : message_law (fun _ => True).
Proof.
  intros ls ns objs r _ _ _ _. eexists. split; [reflexivity|]. unfold UnmarshalForkDB, bits_codec.
  change wire_code with (option (gmap string string) * option (gmap string Z) * option (gmap string (option ForkNodeObject)) * option (string * Z))%type.
  rewrite decoded_encode. cbn. by destruct r.
Qed.

Definition ex_lib : ForkDB string := InitLIB NewForkDB (NewBlockRef "1a" 1).
Definition ex_saved : ForkDB string :=
  (AddLink (AddLink ex_lib (NewBlockRef "2a" 2) "1a" (Some "two")).2 (NewBlockRef "3a" 3) "2a" (Some "three")).2.

Lemma ex_saved_objects : objects ex_saved = <["3a" := Some "three"]> (<["2a" := Some "two"]> ∅).
Proof. by vm_compute. Qed.

Lemma Serialize_roundtrip_witness :
  exists data, Serialize ex_saved = Ok data /\
    Deserialize data (Some "") (loaded NewForkDB) = (Ok tt, loaded ex_saved) /\
    BlockForID ex_saved "3a" = Some (mkForkBlock "3a" 3 "2a" (Some "three")).
Proof.
  destruct (Serialize_roundtrip (fun _ => True) (Some "") ex_saved (loaded NewForkDB)) as (data & E1 & E2).
  - exact bits_law.
  - by intros id prev _.
  - by intros id n _.
  - intros id o Ho. split; [done|]. rewrite ex_saved_objects in Ho.
    apply lookup_insert_Some in Ho as [[_ <-]|[_ Ho]]; [eexists; split; [done|]; cbn; by eexists _, _|].
    apply lookup_insert_Some in Ho as [[_ <-]|[_ Ho]]; [eexists; split; [done|]; cbn; by eexists _, _|].
    by rewrite lookup_empty in Ho.
  - done.
  - exists data. split; [exact E1|]. split; [exact E2|reflexivity].
Defined.

(** A database that was saved before its first link cannot be extended once it
    is loaded: its map of links is nil. *)
Lemma loaded_without_links_panics :
  exists data s, Serialize ex_lib = Ok data /\ Deserialize data None (loaded NewForkDB) = (Ok tt, s) /\
    (AddLink_loaded (NewBlockRef "2a" 2) "1a" (Some "two") s).1 = Panic "assignment to entry in nil map".
Proof. eexists _, _. split; [vm_compute; reflexivity|]. split; [vm_compute; reflexivity|]. by vm_compute. Qed.
End Example.

(** An object of no serializable type stops the writing of the database with an
    error. *)
Lemma Serialize_unserializable {V} `{ObjectCodec V} `{ForkDBCodec} (f : ForkDB V) id v :
  objects f = {[id := Some v]} -> kind_of v = KindOther -> is_Err (Serialize f) = true.
Proof. intros E K. unfold Serialize. rewrite E, map_to_list_singleton. cbn. by rewrite K. Qed.
