(* ===== verification/Sources.v ===== *)
(** * Sources that restart sources ([eternalsource.go], [multiplexedsource.go])

    The underlying sources are external: an eternal source is run against the
    list of what happens at each turn of its loop, a multiplexed source against
    the events of its sources. The delays between turns play no role. *)

From S2P Require Import Prelude Types.

Module EternalSource.
Section Eternal.
Context {O HS : Type}.

(** What an underlying source does once it runs: it hands blocks over until its
    handler fails, then ends by itself with [ends]. *)
Record served := mkServed { blocks : list (Block * iface O); ends : option error }.

Fixpoint run_source {S} (h : Handler O S) (bs : list (Block * iface O)) (ends : option error) (s : S) : option error * S :=
  match bs with
  | [] => (ends, s)
  | (blk, obj) :: bs' =>
      match h blk obj s with
      | (Some e, s') => (Some e, s')
      | (None, s') => run_source h bs' ends s'
      end
  end.

(** The code outside the source, at a turn of the loop: whether it was shut
    down, what [startBackAt] answers given the state of the client, and the source
    that the factory makes for a block reference. *)
Record turn := mkTurn {
  terminating : bool;
  startBackAt : HS -> error + BlockRef;
  sourceFromRefFactory : BlockRef -> served;
}.

(** [delegating] tells that [startBackAt] is set. *)
Record EternalSource := mkEternal { h : Handler O HS; delegating : bool }.

Definition NewEternalSource (h : Handler O HS) : EternalSource := mkEternal h false.
Definition NewDelegatingEternalSource (h : Handler O HS) : EternalSource := mkEternal h true.

(** The state of [Run]: the last processed block and the state of the client. *)
Definition state : Type := BlockRef * HS.

Definition recording (h : Handler O HS) : Handler O state := fun blk obj '(last, hs) =>
  match h blk obj hs with
  | (Some e, hs') => (Some e, (last, hs'))
  | (None, hs') => (None, (NewBlockRef (Id blk) (Number blk), hs'))
  end.

Definition delegated (h : Handler O HS) : Handler O state := fun blk obj '(last, hs) =>
  match h blk obj hs with (e, hs') => (e, (last, hs')) end.

Definition handler (s : EternalSource) : Handler O state :=
  if delegating s then delegated (h s) else recording (h s).

(** [Run] has returned, because it was shut down or not, or is at its next turn. *)
Inductive status := Returned (wasTerminating : bool) | Running.

Fixpoint Run_loop (s : EternalSource) (turns : list turn) (st : state) : status * state :=
  match turns with
  | [] => (Running, st)
  | t :: turns' =>
      if terminating t then (Returned true, st)
      else
        match (if delegating s then startBackAt t st.2 else inr st.1) with
        | inl e => (Returned false, st)
        | inr ref =>
            let src := sourceFromRefFactory t ref in
            let '(_, st') := run_source (handler s) (blocks src) (ends src) (ref, st.2) in
            Run_loop s turns' st'
        end
  end.

Definition Run (s : EternalSource) (turns : list turn) (hs : HS) : status * state := Run_loop s turns (BlockRefEmpty, hs).
End Eternal.
Arguments served : clear implicits.
Arguments turn : clear implicits.
Arguments EternalSource : clear implicits.
Arguments state : clear implicits.
End EternalSource.

Module MultiplexedSource.
Section Multiplexed.
Context {O HS : Type}.

(** A source that was made; [None] in the slice is one that was not. *)
Inductive source := Up | Down.

(** [created] counts the sources each factory made. *)
Record MultiplexedSource := mkMux {
  sources : list (option source);
  created : list nat;
  shut : bool;
  err : option error;
  mux_hs : HS;
}.

Definition NewMultiplexedSource (sourceFactories : nat) (hs : HS) : MultiplexedSource :=
  mkMux (replicate sourceFactories None) (replicate sourceFactories 0%nat) false None hs.

(** The first [Shutdown] shuts the sources down. *)
Definition Shutdown (e : option error) (m : MultiplexedSource) : MultiplexedSource :=
  if shut m then m
  else mkMux ((fun s => match s with Some _ => Some Down | None => None end) <$> sources m) (created m) true e (mux_hs m).

Definition needs_source (s : option source) : bool := match s with Some Up => false | _ => true end.

(** A turn of [connectSources]. *)
Definition connectSources (m : MultiplexedSource) : MultiplexedSource :=
  if shut m then m
  else
    mkMux ((fun s => if needs_source s then Some Up else s) <$> sources m)
      (zip_with (fun s n => if needs_source s then S n else n) (sources m) (created m)) (shut m) (err m) (mux_hs m).

(** [shuttingSrcHandler]: the handler of every source, under a lock. *)
Definition shuttingSrcHandler (h : Handler O HS) (blk : Block) (obj : iface O) (m : MultiplexedSource) : option error * MultiplexedSource :=
  let '(e, hs') := h blk obj (mux_hs m) in
  let m' := mkMux (sources m) (created m) (shut m) (err m) hs' in
  match e with
  | None => (None, m')
  | Some e => (Some e, Shutdown (Some e) m')
  end.

(** What happens: a turn of [Run], a source hands a block over, a source ends, the
    multiplexed source is shut down. *)
Inductive event := Connect | Deliver (i : nat) (blk : Block) (obj : iface O) | SourceEnds (i : nat) | ShutDown (e : option error).

Definition end_source (i : nat) (m : MultiplexedSource) : MultiplexedSource :=
  mkMux (alter (fun s => match s with Some _ => Some Down | None => None end) i (sources m)) (created m) (shut m) (err m) (mux_hs m).

(** A source whose handler fails ends; one that was shut down may still be
    handing its last block over. *)
Definition step (h : Handler O HS) (e : event) (m : MultiplexedSource) : MultiplexedSource :=
  match e with
  | Connect => connectSources m
  | Deliver i blk obj =>
      match sources m !! i with
      | Some (Some _) => match shuttingSrcHandler h blk obj m with (None, m') => m' | (Some _, m') => end_source i m' end
      | _ => m
      end
  | SourceEnds i => end_source i m
  | ShutDown e => Shutdown e m
  end.

Definition run (h : Handler O HS) (es : list event) (m : MultiplexedSource) : MultiplexedSource := foldl (fun m e => step h e m) m es.
End Multiplexed.
Arguments MultiplexedSource : clear implicits.
Arguments event : clear implicits.
End MultiplexedSource.
