(* ===== verification/SourcesProps.v ===== *)
(** * What the client of a restarting source sees

    An eternal source hands a chain of blocks over once and in order, whatever
    happens to the sources it restarts; a multiplexed source keeps a source of
    every factory running until it is shut down. *)

From S2P Require Import Prelude Types Sources.

(** ** The eternal source *)

Section Eternal.
Import EternalSource.
Context {O HS : Type} (client : Handler O HS) (seen : HS -> list Block) (chain : list Block).

(** The client remembers the blocks it accepted. *)
Definition remembers : Prop := forall blk obj hs e hs', client blk obj hs = (e, hs') ->
  seen hs' = match e with None => seen hs ++ [blk] | Some _ => seen hs end.

Definition accepts : Prop := forall blk obj hs, (client blk obj hs).1 = None.

(** The reference of the last block of a list. *)
Definition tip (l : list Block) : BlockRef :=
  match last l with Some b => NewBlockRef (Id b) (Number b) | None => BlockRefEmpty end.

Fixpoint after_id (id : string) (l : list Block) : list Block :=
  match l with [] => [] | b :: l' => if decide (Id b = id) then l' else after_id id l' end.

(** The blocks of the chain that follow a reference. *)
Definition after (r : BlockRef) : list Block := if decide (r = BlockRefEmpty) then chain else after_id (ID r) chain.

(** A source made for a reference serves a beginning of what follows it, and the
    client restarts, if it is asked, from its last block. *)
Definition faithful (t : turn O HS) : Prop :=
  (forall r, (blocks (sourceFromRefFactory t r)).*1 `prefix_of` after r) /\
  forall hs r, startBackAt t hs = inr r -> r = tip (seen hs).

(** A turn that goes on. *)
Definition productive (t : turn O HS) : Prop :=
  terminating t = false /\ (forall hs, startBackAt t hs = inr (tip (seen hs))) /\
  forall r, after r <> [] -> blocks (sourceFromRefFactory t r) <> [].

Lemma tip_snoc l b : tip (l ++ [b]) = NewBlockRef (Id b) (Number b).
Proof. unfold tip. by rewrite last_snoc. Qed.

Lemma after_id_app l b rest : NoDup (Id <$> l ++ b :: rest) -> after_id (Id b) (l ++ b :: rest) = rest.
Proof.
  induction l as [|a l IH]; intros Hnd; cbn.
  - by rewrite decide_True.
  - cbn in Hnd. apply NoDup_cons in Hnd as [Hn Hnd]. rewrite decide_False; [by apply IH|].
    intros E. apply Hn. rewrite E, fmap_app. set_solver.
Qed.

Context (Hrem : remembers) (Hnd : NoDup (Id <$> chain)) (Hid : Forall (fun b => Id b <> "") chain).

Lemma after_tip l rest : l ++ rest = chain -> after (tip l) = rest.
Proof.
  intros E. unfold after. destruct l as [|b l _] using rev_ind.
  - by rewrite decide_True.
  - rewrite tip_snoc. rewrite <- E, <- app_assoc in *. cbn in *. rewrite decide_False; [by apply after_id_app|].
    intros [= Ei _]. apply Forall_app in Hid as [_ Hb]. by inversion Hb.
Qed.

Context (s : EternalSource O HS) (Hclient : h s = client).

(** The client has a beginning of the chain, and the source knows its end. *)
Definition at_tip (st : state HS) (rest : list Block) : Prop :=
  seen st.2 ++ rest = chain /\ (delegating s = false -> st.1 = tip (seen st.2)).

Lemma handler_step blk obj st rest : at_tip st (blk :: rest) ->
  match handler s blk obj st with
  | (None, st') => at_tip st' rest /\ seen st'.2 = seen st.2 ++ [blk]
  | (Some _, st') => at_tip st' (blk :: rest) /\ ~ accepts
  end.
Proof.
  intros [E Ht]. destruct st as [r hs]. cbn in *. unfold handler, recording, delegated, at_tip. rewrite Hclient.
  destruct (client blk obj hs) as [e hs'] eqn:Ec. pose proof (Hrem _ _ _ _ _ Ec) as Es.
  assert (Hacc : forall x, e = Some x -> ~ accepts) by (intros x -> Ha; specialize (Ha blk obj hs); by rewrite Ec in Ha).
  destruct (delegating s); rewrite Ec; destruct e as [e|]; cbn; rewrite Es.
  - split; [|by eapply Hacc]. by split.
  - split; [|done]. split; [by rewrite <- app_assoc|done].
  - split; [|by eapply Hacc]. by split.
  - split; [|done]. split; [by rewrite <- app_assoc|]. by rewrite tip_snoc.
Qed.

Lemma run_source_steps bs e st rest : at_tip st rest -> bs.*1 `prefix_of` rest ->
  let '(_, st') := run_source (handler s) bs e st in
  exists rest', at_tip st' rest' /\ (accepts -> seen st'.2 = seen st.2 ++ bs.*1).
Proof.
  revert st rest. induction bs as [|[blk obj] bs IH]; intros st rest Ha Hp; cbn [run_source].
  - exists rest. split; [done|]. intros _. cbn. by rewrite app_nil_r.
  - cbn in Hp. destruct rest as [|b rest]; [by apply prefix_nil_not in Hp|].
    pose proof (prefix_cons_inv_1 _ _ _ _ Hp) as <-. apply prefix_cons_inv_2 in Hp.
    pose proof (handler_step blk obj st rest Ha) as Hs. destruct (handler s blk obj st) as [[e'|] st1].
    + destruct Hs as [Hs Hn]. by exists (blk :: rest).
    + destruct Hs as [Hs Es]. specialize (IH st1 rest Hs Hp). destruct (run_source (handler s) bs e st1) as [e' st'].
      destruct IH as (rest' & Ha' & Hall). exists rest'. split; [done|]. intros Hacc.
      rewrite (Hall Hacc), Es, <- app_assoc. done.
Qed.

Lemma Run_loop_steps turns st rest : at_tip st rest -> Forall faithful turns ->
  let '(r, st') := Run_loop s turns st in
  (exists rest', at_tip st' rest') /\
  (accepts -> Forall productive turns ->
     r = Running /\ (length (seen st.2) + length turns `min` length rest <= length (seen st'.2))%nat).
Proof.
  intros Ha Hf. revert st rest Ha. induction Hf as [|t turns [Hs Hb] _ IH]; intros st rest Ha; cbn [Run_loop].
  - split; [by exists rest|]. intros _ _. cbn. split; [done|lia].
  - destruct (terminating t) eqn:Et.
    { split; [by exists rest|]. intros _ Hp. apply Forall_cons in Hp as [(Hn & _) _]. congruence. }
    destruct (if delegating s then startBackAt t st.2 else inr st.1) as [e|r] eqn:Er.
    { split; [by exists rest|]. intros _ Hp. apply Forall_cons in Hp as [(_ & Hstart & _) _].
      destruct (delegating s); [by rewrite Hstart in Er|done]. }
    assert (Hr : r = tip (seen st.2)).
    { destruct Ha as [_ Ht]. destruct (delegating s); [by eapply Hb|]. injection Er as <-. by apply Ht. }
    assert (Ha' : at_tip (r, st.2) rest) by (split; [apply Ha|done]).
    pose proof (after_tip _ _ (proj1 Ha)) as Eaft. rewrite <- Hr in Eaft.
    pose proof (run_source_steps (blocks (sourceFromRefFactory t r)) (ends (sourceFromRefFactory t r)) (r, st.2) rest Ha') as Hrun.
    specialize (Hrun ltac:(rewrite <- Eaft; apply Hs)). destruct (run_source _ _ _ _) as [e' st1].
    destruct Hrun as (rest1 & Ha1 & Hall). specialize (IH st1 rest1 Ha1). destruct (Run_loop s turns st1) as [res st'].
    destruct IH as [Hex Hprog]. split; [done|]. intros Hacc Hp. apply Forall_cons in Hp as [(_ & _ & Hpr) Hp].
    destruct (Hprog Hacc Hp) as [-> Hlen]. split; [done|]. specialize (Hall Hacc). cbn [snd] in Hall.
    destruct Ha as [Ea _], Ha1 as [Ea1 _]. pose proof (f_equal length (eq_trans Ea1 (eq_sym Ea))) as El.
    rewrite Hall, !length_app in El. rewrite Hall, length_app in Hlen.
    assert (rest = [] \/ (1 <= length (blocks (sourceFromRefFactory t r)).*1)%nat).
    { destruct rest as [|b rest]; [by left|right]. rewrite length_fmap.
      destruct (blocks (sourceFromRefFactory t r)) eqn:Eb; [|cbn; lia]. exfalso. by apply (Hpr r); [rewrite Eaft|]. }
    cbn [length]. destruct H as [->|H]; cbn [length] in *; lia.
Qed.
End Eternal.

(** C23: the client of an eternal source whose sources serve what follows their
    reference gets the blocks of the chain once each and in order, whatever blocks
    it refuses and however the sources end: a beginning of the chain, of which the
    source restarts at the last block. While every source has a block to give and
    the client accepts, the source runs on and each restart brings a block more,
    up to the end of the chain. *)
Theorem eternal_follows {O HS} (client : Handler O HS) seen chain s turns hs :
  remembers client seen -> NoDup (Id <$> chain) -> Forall (fun b => Id b <> "") chain ->
  EternalSource.h s = client -> seen hs = [] -> Forall (faithful seen chain) turns ->
  let '(r, (last, hs')) := EternalSource.Run s turns hs in
  seen hs' `prefix_of` chain /\ (EternalSource.delegating s = false -> last = tip (seen hs')) /\
  (accepts client -> Forall (productive seen chain) turns ->
     r = EternalSource.Running /\ (length turns `min` length chain <= length (seen hs'))%nat).
Proof.
  intros Hrem Hnd Hid Hs H0 Hf.
  assert (Ha : at_tip seen chain s (BlockRefEmpty, hs) chain) by (split; cbn; by rewrite H0).
  pose proof (Run_loop_steps client seen chain Hrem Hnd Hid s Hs turns _ _ Ha Hf) as Hrun.
  unfold EternalSource.Run. destruct (EternalSource.Run_loop s turns (BlockRefEmpty, hs)) as [r [last hs']].
  destruct Hrun as [(rest & Hp & Ht) Hprog]. split; [by exists rest|]. split; [done|].
  intros Hacc Hpr. specialize (Hprog Hacc Hpr). cbn in Hprog. by rewrite H0 in Hprog.
Qed.

(** A chain of three blocks, sources that fail after a block, and the client that
    keeps what it gets. *)
Definition chain_block (n : Z) (id : string) : Block := mkBlock n id "" None 0 0 0 "" 0 0 None.
Definition ex_chain : list Block := [chain_block 1 "1a"; chain_block 2 "2a"; chain_block 3 "3a"].
Definition keeper : Handler unit (list Block) := fun blk _ l => (None, l ++ [blk]).
Definition one_block : EternalSource.turn unit (list Block) :=
  EternalSource.mkTurn false (fun l => inr (tip l))
    (fun r => EternalSource.mkServed ((fun b => (b, INil)) <$> take 1 (after ex_chain r)) (Some (EMsg "connection lost"))).

Lemma one_block_faithful : faithful id ex_chain one_block.
Proof.
  split.
  - intros r. cbn. exists (drop 1 (after ex_chain r)). rewrite <- list_fmap_compose. cbn.
    rewrite <- (take_drop 1 (after ex_chain r)) at 1. f_equal. by rewrite list_fmap_id.
  - by intros hs r [= <-].
Qed.

Lemma eternal_follows_witness :
  let '(r, (last, l)) := EternalSource.Run (EternalSource.NewEternalSource keeper) [one_block; one_block] [] in
  l `prefix_of` ex_chain /\ last = tip l /\ r = EternalSource.Running /\ (2 <= length l)%nat /\ Id <$> l = ["1a"; "2a"].
Proof.
  pose proof (eternal_follows keeper id ex_chain (EternalSource.NewEternalSource keeper) [one_block; one_block] []) as H.
  assert (H1 : remembers keeper id) by by intros blk obj hs e hs' [= <- <-].
  assert (H2 : NoDup (Id <$> ex_chain)) by (apply (bool_decide_unpack _); by vm_compute).
  assert (H3 : Forall (fun b => Id b <> "") ex_chain) by by repeat constructor.
  assert (H4 : Forall (faithful id ex_chain) [one_block; one_block]) by (repeat constructor; apply one_block_faithful).
  assert (H5 : productive id ex_chain one_block).
  { split; [done|]. split; [done|]. intros r Hr. cbn. by destruct (after ex_chain r). }
  specialize (H H1 H2 H3 eq_refl eq_refl H4). vm_compute in H |- *. destruct H as (Hp & Hl & Hprog).
  split; [exact Hp|]. split; [by apply Hl|]. destruct Hprog as [Hr Hlen].
  - by intros blk obj hs.
  - apply Forall_cons_2; [exact H5|]. apply Forall_cons_2; [exact H5|]. apply Forall_nil_2.
  - split; [exact Hr|]. split; [exact Hlen|reflexivity].
Defined.

(** A failure of [startBackAt] ends the loop of a delegating source that was not
    shut down: what follows never runs. *)
Lemma eternal_gives_up {O HS} (s : EternalSource.EternalSource O HS) t turns last hs e :
  EternalSource.delegating s = true -> EternalSource.terminating t = false -> EternalSource.startBackAt t hs = inl e ->
  EternalSource.Run_loop s (t :: turns) (last, hs) = (EternalSource.Returned false, (last, hs)).
Proof. intros Hd Ht Hs. cbn. by rewrite Ht, Hd, Hs. Qed.

(** ** The multiplexed source *)

Section Multiplexed.
Import MultiplexedSource.
Context {O HS : Type} (client : Handler O HS).
Implicit Types (m : MultiplexedSource HS).

(** Until it is shut down a multiplexed source has no error, and every factory
    a source after each turn; afterwards it has none running. *)
Definition mux_ok m : Prop := if shut m then Forall (fun s => s <> Some Up) (sources m) else err m = None.

Lemma mux_step m e : mux_ok m -> mux_ok (step client e m).
Proof.
  assert (Hend : forall i m, mux_ok m -> mux_ok (end_source i m)).
  { intros i m0. unfold mux_ok, end_source. cbn. destruct (shut m0); [|done]. rewrite !Forall_lookup. intros Hs j x.
    destruct (decide (i = j)) as [<-|Hne].
    - rewrite list_lookup_alter, decide_True by done. destruct (sources m0 !! i) as [[?|]|]; cbn; intros Ex; by simplify_eq.
    - rewrite list_lookup_alter_ne by done. apply Hs. }
  assert (Hshut : forall x m, mux_ok m -> mux_ok (Shutdown x m)).
  { intros x m0 Hm. unfold Shutdown. destruct (shut m0) eqn:Es; [done|]. unfold mux_ok. cbn. apply Forall_fmap, Forall_true.
    by intros [?|]. }
  intros Hm. destruct e as [|i blk obj|i|x]; cbn; auto.
  - unfold connectSources. by destruct (shut m) eqn:Es; [|unfold mux_ok in *; cbn; rewrite Es in *].
  - destruct (sources m !! i) as [[?|]|]; auto. unfold shuttingSrcHandler. destruct (client blk obj (mux_hs m)) as [[x|] hs'].
    + apply Hend, Hshut. exact Hm.
    + exact Hm.
Qed.

Lemma connect_all m : shut m = false -> Forall (fun s => s = Some Up) (sources (connectSources m)).
Proof.
  intros Es. unfold connectSources. rewrite Es. cbn. apply Forall_fmap, Forall_true. by intros [[|]|].
Qed.

(** A source that was waiting hands its block to a client whose error already
    shut everything down. *)
Lemma delivered_after_shutdown i blk obj m : sources m !! i = Some (Some Down) -> shut m = true ->
  mux_hs (step client (Deliver i blk obj) m) = (client blk obj (mux_hs m)).2.
Proof.
  intros Ei Es. cbn. rewrite Ei. unfold shuttingSrcHandler. destruct (client blk obj (mux_hs m)) as [[x|] hs']; [|done].
  unfold Shutdown. cbn. by rewrite Es.
Qed.
End Multiplexed.
