(* ===== verification/Transforms.v ===== *)
(** * Transforms ([transform/registry.go], [transform/builder.go])

    A registry makes transforms out of protobuf messages, and a list of them
    becomes the preprocessing function and the index provider of a stream. The
    transforms and the messages are external. *)

From stdpp Require Import fin_maps.
From S2P Require Import Prelude GoStrings Types.

(** The names of messages and the packing of a message. *)
Class Messages (Msg : Type) := {
  Any_MessageName : Any -> string;
  MessageName : option Msg -> string;
  anypb_NewMsg : Msg -> outcome Any;
}.

Module Transforms.
Section Transforms.
Context {Msg Provider : Type} `{Messages Msg}.

(** [Input]: the nil object or the output of the previous transform. *)
Inductive Input := NilObj | InputObj (type : string) (obj : option Msg).

Definition NilObjectType : string := "nil".

Definition Type_ (i : Input) : string := match i with NilObj => NilObjectType | InputObj t _ => t end.
Definition Obj (i : Input) : option Msg := match i with NilObj => None | InputObj _ o => o end.

Definition PreprocessTransform : Type := Block -> Input -> outcome (option Msg).

(** A transform and the interfaces it implements: the function of
    [PreprocessTransform] and the [GetIndexProvider] of
    [BlockIndexProviderGetter], whose answer may be nil. *)
Record Transform := mkTransform {
  String_ : string;
  as_preprocess : option PreprocessTransform;
  as_provider : option (option Provider);
}.

Record Factory := mkFactory { Obj_ : Msg; NewFunc : Any -> outcome Transform }.

(** *** The registry *)

Definition Registry : Type := gmap string Factory.

Definition NewRegistry : Registry := ∅.

Definition Register (f : Factory) (r : Registry) : outcome Registry :=
  match anypb_NewMsg (Obj_ f) with
  | Err _ => Panic "unable to create any from proto message"
  | Panic w => Panic w
  | Diverge => Diverge
  | Ok a =>
      let messageName := Any_MessageName a in
      if decide (messageName = "") then Panic "proto object message name cannot be blanked"
      else
        match r !! messageName with
        | Some _ => Panic "proto object message name %q already registered"
        | None => Ok (<[messageName := f]> r)
        end
  end.

Definition New (message : Any) (r : Registry) : outcome Transform :=
  match r !! Any_MessageName message with
  | None => Err (EMsg "no such transform registered %q")
  | Some factory =>
      match NewFunc factory message with
      | Err e => Err (EWrap "unable to setup transform: %w" e)
      | res => res
      end
  end.

(** *** The builder *)

(** The loop over the messages. *)
Fixpoint collect (r : Registry) (anyTransforms : list Any) (provider : option Provider) (descs : list string)
  (pps : list PreprocessTransform) : outcome (option Provider * list string * list PreprocessTransform) :=
  match anyTransforms with
  | [] => Ok (provider, descs, pps)
  | transform :: rest =>
      match New transform r with
      | Err e => Err (EWrap "unable to instantiate transform: %w" e)
      | Panic w => Panic w
      | Diverge => Diverge
      | Ok t =>
          let pps := pps ++ option_list (as_preprocess t) in
          let provider :=
            match as_provider t with
            | Some p => match provider with Some _ => provider | None => p end
            | None => provider
            end in
          match as_preprocess t, as_provider t with
          | None, None => Err (EMsg "transform %s does not match any transform interface")
          | _, _ => collect r rest provider (descs ++ [String_ t]) pps
          end
      end
  end.

(** A call of the preprocessing function, alone. *)
Fixpoint apply_all (ts : list PreprocessTransform) (in_ : Input) (out : option Msg) (blk : Block) : outcome (option Msg) :=
  match ts with
  | [] => Ok out
  | transform :: ts' =>
      match transform blk in_ with
      | Err e => Err (EWrap "transform %d failed: %w" e)
      | Panic w => Panic w
      | Diverge => Diverge
      | Ok out => apply_all ts' (InputObj (MessageName out) out) out blk
      end
  end.

Definition preprocessFunc (ppTransforms : list PreprocessTransform) (blk : Block) : outcome (option Msg) :=
  apply_all ppTransforms NilObj None blk.

(** The preprocessing function is given by its transforms. *)
Definition BuildFromTransforms (r : Registry) (anyTransforms : list Any)
  : outcome (option (list PreprocessTransform) * option Provider * string) :=
  match anyTransforms with
  | [] => Ok (None, None, "")
  | _ =>
      '(provider, descs, pps) ← collect r anyTransforms None [] [];
      Ok (Some pps, provider, Join descs ",")
  end.

(** *** Calls of the preprocessing function that run together

    The variable [in] is outside the function: it is shared by the calls, which
    the sources of the blocks run in parallel. A call assigns it, calls a
    transform with it, and assigns it again with the output. *)

Inductive phase :=
  | Start
  | Call (idx : nat) (out : option Msg)
  | Store (idx : nat) (out : option Msg)
  | Done (result : outcome (option Msg)).

Record shared := mkShared { in_ : Input; calls : list (Block * phase) }.

(** The next statement of a call, and what it leaves in [in]. *)
Definition advance (ts : list PreprocessTransform) (blk : Block) (p : phase) (in_ : Input) : phase * Input :=
  match p with
  | Start => (Call 0 None, NilObj)
  | Call idx out =>
      match ts !! idx with
      | None => (Done (Ok out), in_)
      | Some transform =>
          match transform blk in_ with
          | Err e => (Done (Err (EWrap "transform %d failed: %w" e)), in_)
          | Panic w => (Done (Panic w), in_)
          | Diverge => (p, in_)
          | Ok out => (Store idx out, in_)
          end
      end
  | Store idx out => (Call (S idx) out, InputObj (MessageName out) out)
  | Done _ => (p, in_)
  end.

Definition turn (ts : list PreprocessTransform) (i : nat) (s : shared) : shared :=
  match calls s !! i with
  | None => s
  | Some (blk, p) =>
      let '(p', in') := advance ts blk p (in_ s) in
      mkShared in' (<[i := (blk, p')]> (calls s))
  end.

(** The calls for some blocks, under a schedule. *)
Definition run_calls (ts : list PreprocessTransform) (blks : list Block) (schedule : list nat) : shared :=
  foldl (fun s i => turn ts i s) (mkShared NilObj ((fun b => (b, Start)) <$> blks)) schedule.
End Transforms.
Arguments Input : clear implicits.
Arguments Transform : clear implicits.
Arguments Factory : clear implicits.
Arguments Registry : clear implicits.
Arguments phase : clear implicits.
Arguments shared : clear implicits.
Arguments PreprocessTransform : clear implicits.
End Transforms.
