(* ===== verification/TransformsProps.v ===== *)
(** * Transforms under parallel preprocessing

    What a list of transforms builds, and what the input shared by the calls of
    the preprocessing function does to them. *)

From stdpp Require Import fin_maps.
From S2P Require Import Prelude GoStrings Types Transforms.
Import Transforms.

Section Parallel.
Context {Msg : Type} `{Messages Msg}.
Implicit Types (ts : list (PreprocessTransform Msg)).

(** A transform that does not look at its input. *)
Definition ignores_input (t : PreprocessTransform Msg) : Prop := forall blk i i', t blk i = t blk i'.

(** The input a call writes before it calls its transform [idx]. *)
Definition own_input (idx : nat) (out : option Msg) : Input Msg :=
  match idx with Datatypes.O => NilObj | _ => InputObj (MessageName out) out end.

(** What is left of a call: its result when it runs alone, and its turns. *)
Definition finish ts (blk : Block) (p : phase Msg) : outcome (option Msg) :=
  match p with
  | Start => preprocessFunc ts blk
  | Call idx out => apply_all (drop idx ts) (own_input idx out) out blk
  | Store idx out => apply_all (drop (S idx) ts) (own_input (S idx) out) out blk
  | Done r => r
  end.

Definition remaining ts (p : phase Msg) : nat :=
  match p with
  | Start => 2 * length ts + 2
  | Call idx _ => 2 * (length ts - idx) + 1
  | Store idx _ => 2 * (length ts - idx)
  | Done _ => 0
  end.

Definition in_bounds ts (p : phase Msg) : Prop := match p with Store idx _ => (idx < length ts)%nat | _ => True end.

(** The turns that a call that goes on has taken. *)
Definition taken (p : phase Msg) : option nat :=
  match p with Start => Some 0 | Call idx _ => Some (2 * idx + 1) | Store idx _ => Some (2 * idx + 2) | Done _ => None end%nat.

(** The transform [idx] of a call that took [k] turns will not look at its input. *)
Definition unread ts (k : nat) : Prop := forall idx t, k = (2 * idx + 1)%nat -> ts !! idx = Some t -> ignores_input t.

(** The other calls have no turn between the assignment of an input by the call [i],
    which took [k] turns, and the transform that looks at this input. *)
Fixpoint undisturbed ts (i k : nat) (schedule : list nat) : Prop :=
  match schedule with
  | [] => True
  | j :: schedule' =>
      if decide (i = j) then undisturbed ts i (S k) schedule' else unread ts k /\ undisturbed ts i k schedule'
  end.

(** The input is the call's own, unless the transform does not look at it. *)
Definition own ts (p : phase Msg) (in_ : Input Msg) : Prop :=
  match p with
  | Call idx out => in_ = own_input idx out \/ forall t, ts !! idx = Some t -> ignores_input t
  | _ => True
  end.

Lemma advance_finish ts blk p i : own ts p i -> in_bounds ts p -> finish ts blk p <> Diverge ->
  let '(p', i') := advance ts blk p i in
  finish ts blk p' = finish ts blk p /\ in_bounds ts p' /\ (remaining ts p' <= remaining ts p - 1)%nat /\ own ts p' i' /\
  forall k k', taken p' = Some k' -> taken p = Some k -> k' = S k.
Proof.
  intros Hi Hb Hd. destruct p as [|idx out|idx out|r]; cbn [advance].
  - cbn. split_and!; [done|done|lia|by left|by intros k k' [= <-] [= <-]].
  - destruct (ts !! idx) as [t|] eqn:Et.
    + assert (Ht : t blk i = t blk (own_input idx out)) by (destruct Hi as [->|Hi]; [done|by apply Hi]).
      apply lookup_lt_Some in Et as Hlt. cbn in Hd |- *. rewrite (drop_S ts t idx Et) in Hd |- *. cbn in Hd |- *. rewrite Ht.
      destruct (t blk (own_input idx out)) as [out'|e|w|]; cbn; split_and!; try done; try lia. intros k k' [= <-] [= <-]. lia.
    + apply lookup_ge_None in Et. cbn. rewrite drop_ge by done. split_and!; try done; lia.
  - cbn in *. split_and!; [done|done|lia|by left|intros k k' [= <-] [= <-]; lia].
  - cbn. split_and!; try done; lia.
Qed.

Lemma turn_other ts i j s : i <> j -> calls (turn ts i s) !! j = calls s !! j.
Proof.
  intros Hne. unfold turn. destruct (calls s !! i) as [[blk p]|]; [|done].
  destruct (advance ts blk p (in_ s)) as [p' i']. cbn. by apply list_lookup_insert_ne.
Qed.

Lemma turn_call ts i s blk p : calls s !! i = Some (blk, p) ->
  calls (turn ts i s) !! i = Some (blk, (advance ts blk p (in_ s)).1) /\ in_ (turn ts i s) = (advance ts blk p (in_ s)).2.
Proof.
  intros E. unfold turn. rewrite E. destruct (advance ts blk p (in_ s)) as [p' i'] eqn:Ea. cbn.
  split; [|done]. apply list_lookup_insert_eq. by eapply lookup_lt_Some.
Qed.

Lemma schedule_finish ts i schedule : forall s blk p k,
  calls s !! i = Some (blk, p) -> in_bounds ts p -> own ts p (in_ s) -> (forall k', taken p = Some k' -> k' = k) ->
  undisturbed ts i k schedule -> finish ts blk p <> Diverge ->
  exists p', calls (foldl (fun s i => turn ts i s) s schedule) !! i = Some (blk, p') /\
    finish ts blk p' = finish ts blk p /\ in_bounds ts p' /\
    (remaining ts p' <= remaining ts p - length (filter (eq i) schedule))%nat.
Proof.
  induction schedule as [|j schedule IH]; intros s blk p k E Hb Ho Hk Hu Hd; cbn [foldl].
  - exists p. split; [done|]. split; [done|]. split; [done|cbn; lia].
  - rewrite filter_cons. cbn [undisturbed] in Hu. destruct (decide (i = j)) as [<-|Hne].
    + pose proof (advance_finish ts blk p (in_ s) Ho Hb Hd) as Ha. destruct (turn_call ts i s blk p E) as [Et Ein].
      destruct (advance ts blk p (in_ s)) as [p1 i1] eqn:Eadv. cbn [fst snd] in Et, Ein. destruct Ha as (Ef & Hb' & Hr & Ho' & Ht).
      destruct (IH (turn ts i s) blk p1 (S k) Et Hb') as (p' & E' & Ef' & Hb2 & Hr'); [by rewrite Ein| |done|by rewrite Ef|].
      { intros k' Hk'. destruct (taken p) as [k0|] eqn:Ek0; [rewrite (Ht k0 k' Hk' eq_refl); f_equal; by apply Hk|].
        destruct p; cbn in Ek0, Eadv; try done. injection Eadv as <- <-. done. }
      exists p'. split; [done|]. split; [by rewrite Ef'|]. split; [done|cbn [length]; lia].
    + destruct Hu as [Hun Hu]. apply (IH (turn ts j s) blk p k); [|done| |done|done|done]; [rewrite turn_other; [done|congruence]|].
      destruct p as [|idx out|idx out|r]; try done. right. intros t Et. apply (Hun idx t); [|done].
      symmetry. by apply Hk.
Qed.

(** C34: calls of the preprocessing function that run together, whatever transforms
    they chain. A call that has the shared input to itself from each of its
    assignments to the transform that looks at it (the others may have turns
    anywhere else, and before a transform that ignores its input) returns what it
    returns alone, whatever the others left in the input, after at most twice its
    transforms and two of its own turns. *)
Theorem transforms_interleaved ts blks schedule i blk : undisturbed ts i 0 schedule ->
  blks !! i = Some blk -> preprocessFunc ts blk <> Diverge ->
  exists p, calls (run_calls ts blks schedule) !! i = Some (blk, p) /\
    (forall r, p = Done r -> r = preprocessFunc ts blk) /\
    ((2 * length ts + 2 <= length (filter (eq i) schedule))%nat -> p = Done (preprocessFunc ts blk)).
Proof.
  intros Hi Eb Hd. unfold run_calls.
  destruct (schedule_finish ts i schedule (mkShared NilObj ((fun b => (b, Start)) <$> blks)) blk Start 0)
    as (p & E & Ef & Hb & Hr); [cbn; by rewrite list_lookup_fmap, Eb|done|done|by intros k [= <-]|done|done|].
  exists p. split; [done|]. cbn in Ef. split; [by intros r ->|]. intros Hn. cbn [remaining] in Hr.
  destruct p as [|idx out|idx out|r]; cbn in Hr, Hb; [lia..|]. f_equal. exact Ef.
Qed.

(** Transforms that do not look at their inputs are never disturbed. *)
Lemma ignoring_undisturbed ts i schedule : Forall ignores_input ts -> forall k, undisturbed ts i k schedule.
Proof.
  intros Hi. induction schedule as [|j schedule IH]; intros k; cbn; [done|]. case_decide; [apply IH|]. split; [|apply IH].
  intros idx t _ Et. rewrite Forall_lookup in Hi. by eapply Hi.
Qed.
End Parallel.

(** ** The example: messages that are numbers *)

Section Example.
#[local] Instance numbers : Messages Z := {|
  Any_MessageName := TypeUrl;
  MessageName := fun _ => "number";
  anypb_NewMsg := fun _ => Ok (mkAny "number" "");
|}.

Definition by_number : PreprocessTransform Z := fun blk _ => Ok (Some (Number blk)).
Definition pp_block (n : Z) : Block := mkBlock n "" "" None 0 0 0 "" 0 0 None.

(** One more than its input, or ten times the number of its block. *)
Definition plus_one : PreprocessTransform Z := fun blk i =>
  Ok (Some (match Obj i with Some m => m + 1 | None => Number blk * 10 end)).

(** Two calls of three transforms: each is interrupted by the other, but for the turns
    at which it writes an input and reads it. *)
Definition pp_transforms : list (PreprocessTransform Z) := [plus_one; by_number; plus_one].
Definition pp_schedule : list nat := [0; 0; 1; 1; 0; 1; 0; 1; 0; 0; 1; 1; 0; 1; 0; 1]%nat.

Lemma pp_undisturbed i : undisturbed pp_transforms i 0 pp_schedule.
Proof.
  assert (Hno : forall k, (k <> 1 /\ k <> 5)%nat -> unread pp_transforms k).
  { intros k Hk [|[|[|idx]]] t E Et; cbn in Et; try done; [lia|by injection Et as <-|lia]. }
  unfold pp_schedule. destruct i as [|[|i]]; cbn; repeat (split; [apply Hno; lia|]); done.
Qed.

Lemma transforms_interleaved_witness :
  let s := run_calls pp_transforms [pp_block 7; pp_block 20] pp_schedule in
  calls s !! 0%nat = Some (pp_block 7, Done (Ok (Some 8))) /\ calls s !! 1%nat = Some (pp_block 20, Done (Ok (Some 21))).
Proof.
  destruct (transforms_interleaved pp_transforms [pp_block 7; pp_block 20] pp_schedule 0 (pp_block 7) (pp_undisturbed 0) eq_refl)
    as (p & Ep & _ & Hp); [by vm_compute|].
  destruct (transforms_interleaved pp_transforms [pp_block 7; pp_block 20] pp_schedule 1 (pp_block 20) (pp_undisturbed 1) eq_refl)
    as (q & Eq & _ & Hq); [by vm_compute|].
  cbv zeta. rewrite Ep, Eq, Hp, Hq by (vm_compute; lia). split; reflexivity.
Defined.

(** The input is not the call's own: a transform that gives its input back when
    there is one, and the number of its block otherwise, gives a block the number
    of another. *)
Definition echo : PreprocessTransform Z := fun blk i =>
  Ok (Some (match Obj i with Some m => m | None => Number blk end)).

Lemma shared_input_race :
  preprocessFunc [echo] (pp_block 8) = Ok (Some 8) /\
  calls (run_calls [echo] [pp_block 7; pp_block 8] [0; 0; 1; 0; 1; 1; 1]%nat) !! 1%nat = Some (pp_block 8, Done (Ok (Some 7))).
Proof. split; reflexivity. Qed.
End Example.

(** ** The registry and the builder *)

Section Registry.
Context {Msg Provider : Type} `{Messages Msg}.
Implicit Types (r : Registry Msg Provider).

(** A registered factory makes the transforms of the messages of its name, and a
    name is registered once. *)
Lemma Register_New (f : Factory Msg Provider) r a message t : anypb_NewMsg (Obj_ f) = Ok a ->
  Any_MessageName a <> "" -> r !! Any_MessageName a = None ->
  Any_MessageName message = Any_MessageName a -> NewFunc f message = Ok t ->
  exists r', Register f r = Ok r' /\ New message r' = Ok t /\ is_Panic (Register f r') = true.
Proof.
  intros Ea Hn Er Em Et. exists (<[Any_MessageName a := f]> r). unfold Register, New, Registry in *.
  rewrite Ea, Em, decide_False by done. rewrite Er. split; [done|].
  assert (El : <[Any_MessageName a := f]> r !! Any_MessageName a = Some f) by apply lookup_insert_eq.
  by rewrite El, Et, decide_False.
Qed.

Lemma collect_spec r anys ts : Forall2 (fun a t => New a r = Ok t) anys ts ->
  Forall (fun t => is_Some (as_preprocess t) \/ is_Some (as_provider t)) ts -> forall provider descs pps,
  collect r anys provider descs pps =
    Ok (match provider with Some _ => provider | None => head (omap (fun t => mjoin (as_provider t)) ts) end,
        descs ++ (String_ <$> ts), pps ++ omap as_preprocess ts).
Proof.
  induction 1 as [|a t anys ts Ea _ IH]; intros Hm provider descs pps; cbn [collect].
  - cbn. rewrite !app_nil_r. by destruct provider.
  - apply Forall_cons in Hm as [Ht Hm]. rewrite Ea. destruct t as [str pp prov]. cbn in Ht |- *.
    destruct pp as [pp|], prov as [[prov|]|]; cbn; try (destruct Ht as [[? [=]]|[? [=]]]);
      rewrite IH by done; cbn; rewrite <- ?app_assoc, ?app_nil_r; destruct provider; done.
Qed.

(** A list of messages builds the transforms in order, with the first provider. *)
Lemma BuildFromTransforms_spec r anys ts : Forall2 (fun a t => New a r = Ok t) anys ts -> anys <> [] ->
  Forall (fun t => is_Some (as_preprocess t) \/ is_Some (as_provider t)) ts ->
  BuildFromTransforms r anys =
    Ok (Some (omap as_preprocess ts), head (omap (fun t => mjoin (as_provider t)) ts), Join (String_ <$> ts) ",").
Proof.
  intros Hf Hne Hm. unfold BuildFromTransforms. destruct anys as [|a anys]; [done|].
  rewrite (collect_spec r (a :: anys) ts Hf Hm). done.
Qed.
End Registry.
