(* ===== verification/LiveHub.v ===== *)
(** * From the files to a hub that lives on

    The live source of a joining source is the hub of [Hub.v]: the events the hub
    goes through while the files are read decide what it answers, and those that
    follow decide what its subscription delivers. *)

From S2P Require Import Prelude Loops GoStrings Types ForkDB ForkDBFacts Forkable Consumer ForkableFacts.
From S2P Require Import ForkableInv ForkableStep ForkableSend ForkableProps ForkableQueries Resume ResumeProps.
From S2P Require Import ForkableSim OneBlockFiles Hub HubProps CursorResolver JoiningSource JoiningProps.
Import OneBlockFiles.

(** ** The queries of a hub answer *)

Section Total.
Context {O : Type} `{Protocol} (unum : string -> Z) (unum_pos : forall x, 0 <= unum x).
Notation Fk := (Forkable O (list (event O))).
Context (p : Fk) (Hd : db_ok unum (heap p) (forkDB p)).

Definition stored (nb : ForkBlock loc) : Prop := exists fb, node_at p nb fb.

Lemma path_stored x l y n : path (forkDB p) x l y -> Forall stored (reverse (seg_nodes (forkDB p) n l)).
Proof.
  intros Hp. destruct (path_blocks _ _ _ _ _ _ Hd Hp) as [fbs Hfbs].
  pose proof (nodes_at p l _ fbs (seg_nodes_of (forkDB p) n l x y Hp) Hfbs) as HF.
  rewrite reverse_Permutation. apply Forall_forall. intros nb Hin. apply list_elem_of_lookup in Hin as [i Hi].
  destruct (Forall2_lookup_l _ _ _ _ _ HF Hi) as (fb & _ & Hn). by exists fb.
Qed.

Lemma dropUntilNum_suffix n seg : exists pre, seg = pre ++ dropUntilNum n seg.
Proof.
  induction seg as [|b seg [pre IH]]; [by exists []|]. cbn. destruct (_ =? _); [by exists []|].
  exists (b :: pre). cbn. by f_equal.
Qed.

Lemma sendSeg_total f h seg : Forall stored seg -> exists evs, sendSeg p f h seg = Ok evs /\ (length evs <= length seg)%nat.
Proof.
  induction 1 as [|nb seg (fb & k & Ho & Hk) _ (evs & IH & Hl)]; [by exists []|].
  assert (E : fb_at p (Object nb) = Ok fb) by (unfold fb_at; by rewrite Ho, Hk).
  unfold sendSeg in *. cbn. destruct (f nb) as [[step lib]|]; cbn.
  - rewrite E. cbn. rewrite IH. eexists. split; [done|]. cbn. lia.
  - exists evs. split; [done|lia].
Qed.

(** The queries by number never panic, and send at most the stored blocks. *)
Lemma blocksFromNum_answers n : (exists e, blocksFromNum p n = Err e) \/
  exists blks, blocksFromNum p n = Ok blks /\ (length blks <= size (links (forkDB p)))%nat.
Proof.
  unfold blocksFromNum. rewrite (HasLIB_ok unum _ _ Hd). cbn [negb]. destruct (lastBlockSent p) as [hd|]; [|left; by eexists].
  unfold headSegment. destruct (rooted_or_looping (forkDB p) (ID (AsRef (Some hd)))) as [(l & y & HR)|(l & y & HL)].
  2: { rewrite (CompleteSegment_looping _ _ _ _ HL). left. by eexists. }
  rewrite (CompleteSegment_rooted _ _ _ _ HR). cbn [mbind outcome_bind]. case_bool_decide; cbn [negb]; [|left; by eexists].
  cbn [mbind outcome_bind default]. unfold id. destruct HR as (Hp & Hnd & _). set (seg := reverse _).
  destruct (dropUntilNum_suffix n seg) as [pre Epre]. assert (Hst : Forall stored seg) by (by eapply path_stored).
  rewrite Epre in Hst. apply Forall_app in Hst as [_ Hst].
  match goal with |- context [sendSeg p ?f ?h (dropUntilNum n seg)] =>
    destruct (sendSeg_total f h _ Hst) as (evs & E & Hl); rewrite E end. cbn [mbind outcome_bind].
  destruct evs as [|ev evs]; [left; by eexists|right]. eexists. split; [done|].
  pose proof (path_length _ _ _ _ Hp Hnd) as Hlen. apply (f_equal length) in Epre. unfold seg in Epre, Hl.
  rewrite length_app, length_reverse, <- (length_fmap BlockID), seg_nodes_ids in Epre. lia.
Qed.

Lemma LowestBlockNum_answers : (forall hd, lastBlockSent p = Some hd -> is_Some (links (forkDB p) !! Id hd)) ->
  exists n, LowestBlockNum p = Ok n.
Proof.
  intros Hlk. unfold LowestBlockNum. destruct (lastBlockSent p) as [hd|]; [|by eexists].
  destruct (Hlk hd eq_refl) as [q Hq].
  destruct (rooted_or_looping (forkDB p) (ID (AsRef (Some hd)))) as [(l & y & HR)|(l & y & HL)].
  2: { rewrite (CompleteSegment_looping _ _ _ _ HL). by eexists. }
  rewrite (CompleteSegment_rooted _ _ _ _ HR). cbn [mbind outcome_bind]. case_bool_decide; [|by eexists].
  cbn [default]. destruct (reverse _) as [|first rest] eqn:E; [|by eexists]. exfalso.
  destruct HR as (Hp & _ & _ & Hy). apply (f_equal reverse) in E. rewrite reverse_involutive in E. cbn in E.
  destruct l as [|a l]; [|done]. inversion Hp; subst. cbn in Hy, Hq. congruence.
Qed.
End Total.

(** ** The hub as a live source *)

Module LiveHub.
Section Live.
Context {O : Type} `{Protocol} `{DBin} `{Store}.
Notation Hb := (Hub.ForkableHub O (list (event O))).
Context (clock : Block -> Z * Z) (objects_order : ForkDB loc -> list (string * option loc)).
Context (h0 : Hb) (es : list (hub_event O (list (event O)))) (time : nat -> nat) (nums : list (string * Z)).

(** The hub after the first events of its life. *)
Definition hub_at (k : nat) : Hb := foldl (hub_step clock objects_order) h0 (take k es).

(** The hub at the end of its life, with the subscription it gave after [k] events. *)
Definition hub_end (k : nat) (h : Hb) : Hb := foldl (hub_step clock objects_order) h (drop k es).

(** A subscription is the source of the events its goroutine handles until then; one
    that was not shut down waits for more. *)
Definition sub_end (terminated : option (option error)) : outcome unit :=
  match terminated with None => Diverge | Some None => Ok tt | Some (Some e) => Err e end.

Definition live_source (k : nat) (r : outcome (option loc * Hb)) : outcome (option (JoiningSource.Source O)) :=
  match r with
  | Ok (None, _) => Ok None
  | Ok (Some l, h) =>
      Ok ((fun s => JoiningSource.mkSource (reverse (Hub.sub_state s)) (sub_end (Hub.terminated s))) <$>
            Hub.sub_heap (hstate (Hub.forkable (hub_end k h))) !! l)
  | Err e => Err e
  | Panic w => Panic w
  | Diverge => Diverge
  end.

(** The question of rank [t] is answered by the hub after [time t] events. *)
Definition live_hub : JoiningSource.ForkableSourceFactory O :=
  JoiningSource.mkFactory
    (fun t n => live_source (time t) (Hub.SourceFromBlockNum recorder [] nums (hub_at (time t)) n))
    (fun t c => live_source (time t) (Hub.SourceFromCursor recorder [] (hub_at (time t)) c))
    (fun t n c => c ← deref c; live_source (time t) (Hub.SourceThroughCursor recorder [] nums (hub_at (time t)) n c))
    (Some (fun t => Hub.Hub_LowestBlockNum (Some (hub_at (time t))))).
End Live.
End LiveHub.
Import LiveHub.

Section Answers.
Context {O : Type} `{Protocol} (unum : string -> Z) (unum_pos : forall x, 0 <= unum x).
Notation Hb := (Hub.ForkableHub O (list (event O))).

Lemma blocksFromNum_with {A B} (p : Forkable O A) (s : B) n : blocksFromNum (with_hstate s p) n = blocksFromNum p n.
Proof. done. Qed.

Lemma LowestBlockNum_with {A B} (p : Forkable O A) (s : B) : LowestBlockNum (with_hstate s p) = LowestBlockNum p.
Proof. done. Qed.

(** Room for the blocks of a hub in the queue of a subscription. *)
Definition roomy (h : Hb) : Prop := 0 <= Hub.sourceChannelSize h /\
  Hub.sourceChannelSize h + Z.of_nat (size (links (forkDB (Hub.forkable h)))) < two63.

Lemma subscribe_fits (h : Hb) blks : 0 <= Hub.sourceChannelSize h ->
  Hub.sourceChannelSize h + Z.of_nat (length blks) < two63 ->
  exists l hs', Hub.subscribe (Hub.sourceChannelSize h) recorder [] blks (hstate (Hub.forkable h)) = Ok (l, hs').
Proof.
  intros Hsz Hroom. unfold Hub.subscribe, Hub.NewSubscription. rewrite i64_small by (unfold is_i64, two63 in *; lia).
  destruct (Z.ltb_spec (Hub.sourceChannelSize h + Z.of_nat (length blks)) 0); [lia|]. by eexists _, _.
Qed.

(** A hub asked for a number has nothing, or gives a subscription that holds the
    blocks of the forkable from that number. *)
Lemma hub_num_source v0 cfg (h : Hb) nums n : twin unum cfg (fun _ => subs_wf) v0 h -> roomy h ->
  Hub.SourceFromBlockNum recorder [] nums h n = Ok (None, h) \/
  exists blks l hs', blocksFromNum (Hub.forkable h) n = Ok blks /\ (length blks <= size (links (forkDB (Hub.forkable h))))%nat /\
    Hub.subscribe (Hub.sourceChannelSize h) recorder [] blks (hstate (Hub.forkable h)) = Ok (l, hs') /\
    Hub.SourceFromBlockNum recorder [] nums h n = Ok (Some l, Hub.set_forkable (set_hstate hs' (Hub.forkable h)) h).
Proof.
  intros [_ (p & ([up HI] & _) & Hs)] [Hsz Hroom]. destruct (similar_core _ _ _ Hs) as (hs & Ep & _).
  pose proof (blocksFromNum_answers unum p (I_db _ _ _ _ HI) n) as Ha. rewrite <- (blocksFromNum_with p hs), <- Ep in Ha.
  assert (El : links (forkDB p) = links (forkDB (Hub.forkable h))) by by rewrite Ep. rewrite El in Ha.
  unfold Hub.SourceFromBlockNum, Hub.subscribed, CallWithBlocksFromNum. destruct Ha as [[e ->]|(blks & Eb & Hlen)]; [by left|right].
  destruct (subscribe_fits h blks Hsz ltac:(lia)) as (l & hs' & Esub). exists blks, l, hs'. rewrite Eb. cbn [mbind outcome_bind]. unfold Hub.subscribe_all. by rewrite Esub.
Qed.

Lemma hub_lowest v0 cfg (h : Hb) : twin unum cfg (fun _ => subs_wf) v0 h -> exists n, Hub.Hub_LowestBlockNum (Some h) = Ok n.
Proof.
  intros [_ (p & ([up HI] & _ & Hlk) & Hs)]. destruct (similar_core _ _ _ Hs) as (hs & Ep & _).
  unfold Hub.Hub_LowestBlockNum. destruct (Hub.IsReady h); [|by eexists]. rewrite Ep, LowestBlockNum_with.
  by apply LowestBlockNum_answers.
Qed.
End Answers.

(** ** From the files to the hub *)

Section Composition.
Context {O : Type} `{Protocol} `{DBin} `{Store} (unum : string -> Z) (unum_pos : forall x, 0 <= unum x).
Context (clock : Block -> Z * Z) (objects_order : ForkDB loc -> list (string * option loc)).
Context (decode_good : forall name b, Hub.decode name = Ok b -> good unum b).
Context (env : string) (keep : Z) (lib : BlockRef) (lib_ok : ID lib <> "" /\ Num lib = unum (ID lib)).
Context (es : list (hub_event O (list (event O)))) (es_good : Forall (good_event unum) es).
Context (time : nat -> nat) (nums : list (string * Z)).
Notation hub0 := (Hub.NewForkableHub (O := O) (HS := list (event O)) env keep [WithExclusiveLIB lib]).
Notation hub k := (hub_at clock objects_order hub0 es k).
Notation live := (live_hub clock objects_order hub0 es time nums).
Context (room : forall t, roomy (hub (time t))).

Lemma hub_at_twin k : twin unum (hub_config keep) (fun _ => subs_wf) (mkView (ID lib) []) (hub k).
Proof.
  destruct lib_ok as [Hid Hnum]. unfold hub_at. eapply hub_steps; try done; [apply stable_wf| |by apply hub_starts].
  by apply Forall_take.
Qed.

Lemma live_answers : answers live.
Proof.
  split.
  - intros t n. cbn [JoiningSource.SourceFromBlockNum live_hub].
    destruct (hub_num_source unum _ _ _ nums n (hub_at_twin (time t)) (room t))
      as [E|(blks & l & hs' & _ & _ & _ & E)]; rewrite E; by eexists.
  - intros f t [= <-]. cbv beta. exact (hub_lowest unum _ _ _ (hub_at_twin (time t))).
Qed.

(** The files and the hub are about the same chain: a block of the files that the
    hub serves is final for it. *)
Definition final_in_hub (t : nat) (b : Block) : Prop :=
  let db := forkDB (Hub.forkable (hub (time t))) in
  LIBNum db = unum (LIBID db) /\ anc db (LIBID db) (Id b) /\ links db !! Id b = Some (ParentId b).

Definition same_chain (blocks : list Block) : Prop := forall t b blks, b ∈ blocks ->
  blocksFromNum (Hub.forkable (hub (time t))) (Number b) = Ok blks -> final_in_hub t b.

(** What the subscription given for a block of the files delivers. *)
Lemma live_follows_final t b lsrc :
  (forall blks, blocksFromNum (Hub.forkable (hub (time t))) (Number b) = Ok blks -> final_in_hub t b) -> good unum b ->
  JoiningSource.SourceFromBlockNum live t (Number b) = Ok (Some lsrc) ->
  exists l h s rest pending, let h3 := hub_end clock objects_order es (time t) h in
    Hub.SourceFromBlockNum recorder [] nums (hub (time t)) (Number b) = Ok (Some l, h) /\
    Hub.sub_heap (hstate (Hub.forkable h3)) !! l = Some s /\
    lsrc = JoiningSource.mkSource (reverse (Hub.sub_state s)) (sub_end (Hub.terminated s)) /\
    consume (mkView (ParentId b) []) (reverse (Hub.sub_state s) ++ Hub.blocks s ++ rest) =
      Some (mkView (LIBID (forkDB (Hub.forkable h3))) pending) /\
    match lastBlockSent (Hub.forkable h3) with
    | Some hd => path (forkDB (Hub.forkable h3)) (Id hd) pending (LIBID (forkDB (Hub.forkable h3)))
    | None => pending = []
    end /\ (Hub.terminated s = None -> rest = []).
Proof.
  intros Hch Hg E. cbn [JoiningSource.SourceFromBlockNum live_hub] in E. pose proof (hub_at_twin (time t)) as T.
  destruct (hub_num_source unum _ _ _ nums (Number b) T (room t)) as [Es|(blks & l & hs' & Eb & Hlen & Esub & Es)];
    rewrite Es in E; cbn [live_source] in E; [done|]. injection E as E.
  destruct (Hch blks Eb) as (HL & (lo & Hlo) & Hx). destruct T as [Hc (p & Hsnd & Hs)].
  destruct (similar_core _ _ _ Hs) as (hs & Ep & _). pose proof Hsnd as ([up HI] & Hhd & _).
  assert (Hlast : exists hd, lastBlockSent p = Some hd).
  { destruct (lastBlockSent p) as [hd|] eqn:El; [by eexists|]. rewrite Ep, blocksFromNum_with in Eb.
    unfold blocksFromNum in Eb. rewrite El in Eb. by destruct (negb _). }
  destruct Hlast as [hd Hlast]. pose proof (I_last _ _ _ _ HI) as Hup. rewrite Hlast in Hup. destruct Hup as [Hup _].
  assert (Edb : forkDB (Hub.forkable (hub (time t))) = forkDB p) by by rewrite Ep. rewrite Edb in HL, Hlo, Hx, Hlen.
  destruct (blocksFromNum_run unum unum_pos p (I_db _ _ _ _ HI) hd up lo (Id b) (ParentId b) Hlast (g_num _ _ (Hhd _ Hlast))
    Hup Hlo Hx HL) as (evs & Ev & C).
  assert (evs = blks) as ->.
  { rewrite <- (g_num _ _ Hg) in Ev. rewrite Ep, blocksFromNum_with, Ev in Eb. by injection Eb. }
  destruct (room t) as [Hsz Hroom]. rewrite Edb in Hroom.
  destruct (subscription_follows unum clock objects_order keep (mkView (ID lib) []) (mkView (ParentId b) []) (hub (time t)) p up blks
    l hs' (drop (time t) es) _ unum_pos decode_good Hc Hsnd HI Hs Hsz ltac:(lia) C Esub (Forall_drop _ _ _ es_good) eq_refl)
    as (s & rest & pending & Hl & V & La & Hr).
  exists l, (Hub.set_forkable (set_hstate hs' (Hub.forkable (hub (time t)))) (hub (time t))), s, rest, pending.
  cbv zeta. unfold hub_end in *. split; [done|]. split; [done|]. rewrite Hl in E. cbn in E. injection E as <-. split; [done|].
  split; [|done]. unfold received in V. by rewrite <- app_assoc in V.
Qed.

Lemma live_follows blocks t b lsrc : same_chain blocks -> b ∈ blocks -> good unum b ->
  JoiningSource.SourceFromBlockNum live t (Number b) = Ok (Some lsrc) ->
  exists l h s rest pending, let h3 := hub_end clock objects_order es (time t) h in
    Hub.SourceFromBlockNum recorder [] nums (hub (time t)) (Number b) = Ok (Some l, h) /\
    Hub.sub_heap (hstate (Hub.forkable h3)) !! l = Some s /\
    lsrc = JoiningSource.mkSource (reverse (Hub.sub_state s)) (sub_end (Hub.terminated s)) /\
    consume (mkView (ParentId b) []) (reverse (Hub.sub_state s) ++ Hub.blocks s ++ rest) =
      Some (mkView (LIBID (forkDB (Hub.forkable h3))) pending) /\
    match lastBlockSent (Hub.forkable h3) with
    | Some hd => path (forkDB (Hub.forkable h3)) (Id hd) pending (LIBID (forkDB (Hub.forkable h3)))
    | None => pending = []
    end /\ (Hub.terminated s = None -> rest = []).
Proof. intros Hch Hb. apply live_follows_final. intros blks. by apply Hch. Qed.

(** What a joining source over files and this hub is, when the files start with a
    replay in which the hub has nothing to offer: the files, or the files up to a
    final block and then the subscription for it. *)
Lemma live_stream_after v0 replay finals blocks top ending evs e : same_chain blocks -> Forall (good unum) blocks ->
  consume v0 replay = Some (mkView top []) ->
  (forall t ev, ev ∈ replay -> JoiningSource.SourceFromBlockNum live t (Number ev.1) = Ok None) ->
  Forall2 (ev_is StepNewIrreversible Id) finals blocks -> chained top blocks ->
  stream_of (JoiningSource.SourceFromBlockNum live) (JoiningSource.mkSource (replay ++ finals) ending) evs e ->
  (evs = replay ++ finals /\ e = ending) \/
  exists pre b post t l h s rest pending, let h3 := hub_end clock objects_order es (time t) h in
    blocks = pre ++ b :: post /\
    Hub.SourceFromBlockNum recorder [] nums (hub (time t)) (Number b) = Ok (Some l, h) /\
    Hub.sub_heap (hstate (Hub.forkable h3)) !! l = Some s /\
    evs = replay ++ take (length pre) finals ++ reverse (Hub.sub_state s) /\
    e = sub_end (Hub.terminated s) /\
    consume v0 (evs ++ Hub.blocks s ++ rest) = Some (mkView (LIBID (forkDB (Hub.forkable h3))) pending) /\
    match lastBlockSent (Hub.forkable h3) with
    | Some hd => path (forkDB (Hub.forkable h3)) (Id hd) pending (LIBID (forkDB (Hub.forkable h3)))
    | None => pending = []
    end /\ (Hub.terminated s = None -> rest = []).
Proof.
  intros Hch Hg Hrep Hno Hev Hc [|pre ev post lsrc t Epre Es]; [by left|right]. cbn [JoiningSource.src_events] in Epre.
  assert (exists pre', pre = replay ++ pre' /\ finals = pre' ++ ev :: post) as (pre' & -> & ->).
  { apply app_eq_app in Epre as [k [[-> E]|[-> E]]]; [|by exists k].
    destruct k as [|ev' k]; [exists []; by rewrite !app_nil_r|]. injection E as <- _.
    rewrite (Hno t ev) in Es by set_solver. discriminate Es. }
  apply Forall2_app_inv_l in Hev as (b1 & b2 & Hb1 & Hb2 & ->).
  inversion Hb2 as [|? b ? b2' Hb Hb2']; subst. apply CursorResolver.chained_app in Hc as [Hc1 [Hp Hc2]].
  apply Forall_app in Hg as [_ Hg]. apply Forall_cons in Hg as [Hg _]. pose proof Hb as (Hbe & _). rewrite Hbe in Es.
  destruct (live_follows (b1 ++ b :: b2') t b lsrc Hch ltac:(set_solver) Hg Es) as (l & h & s & rest & pending & El & Hl & -> & V & La).
  exists b1, b, b2', t, l, h, s, rest, pending. cbv zeta. do 3 (split; [done|]).
  split; [|split; [done|]; split; [|done]]; cbn [JoiningSource.src_events].
  - by rewrite <- app_assoc, <- (Forall2_length _ _ _ Hb1), take_app_length.
  - rewrite <- !app_assoc, consume_app, Hrep. cbn [mbind option_bind].
    rewrite consume_app, (consume_final _ _ _ Hb1 Hc1). cbn [mbind option_bind]. rewrite <- Hp. exact V.
Qed.

(** From a block number there is nothing to replay. *)
Lemma live_stream blocks top src evs e : same_chain blocks -> Forall (good unum) blocks ->
  Forall2 (ev_is StepNewIrreversible Id) (JoiningSource.src_events src) blocks -> chained top blocks ->
  stream_of (JoiningSource.SourceFromBlockNum live) src evs e ->
  (evs = JoiningSource.src_events src /\ e = JoiningSource.src_end src) \/
  exists pre b post t l h s rest pending, let h3 := hub_end clock objects_order es (time t) h in
    blocks = pre ++ b :: post /\
    Hub.SourceFromBlockNum recorder [] nums (hub (time t)) (Number b) = Ok (Some l, h) /\
    Hub.sub_heap (hstate (Hub.forkable h3)) !! l = Some s /\
    evs = take (length pre) (JoiningSource.src_events src) ++ reverse (Hub.sub_state s) /\
    e = sub_end (Hub.terminated s) /\
    consume (mkView top []) (evs ++ Hub.blocks s ++ rest) = Some (mkView (LIBID (forkDB (Hub.forkable h3))) pending) /\
    match lastBlockSent (Hub.forkable h3) with
    | Some hd => path (forkDB (Hub.forkable h3)) (Id hd) pending (LIBID (forkDB (Hub.forkable h3)))
    | None => pending = []
    end /\ (Hub.terminated s = None -> rest = []).
Proof.
  intros Hch Hg Hev Hc Hs. destruct src as [finals ending].
  apply (live_stream_after (mkView top []) [] finals blocks top ending evs e Hch Hg eq_refl); try done.
  intros t ev Hin. by apply elem_of_nil in Hin.
Qed.
End Composition.

(** A joining source that reads the final blocks of the files and asks a hub for
    the live ones, while the hub goes through any events: either the hub never had
    the next block and the client got the files alone, or the client got the files
    up to a block and then the subscription of the hub from that block. All that
    the client was sent, with what waits for it in the queue, brings a consumer
    from the first block of the files to the LIB and the chain that the hub has at
    the end, nothing lost or repeated; unless the subscription was cut, and then
    it is the beginning of that. *)
Theorem files_then_hub {O} `{Protocol} `{DBin} `{Store} unum clock objects_order env keep lib es time nums
  (file : JoiningSource.ForkableSourceFactory O) start src blocks top :
  (forall x, 0 <= unum x) -> (forall name b, Hub.decode name = Ok b -> good unum b) ->
  ID lib <> "" /\ Num lib = unum (ID lib) -> Forall (good_event unum) es ->
  let hub0 := Hub.NewForkableHub (O := O) env keep [WithExclusiveLIB lib] in
  let hub k := hub_at clock objects_order hub0 es k in
  let live := live_hub clock objects_order hub0 es time nums in
  (forall t, roomy (hub (time t))) -> same_chain unum clock objects_order env keep lib es time blocks ->
  JoiningSource.SourceFromBlockNum live 0 start = Ok None ->
  (forall t, JoiningSource.SourceFromBlockNum file t start = Ok (Some src)) ->
  Forall2 (ev_is StepNewIrreversible Id) (JoiningSource.src_events src) blocks -> chained top blocks -> Forall (good unum) blocks ->
  let r := JoiningSource.Run (JoiningSource.NewJoiningSource file live recorder start None false []) [] in
  let sent := reverse (JoiningSource.j_state r.2) in
  sent = JoiningSource.src_events src \/
  exists pre b post t l h s rest pending, let h3 := hub_end clock objects_order es (time t) h in
    blocks = pre ++ b :: post /\
    Hub.SourceFromBlockNum recorder [] nums (hub (time t)) (Number b) = Ok (Some l, h) /\
    Hub.sub_heap (hstate (Hub.forkable h3)) !! l = Some s /\
    sent = take (length pre) (JoiningSource.src_events src) ++ reverse (Hub.sub_state s) /\
    consume (mkView top []) (sent ++ Hub.blocks s ++ rest) = Some (mkView (LIBID (forkDB (Hub.forkable h3))) pending) /\
    match lastBlockSent (Hub.forkable h3) with
    | Some hd => path (forkDB (Hub.forkable h3)) (Id hd) pending (LIBID (forkDB (Hub.forkable h3)))
    | None => pending = []
    end /\ (Hub.terminated s = None -> rest = []).
Proof.
  intros Hpos Hdec Hlib Hes hub0 hub live Hroom Hch Hstart Hf Hev Hc Hg. cbv zeta.
  pose proof (live_answers unum Hpos clock objects_order Hdec env keep lib Hlib es Hes time nums Hroom) as Ha.
  destruct (joining_run file live start None false recorder src [] (a_lowest _ Ha) (fun t ev _ => a_num _ Ha t _) Hstart Hf)
    as (evs & e & Hs & _ & E2). change (stream_of (JoiningSource.SourceFromBlockNum live) src evs e) in Hs.
  rewrite E2, deliver_recorder, app_nil_r. cbn [snd]. rewrite reverse_involutive.
  destruct (live_stream unum Hpos clock objects_order Hdec env keep lib Hlib es Hes time nums Hroom blocks top src evs e
    Hch Hg Hev Hc Hs) as [[-> _]|(pre & b & post & t & l & h & s & rest & pending & Hb & El & Hl & Ee & _ & V & La)]; [by left|right].
  exists pre, b, post, t, l, h, s, rest, pending. cbv zeta in *. by rewrite <- Ee.
Qed.

(** *** The example: 3a and 4a in the files, a hub above 3a that the first question finds empty *)

Section Example.
#[local] Existing Instance proto0.
#[local] Existing Instance empty_store.
#[local] Existing Instance no_dbin.

Definition life : list (hub_event unit (list (event unit))) := ex_es1 ++ ex_es2.
Definition questions_at (t : nat) : nat := match t with O => O | _ => length ex_es1 end.
Definition ex_files : JoiningSource.Source unit :=
  JoiningSource.mkSource [CursorResolver.ex_merged 3 "3a" "2a"; CursorResolver.ex_merged 4 "4a" "3a"] Diverge.
Definition ex_files_factory : JoiningSource.ForkableSourceFactory unit :=
  JoiningSource.mkFactory (fun _ _ => Ok (Some ex_files)) (fun _ _ => Ok None) (fun _ _ _ => Ok None) None.
#[local] Notation ex_new_hub := (Hub.NewForkableHub (O := unit) (HS := list (event unit)) "" 10 [WithExclusiveLIB ex_lib]).
#[local] Notation ex_joined := (JoiningSource.Run (JoiningSource.NewJoiningSource ex_files_factory
  (live_hub ex_clock ex_order ex_new_hub life questions_at []) recorder 3 None false []) []).

Lemma ex_roomy t : roomy (hub_at ex_clock ex_order ex_new_hub life (questions_at t)).
Proof. destruct t; (split; [by vm_compute|vm_compute; reflexivity]). Qed.

Lemma ex_same_chain : same_chain ex_num ex_clock ex_order "" 10 ex_lib life questions_at (JoiningSource.src_events ex_files).*1.
Proof.
  intros [|t] b blks Hb E.
  - repeat (apply elem_of_cons in Hb as [->|Hb]; [vm_compute in E; discriminate E|]). by apply elem_of_nil in Hb.
  - apply elem_of_cons in Hb as [->|Hb]; [vm_compute in E; discriminate E|].
    apply list_elem_of_singleton in Hb as ->. cbv zeta. split; [by vm_compute|]. split; [|by vm_compute].
    exists []. assert (LIBID (forkDB (Hub.forkable (hub_at ex_clock ex_order ex_new_hub life (questions_at (S t))))) = "4a") as E4
      by by vm_compute. rewrite E4. constructor.
Qed.

Lemma ex_joined_summary : join_summary (reverse (JoiningSource.j_state ex_joined.2)) =
  [(Some StepNewIrreversible, "3a"); (Some StepNewIrreversible, "4a"); (Some StepNew, "5b")].
Proof. by vm_compute. Qed.

Lemma files_then_hub_witness : exists waiting v,
  consume (mkView "2a" []) (reverse (JoiningSource.j_state ex_joined.2) ++ waiting) = Some v /\
  join_summary (reverse (JoiningSource.j_state ex_joined.2)) =
    [(Some StepNewIrreversible, "3a"); (Some StepNewIrreversible, "4a"); (Some StepNew, "5b")].
Proof.
  pose proof ex_joined_summary as Esum.
  destruct (files_then_hub ex_num ex_clock ex_order "" 10 ex_lib life questions_at [] ex_files_factory 3 ex_files
    (JoiningSource.src_events ex_files).*1 "2a") as [Hl|(pre & b & post & t & l & h & s & rest & pending & Hj)].
  - apply ex_num_pos.
  - intros name b E. discriminate E.
  - by split.
  - repeat constructor; try discriminate; vm_compute; congruence.
  - apply ex_roomy.
  - exact ex_same_chain.
  - by vm_compute.
  - by intros t.
  - repeat constructor.
  - repeat constructor.
  - repeat constructor; try discriminate; vm_compute; congruence.
  - rewrite Hl in Esum. discriminate Esum.
  - cbv zeta in Hj. destruct Hj as (_ & _ & _ & _ & C & _).
    exists (Hub.blocks s ++ rest). eexists. split; [exact C|exact Esum].
Defined.
End Example.
