(* ===== verification/EndToEnd.v ===== *)
(** * From a request to the files and the hub

    The stream of [Stream.v] over the file source of [FileSource.v], which reads its
    bundles from the store, and over the hub of [LiveHub.v] while it lives: what the
    client of a request is sent by the parts put together. *)

From S2P Require Import Prelude GoStrings Types ForkDB ForkDBFacts Forkable Consumer ForkableFacts ForkableInv ForkableStep ForkableSend ForkableProps.
From S2P Require Import ForkableQueries Resume ResumeProps ForkableSim OneBlockFiles CursorResolver FileSource FileSourceProps Hub HubProps.
From S2P Require Import Cursors JoiningSource JoiningProps Stream StreamProps LiveHub.
From Stdlib Require Import Ascii.
Import FileSource LiveHub.

(** ** The file source as the factory of a stream *)

Module EndToEnd.
Section Factory.
Context {O : Type} `{Protocol} `{DBin} `{Store} `{BlockIndexProvider}.
Context (FileExists : string -> outcome bool) (late : list bool) (fuel : nat).

(** A source is known by what it gives a client that keeps all of it. *)
Definition file_source (options : list (FileSourceOption (O := O))) (st : start)
  : outcome (option (JoiningSource.Source O)) :=
  _ ← SourceOptions options st;
  let '(r, log) := SourceRun FileExists recorder late options st fuel [] in
  Ok (Some (JoiningSource.mkSource (reverse log) r)).

Definition NewFileSourceFactory (options : list (FileSourceOption (O := O))) : JoiningSource.ForkableSourceFactory O :=
  JoiningSource.mkFactory
    (fun _ n => file_source options (FromBlockNum n))
    (fun _ c => file_source options (FromCursor c))
    (fun _ n c => c ← deref c; file_source options (ThroughCursor n c))
    None.
End Factory.

(** ** Without a preprocessing function or an index *)

Section Files.
Context {O : Type} `{Protocol} `{DBin} `{Store} `{BlockIndexProvider}.
Context (FileExists : string -> outcome bool) (late : list bool) (fuel : nat).

Definition file_event (b : Block) : event O := (b, wrap_block b None).

(** The bundles of a request hold these blocks, and the source that reads them ends
    like this. *)
Record held (s : FileSource O) (files : list (list Block)) (e : outcome unit) : Prop := {
  held_start : is_u64 (startBlockNum s);
  held_size : 0 < bundleSize s;
  held_files : files <> [];
  held_room : startBlockNum s - startBlockNum s mod bundleSize s + Z.of_nat (length files) * bundleSize s < two64;
  held_bundles : bundles FileExists s (startBlockNum s - startBlockNum s mod bundleSize s) files;
  held_end : ends FileExists s (startBlockNum s - startBlockNum s mod bundleSize s + Z.of_nat (length files) * bundleSize s) e;
}.

(** The blocks the source has to hand over. *)
Definition requested (s : FileSource O) (files : list (list Block)) : list Block :=
  filter (fun b => startBlockNum s <= Number b) (concat files).

Lemma offer_deliver {HS} (h : Handler O HS) prep blocks : forall hs,
  offer h prep blocks hs = deliver h ((fun b => (b, prep b)) <$> blocks) hs.
Proof.
  induction blocks as [|b blocks IH]; intros hs; [done|]. cbn.
  destruct (h b (prep b) hs) as [[] ?]; [done|apply IH].
Qed.

Lemma chained_linked top blocks : chained top blocks -> linked "" blocks.
Proof.
  intros Hc. assert (linked (default "" None) blocks) as Hl; [|exact Hl].
  destruct blocks as [|b blocks]; [done|]. destruct Hc as [_ Hc]. split; [by left|].
  generalize (Id b) Hc. clear. induction blocks as [|c blocks IH]; intros i Hc; [done|].
  destruct Hc as [Hp Hc]. split; [by right|]. by apply IH.
Qed.

(** Whatever handler is behind the source, it is given what the source is known by. *)
Lemma file_source_faithful options n files e {HS} (h : Handler O HS) hs :
  let s := NewFileSource n options in
  held s files e -> preprocFunc s = None -> hasIndexProvider s = false -> linked "" (requested s files) ->
  (length files < fuel)%nat ->
  let src := JoiningSource.mkSource (file_event <$> requested s files) e in
  file_source FileExists late fuel options (FromBlockNum n) = Ok (Some src) /\
  SourceRun FileExists h late options (FromBlockNum n) fuel hs =
    (ended (deliver h (JoiningSource.src_events src) hs).1 (JoiningSource.src_end src),
     (deliver h (JoiningSource.src_events src) hs).2).
Proof.
  intros s Hh Hp Hidx Hl Hf src.
  assert (Hprep : forall b, preprocess s b = Ok (wrap_block b None)) by (intros b; unfold preprocess; by rewrite Hp).
  assert (Hrun : forall HS' (h' : Handler O HS') hs', exists lid, run FileExists h' s late fuel hs' =
    (ended (deliver h' (file_event <$> requested s files) hs').1 e,
     mkRunning lid (deliver h' (file_event <$> requested s files) hs').2)).
  { intros HS' h' hs'. destruct Hh as [Hs Hz Hn Hr Hb He].
    destruct (run_bundles FileExists h' s late (fun b => wrap_block b None) Hprep files fuel hs' _ e Hidx Hs Hz eq_refl Hn Hr Hb He Hl Hf)
      as (lid & E). exists lid. rewrite E, offer_deliver. done. }
  unfold file_source, SourceRun. cbn [SourceOptions mbind outcome_bind]. fold s. split.
  - destruct (Hrun _ recorder []) as (lid & ->). rewrite deliver_recorder. cbn [fst snd fs_next].
    by rewrite app_nil_r, reverse_involutive.
  - by destruct (Hrun _ h hs) as (lid & ->).
Qed.

Lemma file_events_final blocks : Forall2 (ev_is StepNewIrreversible Id) (file_event <$> blocks) blocks.
Proof. induction blocks; [constructor|]. rewrite fmap_cons. by constructor. Qed.
End Files.

(** ** What a client that ignores finality sees

    The client of a stream is sent the new and the undone blocks only: it has a
    stack, that a new block goes on when its parent is the top and that an undone
    block leaves when it is the top. *)

Section Stack.
Import Stream.
Context {O : Type}.
Implicit Types (ev : event O) (evs : list (event O)) (st : list string).

Definition stack1 st ev : option (list string) :=
  match ev_step ev.2 with
  | Some step =>
      if Matches step StepNew then
        if decide (head st = Some (ParentId ev.1)) then Some (Id ev.1 :: st) else None
      else if Matches step StepUndo then
        if decide (head st = Some (Id ev.1)) then Some (tail st) else None
      else Some st
  | None => None
  end.

Fixpoint stack st evs : option (list string) :=
  match evs with
  | [] => Some st
  | ev :: evs' => stack1 st ev ≫= fun st' => stack st' evs'
  end.

(** The stack of a view, above what the consumer has forgotten. *)
Definition stack_of (v : View) (below : list string) : list string := v_pending v ++ v_final v :: below.

Lemma stack1_consumed v ev v' below : consume1 v ev = Some v' ->
  exists below', stack1 (stack_of v below) ev = Some (stack_of v' below').
Proof.
  unfold consume1, stack1. destruct (ev_step ev.2) as [step|]; [|done]. cbn [mbind option_bind]. unfold consume_step.
  destruct v as [fin pend]. unfold stack_of, tip. cbn [v_pending v_final]. intros E.
  destruct (decide (step = StepNew)) as [->|].
  { destruct (decide _) as [[Hp _]|]; [|done]. injection E as <-. exists below. rewrite decide_True; [done|].
    rewrite Hp. by destruct pend. }
  destruct (decide (step = StepUndo)) as [->|].
  { destruct (decide _) as [[Hp _]|]; [|done]. injection E as <-. exists below. destruct pend as [|x pend]; [done|].
    change (Matches StepUndo StepNew) with false. cbv iota. rewrite decide_True; [done|]. exact Hp. }
  destruct (decide (step = StepIrreversible)) as [->|].
  { destruct (decide _) as [[Hp _]|]; [|done]. injection E as <-. exists (fin :: below).
    apply last_Some in Hp as [l ->]. by rewrite removelast_snoc, <- app_assoc. }
  destruct (decide (step = StepStalled)) as [->|].
  { destruct (decide _); [|done]. injection E as <-. by exists below. }
  destruct (decide (step = StepNewIrreversible)) as [->|]; [|done].
  destruct (decide _) as [(Hp & -> & _)|]; [|done]. injection E as <-. exists (fin :: below).
  rewrite decide_True; [done|]. by rewrite Hp.
Qed.

Lemma stack_consumed evs : forall v v' below, consume v evs = Some v' ->
  exists below', stack (stack_of v below) evs = Some (stack_of v' below').
Proof.
  induction evs as [|ev evs IH]; intros v v' below E; [injection E as <-; by exists below|]. cbn in E |- *.
  destruct (consume1 v ev) as [w|] eqn:E1; [|done]. destruct (stack1_consumed _ _ _ below E1) as [below1 ->].
  cbn. by apply IH.
Qed.

Lemma stack_app st a b : stack st (a ++ b) = stack st a ≫= fun st' => stack st' b.
Proof. revert st. induction a as [|ev a IH]; intros st; [done|]. cbn. destruct (stack1 st ev); [apply IH|done]. Qed.

(** What the filter of a stream leaves out does not move the stack. *)
Lemma stack_filtered evs : forall st st', stack st evs = Some st' -> stack st (filter (passes newOrUndo) evs) = Some st'.
Proof.
  induction evs as [|ev evs IH]; intros st st' E; [done|]. cbn [stack] in E.
  destruct (stack1 st ev) as [st1|] eqn:E1; [|done]. rewrite filter_cons. case_decide as Hp.
  - cbn [stack]. rewrite E1. by apply IH.
  - apply IH. unfold stack1, passes, newOrUndo in *. destruct (ev_step ev.2) as [step|]; [|done].
    destruct (Matches step StepNew); [by destruct Hp|]. destruct (Matches step StepUndo); [by destruct Hp|].
    injection E1 as ->. exact E.
Qed.

Lemma until_prefix stop evs : exists rest, evs = (until stop evs).1 ++ rest.
Proof.
  induction evs as [|ev evs [rest IH]]; [by exists []|]. cbn [until].
  destruct (stop <? Number ev.1); [by eexists|]. destruct (Number ev.1 =? stop); [by exists evs|].
  destruct (until stop evs) as [sent stopped]. exists rest. cbn in *. by f_equal.
Qed.

(** Events cut anywhere, filtered, and stopped. *)
Lemma sent_of_stack stop st evs rest st' : stack st (evs ++ rest) = Some st' ->
  exists st2, stack st (cut stop (filter (passes newOrUndo) evs)).1 = Some st2.
Proof.
  rewrite stack_app. destruct (stack st evs) as [st1|] eqn:Es; [|done]. intros _. apply stack_filtered in Es.
  unfold cut. destruct (stop =? 0); [by eexists|].
  destruct (until_prefix stop (filter (passes newOrUndo) evs)) as [tl Et]. rewrite Et, stack_app in Es.
  destruct (stack _ (until stop _).1) as [st2|]; [by exists st2|done].
Qed.

(** The client of events a consumer accepts. *)
Lemma sent_stack stop v v' evs rest : consume v (evs ++ rest) = Some v' ->
  exists st, stack (stack_of v []) (cut stop (filter (passes newOrUndo) evs)).1 = Some st.
Proof. intros E. destruct (stack_consumed _ _ _ [] E) as [below Es]. by eapply sent_of_stack. Qed.

End Stack.
(** The live source of a stream gives events with a step. *)
Lemma consumed_stepable {O} evs : forall v v', consume (O := O) v evs = Some v' -> Forall stepable evs.
Proof.
  induction evs as [|ev evs IH]; intros v v' E; [constructor|]. cbn in E.
  destruct (consume1 v ev) as [w|] eqn:E1; [|done]. constructor; [|by eapply IH].
  unfold consume1 in E1. unfold stepable. by destruct (ev_step ev.2).
Qed.

(** C2: a request for the blocks from [start], to [stop] when there is a stop block, served by the bundles in the
    store and by the hub whatever it goes through: what the client is sent, filtered
    and cut at the stop block, is the blocks of the bundles from the start block on,
    or those up to some block and then the subscription the hub gave from that block,
    which brings a consumer to the LIB and the chain of the hub; it ends with the one
    error for a reached stop block or as its last source does; and at every moment
    the client, who is told nothing of finality, holds a chain above the parent of
    the first block. *)
Theorem request_served {O} `{Protocol} `{DBin} `{Store} `{BlockIndexProvider} FileExists late fuel
  unum clock objects_order env keep lib es time nums headNum start stop files e top :
  (forall x, 0 <= unum x) -> (forall name b, Hub.decode name = Ok b -> good unum b) ->
  ID lib <> "" /\ Num lib = unum (ID lib) -> Forall (good_event unum) es ->
  let hub0 := Hub.NewForkableHub (O := O) env keep [WithExclusiveLIB lib] in
  let hub k := hub_at clock objects_order hub0 es k in
  let live := live_hub clock objects_order hub0 es time nums in
  let abs := Z.max start GetProtocolFirstStreamableBlock in
  let fs := NewFileSource (O := O) abs (stop_options stop) in
  let blocks := requested fs files in
  (forall t, roomy (hub (time t))) -> same_chain unum clock objects_order env keep lib es time blocks ->
  0 <= start < two63 -> 0 <= stop -> (stop = 0 \/ abs <= stop) -> JoiningSource.SourceFromBlockNum live 0 abs = Ok None ->
  held FileExists fs files e -> chained top blocks -> Forall (good unum) blocks -> (length files < fuel)%nat ->
  let r := Stream.Run (Stream.New (NewFileSourceFactory FileExists late fuel) live headNum start recorder
             [Stream.WithStopBlock stop]) [] in
  let sent := reverse r.2 in
  exists evs last,
    ((evs = file_event <$> blocks /\ last = e) \/
     exists pre b post t l h s rest pending, let h3 := hub_end clock objects_order es (time t) h in
       blocks = pre ++ b :: post /\
       Hub.SourceFromBlockNum recorder [] nums (hub (time t)) (Number b) = Ok (Some l, h) /\
       Hub.sub_heap (hstate (Hub.forkable h3)) !! l = Some s /\
       evs = (file_event <$> pre) ++ reverse (Hub.sub_state s) /\ last = sub_end (Hub.terminated s) /\
       consume (mkView top []) (evs ++ Hub.blocks s ++ rest) = Some (mkView (LIBID (forkDB (Hub.forkable h3))) pending) /\
       match lastBlockSent (Hub.forkable h3) with
       | Some hd => path (forkDB (Hub.forkable h3)) (Id hd) pending (LIBID (forkDB (Hub.forkable h3)))
       | None => pending = []
       end /\ (Hub.terminated s = None -> rest = [])) /\
    (let '(kept, stopped) := cut stop (filter (passes newOrUndo) evs) in
     sent = kept /\ r.1 = (if stopped then Err Stream.ErrStopBlockReached else Stream.reported last)) /\
    exists st, stack [top] sent = Some st.
Proof.
  intros Hpos Hdec Hlib Hes hub0 hub live abs fs blocks Hroom Hch Hst Hs Hle Hnone Hh Hc Hg Hf r sent.
  assert (Hopt : preprocFunc fs = None /\ hasIndexProvider fs = false) by (unfold fs, stop_options; by destruct (stop =? 0)).
  destruct (file_source_faithful FileExists late fuel (stop_options stop) abs files e recorder [] Hh (proj1 Hopt) (proj2 Hopt)
    (chained_linked _ _ Hc) Hf) as [Efile _]. fold fs blocks in Efile.
  set (src := JoiningSource.mkSource (file_event <$> blocks) e) in Efile.
  pose proof (file_events_final (O := O) blocks) as Hev. change (file_event <$> blocks) with (JoiningSource.src_events src) in Hev.
  destruct (stream_over_files (NewFileSourceFactory FileExists late fuel) live headNum start stop None false src) as (evs & last & Hstr & Er).
  - apply (a_lowest _ (live_answers unum Hpos clock objects_order Hdec env keep lib Hlib es Hes time nums Hroom)).
  - intros t ev _. apply (a_num _ (live_answers unum Hpos clock objects_order Hdec env keep lib Hlib es Hes time nums Hroom)).
  - done.
  - done.
  - exact Hle.
  - exact Hnone.
  - intros t. exact Efile.
  - exact (consumed_stepable _ _ _ (consume_final top _ _ Hev Hc)).
  - intros t ev lsrc Hin El. apply list_elem_of_fmap in Hin as (b & -> & Hb). cbn [fst file_event] in El.
    destruct (live_follows unum Hpos clock objects_order Hdec env keep lib Hlib es Hes time nums Hroom blocks t b lsrc Hch Hb
      (proj1 (Forall_forall _ _) Hg b Hb) El) as (l & h & s & rest & pending & _ & _ & -> & C & _).
    apply consumed_stepable in C. by apply Forall_app in C as [C _].
  - exists evs, last. cbv zeta in Er. change (r = (if (cut stop (filter (passes newOrUndo) evs)).2 then Err Stream.ErrStopBlockReached
      else Stream.reported last, reverse (cut stop (filter (passes newOrUndo) evs)).1)) in Er.
    assert (Hsent : sent = (cut stop (filter (passes newOrUndo) evs)).1 /\
      r.1 = (if (cut stop (filter (passes newOrUndo) evs)).2 then Err Stream.ErrStopBlockReached else Stream.reported last)).
    { unfold sent. rewrite Er. cbn [fst snd]. by rewrite reverse_involutive. }
    destruct (live_stream unum Hpos clock objects_order Hdec env keep lib Hlib es Hes time nums Hroom blocks top src evs last
      Hch Hg Hev Hc Hstr) as [[-> ->]|(pre & b & post & t & l & h & s & rest & pending & Hb & El & Hl & Ee & Ee' & V & La)].
    + split; [by left|]. split; [by destruct (cut stop _)|]. destruct Hsent as [-> _].
      eapply (sent_stack stop (mkView top []) _ _ []). rewrite app_nil_r. exact (consume_final top _ _ Hev Hc).
    + split; [right|split; [by destruct (cut stop _)|destruct Hsent as [-> _]; by eapply (sent_stack stop (mkView top []))]].
      exists pre, b, post, t, l, h, s, rest, pending. cbv zeta in *. do 3 (split; [done|]). split; [|done].
      rewrite Ee. cbn [JoiningSource.src_events src]. rewrite Hb, fmap_app. f_equal.
      rewrite <- (length_fmap (file_event (O := O)) pre). apply take_app_length.
Qed.
(** C3: a client that comes back with a cursor the hub can resume, with or without a
    stop block: it is served by the hub alone, whatever the hub goes through then.
    What it is sent is the new and undone blocks of its subscription, cut at the stop
    block; the subscription, with what waits in its queue, brings the client from its
    cursor to the LIB and the chain of the hub, unless it was cut; and the stack of
    blocks the client held before goes on without a gap. *)
Theorem cursor_resumed {O} `{Protocol} `{DBin} `{Store} files unum clock objects_order env keep lib es time nums
  headNum start stop c hd block fin pend lsrc :
  (forall x, 0 <= unum x) -> (forall name b, Hub.decode name = Ok b -> good unum b) ->
  ID lib <> "" /\ Num lib = unum (ID lib) -> Forall (good_event unum) es ->
  let hub0 := Hub.NewForkableHub (O := O) env keep [WithExclusiveLIB lib] in
  let h1 := hub_at clock objects_order hub0 es (time 0%nat) in
  let live := live_hub clock objects_order hub0 es time nums in
  roomy h1 -> lastBlockSent (Hub.forkable h1) = Some hd ->
  LIBNum (forkDB (Hub.forkable h1)) = unum (LIBID (forkDB (Hub.forkable h1))) ->
  resumable_cursor unum (with_hstate [] (Hub.forkable h1)) c block fin pend ->
  (forall blks, blocksFromCursor (Hub.forkable h1) c = Ok blks ->
     Hub.sourceChannelSize h1 + Z.of_nat (length blks) < two63) ->
  0 <= start < two63 -> 0 <= stop -> (stop = 0 \/ Z.max start GetProtocolFirstStreamableBlock <= stop) ->
  JoiningSource.SourceFromCursor live 0 c = Ok (Some lsrc) ->
  let r := Stream.Run (Stream.New files live headNum start recorder
             [Stream.WithCursor (Some c); Stream.WithStopBlock stop]) [] in
  let sent := reverse r.2 in
  let held_view := mkView (ID fin) (if decide (Step c = StepUndo) then tail pend else pend) in
  exists l h s rest pending, let h3 := hub_end clock objects_order es (time 0%nat) h in
    Hub.SourceFromCursor recorder [] h1 c = Ok (Some l, h) /\
    Hub.sub_heap (hstate (Hub.forkable h3)) !! l = Some s /\
    consume held_view (reverse (Hub.sub_state s) ++ Hub.blocks s ++ rest) =
      Some (mkView (LIBID (forkDB (Hub.forkable h3))) pending) /\
    match lastBlockSent (Hub.forkable h3) with
    | Some hd3 => path (forkDB (Hub.forkable h3)) (Id hd3) pending (LIBID (forkDB (Hub.forkable h3)))
    | None => pending = []
    end /\ (Hub.terminated s = None -> rest = []) /\
    (let '(kept, stopped) := cut stop (filter (passes newOrUndo) (reverse (Hub.sub_state s))) in
     sent = kept /\ r.1 = (if stopped then Err Stream.ErrStopBlockReached else Stream.reported (sub_end (Hub.terminated s)))) /\
    exists st, stack (v_pending held_view ++ [v_final held_view]) sent = Some st.
Proof.
  intros Hpos Hdec [Hid Hnum] Hes hub0 h1 live [Hsz _] Hlast HL Hrc Hlen Hst Hs Hle Esrc r sent held_view.
  cbn [JoiningSource.SourceFromCursor live live_hub] in Esrc. fold hub0 h1 in Esrc.
  destruct (Hub.SourceFromCursor recorder [] h1 c) as [[[l|] h]|e|w|] eqn:Eh; cbn [live_source] in Esrc; try done.
  destruct (cursor_follows unum clock objects_order keep (mkView (ID lib) []) h1 hd c block fin pend l h (drop (time 0%nat) es) _
    Hpos Hdec (hub_twin unum clock objects_order env keep lib _ Hpos Hdec Hid Hnum (Forall_take _ _ _ Hes))
    (Forall_drop _ _ _ Hes) Hsz Hlast HL Hrc Hlen Eh eq_refl) as (s & rest & pending & El & C & La & Hrest).
  fold (hub_end clock objects_order es (time 0%nat) h) in El, C, La. rewrite El in Esrc. cbn in Esrc. injection Esrc as Esrc.
  unfold received in C. rewrite <- app_assoc in C. fold held_view in C.
  exists l, h, s, rest, pending. cbv zeta. do 4 (split; [done|]). split; [done|].
  set (evs := reverse (Hub.sub_state s)) in *.
  assert (Hall : Forall stepable evs) by (apply consumed_stepable in C; by apply Forall_app in C as [? _]).
  assert (Er : r = (if (cut stop (filter (passes newOrUndo) evs)).2 then Err Stream.ErrStopBlockReached
                    else Stream.reported (sub_end (Hub.terminated s)), reverse (cut stop (filter (passes newOrUndo) evs)).1)).
  { apply (stream_over_live files live headNum start stop c false (JoiningSource.mkSource evs (sub_end (Hub.terminated s))) Hst Hs Hle Hall).
    cbn [JoiningSource.SourceFromCursor live live_hub]. fold hub0 h1. rewrite Eh. cbn [live_source]. by rewrite El. }
  assert (Hsent : sent = (cut stop (filter (passes newOrUndo) evs)).1) by (unfold sent; rewrite Er; apply reverse_involutive).
  split; [rewrite Hsent, Er; by destruct (cut stop _)|]. rewrite Hsent. exact (sent_stack stop held_view _ evs _ C).
Qed.

(** *** The example: 3a and 4a in the bundle, the hub of [LiveHub.v], blocks 3 to 5 *)

Section Example.
#[local] Existing Instance ForkableProps.proto0.
#[local] Instance no_index : BlockIndexProvider := {| BlocksInRange := fun _ _ => Ok None |}.

Definition bundle0 : string := "0000000000".
#[local] Instance one_bundle : Store := {|
  WalkFrom := fun _ _ => ([], None);
  Walk := fun _ => ([], None);
  OpenObject := fun name => if decide (name = bundle0) then Ok "34" else Err ErrNotFound;
|}.
Definition has_bundle (name : string) : outcome bool := Ok (bool_decide (name = bundle0)).

(** A message is one digit. *)
#[local] Instance digits : DBin := {|
  ReadHeader := fun data => Ok ("", data);
  ReadMessage := fun src => match src with "" => ("", Some EOF, "") | String d rest => (String d "", None, rest) end;
  UnmarshalBlock := fun m => if decide (m = "3") then Ok (ex_digit "3"%char) else if decide (m = "4") then Ok (ex_digit "4"%char)
                             else Err (EMsg "proto: cannot parse");
  UnmarshalBlockMeta := fun _ => Err (EMsg "not a block meta");
  LookupEnv := fun _ => false;
|}.

#[local] Notation ex_hub0 := (Hub.NewForkableHub (O := unit) (HS := list (event unit)) "" 10 [WithExclusiveLIB ForkableProps.ex_lib]).
#[local] Notation ex_live := (live_hub ex_clock ex_order ex_hub0 life questions_at []).
Definition ex_request : outcome unit * list (event unit) :=
  Stream.Run (Stream.New (NewFileSourceFactory has_bundle [] 2) ex_live 7 3 recorder [Stream.WithStopBlock 5]) [].
Definition ex_fs : FileSource unit := NewFileSource 3 [FileSourceWithStopBlock 5].
Definition ex_held : list (list Block) := [[ex_digit "3"%char; ex_digit "4"%char]].

Lemma ex_decoded name b : Hub.decode name = Ok b -> good ForkableProps.ex_num b.
Proof.
  unfold Hub.decode, Hub.decodeOneBlockFromFilename. cbn [OpenObject one_bundle]. case_decide; [|discriminate].
  intros E. vm_compute in E. injection E as <-. repeat constructor; try discriminate; vm_compute; congruence.
Qed.

Lemma ex_room t : roomy (hub_at ex_clock ex_order ex_hub0 life (questions_at t)).
Proof. destruct t; (split; [by vm_compute|vm_compute; reflexivity]). Qed.

Lemma ex_same : same_chain ForkableProps.ex_num ex_clock ex_order "" 10 ForkableProps.ex_lib life questions_at (requested ex_fs ex_held).
Proof.
  intros [|t] b blks Hb E.
  - repeat (apply elem_of_cons in Hb as [->|Hb]; [vm_compute in E; discriminate E|]). by apply elem_of_nil in Hb.
  - apply elem_of_cons in Hb as [->|Hb]; [vm_compute in E; discriminate E|].
    apply list_elem_of_singleton in Hb as ->. cbv zeta. split; [by vm_compute|]. split; [|by vm_compute].
    exists []. assert (LIBID (forkDB (Hub.forkable (hub_at ex_clock ex_order ex_hub0 life (questions_at (S t))))) = "4a") as E4
      by by vm_compute. rewrite E4. constructor.
Qed.

Lemma ex_bundle_holds : held has_bundle ex_fs ex_held (Err ErrStopBlockReached).
Proof.
  split; [by vm_compute|by vm_compute|done|by vm_compute| |by apply ends_stop].
  intros [|i] blocks Hi; [|done]. injection Hi as <-.
  split; [by vm_compute|]. split; [repeat constructor; by vm_compute|].
  eexists _, _. split; [vm_compute; reflexivity|]. split; [vm_compute; reflexivity|].
  repeat (eapply reads_block; [vm_compute; reflexivity|cbn; lia|]). by apply reads_end.
Qed.

Lemma request_served_witness :
  (exists st, stack ["2a"] (reverse ex_request.2) = Some st) /\
  ex_request.1 = Err Stream.ErrStopBlockReached /\
  join_summary (reverse ex_request.2) =
    [(Some StepNewIrreversible, "3a"); (Some StepNewIrreversible, "4a"); (Some StepNew, "5b")].
Proof.
  split; [|split; vm_compute; reflexivity].
  destruct (request_served has_bundle [] 2 ForkableProps.ex_num ex_clock ex_order "" 10 ForkableProps.ex_lib life questions_at [] 7 3 5
    ex_held (Err ErrStopBlockReached) "2a") as (evs & last & _ & _ & st & E).
  - apply ex_num_pos.
  - exact ex_decoded.
  - by split.
  - repeat constructor; try discriminate; vm_compute; congruence.
  - exact ex_room.
  - exact ex_same.
  - by vm_compute.
  - lia.
  - right. by vm_compute.
  - by vm_compute.
  - exact ex_bundle_holds.
  - repeat constructor.
  - repeat constructor; try discriminate; vm_compute; congruence.
  - cbn; lia.
  - exists st. exact E.
Defined.
End Example.

(** *** The example: the client left on 6a comes back for the blocks up to 7 *)

Section ExampleCursor.
#[local] Existing Instance ForkableProps.proto0.
#[local] Existing Instance empty_store.
#[local] Existing Instance no_dbin.

Definition back_life : list (hub_event unit (list (event unit))) :=
  ex_es1 ++ [Reads 0%nat; LiveBlock (ForkableProps.ex_block "8b" "7b" 5) None; Reads 0%nat; Reads 0%nat; Reads 0%nat; Reads 0%nat].
Definition back_time (t : nat) : nat := length ex_es1.
#[local] Notation back_hub0 := (Hub.NewForkableHub (O := unit) (HS := list (event unit)) "" 10 [WithExclusiveLIB ForkableProps.ex_lib]).
#[local] Notation back_live := (live_hub ex_clock ex_order back_hub0 back_life back_time []).
Definition no_files (_ : list (FileSourceOption (O := unit))) : JoiningSource.ForkableSourceFactory unit :=
  JoiningSource.mkFactory (fun _ _ => Ok None) (fun _ _ => Ok None) (fun _ _ _ => Ok None) None.
Definition ex_back : outcome unit * list (event unit) :=
  Stream.Run (Stream.New no_files back_live 7 3 recorder [Stream.WithCursor (Some ResumeProps.ex_cursor); Stream.WithStopBlock 7]) [].
Definition back_src : JoiningSource.Source unit :=
  match JoiningSource.SourceFromCursor back_live 0 ResumeProps.ex_cursor with Ok (Some src) => src | _ => JoiningSource.mkSource [] Diverge end.

Lemma back_hub1 : hub_at ex_clock ex_order back_hub0 back_life (back_time 0) = ex_hub1.
Proof. unfold hub_at, back_life, back_time. rewrite take_app_length. unfold ex_hub1, ex_step. reflexivity. Qed.

Lemma cursor_resumed_witness :
  (exists st, stack ["6a"; "5a"; "4a"] (reverse ex_back.2) = Some st) /\
  ex_back.1 = Err Stream.ErrStopBlockReached /\
  join_summary (reverse ex_back.2) =
    [(Some StepUndo, "6a"); (Some StepUndo, "5a"); (Some StepNew, "5b"); (Some StepNew, "6b"); (Some StepNew, "7b")].
Proof.
  split; [|split; vm_compute; reflexivity].
  destruct (cursor_resumed no_files ForkableProps.ex_num ex_clock ex_order "" 10 ForkableProps.ex_lib back_life back_time [] 7 3 7
    ResumeProps.ex_cursor (ForkableProps.ex_block "7b" "6b" 4) (NewBlockRef "6a" 6) (NewBlockRef "4a" 4) ["6a"; "5a"] back_src)
    as (l & h & s & rest & pending & _ & _ & _ & _ & _ & _ & st & E).
  - apply ex_num_pos.
  - intros name b E. discriminate E.
  - by split.
  - repeat constructor; try discriminate; vm_compute; congruence.
  - split; [by vm_compute|vm_compute; reflexivity].
  - vm_compute. reflexivity.
  - vm_compute. reflexivity.
  - rewrite back_hub1. exact ex_hub_cursor.
  - rewrite back_hub1. intros blks E. vm_compute in E. injection E as <-. vm_compute. reflexivity.
  - by vm_compute.
  - lia.
  - right. by vm_compute.
  - vm_compute. reflexivity.
  - exists st. exact E.
Defined.
End ExampleCursor.
End EndToEnd.
