(* ===== verification/Targets.v ===== *)
(** * A cursor as a target

    A stream from a block number through a cursor ([WithTargetCursor]), over a live
    hub that holds both: the client, which has nothing yet, passes where the cursor
    left, on its branch, before it goes on with the hub. *)

From S2P Require Import Prelude GoStrings Types ForkDB ForkDBFacts Forkable Consumer ForkableFacts.
From S2P Require Import ForkableInv ForkableStep ForkableSend ForkableProps ForkableQueries Resume ResumeProps ResumeThrough.
From S2P Require Import OneBlockFiles ForkableSim Hub HubProps LiveHub JoiningSource JoiningProps Stream StreamProps EndToEnd.
Import LiveHub EndToEnd.

(** ** The query does not look at the handler's state *)

Lemma throughCursor_with {O A B} (p : Forkable O A) (s : B) start step block lib h seg :
  throughCursor (with_hstate s p) start step block lib h seg = throughCursor p start step block lib h seg.
Proof.
  induction seg as [|b seg IH]; [done|]. cbn [throughCursor]. rewrite IH.
  change (fb_at (with_hstate s p)) with (fb_at p). done.
Qed.

Lemma blocksThroughCursor_with {O A B} `{Protocol} (p : Forkable O A) (s : B) start c :
  blocksThroughCursor (with_hstate s p) start c = blocksThroughCursor p start c.
Proof.
  unfold blocksThroughCursor. cbn [forkDB with_hstate lastBlockSent].
  change (headSegment (with_hstate s p)) with (headSegment p). rewrite blocksFromCursor_with.
  destruct (negb _); [done|]. destruct (headSegment p _) as [seg|e|w|]; [|done..]. cbn [mbind outcome_bind].
  destruct seg as [|first seg]; [done|]. destruct (_ <? _); [done|].
  destruct (deref (cBlock c)) as [b|e|w|]; [|done..]. cbn [mbind outcome_bind]. destruct (blockIn _ _); [done|].
  destruct (headSegment p b) as [cseg|e|w|]; [|done..]. cbn [mbind outcome_bind].
  destruct cseg as [|first' cseg]; [done|]. destruct (_ <? _); [done|]. by rewrite throughCursor_with.
Qed.

(** ** The subscription *)

Lemma twin_db {O} `{Protocol} unum cfg v0 (h : Hub.ForkableHub O (list (event O))) :
  twin unum cfg (fun _ => subs_wf) v0 h -> exists hp : gmap loc (ForkableBlock O), db_ok unum hp (forkDB (Hub.forkable h)).
Proof.
  intros [_ (p & ([up HI] & _) & Hs)]. destruct (similar_core _ _ _ Hs) as (hs & -> & _). exists (heap p). exact (I_db _ _ _ _ HI).
Qed.

(** What a client passes and what it goes on with: [out] brings it, by the cursors of
    its events, from [q] to [held]. *)
Lemma through_follows_run {O} `{Protocol} `{DBin} `{Store} unum clock objects_order keep v0 nums
  (h1 : Hub.ForkableHub O (list (event O))) c block n q (Q : View -> Prop) l h2 es2 h3 :
  (forall x, 0 <= unum x) -> (forall name b, Hub.decode name = Ok b -> good unum b) ->
  twin unum (hub_config keep) (fun _ => subs_wf) v0 h1 -> Forall (good_event unum) es2 ->
  0 <= Hub.sourceChannelSize h1 -> cBlock c = Some block -> n <= Num block ->
  (forall p hs up, Hub.forkable h1 = with_hstate hs p -> Inv unum v0 up p -> (forall h, lastBlockSent p = Some h -> good unum h) ->
     exists out back held, blocksThroughCursor p n c = Ok (out ++ back) /\
       consume (mkView q []) (as_cursor <$> out) = Some held /\ consume held back = Some (mkView (LIBID (forkDB p)) up) /\ Q held) ->
  (forall blks, blocksThroughCursor (Hub.forkable h1) n c = Ok blks ->
     Hub.sourceChannelSize h1 + Z.of_nat (length blks) < two63) ->
  Hub.SourceThroughCursor recorder [] nums h1 n c = Ok (Some l, h2) ->
  h3 = foldl (hub_step clock objects_order) h2 es2 ->
  exists s out held later rest pending, Hub.sub_heap (hstate (Hub.forkable h3)) !! l = Some s /\
    received s ++ rest = out ++ later /\
    consume (mkView q []) (as_cursor <$> out) = Some held /\ Q held /\
    consume held later = Some (mkView (LIBID (forkDB (Hub.forkable h3))) pending) /\
    match lastBlockSent (Hub.forkable h3) with
    | Some hd3 => path (forkDB (Hub.forkable h3)) (Id hd3) pending (LIBID (forkDB (Hub.forkable h3)))
    | None => pending = []
    end /\
    (Hub.terminated s = None -> rest = []).
Proof.
  intros Hpos Hdec [Hc (p & Hsnd & Hs)] Hes2 Hsz Ecb Hle Hrun Hlen Esrc Eh3.
  pose proof Hsnd as ([up HI] & Hhd & _). destruct (similar_core _ _ _ Hs) as (hs & Ep & Hwf).
  destruct (Hrun p hs up Ep HI Hhd) as (out & back & held & Eb & C1 & C2 & HQ).
  rewrite Ep in Hlen. rewrite blocksThroughCursor_with in Hlen.
  unfold Hub.SourceThroughCursor in Esrc. rewrite Ecb in Esrc.
  cbn [deref mbind outcome_bind] in Esrc. destruct (Z.ltb_spec (Num block) n); [lia|].
  destruct (subscribed_cases _ _ _ _ _ _ Esrc) as [[_ ?]|(b & l' & hs' & Eb' & [= <-] & Esub & ->)]; [done|].
  rewrite Ep, blocksThroughCursor_with, Eb in Eb'. injection Eb' as <-.
  destruct (subscription_follows_after unum clock objects_order keep v0 held h1 p up out back l hs' es2 h3)
    as (s & rest & later & pending & Es & Er & C & Hv & Hr); try done; [by apply Hlen|].
  exists s, out, held, later, rest, pending. by do 4 (split; [done|]).
Qed.

(** From a final block under the cursor's: [held] is the view of the cursor unless
    the block of the cursor is on the chain of the head. *)
Lemma through_follows {O} `{Protocol} `{DBin} `{Store} unum clock objects_order keep v0 nums
  (h1 : Hub.ForkableHub O (list (event O))) hd c block fin pend x q l h2 es2 h3 :
  (forall x, 0 <= unum x) -> (forall name b, Hub.decode name = Ok b -> good unum b) ->
  twin unum (hub_config keep) (fun _ => subs_wf) v0 h1 -> Forall (good_event unum) es2 ->
  0 <= Hub.sourceChannelSize h1 -> lastBlockSent (Hub.forkable h1) = Some hd ->
  let db := forkDB (Hub.forkable h1) in
  LIBNum db = unum (LIBID db) ->
  resumable_cursor unum (with_hstate [] (Hub.forkable h1)) c block fin pend ->
  anc db (ID fin) x -> links db !! x = Some q -> anc db (Id hd) (ID block) \/ anc db (ID block) (LIBID db) ->
  (forall blks, blocksThroughCursor (Hub.forkable h1) (unum x) c = Ok blks ->
     Hub.sourceChannelSize h1 + Z.of_nat (length blks) < two63) ->
  Hub.SourceThroughCursor recorder [] nums h1 (unum x) c = Ok (Some l, h2) ->
  h3 = foldl (hub_step clock objects_order) h2 es2 ->
  exists s out held later rest pending, Hub.sub_heap (hstate (Hub.forkable h3)) !! l = Some s /\
    received s ++ rest = out ++ later /\
    consume (mkView q []) (as_cursor <$> out) = Some held /\
    (anc db (Id hd) (ID block) \/ held = mkView (ID fin) (if decide (Step c = StepUndo) then tail pend else pend)) /\
    consume held later = Some (mkView (LIBID (forkDB (Hub.forkable h3))) pending) /\
    match lastBlockSent (Hub.forkable h3) with
    | Some hd3 => path (forkDB (Hub.forkable h3)) (Id hd3) pending (LIBID (forkDB (Hub.forkable h3)))
    | None => pending = []
    end /\
    (Hub.terminated s = None -> rest = []).
Proof.
  intros Hpos Hdec T Hes2 Hsz Hlast db HL Hrc Hfin Hx Hbr Hlen Esrc Eh3.
  destruct (twin_db _ _ _ _ T) as [hp Hd].
  assert (Hle : unum x <= Num block).
  { destruct Hrc as [[_ ->] _ _ _ Hpend _ _]. destruct Hfin as [l2 Hl2]. cbn in Hpend.
    pose proof (db_path_le _ _ _ _ _ _ Hd Hl2). pose proof (db_path_le _ _ _ _ _ _ Hd Hpend). lia. }
  apply (through_follows_run unum clock objects_order keep v0 nums h1 c block (unum x) q
    (fun held => anc db (Id hd) (ID block) \/ held = mkView (ID fin) (if decide (Step c = StepUndo) then tail pend else pend))
    l h2 es2 h3); try done; [by apply (rc_block _ _ _ _ _ _ Hrc)|].
  intros p hs up Ep HI Hhd. unfold db in *. rewrite Ep in *. cbn in Hlast, HL, Hfin, Hx, Hbr |- *.
  assert (Hrc' : resumable_cursor unum p c block fin pend) by by destruct Hrc.
  destruct (through_Inv unum v0 up p hd c block fin pend x q Hpos HI Hhd Hlast HL Hrc' Hfin Hx Hbr)
    as (out & back & held & Eb & C1 & C2 & _ & Hheld).
  exists out, back, held. do 3 (split; [done|]). destruct Hheld as [[_ ?]|[_ ?]]; auto.
Qed.

(** ** The client of the stream *)

Section Stack.
Context {O : Type}.
Implicit Types (evs : list (event O)).

(** The cursors of the events do not matter to a stack. *)
Lemma stack_as_cursor evs st : stack st (as_cursor <$> evs) = stack st evs.
Proof.
  revert st. induction evs as [|[b o] evs IH]; intros st; [done|].
  assert (E : stack1 st (as_cursor (b, o)) = stack1 st (b, o)) by by destruct o.
  cbn [fmap list_fmap stack]. rewrite E. destruct (stack1 st (b, o)); [apply IH|done].
Qed.

Lemma stack_stepable evs : forall st st', stack st evs = Some st' -> Forall stepable evs.
Proof.
  induction evs as [|ev evs IH]; intros st st' E; [constructor|]. cbn in E.
  destruct (stack1 st ev) as [st1|] eqn:E1; [|done]. constructor; [|by eapply IH].
  unfold stack1 in E1. unfold stepable. by destruct (ev_step ev.2).
Qed.

(** The stack of a client that passes through a view. *)
Lemma stack_through q below (out : list (event O)) held (later : list (event O)) v' :
  consume (mkView q []) (as_cursor <$> out) = Some held -> consume held later = Some v' ->
  exists st, stack (O := O) (q :: below) (out ++ later) = Some st.
Proof.
  intros C1 C2. destruct (stack_consumed _ _ _ below C1) as [below1 S1]. destruct (stack_consumed _ _ _ below1 C2) as [below2 S2].
  rewrite stack_as_cursor in S1. change (stack_of (mkView q []) below) with (q :: below) in S1.
  eexists. by rewrite stack_app, S1.
Qed.
End Stack.

(** C4: a client that asks for the blocks from [start] through a cursor, when the hub
    holds a final block of that number under the LIB of the cursor, and the block of
    the cursor on the chain of its head or on a branch above its LIB: it is served by
    the hub alone, whatever the hub goes through then.  What it is sent is the new
    and undone blocks of its subscription, cut at the stop block; the subscription,
    with what waits in its queue, brings it by the cursors of the first events to the
    view of the cursor (or along the chain of the head, when the block of the cursor
    is on it), and from there to the LIB and the chain of the hub; and it holds a
    chain at every moment, above the parent of its first block. *)
Theorem target_reached {O} `{Protocol} `{DBin} `{Store} files unum clock objects_order env keep lib es time nums
  headNum start stop c hd block fin pend x q lsrc :
  (forall x, 0 <= unum x) -> (forall name b, Hub.decode name = Ok b -> good unum b) ->
  ID lib <> "" /\ Num lib = unum (ID lib) -> Forall (good_event unum) es ->
  let hub0 := Hub.NewForkableHub (O := O) env keep [WithExclusiveLIB lib] in
  let h1 := hub_at clock objects_order hub0 es (time 0%nat) in
  let live := live_hub clock objects_order hub0 es time nums in
  let db := forkDB (Hub.forkable h1) in
  0 <= Hub.sourceChannelSize h1 -> lastBlockSent (Hub.forkable h1) = Some hd -> LIBNum db = unum (LIBID db) ->
  resumable_cursor unum (with_hstate [] (Hub.forkable h1)) c block fin pend ->
  anc db (ID fin) x -> links db !! x = Some q -> anc db (Id hd) (ID block) \/ anc db (ID block) (LIBID db) ->
  (forall blks, blocksThroughCursor (Hub.forkable h1) (unum x) c = Ok blks ->
     Hub.sourceChannelSize h1 + Z.of_nat (length blks) < two63) ->
  0 <= start < two63 -> 0 <= stop -> (stop = 0 \/ unum x <= stop) ->
  unum x = Z.max start GetProtocolFirstStreamableBlock ->
  JoiningSource.SourceThroughCursor live 0 (unum x) (Some c) = Ok (Some lsrc) ->
  let r := Stream.Run (Stream.New files live headNum start recorder
             [Stream.WithTargetCursor (Some c); Stream.WithStopBlock stop]) [] in
  let sent := reverse r.2 in
  exists l h s out held later rest pending, let h3 := hub_end clock objects_order es (time 0%nat) h in
    Hub.SourceThroughCursor recorder [] nums h1 (unum x) c = Ok (Some l, h) /\
    Hub.sub_heap (hstate (Hub.forkable h3)) !! l = Some s /\
    reverse (Hub.sub_state s) ++ Hub.blocks s ++ rest = out ++ later /\
    consume (mkView q []) (as_cursor <$> out) = Some held /\
    (anc db (Id hd) (ID block) \/ held = mkView (ID fin) (if decide (Step c = StepUndo) then tail pend else pend)) /\
    consume held later = Some (mkView (LIBID (forkDB (Hub.forkable h3))) pending) /\
    match lastBlockSent (Hub.forkable h3) with
    | Some hd3 => path (forkDB (Hub.forkable h3)) (Id hd3) pending (LIBID (forkDB (Hub.forkable h3)))
    | None => pending = []
    end /\ (Hub.terminated s = None -> rest = []) /\
    (let '(kept, stopped) := cut stop (filter (passes newOrUndo) (reverse (Hub.sub_state s))) in
     sent = kept /\ r.1 = (if stopped then Err Stream.ErrStopBlockReached else Stream.reported (sub_end (Hub.terminated s)))) /\
    exists st, stack [q] sent = Some st.
Proof.
  intros Hpos Hdec [Hid Hnum] Hes hub0 h1 live db Hsz Hlast HL Hrc Hfin Hx Hbr Hlen Hst Hs Hle Hstart Esrc r sent.
  cbn [JoiningSource.SourceThroughCursor live live_hub deref mbind outcome_bind] in Esrc. fold hub0 h1 in Esrc.
  destruct (Hub.SourceThroughCursor recorder [] nums h1 (unum x) c) as [[[l|] h]|e|w|] eqn:Eh; cbn [live_source] in Esrc; try done.
  destruct (through_follows unum clock objects_order keep (mkView (ID lib) []) nums h1 hd c block fin pend x q l h
    (drop (time 0%nat) es) _ Hpos Hdec (hub_twin unum clock objects_order env keep lib _ Hpos Hdec Hid Hnum (Forall_take _ _ _ Hes))
    (Forall_drop _ _ _ Hes) Hsz Hlast HL Hrc Hfin Hx Hbr Hlen Eh eq_refl)
    as (s & out & held & later & rest & pending & El & Er & C1 & Hheld & C2 & La & Hrest).
  fold (hub_end clock objects_order es (time 0%nat) h) in El, C2, La. unfold received in Er. rewrite <- app_assoc in Er.
  exists l, h, s, out, held, later, rest, pending. cbv zeta. do 8 (split; [done|]).
  destruct (stack_through _ [] _ _ _ _ C1 C2) as [st Est]. rewrite <- Er in Est. set (evs := reverse (Hub.sub_state s)) in *.
  assert (Hall : Forall stepable evs) by (apply stack_stepable in Est; by apply Forall_app in Est as [? _]).
  assert (Erun : r = (if (cut stop (filter (passes newOrUndo) evs)).2 then Err Stream.ErrStopBlockReached
                      else Stream.reported (sub_end (Hub.terminated s)), reverse (cut stop (filter (passes newOrUndo) evs)).1)).
  { apply (stream_over_live files live headNum start stop c true (JoiningSource.mkSource evs (sub_end (Hub.terminated s))) Hst Hs).
    - by rewrite <- Hstart.
    - exact Hall.
    - cbn [JoiningSource.SourceThroughCursor live live_hub deref mbind outcome_bind]. fold hub0 h1. rewrite <- Hstart, Eh.
      cbn [live_source]. by rewrite El. }
  assert (Hsent : sent = (cut stop (filter (passes newOrUndo) evs)).1) by (unfold sent; rewrite Erun; apply reverse_involutive).
  split; [rewrite Hsent, Erun; by destruct (cut stop _)|]. rewrite Hsent. by eapply sent_of_stack.
Qed.

(** *** The example: the blocks from 4 to 7 through the cursor left on 6a *)

Section Example.
#[local] Existing Instance ForkableProps.proto0.
#[local] Existing Instance empty_store.
#[local] Existing Instance no_dbin.

Definition target_life : list (hub_event unit (list (event unit))) :=
  ex_es1 ++ LiveBlock (ForkableProps.ex_block "8b" "7b" 5) None :: replicate 9 (Reads 0%nat).
#[local] Notation target_hub0 := (Hub.NewForkableHub (O := unit) (HS := list (event unit)) "" 10 [WithExclusiveLIB ForkableProps.ex_lib]).
#[local] Notation target_live := (live_hub ex_clock ex_order target_hub0 target_life back_time []).
Definition ex_target : outcome unit * list (event unit) :=
  Stream.Run (Stream.New no_files target_live 7 4 recorder
    [Stream.WithTargetCursor (Some ResumeProps.ex_cursor); Stream.WithStopBlock 7]) [].
Definition target_src : JoiningSource.Source unit :=
  match JoiningSource.SourceThroughCursor target_live 0 4 (Some ResumeProps.ex_cursor) with
  | Ok (Some src) => src
  | _ => JoiningSource.mkSource [] Diverge
  end.

Lemma target_hub1 : hub_at ex_clock ex_order target_hub0 target_life (back_time 0) = ex_hub1.
Proof. unfold hub_at, target_life, back_time. rewrite take_app_length. unfold ex_hub1, ex_step. reflexivity. Qed.

Lemma target_reached_witness :
  (exists st, stack ["3a"] (reverse ex_target.2) = Some st) /\
  ex_target.1 = Err Stream.ErrStopBlockReached /\
  join_summary (reverse ex_target.2) =
    [(Some StepNewIrreversible, "4a"); (Some StepNew, "5a"); (Some StepNew, "6a"); (Some StepUndo, "6a");
     (Some StepUndo, "5a"); (Some StepNew, "5b"); (Some StepNew, "6b"); (Some StepNew, "7b")].
Proof.
  split; [|split; vm_compute; reflexivity].
  destruct (target_reached no_files ForkableProps.ex_num ex_clock ex_order "" 10 ForkableProps.ex_lib target_life back_time [] 7 4 7
    ResumeProps.ex_cursor (ForkableProps.ex_block "7b" "6b" 4) (NewBlockRef "6a" 6) (NewBlockRef "4a" 4) ["6a"; "5a"] "4a" "3a" target_src)
    as (l & h & s & out & held & later & rest & pending & _ & _ & _ & _ & _ & _ & _ & _ & _ & st & E).
  - apply ex_num_pos.
  - intros name b E. discriminate E.
  - by split.
  - repeat constructor; try discriminate; vm_compute; congruence.
  - by vm_compute.
  - vm_compute. reflexivity.
  - vm_compute. reflexivity.
  - rewrite target_hub1. exact ex_hub_cursor.
  - exists []. constructor.
  - vm_compute. reflexivity.
  - right. exists ["6a"; "5a"]. rewrite target_hub1. exact (rc_pend _ _ _ _ _ _ ex_hub_cursor).
  - rewrite target_hub1. intros blks E. vm_compute in E. injection E as <-. vm_compute. reflexivity.
  - by vm_compute.
  - lia.
  - right. by vm_compute.
  - by vm_compute.
  - vm_compute. reflexivity.
  - exists st. exact E.
Defined.
End Example.
