(* ===== verification/FromFiles.v ===== *)
(** * From a cursor that lies in the files

    A stream from a cursor that the hub does not know: the file source starts at the
    final block of the cursor, its resolver brings the client back to the merged
    chain, and the hub takes over at one of the final blocks that follow. *)

From S2P Require Import Prelude GoStrings Types ForkDB ForkDBFacts Forkable Consumer ForkableFacts ForkableInv ForkableStep ForkableSend ForkableProps.
From S2P Require Import ForkableQueries Resume ResumeProps ForkableSim OneBlockFiles CursorResolver FileSource FileSourceProps Hub HubProps.
From S2P Require Import Cursors JoiningSource JoiningProps Stream StreamProps LiveHub EndToEnd.
From Stdlib Require Import Ascii.
Import OneBlockFiles FileSource LiveHub EndToEnd.

(** ** The resolver in front of any handler

    The resolver does not look at the handler behind it: in front of [h] it does what
    it does in front of a recorder, until [h] fails. *)

Create HintDb tracks.

Section Tracks.
Import CursorResolver.
Context {O HS : Type} `{Protocol} `{DBin} `{Store} (h : Handler O HS).
Notation R0 := (cursorResolver O (list (event O))).
Notation RH := (cursorResolver O HS).

Definition with_next {A B} (hs : B) (f : cursorResolver O A) : cursorResolver O B :=
  mkResolver (mergedBlocksSeen f) (resolved f) hs.

(** [m0] records the events that [m] hands to [h]. *)
Definition tracks {A} (m0 : M R0 A) (m : M RH A) : Prop := forall f hs,
  exists evs, next (m0 f).2 = reverse evs ++ next f /\
    match deliver h evs hs with
    | (None, hs') => m (with_next hs f) = ((m0 f).1, with_next hs' (m0 f).2)
    | (Some e, hs') => exists f', m (with_next hs f) = (Err e, f') /\ next f' = hs'
    end.

(** Steps that hand nothing over. *)
Lemma tracks_silent {A} (m0 : M R0 A) (m : M RH A) :
  (forall f hs, next (m0 f).2 = next f /\ m (with_next hs f) = ((m0 f).1, with_next hs (m0 f).2)) -> tracks m0 m.
Proof. intros E f hs. destruct (E f hs) as [E1 E2]. by exists []. Qed.

Lemma tracks_ret {A} (a : A) : tracks (mret a) (mret a).
Proof. by apply tracks_silent. Qed.

Lemma tracks_lift {A} (o : outcome A) : tracks (mlift o) (mlift o).
Proof. by apply tracks_silent. Qed.

Lemma tracks_err {A} e : tracks (A := A) (merr e) (merr e).
Proof. by apply tracks_silent. Qed.

Lemma tracks_panic {A} w : tracks (A := A) (mpanic w) (mpanic w).
Proof. by apply tracks_silent. Qed.

Lemma tracks_modify (g0 : R0 -> R0) (g : RH -> RH) :
  (forall f hs, next (g0 f) = next f /\ g (with_next hs f) = with_next hs (g0 f)) -> tracks (mmodify g0) (mmodify g).
Proof. intros E. apply tracks_silent. intros f hs. destruct (E f hs) as [E1 E2]. unfold mmodify. cbn [fst snd]. by rewrite E2. Qed.

Lemma tracks_bind {A B} (m0 : M R0 A) (m : M RH A) (k0 : A -> M R0 B) (k : A -> M RH B) :
  tracks m0 m -> (forall a, tracks (k0 a) (k a)) -> tracks (m0 ≫= k0) (m ≫= k).
Proof.
  intros Hm Hk f hs. destruct (Hm f hs) as (evs & En & Em). unfold mbind, M_bind.
  destruct (m0 f) as [r f1] eqn:E0. cbn [fst snd] in En, Em.
  destruct (deliver h evs hs) as [[e|] hs1] eqn:Ed.
  - destruct Em as (f' & Em & En'). destruct r as [a|e0|w|]; [destruct (Hk a f1 hs) as (evs2 & En2 & _); exists (evs ++ evs2)|exists evs..];
      rewrite ?deliver_app, Ed, ?reverse_app, <- ?app_assoc, <- ?En; (split; [done|]); exists f'; by rewrite Em.
  - destruct r as [a|e0|w|]; [|exists evs; rewrite Ed; cbn [fst snd]; split; [done|]; by rewrite Em..].
    destruct (Hk a f1 hs1) as (evs2 & En2 & E2). exists (evs ++ evs2). rewrite deliver_app, Ed, reverse_app, <- app_assoc, <- En.
    split; [done|]. by rewrite Em.
Qed.

Lemma tracks_get {B} (k0 : R0 -> M R0 B) (k : RH -> M RH B) :
  (forall f hs, tracks (k0 f) (k (with_next hs f))) -> tracks (mget ≫= k0) (mget ≫= k).
Proof. intros Hk f hs. exact (Hk f hs f hs). Qed.

Lemma tracks_for {A} (l : list A) (k0 : A -> M R0 unit) (k : A -> M RH unit) :
  (forall a, tracks (k0 a) (k a)) -> tracks (mfor l k0) (mfor l k).
Proof. intros Hk. induction l as [|a l IH]; [apply tracks_ret|]. apply tracks_bind; [apply Hk|]. intros _. exact IH. Qed.

Lemma tracks_forward b o : tracks (forward recorder b o) (forward h b o).
Proof.
  intros f hs. exists [(b, o)]. split; [done|]. cbn. unfold forward. cbn [next with_next].
  destruct (h b o hs) as [[e|] hs']; [|done]. by eexists.
Qed.

Lemma tracks_sendMerged todo step lo hi : forall behind,
  tracks (sendMerged_from recorder behind todo step lo hi) (sendMerged_from h behind todo step lo hi).
Proof.
  induction todo as [|[b o] todo IH]; intros behind; [apply tracks_ret|]. cbn [sendMerged_from].
  destruct (_ && _); [|apply IH]. destruct o; try apply tracks_panic.
  apply tracks_bind; [by apply tracks_modify|]. intros _. apply tracks_bind; [apply tracks_forward|]. intros _. apply IH.
Qed.

Lemma tracks_between step lo hi :
  tracks (sendMergedBlocksBetween recorder step lo hi) (sendMergedBlocksBetween h step lo hi).
Proof. apply tracks_get. intros f hs. apply tracks_sendMerged. Qed.

#[local] Hint Resolve tracks_ret tracks_lift tracks_err tracks_forward tracks_between : tracks.
#[local] Ltac track :=
  lazymatch goal with
  | |- tracks (mget ≫= _) _ => apply tracks_get; intros ? ?; track
  | |- tracks (_ ≫= _) _ => apply tracks_bind; [track|intros ?; track]
  | |- tracks (mmodify _) _ => by apply tracks_modify
  | |- tracks (if ?b then _ else _) _ => destruct b; track
  | |- tracks (let '(_, _) := ?p in _) _ => destruct p; track
  | |- _ => auto with tracks
  end.

Lemma tracks_ProcessBlock c through b o : tracks (ProcessBlock recorder c through b o) (ProcessBlock h c through b o).
Proof.
  unfold ProcessBlock. apply tracks_get. intros f hs. cbn [resolved with_next].
  destruct (resolved f); [apply tracks_forward|]. track.
  all: try by apply tracks_silent.
  apply tracks_for. intros [x|]; [apply tracks_forward|apply tracks_panic].
Qed.
End Tracks.

(** ** The file source from a cursor *)

Section Source.
Context {O : Type} `{Protocol} `{DBin} `{Store} `{BlockIndexProvider}.
Context (FileExists : string -> outcome bool) (late : list bool) (fuel : nat).

Lemma file_event_blocks bs : (file_event (O := O) <$> bs).*1 = bs.
Proof. induction bs as [|? ? IH]; [done|]. by rewrite !fmap_cons, IH. Qed.

Lemma held_linked c block fin first (s : FileSource O) files pre (trig : event O) post :
  file_event <$> requested s files = pre ++ trig :: post ->
  CursorResolver.merged_stream (O := O) c block fin first pre trig post -> linked "" (requested s files).
Proof.
  intros Eb Hm. destruct (CursorResolver.m_chain _ _ _ _ _ _ _ Hm) as (rest & E & Hch). rewrite <- Eb in E.
  rewrite file_event_blocks in E. apply (chained_linked (ParentId first)). rewrite E. by split.
Qed.

(** A start through the resolver. *)
Definition resolves (st : start) (c : Cursor) (through : bool) : Prop :=
  if through then exists n, st = ThroughCursor n c else st = FromCursor c.

(** What the resolver hands to a recorder, the source hands to the handler behind it. *)
Lemma cursor_source options st c through (s : FileSource O) files e r f evs :
  resolves st c through -> SourceOptions options st = Ok s -> held FileExists s files e ->
  preprocFunc s = None -> hasIndexProvider s = false -> linked "" (requested s files) -> (length files < fuel)%nat ->
  mfor (file_event <$> requested s files) (fun x => CursorResolver.ProcessBlock recorder c through x.1 x.2)
    (CursorResolver.newCursorResolverHandler []) = (r, f) ->
  (r = Ok tt \/ exists err, r = Err err) -> CursorResolver.next f = reverse evs ->
  let ending := match r with Ok _ => e | _ => r end in
  file_source FileExists late fuel options st = Ok (Some (JoiningSource.mkSource evs ending)) /\
  forall HS (h : Handler O HS) hs, SourceRun FileExists h late options st fuel hs =
    (ended (deliver h evs hs).1 ending, (deliver h evs hs).2).
Proof.
  intros Hst Es Hh Hp Hidx Hl Hf E Hr En ending.
  assert (Hrun : forall HS (h : Handler O HS) hs, SourceRun FileExists h late options st fuel hs =
      (ended (deliver h evs hs).1 ending, (deliver h evs hs).2)).
  { intros HS h hs. destruct Hh as [Hs Hz Hn Hroom Hb He].
    assert (Hprep : forall b, preprocess s b = Ok (wrap_block b None)) by (intros b; unfold preprocess; by rewrite Hp).
    destruct (run_bundles FileExists (resolver_handler h c through) s late (fun b => wrap_block b None) Hprep files fuel
      (CursorResolver.newCursorResolverHandler hs, false) _ e Hidx Hs Hz eq_refl Hn Hroom Hb He Hl Hf) as (lid & Er).
    assert (Eo : SourceRun FileExists h late options st fuel hs =
      let '(r, q) := run FileExists (resolver_handler h c through) s late fuel (CursorResolver.newCursorResolverHandler hs, false) in
      (match fs_next q with (_, true) => Panic "in the handler" | _ => r end, CursorResolver.next (fs_next q).1)).
    { unfold SourceRun. rewrite Es. destruct through; [destruct Hst as [n E0]|cbn in Hst]; subst st; reflexivity. }
    rewrite Eo, Er, offer_resolver. cbn [fst snd fs_next].
    change ((fun b => (b, wrap_block b None)) <$> _) with (file_event (O := O) <$> requested s files).
    pose proof (tracks_for h (file_event <$> requested s files) _ _ (fun x => tracks_ProcessBlock h c through x.1 x.2)
      (CursorResolver.newCursorResolverHandler []) hs) as (evs' & Ev & T).
    rewrite E in Ev, T. cbn [fst snd CursorResolver.newCursorResolverHandler CursorResolver.next] in Ev, T.
    rewrite app_nil_r, En in Ev. apply (f_equal reverse) in Ev. rewrite !reverse_involutive in Ev. subst evs'.
    change (with_next hs (CursorResolver.newCursorResolverHandler [])) with (CursorResolver.newCursorResolverHandler (O := O) hs) in T.
    destruct (deliver h evs hs) as [[e'|] hs'].
    - destruct T as (f' & -> & <-). done.
    - rewrite T. unfold ending. by destruct Hr as [->|[err ->]]. }
  split; [|exact Hrun]. unfold file_source. rewrite Es. cbn [mbind outcome_bind]. rewrite Hrun, deliver_recorder.
  cbn [fst snd]. by rewrite app_nil_r, reverse_involutive.
Qed.

(** Over bundles that go past the cursor's block, the source is the resumption of the
    cursor. *)
Lemma resumed_source options c block fin first (s : FileSource O) files e pre (trig : event O) post pend :
  SourceOptions options (FromCursor c) = Ok s -> held FileExists s files e -> preprocFunc s = None -> hasIndexProvider s = false ->
  (length files < fuel)%nat -> file_event <$> requested s files = pre ++ trig :: post ->
  CursorResolver.merged_stream c block fin first pre trig post -> (Step c = StepUndo -> pend <> []) ->
  CursorResolver.position block fin (pre ++ [trig]).*1 trig.1 pend ->
  exists replay finals top bs,
    CursorResolver.resumption block fin (CursorResolver.view fin (Step c) pend) (requested s files) replay finals top bs /\
    file_source FileExists late fuel options (FromCursor c) = Ok (Some (JoiningSource.mkSource (replay ++ finals) e)) /\
    forall HS (h : Handler O HS) hs, SourceRun FileExists h late options (FromCursor c) fuel hs =
      (ended (deliver h (replay ++ finals) hs).1 e, (deliver h (replay ++ finals) hs).2).
Proof.
  intros Es Hh Hp Hidx Hf Eb Hm Hu Hpos.
  destruct (CursorResolver.resolver_splits _ _ _ _ _ _ _ _ Hm Hu Hpos) as (f & replay & finals & top & bs & E & En & Hr & _).
  exists replay, finals, top, bs. rewrite <- Eb, file_event_blocks in Hr. split; [exact Hr|]. rewrite <- Eb in E.
  apply (cursor_source options (FromCursor c) c false s files e (Ok tt) f (replay ++ finals)); try done.
  - by eapply held_linked.
  - by left.
  - rewrite <- En. by rewrite reverse_involutive.
Qed.
End Source.

(** C5: a client that comes back with a cursor that the hub does not know, when the
    bundles of the store hold the blocks from the final block of the cursor past its
    block, which is on their chain or on a branch of one-block files, and the hub never
    serves a height of the cursor: it is brought back to the merged chain by what the
    files hold ([replay]: undone and announced blocks) and given the final blocks that
    follow, all of them, or those up to some block and then the subscription the hub
    gave from that very block, whatever the hub goes through; that brings the client
    from its cursor to the LIB and the chain of the hub; what it is sent is the new and
    undone blocks of it, cut at the stop block; and the stack of blocks the client
    held goes on without a gap. *)
Theorem cursor_in_files {O} `{Protocol} `{DBin} `{Store} `{BlockIndexProvider} FileExists late fuel
  unum clock objects_order env keep lib es time nums headNum start stop files e
  c block fin first (fs : FileSource O) pre (trig : event O) post pend :
  (forall x, 0 <= unum x) -> (forall name b, Hub.decode name = Ok b -> good unum b) ->
  ID lib <> "" /\ Num lib = unum (ID lib) -> Forall (good_event unum) es ->
  let hub0 := Hub.NewForkableHub (O := O) env keep [WithExclusiveLIB lib] in
  let hub k := hub_at clock objects_order hub0 es k in
  let live := live_hub clock objects_order hub0 es time nums in
  let blocks := requested fs files in
  let held_view := CursorResolver.view fin (Step c) pend in
  (forall t, roomy (hub (time t))) -> same_chain unum clock objects_order env keep lib es time blocks ->
  0 <= start < two63 -> 0 <= stop -> (stop = 0 \/ Z.max start GetProtocolFirstStreamableBlock <= stop) ->
  JoiningSource.SourceFromCursor live 0 c = Ok None ->
  (forall t n, Num fin <= n <= Num block -> JoiningSource.SourceFromBlockNum live t n = Ok None) ->
  SourceOptions (stop_options stop) (FromCursor c) = Ok fs -> held FileExists fs files e ->
  Forall (good unum) blocks -> (length files < fuel)%nat -> file_event <$> blocks = pre ++ trig :: post ->
  CursorResolver.merged_stream c block fin first pre trig post -> (Step c = StepUndo -> pend <> []) ->
  CursorResolver.position block fin (pre ++ [trig]).*1 trig.1 pend ->
  let r := Stream.Run (Stream.New (NewFileSourceFactory FileExists late fuel) live headNum start recorder
             [Stream.WithCursor (Some c); Stream.WithStopBlock stop]) [] in
  let sent := reverse r.2 in
  exists replay finals top bs evs last,
    CursorResolver.resumption block fin held_view blocks replay finals top bs /\
    ((evs = replay ++ finals /\ last = e) \/
     exists pre b post t l h s rest pending, let h3 := hub_end clock objects_order es (time t) h in
       bs = pre ++ b :: post /\
       Hub.SourceFromBlockNum recorder [] nums (hub (time t)) (Number b) = Ok (Some l, h) /\
       Hub.sub_heap (hstate (Hub.forkable h3)) !! l = Some s /\
       evs = replay ++ take (length pre) finals ++ reverse (Hub.sub_state s) /\ last = sub_end (Hub.terminated s) /\
       consume held_view (evs ++ Hub.blocks s ++ rest) = Some (mkView (LIBID (forkDB (Hub.forkable h3))) pending) /\
       match lastBlockSent (Hub.forkable h3) with
       | Some hd => path (forkDB (Hub.forkable h3)) (Id hd) pending (LIBID (forkDB (Hub.forkable h3)))
       | None => pending = []
       end /\ (Hub.terminated s = None -> rest = [])) /\
    (let '(kept, stopped) := cut stop (filter (passes newOrUndo) evs) in
     sent = kept /\ r.1 = (if stopped then Err Stream.ErrStopBlockReached else Stream.reported last)) /\
    exists st, stack (v_pending held_view ++ [v_final held_view]) sent = Some st.
Proof.
  intros Hpos Hdec Hlib Hes hub0 hub live blocks held_view Hroom Hch Hst Hs Hle Hnone Hno Eopt Hh Hg Hf Eb Hm Hu HP r sent.
  assert (Hopt : preprocFunc fs = None /\ hasIndexProvider fs = false).
  { unfold SourceOptions in Eopt. destruct (refs c) as [[l b]|?|?|]; [|done..]. injection Eopt as <-. unfold stop_options.
    by destruct (stop =? 0). }
  destruct (resumed_source FileExists late fuel _ _ _ _ _ _ _ _ _ _ _ _ Eopt Hh (proj1 Hopt) (proj2 Hopt) Hf Eb Hm Hu HP)
    as (replay & finals & top & bs & Hr & Efile & _). fold blocks held_view in Hr.
  pose proof Hr as [Hrep Hheight Hfin Hchain (below & Ebs)].
  assert (Hin : forall b, b ∈ bs -> b ∈ blocks) by (intros b Hb; rewrite Ebs; set_solver).
  assert (Hgb : Forall (good unum) bs) by (rewrite Ebs in Hg; by apply Forall_app in Hg as [_ ?]).
  assert (Hch' : same_chain unum clock objects_order env keep lib es time bs) by (intros t b blks Hb; by apply Hch, Hin).
  assert (Hno' : forall t ev, ev ∈ replay -> JoiningSource.SourceFromBlockNum live t (Number ev.1) = Ok None).
  { intros t ev Hev. apply Hno. rewrite Forall_forall in Hheight. by apply (Hheight ev). }
  pose proof (CursorResolver.resumption_consumed _ _ _ _ _ _ _ _ Hr) as Hfiles.
  set (src := JoiningSource.mkSource (replay ++ finals) e) in Efile.
  destruct (stream_over_files (NewFileSourceFactory FileExists late fuel) live headNum start stop (Some c) false src)
    as (evs & last & Hstr & Er); try done.
  - apply (a_lowest _ (live_answers unum Hpos clock objects_order Hdec env keep lib Hlib es Hes time nums Hroom)).
  - intros t ev _. apply (a_num _ (live_answers unum Hpos clock objects_order Hdec env keep lib Hlib es Hes time nums Hroom)).
  - by eapply consumed_stepable.
  - intros t ev lsrc [Hev|Hev]%elem_of_app El; cbn [rejoin] in El; [by rewrite (Hno' t ev Hev) in El|].
    apply list_elem_of_lookup in Hev as [i Hi]. destruct (Forall2_lookup_l _ _ _ _ _ Hfin Hi) as (b & Hb & Eev & _).
    apply list_elem_of_lookup_2 in Hb. rewrite Eev in El.
    destruct (live_follows unum Hpos clock objects_order Hdec env keep lib Hlib es Hes time nums Hroom bs t b lsrc Hch' Hb
      (proj1 (Forall_forall _ _) Hgb b Hb) El) as (l & h & s & rest & pending & _ & _ & -> & C & _).
    apply consumed_stepable in C. by apply Forall_app in C as [C _].
  - exists replay, finals, top, bs, evs, last. split; [exact Hr|]. cbv zeta in Er.
    change (r = (if (cut stop (filter (passes newOrUndo) evs)).2 then Err Stream.ErrStopBlockReached
      else Stream.reported last, reverse (cut stop (filter (passes newOrUndo) evs)).1)) in Er.
    assert (Hsent : sent = (cut stop (filter (passes newOrUndo) evs)).1 /\
      r.1 = (if (cut stop (filter (passes newOrUndo) evs)).2 then Err Stream.ErrStopBlockReached else Stream.reported last)).
    { unfold sent. rewrite Er. cbn [fst snd]. by rewrite reverse_involutive. }
    destruct (live_stream_after unum Hpos clock objects_order Hdec env keep lib Hlib es Hes time nums Hroom held_view replay finals bs top
      e evs last Hch' Hgb Hrep Hno' Hfin Hchain Hstr) as [[-> ->]|(pre' & b & post' & t & l & h & s & rest & pending & Hj)].
    + split; [by left|]. split; [by destruct (cut stop _)|]. destruct Hsent as [-> _].
      eapply (sent_stack stop held_view _ _ []). by rewrite app_nil_r.
    + cbv zeta in Hj. split; [right; by exists pre', b, post', t, l, h, s, rest, pending|].
      split; [by destruct (cut stop _)|]. destruct Hsent as [-> _]. destruct Hj as (_ & _ & _ & _ & _ & C & _).
      by eapply (sent_stack stop held_view).
Qed.

(** *** The example: the client left on 5b over 3a; the files go to 7a, the hub starts at 6a *)

Section Example.
#[local] Existing Instance ForkableProps.proto0.
#[local] Existing Instance FileSourceProps.no_index.

Definition one_block_5b : string := "0000000005-5b-4a-3-x".
#[local] Instance files_store : Store := {|
  WalkFrom := fun _ _ => ([one_block_5b], None);
  Walk := fun _ => ([one_block_5b], None);
  OpenObject := fun name =>
    if decide (name = bundle0) then Ok "234567" else if decide (name = one_block_5b) then Ok name else Err ErrNotFound;
|}.

(** A message is one digit, or a whole one-block file. *)
#[local] Instance digits_or_file : DBin := {|
  ReadHeader := fun data => Ok ("", data);
  ReadMessage := fun src =>
    match src with
    | "" => ("", Some EOF, "")
    | String d rest => if (String.length src <=? 6)%nat then (String d "", None, rest) else (src, None, "")
    end;
  UnmarshalBlock := fun m =>
    match m with
    | String d "" => if (2 <=? nat_of_ascii d - 48)%nat then Ok (ex_digit d) else Err (EMsg "proto: cannot parse")
    | _ => if decide (m = one_block_5b) then f ← NewOneBlockFile m; Ok (ToBstreamBlock f) else Err (EMsg "proto: cannot parse")
    end;
  UnmarshalBlockMeta := fun _ => Err (EMsg "not a block meta");
  LookupEnv := fun _ => false;
|}.

Definition far_lib : BlockRef := NewBlockRef "5a" 5.
Definition far_blocks : list (hub_event unit (list (event unit))) :=
  (fun x => LiveBlock (ForkableProps.ex_block x.1.1 x.1.2 x.2) None) <$>
    [("6a", "5a", 4); ("7a", "6a", 5); ("8a", "7a", 6); ("9a", "8a", 7)].
Definition far_life : list (hub_event unit (list (event unit))) := far_blocks ++ replicate 6 (Reads 0%nat).
Definition far_time (t : nat) : nat := match t with O => O | _ => length far_blocks end.
#[local] Notation far_hub0 := (Hub.NewForkableHub (O := unit) (HS := list (event unit)) "" 10 [WithExclusiveLIB far_lib]).
#[local] Notation far_live := (live_hub ex_clock ex_order far_hub0 far_life far_time []).
Definition far_stream : outcome unit * list (event unit) :=
  Stream.Run (Stream.New (NewFileSourceFactory has_bundle [] 2) far_live 9 3 recorder
    [Stream.WithCursor (Some FileSourceProps.ex_client); Stream.WithStopBlock 8]) [].
Definition far_bundle : list (list Block) :=
  [[ex_digit "2"%char; ex_digit "3"%char; ex_digit "4"%char; ex_digit "5"%char; ex_digit "6"%char; ex_digit "7"%char]].
Definition far_fs : FileSource unit := NewFileSource 3 [FileSourceWithStopBlock 8; FileSourceWithWhitelistedBlocks [3; 4; 5; 6]].

Example far_stream_summary : far_stream.1 = Err Stream.ErrStopBlockReached /\
  join_summary (reverse far_stream.2) =
    [(Some StepUndo, "5b"); (Some StepNewIrreversible, "5a"); (Some StepNewIrreversible, "6a"); (Some StepNewIrreversible, "7a");
     (Some StepNew, "8a")].
Proof. split; vm_compute; reflexivity. Qed.

Lemma far_decoded name b : Hub.decode name = Ok b -> good ForkableProps.ex_num b.
Proof.
  unfold Hub.decode, Hub.decodeOneBlockFromFilename. cbn [OpenObject files_store].
  repeat case_decide; subst; try discriminate; intros E; vm_compute in E; injection E as <-;
    repeat constructor; try discriminate; vm_compute; congruence.
Qed.

Lemma far_room t : roomy (hub_at ex_clock ex_order far_hub0 far_life (far_time t)).
Proof. destruct t; (split; [by vm_compute|vm_compute; reflexivity]). Qed.

Lemma far_same : same_chain ForkableProps.ex_num ex_clock ex_order "" 10 far_lib far_life far_time (requested far_fs far_bundle).
Proof.
  intros [|t] b blks Hb E.
  - repeat (apply elem_of_cons in Hb as [->|Hb]; [vm_compute in E; discriminate E|]). by apply elem_of_nil in Hb.
  - do 3 (apply elem_of_cons in Hb as [->|Hb]; [vm_compute in E; discriminate E|]).
    assert (LIBID (forkDB (Hub.forkable (hub_at ex_clock ex_order far_hub0 far_life (far_time (S t))))) = "7a") as E7
      by by vm_compute.
    unfold final_in_hub. cbv zeta. rewrite E7. apply elem_of_cons in Hb as [->|Hb]; [|apply list_elem_of_singleton in Hb as ->].
    + split; [by vm_compute|]. split; [|by vm_compute]. exists ["7a"]. walk.
    + split; [by vm_compute|]. split; [|by vm_compute]. exists []. walk.
Qed.

Lemma far_below t n : 3 <= n <= 5 -> JoiningSource.SourceFromBlockNum far_live t n = Ok None.
Proof.
  intros Hn. assert (n = 3 \/ n = 4 \/ n = 5) as Hn3 by lia. destruct t; destruct Hn3 as [-> | [-> | ->]]; vm_compute; reflexivity.
Qed.

Lemma far_holds : held has_bundle far_fs far_bundle (Err ErrStopBlockReached).
Proof.
  split; [by vm_compute|by vm_compute|done|by vm_compute| |by apply ends_stop].
  intros [|i] blocks Hi; [|done]. injection Hi as <-.
  split; [by vm_compute|]. split; [repeat constructor; by vm_compute|].
  eexists _, _. split; [vm_compute; reflexivity|]. split; [vm_compute; reflexivity|].
  repeat (eapply reads_block; [vm_compute; reflexivity|cbn; lia|]). by apply reads_end.
Qed.

Lemma far_position :
  CursorResolver.position (NewBlockRef "5b" 5) (NewBlockRef "3a" 3)
    ([FileSourceProps.ex_event "3"; FileSourceProps.ex_event "4"] ++ [FileSourceProps.ex_event "5"]).*1 (ex_digit "5") ["5b"; "4a"].
Proof.
  eapply (CursorResolver.forked _ _ _ _ _ {["5b" := ex_5b_file]} [FileSourceProps.ex_5b] [ex_digit "3"; ex_digit "4"] _
            [ex_digit "5"]); try done.
  - split.
    + vm_compute. by split.
    + apply Forall_singleton. split; [vm_compute; split; congruence|]. exists ex_5b_file.
      split_and!; vm_compute; reflexivity.
    + split; [right; left|vm_compute; congruence].
    + apply Forall_singleton. repeat (apply Forall_cons; split; [vm_compute; reflexivity|]). constructor.
    + intros m Hm Hs. repeat (apply elem_of_cons in Hm as [->|Hm]; [first [reflexivity|vm_compute in Hs; congruence]|]).
      by apply elem_of_nil in Hm.
  - apply NoDup_singleton.
  - by exists FileSourceProps.ex_5b, [].
Qed.

Lemma cursor_in_files_witness :
  (exists st, stack ["5b"; "4a"; "3a"] (reverse far_stream.2) = Some st) /\
  join_summary (reverse far_stream.2) =
    [(Some StepUndo, "5b"); (Some StepNewIrreversible, "5a"); (Some StepNewIrreversible, "6a"); (Some StepNewIrreversible, "7a");
     (Some StepNew, "8a")].
Proof.
  split; [|vm_compute; reflexivity].
  destruct (cursor_in_files has_bundle [] 2 ForkableProps.ex_num ex_clock ex_order "" 10 far_lib far_life far_time [] 9 3 8
    far_bundle (Err ErrStopBlockReached) FileSourceProps.ex_client (NewBlockRef "5b" 5) (NewBlockRef "3a" 3) (ex_digit "3") far_fs
    [FileSourceProps.ex_event "3"; FileSourceProps.ex_event "4"] (FileSourceProps.ex_event "5")
    [FileSourceProps.ex_event "6"; FileSourceProps.ex_event "7"] ["5b"; "4a"])
    as (replay & finals & top & bs & evs & last & _ & _ & _ & st & E).
  - apply ex_num_pos.
  - exact far_decoded.
  - by split.
  - repeat constructor; try discriminate; vm_compute; congruence.
  - exact far_room.
  - exact far_same.
  - by vm_compute.
  - lia.
  - right. by vm_compute.
  - vm_compute. reflexivity.
  - exact far_below.
  - reflexivity.
  - exact far_holds.
  - repeat constructor; try discriminate; vm_compute; congruence.
  - cbn; lia.
  - reflexivity.
  - exact FileSourceProps.ex_stream.
  - done.
  - exact far_position.
  - exists st. exact E.
Defined.
End Example.
