(* ===== verification/PassThrough.v ===== *)
(** * Through a cursor, from the files

    The resolver in pass-through mode ([SourceThroughCursor] of filesource.go): it lets
    the blocks up to the final block of the cursor through, and keeps the others back
    until it meets the block of the cursor. *)

From S2P Require Import Prelude GoStrings Types Consumer OneBlockFiles CursorResolver FileSource FileSourceProps JoiningSource JoiningProps EndToEnd FromFiles.
From Stdlib Require Import Ascii.
Import OneBlockFiles FileSource EndToEnd.

Section PassThrough.
Import CursorResolver.
Context {O : Type} `{Protocol} `{DBin} `{Store}.
Context (c : Cursor) (block fin : BlockRef) (Hb : cBlock c = Some block) (Hf : LIB c = Some fin).
Notation R := (cursorResolver O (list (event O))).
Notation PB := (fun x : event O => ProcessBlock recorder c true x.1 x.2).
Implicit Types (l : list (event O)).

(** Up to the final block of the cursor. *)
Lemma low_step b o (f : R) : resolved f = false -> Number b <= Num fin ->
  PB (b, o) f = (Ok tt, mkResolver (mergedBlocksSeen f) (bool_decide (Num fin = Num block /\ Id b = ID block)) ((b, o) :: next f)).
Proof.
  intros Hr Hn. unfold ProcessBlock. erewrite bind_Ok by reflexivity. rewrite Hr. cbv iota beta. cbn [fst snd].
  unfold deref_num. rewrite Hf, Hb. cbn [deref mbind outcome_bind]. erewrite bind_mlift_Ok by reflexivity.
  destruct (Z.leb_spec (Number b) (Num fin)); [|lia]. cbn [andb]. erewrite bind_mlift_Ok by reflexivity.
  destruct (Z.eqb_spec (Num fin) (Num block)) as [E|E]; cbn [andb].
  - case_bool_decide as Ei; [rewrite bool_decide_true by done|rewrite bool_decide_false by (intros [_ ?]; done)];
      erewrite bind_Ok by reflexivity; rewrite forward_run; cbn; [done|by rewrite Hr].
  - rewrite bool_decide_false by (intros [? _]; done). erewrite bind_Ok by reflexivity. rewrite forward_run. by rewrite Hr.
Qed.

Lemma low_run l : forall (f : R), resolved f = false -> Forall (fun x => Number x.1 <= Num fin /\ Id x.1 <> ID block) l ->
  mfor l PB f = (Ok tt, mkResolver (mergedBlocksSeen f) false (reverse l ++ next f)).
Proof.
  induction l as [|[b o] l IH]; intros f Hr HF; [destruct f; cbn in Hr; by rewrite Hr|].
  apply Forall_cons in HF as [[Hn Ht] HF]. cbn [mfor]. erewrite bind_Ok by by apply low_step.
  rewrite bool_decide_false by by intros [_ ?].
  rewrite IH by done. cbn [mergedBlocksSeen next]. by rewrite reverse_cons, <- app_assoc.
Qed.

(** Above it, until the height of the cursor's block. *)
Lemma kept_run l : forall seen hs, Forall (fun x => Num fin < Number x.1 < Num block) l ->
  mfor l PB (mkResolver seen false hs) = (Ok tt, mkResolver (seen ++ l) false hs : R).
Proof.
  induction l as [|[b o] l IH]; intros seen hs HF; [by rewrite app_nil_r|].
  apply Forall_cons in HF as [[Hlo Hhi] HF]. cbn in Hlo, Hhi. cbn [mfor fst snd].
  erewrite (bind_Ok _ _ _ tt (mkResolver (seen ++ [(b, o)]) false hs)); [rewrite IH by done; by rewrite <- app_assoc|].
  unfold ProcessBlock. erewrite bind_Ok by reflexivity. cbn [resolved]. unfold deref_num. rewrite Hf, Hb.
  cbn [deref mbind outcome_bind]. erewrite bind_mlift_Ok by reflexivity.
  destruct (Z.leb_spec (Number b) (Num fin)); [lia|]. cbn [andb]. erewrite bind_mlift_Ok by reflexivity.
  erewrite bind_Ok by reflexivity. destruct (Z.ltb_spec (Number b) (Num block)); [done|lia].
Qed.

(** The kept objects already have the step they are sent with. *)
Lemma sendMerged_same lo hi todo : forall behind (f : R), mergedBlocksSeen f = behind ++ todo -> Forall fresh_merged todo ->
  Forall (fun x => within lo hi x.1) todo ->
  sendMerged_from recorder behind todo StepNewIrreversible lo hi f = (Ok tt, mkResolver (mergedBlocksSeen f) (resolved f) (reverse todo ++ next f)).
Proof.
  induction todo as [|[b o] todo IH]; intros behind f Hf' HF HW; [by destruct f|].
  apply Forall_cons in HF as [[(w & Ew & _) Hs] HF]. apply Forall_cons in HW as [[Hlo Hhi] HW].
  cbn in Ew, Hs, Hlo, Hhi. subst o. cbn [sendMerged_from].
  assert ((lo <? Number b) && (Number b <=? hi) = true) as -> by (apply andb_true_iff; split; [apply Z.ltb_lt|apply Z.leb_le]; lia).
  assert (set_step StepNewIrreversible w = w) as ->.
  { destruct w as [wo [st ? ? ?] ?]. cbn in Hs. injection Hs as ->. done. }
  erewrite bind_Ok by reflexivity. erewrite bind_Ok by (rewrite forward_run; reflexivity). cbn [mergedBlocksSeen resolved next].
  rewrite <- Hf'. rewrite IH; [|cbn; by rewrite Hf', <- app_assoc|done|done].
  cbn [mergedBlocksSeen resolved next]. by rewrite reverse_cons, <- app_assoc.
Qed.

(** The first block at the height of the cursor's block or above. *)
Lemma high_step b o seen hs : Num fin < Number b -> Num block <= Number b ->
  Forall fresh_merged (seen ++ [(b, o)]) -> Forall (fun x => within (Num fin) (Num block) x.1) seen ->
  (Id b = ID block -> Number b = Num block) ->
  PB (b, o) (mkResolver seen false hs) =
    if bool_decide (Id b = ID block)
    then (Ok tt, mkResolver (seen ++ [(b, o)]) true (reverse (seen ++ [(b, o)]) ++ hs))
    else (Err (EMsg "cannot resolve 'old cursor' from files in passthrough mode -- not implemented"), mkResolver (seen ++ [(b, o)]) false hs : R).
Proof.
  intros Hlo Hhi HF HW Hn. unfold ProcessBlock. erewrite bind_Ok by reflexivity. cbn [resolved fst snd]. unfold deref_num. rewrite Hf, Hb.
  cbn [deref mbind outcome_bind]. erewrite bind_mlift_Ok by reflexivity.
  destruct (Z.leb_spec (Number b) (Num fin)); [lia|]. cbn [andb]. erewrite bind_mlift_Ok by reflexivity.
  erewrite bind_Ok by reflexivity. destruct (Z.ltb_spec (Number b) (Num block)); [lia|]. case_bool_decide as Ei; [|done].
  erewrite bind_Ok by reflexivity. erewrite bind_mlift_Ok by reflexivity. unfold sendMergedBlocksBetween.
  erewrite bind_Ok by reflexivity. rewrite sendMerged_same; [done..| |].
  - exact HF.
  - apply Forall_app. split; [exact HW|]. constructor; [|constructor]. unfold within. cbn [fst]. rewrite (Hn Ei) in *. lia.
Qed.

Lemma resolved_run l : forall (f : R), resolved f = true ->
  mfor l PB f = (Ok tt, mkResolver (mergedBlocksSeen f) true (reverse l ++ next f)).
Proof.
  induction l as [|[b o] l IH]; intros f Hr; [destruct f; cbn in Hr; by rewrite Hr|]. cbn [mfor].
  erewrite bind_Ok.
  2: { unfold ProcessBlock. erewrite bind_Ok by reflexivity. rewrite Hr. apply forward_run. }
  rewrite IH by done. by rewrite reverse_cons, <- app_assoc.
Qed.

(** A sorted list is cut by a height. *)
Lemma increasing_cut n l : increasing l.*1 ->
  exists lo hi, l = lo ++ hi /\ Forall (fun x => Number x.1 <= n) lo /\ Forall (fun x => n < Number x.1) hi.
Proof.
  induction l as [|x l IH]; intros Hi; [by exists [], []|]. cbn in Hi. inversion Hi as [|? ? Hi' Hx]; subst.
  destruct (decide (Number x.1 <= n)) as [Hle|Hgt].
  - destruct (IH Hi') as (lo & hi & -> & Hlo & Hhi). exists (x :: lo), hi. split; [done|]. split; [by constructor|done].
  - exists [], (x :: l). split; [done|]. split; [constructor|]. constructor; [lia|].
    rewrite Forall_fmap in Hx. eapply Forall_impl; [exact Hx|]. cbn. intros y Hy. lia.
Qed.

(** What a client behind the resolver gets of the merged blocks, and how the resolver
    ends. *)
Definition not_implemented : error :=
  EMsg "cannot resolve 'old cursor' from files in passthrough mode -- not implemented".

Definition passed_through l : list (event O) * outcome unit :=
  if decide (Exists (fun x => Id x.1 = ID block) l) then (l, Ok tt)
  else (filter (fun x => Number x.1 <= Num fin) l,
        if decide (Exists (fun x => Num fin < Number x.1 /\ Num block <= Number x.1) l) then Err not_implemented else Ok tt).

Context (Hle : Num fin <= Num block).

(** The heights of a sorted list around one of its blocks. *)
Lemma around_target a (t : event O) l : increasing (a ++ t :: l).*1 -> Id t.1 = ID block -> Number t.1 = Num block ->
  (forall x, x ∈ a ++ t :: l -> Id x.1 = ID block -> Number x.1 = Num block) ->
  Forall (fun x => Number x.1 < Num block /\ Id x.1 <> ID block) a.
Proof.
  intros Hi Et En Hid. rewrite fmap_app, fmap_cons in Hi. apply increasing_split in Hi as [Ha _].
  rewrite Forall_fmap in Ha. apply Forall_forall. intros x Hx. rewrite Forall_forall in Ha. specialize (Ha x Hx). cbn in Ha.
  split; [lia|]. intros Ex. rewrite (Hid x ltac:(set_solver) Ex) in Ha. lia.
Qed.

Lemma passes_target a t l : increasing (a ++ t :: l).*1 -> Forall fresh_merged (a ++ t :: l) ->
  Id t.1 = ID block -> (forall x, x ∈ a ++ t :: l -> Id x.1 = ID block -> Number x.1 = Num block) ->
  exists seen, mfor (a ++ t :: l) PB (newCursorResolverHandler []) = (Ok tt, mkResolver seen true (reverse (a ++ t :: l))).
Proof.
  intros Hi HF Et Hid. pose proof (Hid t ltac:(set_solver) Et) as En.
  pose proof (around_target _ _ _ Hi Et En Hid) as Ha. destruct t as [b o]. cbn [fst] in Et, En.
  destruct (decide (Num fin = Num block)) as [E|Hne].
  - exists []. erewrite mfor_app.
    2: { apply low_run; [done|]. eapply Forall_impl; [exact Ha|]. cbn. intros x [? ?]. split; [lia|done]. }
    cbn [mfor]. erewrite bind_Ok by (apply low_step; [done|lia]). rewrite bool_decide_true by done.
    rewrite resolved_run by done. cbn. by rewrite reverse_app, reverse_cons, app_nil_r, <- app_assoc.
  - assert (Hia : increasing a.*1) by (rewrite fmap_app in Hi; by apply StronglySorted_app in Hi as (_ & ? & _)).
    destruct (increasing_cut (Num fin) a Hia) as (lo & mid & -> & Hlo & Hmid). exists (mid ++ [(b, o)]).
    apply Forall_app in Ha as [Halo Hamid]. rewrite <- app_assoc. erewrite mfor_app.
    2: { apply low_run; [done|]. apply Forall_forall. intros x Hx. rewrite Forall_forall in Hlo, Halo. split; [auto|]. by apply Halo. }
    assert (Hm2 : Forall (fun x => Num fin < Number x.1 < Num block) mid).
    { apply Forall_forall. intros x Hx. rewrite Forall_forall in Hmid, Hamid. split; [auto|]. by apply Hamid. }
    erewrite mfor_app by by apply kept_run. cbn [mfor app].
    erewrite bind_Ok.
    2: { rewrite high_step; [rewrite bool_decide_true by done; reflexivity|lia|lia| | |done].
         - rewrite <- app_assoc in HF. apply Forall_app in HF as [_ HF]. change ((b, o) :: l) with ([(b, o)] ++ l) in HF.
           rewrite app_assoc in HF. by apply Forall_app in HF as [? _].
         - eapply Forall_impl; [exact Hm2|]. unfold within. cbn. intros x ?. lia. }
    rewrite resolved_run by done. cbn [mergedBlocksSeen next newCursorResolverHandler]. f_equal. f_equal.
    rewrite app_nil_r, <- !reverse_app. f_equal. by rewrite <- !app_assoc.
Qed.

Lemma filter_low lo hi : Forall (fun x : event O => Number x.1 <= Num fin) lo -> Forall (fun x => Num fin < Number x.1) hi ->
  filter (fun x : event O => Number x.1 <= Num fin) (lo ++ hi) = lo.
Proof.
  intros Hlo Hhi. rewrite filter_app, filter_all, filter_nothing, app_nil_r; [done| |done].
  eapply Forall_impl; [exact Hhi|]. cbn. intros x ?. lia.
Qed.

Lemma passes_without l : increasing l.*1 -> Forall fresh_merged l -> ~ Exists (fun x => Id x.1 = ID block) l ->
  exists seen, mfor l PB (newCursorResolverHandler []) =
    ((passed_through l).2, mkResolver seen false (reverse (passed_through l).1)).
Proof.
  intros Hi HF Hno. unfold passed_through. rewrite decide_False by done. cbn [fst snd].
  assert (Hnot : forall x, x ∈ l -> Id x.1 <> ID block) by (intros x Hx E; apply Hno, Exists_exists; by exists x).
  destruct (increasing_cut (Num fin) l Hi) as (lo & hi & -> & Hlo & Hhi). rewrite filter_low by done.
  rewrite fmap_app in Hi. apply StronglySorted_app in Hi as (_ & _ & Hi).
  destruct (increasing_cut (Num block - 1) hi Hi) as (mid & top & -> & Hmid & Htop).
  apply Forall_app in HF as [_ HF]. pose proof Hhi as Hhi0. apply Forall_app in Hhi as [Hmlo Htlo].
  erewrite mfor_app.
  2: { apply low_run; [done|]. apply Forall_forall. intros x Hx. split; [by apply (proj1 (Forall_forall _ _) Hlo)|apply Hnot; set_solver]. }
  assert (Hm2 : Forall (fun x => Num fin < Number x.1 < Num block) mid).
  { apply Forall_forall. intros x Hx. rewrite Forall_forall in Hmid, Hmlo. specialize (Hmid x Hx). specialize (Hmlo x Hx). lia. }
  erewrite mfor_app by by apply kept_run. cbn [newCursorResolverHandler mergedBlocksSeen next app].
  assert (Hlo' : Exists (fun x => Num fin < Number x.1 /\ Num block <= Number x.1) (lo ++ mid ++ top) <-> top <> []).
  { rewrite Exists_exists. split.
    - intros (x & Hx & Hx1 & Hx2) ->. rewrite app_nil_r in Hx. apply elem_of_app in Hx as [Hx|Hx].
      + rewrite Forall_forall in Hlo. specialize (Hlo x Hx). lia.
      + rewrite Forall_forall in Hm2. specialize (Hm2 x Hx). lia.
    - destruct top as [|x top]; [done|]. intros _. apply Forall_cons in Htop as [Ht _]. apply Forall_cons in Htlo as [Ht2 _].
      exists x. split; [set_solver|lia]. }
  destruct top as [|[b o] top].
  - exists mid. cbn [mfor]. rewrite decide_False by (rewrite Hlo'; intros Hn; by apply Hn). by rewrite app_nil_r.
  - exists (mid ++ [(b, o)]). rewrite decide_True by (by apply Hlo'). cbn [mfor].
    apply Forall_cons in Htop as [Ht _]. apply Forall_cons in Htlo as [Ht2 _]. cbn in Ht, Ht2.
    assert (Hb2 : Id b <> ID block) by (apply (Hnot (b, o)); set_solver).
    erewrite bind_Err.
    2: { rewrite high_step; [rewrite bool_decide_false by done; reflexivity|lia|lia| | |done].
         - change ((b, o) :: top) with ([(b, o)] ++ top) in HF. rewrite app_assoc in HF. by apply Forall_app in HF as [? _].
         - eapply Forall_impl; [exact Hm2|]. unfold within. cbn. intros x ?. lia. }
    by rewrite app_nil_r.
Qed.

(** The resolver on sorted merged blocks. *)
Lemma resolver_passes l : increasing l.*1 -> Forall fresh_merged l ->
  (forall x, x ∈ l -> Id x.1 = ID block -> Number x.1 = Num block) ->
  exists f, mfor l PB (newCursorResolverHandler []) = ((passed_through l).2, f) /\ next f = reverse (passed_through l).1.
Proof.
  intros Hi HF Hid. destruct (decide (Exists (fun x => Id x.1 = ID block) l)) as [Hex|Hno].
  - unfold passed_through. rewrite decide_True by done. apply Exists_exists in Hex as (t & Ht & Et).
    apply list_elem_of_split in Ht as (a & b & ->). destruct (passes_target a t b Hi HF Et Hid) as [seen E].
    eexists. by split; [exact E|].
  - destruct (passes_without l Hi HF Hno) as [seen E]. eexists. by split; [exact E|].
Qed.
End PassThrough.

(** ** The file source through a cursor *)

Section Through.
Context {O : Type} `{Protocol} `{DBin} `{Store} `{BlockIndexProvider}.
Context (FileExists : string -> outcome bool) (late : list bool) (fuel : nat).

(** The whitelist does not matter without an index. *)
Lemma held_whitelist (s : FileSource O) ns files e :
  held FileExists s files e -> held FileExists (FileSourceWithWhitelistedBlocks ns s) files e.
Proof. intros [Hs Hz Hn Hr Hb He]. split; try done. by destruct He; constructor. Qed.

Lemma file_events_fresh blocks : Forall (CursorResolver.fresh_merged (O := O)) (file_event <$> blocks).
Proof. induction blocks as [|b blocks IH]; [constructor|]. rewrite fmap_cons. constructor; [|exact IH]. split; [|done]. by eexists. Qed.

Lemma file_events_filter (P : Block -> Prop) `{forall b, Decision (P b)} (blocks : list Block) :
  filter (fun x : event O => P x.1) (file_event <$> blocks) = file_event <$> filter P blocks.
Proof.
  induction blocks as [|b blocks IH]; [done|]. rewrite fmap_cons, !filter_cons. cbn [fst file_event].
  destruct (decide (P b)); [by rewrite fmap_cons, IH|exact IH].
Qed.

Lemma file_events_exist (P : Block -> Prop) (blocks : list Block) :
  Exists (fun x : event O => P x.1) (file_event <$> blocks) <-> Exists P blocks.
Proof.
  rewrite !Exists_exists. split; [intros (x & (b & -> & Hb)%list_elem_of_fmap & Hp); by exists b|].
  intros (b & Hb & Hp). exists (file_event b). split; [by apply list_elem_of_fmap_2|done].
Qed.

(** What the resolver lets through of these blocks. *)
Definition let_through (block fin : BlockRef) (blocks : list Block) : list Block :=
  if decide (Exists (fun b => Id b = ID block) blocks) then blocks else filter (fun b => Number b <= Num fin) blocks.

Lemma let_through_prefix block fin blocks : CursorResolver.increasing blocks ->
  exists above_, blocks = let_through block fin blocks ++ above_.
Proof.
  intros Hi. unfold let_through. case_decide; [exists []; by rewrite app_nil_r|].
  destruct (increasing_cut (O := O) (Num fin) (file_event <$> blocks)) as (lo & hi & E & Hlo & Hhi); [by rewrite file_event_blocks|].
  exists hi.*1. pose proof (f_equal (fmap fst) E) as Eb. rewrite file_event_blocks, fmap_app in Eb.
  pose proof (file_events_filter (fun b => Number b <= Num fin) blocks) as Ef. cbn beta in Ef.
  assert (El : filter (fun x : event O => Number x.1 <= Num fin) (file_event <$> blocks) = lo) by (rewrite E; by apply filter_low).
  rewrite Ef in El. apply (f_equal (fmap fst)) in El. rewrite file_event_blocks in El. by rewrite El.
Qed.

Definition through_end (block fin : BlockRef) (blocks : list Block) (e : outcome unit) : outcome unit :=
  if decide (Exists (fun b => Id b = ID block) blocks) then e
  else if decide (Exists (fun b => Num fin < Number b /\ Num block <= Number b) blocks) then Err not_implemented else e.

Lemma passed_file_events block fin blocks e :
  (passed_through block fin (file_event (O := O) <$> blocks)).1 = file_event <$> let_through block fin blocks /\
  match (passed_through block fin (file_event (O := O) <$> blocks)).2 with
  | Ok _ => e
  | _ => (passed_through block fin (file_event (O := O) <$> blocks)).2
  end = through_end block fin blocks e.
Proof.
  unfold passed_through, let_through, through_end.
  pose proof (file_events_exist (fun b => Id b = ID block) blocks) as E1.
  pose proof (file_events_exist (fun b => Num fin < Number b /\ Num block <= Number b) blocks) as E2.
  destruct (decide (Exists (fun x : event O => Id x.1 = ID block) _)) as [Hx|Hx].
  { rewrite !decide_True by by apply E1. done. }
  rewrite !(decide_False (P := Exists (fun b => Id b = ID block) blocks)) by (intros Hy; by apply Hx, E1).
  cbn [fst snd]. split; [exact (file_events_filter (fun b => Number b <= Num fin) blocks)|].
  destruct (decide (Exists (fun x : event O => Num fin < Number x.1 /\ Num block <= Number x.1) _)) as [Hz|Hz].
  - by rewrite decide_True by by apply E2.
  - by rewrite decide_False by (intros Hy; by apply Hz, E2).
Qed.

Lemma through_source options n c block fin files e :
  let s := NewFileSource (O := O) n options in
  let blocks := requested s files in
  cBlock c = Some block -> LIB c = Some fin -> Num fin <= Num block ->
  held FileExists s files e -> preprocFunc s = None -> hasIndexProvider s = false ->
  linked "" blocks -> CursorResolver.increasing blocks -> (forall b, b ∈ blocks -> Id b = ID block -> Number b = Num block) ->
  (length files < fuel)%nat ->
  file_source FileExists late fuel options (ThroughCursor n c) =
    Ok (Some (JoiningSource.mkSource (file_event <$> let_through block fin blocks) (through_end block fin blocks e))) /\
  forall HS (h : Handler O HS) hs, SourceRun FileExists h late options (ThroughCursor n c) fuel hs =
    (ended (deliver h (file_event <$> let_through block fin blocks) hs).1 (through_end block fin blocks e),
     (deliver h (file_event <$> let_through block fin blocks) hs).2).
Proof.
  intros s blocks Hcb Hcl Hle Hh Hp Hidx Hl Hi Hid Hf.
  set (ns := n :: around fin ++ around block).
  assert (Es : SourceOptions options (ThroughCursor n c) = Ok (FileSourceWithWhitelistedBlocks ns s)).
  { unfold SourceOptions, refs. rewrite Hcb, Hcl. cbn [deref mbind outcome_bind]. unfold NewFileSource. by rewrite foldl_app. }
  destruct (resolver_passes c block fin Hcb Hcl Hle (file_event (O := O) <$> blocks)) as (f & E & En).
  - by rewrite file_event_blocks.
  - apply file_events_fresh.
  - intros x (b & -> & Hb)%list_elem_of_fmap. by apply Hid.
  - destruct (passed_file_events block fin blocks e) as [E1 <-]. rewrite E1 in En.
    apply (cursor_source FileExists late fuel options (ThroughCursor n c) c true _ files e _ f _ (ex_intro _ n eq_refl) Es
      (held_whitelist s ns files e Hh) Hp Hidx Hl Hf E); [|exact En].
    unfold passed_through. repeat case_decide; [by left|right; by eexists|by left].
Qed.
End Through.

(** C14: a file source through a cursor, over bundles of linked blocks without an index:
    when the block of the cursor is among them, whatever the handler, the source is
    the one that starts from the same number without a cursor, however long the
    resolver kept blocks back; when it is not (it is on a branch, or above the
    files), the handler is given the blocks up to the final block of the cursor
    and nothing else, and the source fails at the height of the cursor with the error for
    what is not implemented, or ends as the files do when they do not reach it. *)
Theorem through_files {O} `{Protocol} `{DBin} `{Store} `{BlockIndexProvider} FileExists late fuel options n c block fin files e :
  let s := NewFileSource (O := O) n options in
  let blocks := requested s files in
  cBlock c = Some block -> LIB c = Some fin -> Num fin <= Num block ->
  held FileExists s files e -> preprocFunc s = None -> hasIndexProvider s = false ->
  linked "" blocks -> CursorResolver.increasing blocks -> (forall b, b ∈ blocks -> Id b = ID block -> Number b = Num block) ->
  (length files < fuel)%nat ->
  forall HS (h : Handler O HS) hs,
  let through := SourceRun FileExists h late options (ThroughCursor n c) fuel hs in
  (Exists (fun b => Id b = ID block) blocks -> through = SourceRun FileExists h late options (FromBlockNum n) fuel hs) /\
  (~ Exists (fun b => Id b = ID block) blocks ->
     let '(failure, hs') := deliver h (file_event <$> filter (fun b => Number b <= Num fin) blocks) hs in
     through = (ended failure (if decide (Exists (fun b => Num fin < Number b /\ Num block <= Number b) blocks)
                               then Err not_implemented else e), hs')).
Proof.
  intros s blocks Hcb Hcl Hle Hh Hp Hidx Hl Hi Hid Hf HS h hs through.
  destruct (through_source FileExists late fuel options n c block fin files e Hcb Hcl Hle Hh Hp Hidx Hl Hi Hid Hf) as [_ E].
  unfold through. rewrite (E HS h hs). unfold let_through, through_end. fold s blocks. split; intros Hx.
  - rewrite !decide_True by done.
    by destruct (file_source_faithful FileExists late fuel options n files e h hs Hh Hp Hidx Hl Hf) as [_ ->].
  - rewrite !(decide_False (P := Exists (fun b => Id b = ID block) blocks)) by done. by destruct (deliver h _ hs).
Qed.

(** *** The example: the blocks from 3, through 5a and through 5b *)

Section Example.
#[local] Existing Instance FileSourceProps.proto0.
#[local] Existing Instance FileSourceProps.no_index.
#[local] Existing Instance FileSourceProps.ex_store.
#[local] Existing Instance FileSourceProps.ex_dbin.

Definition on_5a : Cursor :=
  mkCursor StepNew (Some (NewBlockRef "5a" 5)) (Some (NewBlockRef "3a" 3)) (Some (NewBlockRef "5a" 5)).

Lemma ex_files_held : held ex_exists (NewFileSource (O := unit) 3 ex_options) ex_files (Err ErrStopBlockReached).
Proof. split; [by vm_compute|by vm_compute|done|by vm_compute|by apply ex_bundles|by apply ends_stop]. Qed.

Definition through_run (c : Cursor) : outcome unit * list (event unit) :=
  SourceRun ex_exists recorder [] ex_options (ThroughCursor 3 c) 3 [].

Lemma through_files_witness :
  through_run on_5a = SourceRun ex_exists recorder [] ex_options (FromBlockNum 3) 3 [] /\
  Id <$> (reverse (through_run on_5a).2).*1 = ["3a"; "4a"; "5a"; "6a"; "7a"] /\
  (through_run ex_client).1 = Err not_implemented /\ Id <$> (reverse (through_run ex_client).2).*1 = ["3a"].
Proof.
  split; [|split_and!; vm_compute; reflexivity].
  refine (proj1 (through_files ex_exists [] 3 ex_options 3 on_5a (NewBlockRef "5a" 5) (NewBlockRef "3a" 3) ex_files
    (Err ErrStopBlockReached) eq_refl eq_refl _ ex_files_held eq_refl eq_refl _ _ _ _ _ recorder []) _).
  - by vm_compute.
  - repeat (split; [by (left + right)|]); exact I.
  - repeat constructor.
  - intros b Hb E. repeat (apply elem_of_cons in Hb as [->|Hb]; [first [reflexivity|discriminate E]|]). by apply elem_of_nil in Hb.
  - cbn; lia.
  - apply Exists_exists. exists (ex_digit "5"%char). split; [right; right; left|reflexivity].
Defined.
End Example.
