(* ===== verification/TargetFiles.v ===== *)
(** * Through a cursor, from the files to the hub

    A stream from a block number through a cursor ([WithTargetCursor]), when the hub
    does not have the number: the file source lets through what it can, and the hub
    is asked for each of these blocks, through the cursor as long as it is not
    passed. *)

From S2P Require Import Prelude GoStrings Types ForkDB ForkDBFacts Forkable Consumer ForkableFacts ForkableInv ForkableStep ForkableSend ForkableProps.
From S2P Require Import ForkableQueries Resume ResumeProps ResumeThrough ForkableSim OneBlockFiles CursorResolver FileSource FileSourceProps Hub HubProps.
From S2P Require Import Cursors JoiningSource JoiningProps Stream StreamProps LiveHub EndToEnd Targets FromFiles PassThrough.
From Stdlib Require Import Ascii.
Import FileSource LiveHub EndToEnd.

Section Composition.
Context {O : Type} `{Protocol} `{DBin} `{Store} (unum : string -> Z) (unum_pos : forall x, 0 <= unum x).
Context (clock : Block -> Z * Z) (objects_order : ForkDB loc -> list (string * option loc)).
Context (decode_good : forall name b, Hub.decode name = Ok b -> good unum b).
Context (env : string) (keep : Z) (lib : BlockRef) (lib_ok : ID lib <> "" /\ Num lib = unum (ID lib)).
Context (es : list (hub_event O (list (event O)))) (es_good : Forall (good_event unum) es).
Context (time : nat -> nat) (nums : list (string * Z)).
Notation hub0 := (Hub.NewForkableHub (O := O) (HS := list (event O)) env keep [WithExclusiveLIB lib]).
Notation hub k := (hub_at clock objects_order hub0 es k).
Notation live := (live_hub clock objects_order hub0 es time nums).
Notation db t := (forkDB (Hub.forkable (hub (time t)))).
Context (room : forall t, roomy (hub (time t))).
Context (c : Cursor) (block fin : BlockRef) (Hcb : cBlock c = Some block).

(** How a hub that has the final block [b] passes the cursor: it ignores a cursor
    that is behind, the block of the cursor is on the chain of its head, or it can
    be resumed above [b]. *)
Inductive passable (t : nat) (b : Block) : Prop :=
  | behind : Num block < Number b -> passable t b
  | on_head hd : Number b <= Num block -> lastBlockSent (Hub.forkable (hub (time t))) = Some hd ->
      Num block = unum (ID block) -> anc (db t) (Id hd) (ID block) -> passable t b
  | resumed hd pend : lastBlockSent (Hub.forkable (hub (time t))) = Some hd ->
      resumable_cursor unum (with_hstate [] (Hub.forkable (hub (time t)))) c block fin pend ->
      anc (db t) (ID fin) (Id b) -> anc (db t) (Id hd) (ID block) \/ anc (db t) (ID block) (LIBID (db t)) ->
      passable t b.

(** The files, the hub and the cursor are about the same chain: when the hub has
    anything for a block of the files, this block is final for it, and it passes
    the cursor. *)
Record same_target (t : nat) (b : Block) : Prop := {
  st_lib : LIBNum (db t) = unum (LIBID (db t));
  st_final : anc (db t) (LIBID (db t)) (Id b);
  st_link : links (db t) !! Id b = Some (ParentId b);
  st_room : forall blks, blocksThroughCursor (Hub.forkable (hub (time t))) (Number b) c = Ok blks ->
    Hub.sourceChannelSize (hub (time t)) + Z.of_nat (length blks) < two63;
  st_passable : passable t b;
}.

(** Where the client is when it has passed the cursor. *)
Definition met (t : nat) (b : Block) (held : View) : Prop :=
  Num block < Number b \/
  (exists hd, lastBlockSent (Hub.forkable (hub (time t))) = Some hd /\ anc (db t) (Id hd) (ID block)) \/
  exists pend, path (db t) (ID block) pend (ID fin) /\
    held = mkView (ID fin) (if decide (Step c = StepUndo) then tail pend else pend).

Notation hub_twin_at := (hub_at_twin unum unum_pos clock objects_order decode_good env keep lib lib_ok es es_good).

(** The query a hub makes for a cursor that is ahead. *)
Lemma through_query t b : same_target t b -> good unum b -> Number b <= Num block ->
  forall p hs up, Hub.forkable (hub (time t)) = with_hstate hs p -> Inv unum (mkView (ID lib) []) up p ->
  (forall h, lastBlockSent p = Some h -> good unum h) ->
  exists out back held, blocksThroughCursor p (Number b) c = Ok (out ++ back) /\
    consume (mkView (ParentId b) []) (as_cursor <$> out) = Some held /\
    consume held back = Some (mkView (LIBID (forkDB p)) up) /\ met t b held.
Proof.
  intros [HL Hfinal Hlink _ Hpass] Hg Hle p hs up Ep HI Hh. unfold met. rewrite (g_num _ _ Hg) in *.
  destruct Hpass as [Hlt|hd _ Hlast Hbn Hhd|hd pend Hlast Hrc Hfin Hbr]; [rewrite (g_num _ _ Hg) in Hlt; lia| |].
  - rewrite Ep in *. cbn in HL, Hfinal, Hlink, Hlast, Hhd |- *.
    destruct (through_chain unum _ up p hd c block (Id b) (ParentId b) unum_pos HI Hh Hlast HL Hcb Hfinal Hlink Hhd) as (out & E & C);
      [lia|]. exists out, [], (mkView (LIBID (forkDB p)) up). rewrite app_nil_r. split_and!; try done. right. left. by exists hd.
  - pose proof (rc_pend _ _ _ _ _ _ Hrc) as Hpend. cbn [with_hstate forkDB] in Hpend. rewrite Ep in *. cbn in HL, Hfinal, Hlink, Hlast, Hfin, Hbr, Hpend |- *.
    assert (Hrc' : resumable_cursor unum p c block fin pend) by by destruct Hrc.
    destruct (through_Inv unum _ up p hd c block fin pend (Id b) (ParentId b) unum_pos HI Hh Hlast HL Hrc' Hfin Hlink Hbr)
      as (out & back & held & Eb & C1 & C2 & _ & Hheld).
    exists out, back, held. do 3 (split; [done|]). right. destruct Hheld as [[_ ?]|[_ ?]]; [left; by exists hd|right; by exists pend].
Qed.

(** A hub that passes the cursor answers. *)
Lemma through_answers t b : same_target t b -> good unum b ->
  exists r, JoiningSource.SourceThroughCursor live t (Number b) (Some c) = Ok r.
Proof.
  intros Hst Hg. cbn [JoiningSource.SourceThroughCursor live_hub deref mbind outcome_bind].
  destruct (room t) as [Hsz _]. pose proof (hub_twin_at (time t)) as T. destruct (Z.lt_ge_cases (Num block) (Number b)) as [Hlt|Hle].
  - unfold Hub.SourceThroughCursor. rewrite Hcb. cbn [deref mbind outcome_bind].
    destruct (Z.ltb_spec (Num block) (Number b)); [|lia].
    destruct (hub_num_source unum _ _ _ nums (Number b) T (room t)) as [E|(blks & l & hs' & _ & _ & _ & E)]; rewrite E; by eexists.
  - pose proof T as [_ (p & Hsnd & Hs)]. destruct (similar_core _ _ _ Hs) as (hs & Ep & _). pose proof Hsnd as ([up HI] & Hh & _).
    destruct (through_query t b Hst Hg Hle p hs up Ep HI Hh) as (out & back & held & Eb & _).
    assert (Eb' : blocksThroughCursor (Hub.forkable (hub (time t))) (Number b) c = Ok (out ++ back))
      by (rewrite Ep, blocksThroughCursor_with; exact Eb).
    destruct (subscribe_fits (hub (time t)) (out ++ back) Hsz (st_room _ _ Hst _ Eb')) as (l & hs' & Esub).
    unfold Hub.SourceThroughCursor. rewrite Hcb. cbn [deref mbind outcome_bind]. destruct (Z.ltb_spec (Num block) (Number b)); [lia|].
    unfold Hub.subscribed, CallWithBlocksThroughCursor. rewrite Eb'. cbn [mbind outcome_bind]. unfold Hub.subscribe_all. rewrite Esub.
    by eexists.
Qed.

(** The subscription that the hub gives for [b], with what waits in its queue: it
    brings the client, by the cursors of its first events, from the parent of [b]
    past the cursor, and from there to the LIB and the chain of the hub. *)
Definition passes_cursor (t : nat) (b : Block) (l : loc) (h : Hub.ForkableHub O (list (event O))) (s : Hub.Subscription O (list (event O))) : Prop :=
  let h3 := hub_end clock objects_order es (time t) h in
  Hub.SourceThroughCursor recorder [] nums (hub (time t)) (Number b) c = Ok (Some l, h) /\
  Hub.sub_heap (hstate (Hub.forkable h3)) !! l = Some s /\
  exists out held later rest pending,
    reverse (Hub.sub_state s) ++ Hub.blocks s ++ rest = out ++ later /\
    consume (mkView (ParentId b) []) (as_cursor <$> out) = Some held /\ met t b held /\
    consume held later = Some (mkView (LIBID (forkDB (Hub.forkable h3))) pending) /\
    match lastBlockSent (Hub.forkable h3) with
    | Some hd => path (forkDB (Hub.forkable h3)) (Id hd) pending (LIBID (forkDB (Hub.forkable h3)))
    | None => pending = []
    end /\ (Hub.terminated s = None -> rest = []).

Lemma live_passes t b lsrc : same_target t b -> good unum b ->
  JoiningSource.SourceThroughCursor live t (Number b) (Some c) = Ok (Some lsrc) ->
  exists l h s, passes_cursor t b l h s /\ lsrc = JoiningSource.mkSource (reverse (Hub.sub_state s)) (sub_end (Hub.terminated s)).
Proof.
  intros Hst Hg E. destruct (Z.lt_ge_cases (Num block) (Number b)) as [Hlt|Hle].
  - assert (En : forall h : Hub.ForkableHub O (list (event O)),
      Hub.SourceThroughCursor recorder [] nums h (Number b) c = Hub.SourceFromBlockNum recorder [] nums h (Number b)).
    { intros h. unfold Hub.SourceThroughCursor. rewrite Hcb. cbn [deref mbind outcome_bind]. by destruct (Z.ltb_spec (Num block) (Number b)); [|lia]. }
    assert (E' : JoiningSource.SourceFromBlockNum live t (Number b) = Ok (Some lsrc)).
    { rewrite <- E. cbn [JoiningSource.SourceThroughCursor JoiningSource.SourceFromBlockNum live_hub deref mbind outcome_bind]. by rewrite En. }
    destruct (live_follows_final unum unum_pos clock objects_order decode_good env keep lib lib_ok es es_good time nums room t b lsrc) as
      (l & h & s & rest & pending & El & Hl & Es & C & La & Hr); [intros _ _; by destruct Hst|done|exact E'|].
    exists l, h, s. split; [|exact Es]. split; [by rewrite En|]. split; [exact Hl|].
    exists [], (mkView (ParentId b) []), (reverse (Hub.sub_state s) ++ Hub.blocks s ++ rest), rest, pending. split_and!; try done. by left.
  - cbn [JoiningSource.SourceThroughCursor live_hub deref mbind outcome_bind] in E.
    destruct (Hub.SourceThroughCursor recorder [] nums (hub (time t)) (Number b) c) as [[[l|] h]|e|w|] eqn:Eh; cbn [live_source] in E; try done.
    destruct (room t) as [Hsz _].
    destruct (through_follows_run unum clock objects_order keep (mkView (ID lib) []) nums (hub (time t)) c block (Number b) (ParentId b) (met t b)
      l h (drop (time t) es) _ unum_pos decode_good (hub_twin_at (time t)) (Forall_drop _ _ _ es_good) Hsz Hcb Hle
      (through_query t b Hst Hg Hle) (st_room _ _ Hst) Eh eq_refl)
      as (s & out & held & later & rest & pending & El & Er & C1 & Hmet & C2 & La & Hrest).
    fold (hub_end clock objects_order es (time t) h) in El, C2, La. rewrite El in E. cbn in E. injection E as <-.
    exists l, h, s. split; [|done]. split; [done|]. split; [done|]. exists out, held, later, rest, pending.
    unfold received in Er. rewrite <- app_assoc in Er. done.
Qed.
End Composition.

(** C6: a client that asks for the blocks from [start] through a cursor, when the hub
    does not have [start] and the bundles of the store do: it is given the final blocks
    that the files let through, all of them, or those up to some block and then the
    subscription that the hub gives for this very block, through the cursor or
    ignoring it when it is behind.  The subscription, with what waits in its queue,
    brings a client past the cursor ([met]: on its branch down to where the cursor
    left, unless the block of the cursor is on the chain of the hub) and then to the
    LIB and the chain of the hub, whatever the hub goes through; what the client is
    sent is the new and undone blocks of it, cut at the stop block; and it holds a
    chain at every moment, above the parent of the first block. *)
Theorem target_in_files {O} `{Protocol} `{DBin} `{Store} `{BlockIndexProvider} FileExists late fuel
  unum clock objects_order env keep lib es time nums headNum start stop files e c block fin top :
  (forall x, 0 <= unum x) -> (forall name b, Hub.decode name = Ok b -> good unum b) ->
  ID lib <> "" /\ Num lib = unum (ID lib) -> Forall (good_event unum) es ->
  let hub0 := Hub.NewForkableHub (O := O) env keep [WithExclusiveLIB lib] in
  let live := live_hub clock objects_order hub0 es time nums in
  let abs := Z.max start GetProtocolFirstStreamableBlock in
  let fs := NewFileSource (O := O) abs (stop_options stop) in
  let blocks := let_through block fin (requested fs files) in
  (forall t, roomy (hub_at clock objects_order hub0 es (time t))) ->
  cBlock c = Some block -> LIB c = Some fin -> Num fin <= Num block ->
  (forall t b, b ∈ blocks -> JoiningSource.SourceThroughCursor live t (Number b) (Some c) = Ok None \/
     same_target unum clock objects_order env keep lib es time c block fin t b) ->
  0 <= start < two63 -> 0 <= stop -> (stop = 0 \/ abs <= stop) ->
  JoiningSource.SourceThroughCursor live 0 abs (Some c) = Ok None ->
  held FileExists fs files e -> chained top (requested fs files) -> CursorResolver.increasing (requested fs files) ->
  (forall b, b ∈ requested fs files -> Id b = ID block -> Number b = Num block) -> Forall (good unum) (requested fs files) ->
  (length files < fuel)%nat ->
  let r := Stream.Run (Stream.New (NewFileSourceFactory FileExists late fuel) live headNum start recorder
             [Stream.WithTargetCursor (Some c); Stream.WithStopBlock stop]) [] in
  let sent := reverse r.2 in
  exists evs last,
    ((evs = file_event <$> blocks /\ last = through_end block fin (requested fs files) e) \/
     exists pre b post t l h s,
       blocks = pre ++ b :: post /\ passes_cursor clock objects_order env keep lib es time nums c block fin t b l h s /\
       evs = (file_event <$> pre) ++ reverse (Hub.sub_state s) /\ last = sub_end (Hub.terminated s)) /\
    (let '(kept, stopped) := cut stop (filter (passes newOrUndo) evs) in
     sent = kept /\ r.1 = (if stopped then Err Stream.ErrStopBlockReached else Stream.reported last)) /\
    exists st, stack [top] sent = Some st.
Proof.
  intros Hpos Hdec Hlib Hes hub0 live abs fs blocks Hroom Hcb Hcl Hle Hjoin Hst Hs Hstop Hnone Hh Hc Hi Hid Hg Hf r sent.
  assert (Hopt : preprocFunc fs = None /\ hasIndexProvider fs = false) by (unfold fs, stop_options; by destruct (stop =? 0)).
  destruct (through_source FileExists late fuel (stop_options stop) abs c block fin files e Hcb Hcl Hle Hh (proj1 Hopt) (proj2 Hopt)
    (chained_linked _ _ Hc) Hi Hid Hf) as [Efile _]. fold fs blocks in Efile.
  assert (Hpre : exists above_, requested fs files = blocks ++ above_) by by apply (let_through_prefix (O := O)).
  destruct Hpre as [above_ Hpre]. rewrite Hpre in Hc, Hg. apply CursorResolver.chained_app in Hc as [Hc _]. apply Forall_app in Hg as [Hg _].
  set (src := JoiningSource.mkSource (file_event <$> blocks) (through_end block fin (requested fs files) e)) in Efile.
  pose proof (file_events_final (O := O) blocks) as Hev.
  destruct (stream_over_files (NewFileSourceFactory FileExists late fuel) live headNum start stop (Some c) true src)
    as (evs & last & Hstr & Er); try done.
  - apply (a_lowest _ (live_answers unum Hpos clock objects_order Hdec env keep lib Hlib es Hes time nums Hroom)).
  - intros t ev (b & -> & Hb)%list_elem_of_fmap. cbn [rejoin fst file_event]. rewrite Forall_forall in Hg.
    destruct (Hjoin t b Hb) as [->|Hsame]; [by eexists|].
    by apply (through_answers unum Hpos clock objects_order Hdec env keep lib Hlib es Hes time nums Hroom c block fin Hcb); [|apply Hg].
  - exact (consumed_stepable _ _ _ (consume_final top _ _ Hev Hc)).
  - intros t ev lsrc (b & -> & Hb)%list_elem_of_fmap El. cbn [rejoin fst file_event] in El. rewrite Forall_forall in Hg.
    destruct (Hjoin t b Hb) as [Hn|Hsame]; [by rewrite Hn in El|].
    destruct (live_passes unum Hpos clock objects_order Hdec env keep lib Hlib es Hes time nums Hroom c block fin Hcb t b lsrc Hsame
      (Hg b Hb) El) as (l & h & s & (_ & _ & out & held & later & rest & pending & Eo & C1 & _ & C2 & _) & ->).
    destruct (stack_through _ [] _ _ _ _ C1 C2) as [st Est]. rewrite <- Eo in Est. apply stack_stepable in Est.
    by apply Forall_app in Est as [? _].
  - exists evs, last. cbv zeta in Er.
    change (r = (if (cut stop (filter (passes newOrUndo) evs)).2 then Err Stream.ErrStopBlockReached
      else Stream.reported last, reverse (cut stop (filter (passes newOrUndo) evs)).1)) in Er.
    assert (Hsent : sent = (cut stop (filter (passes newOrUndo) evs)).1) by (unfold sent; rewrite Er; apply reverse_involutive).
    assert (Hcut : let '(kept, stopped) := cut stop (filter (passes newOrUndo) evs) in
      sent = kept /\ r.1 = (if stopped then Err Stream.ErrStopBlockReached else Stream.reported last))
      by (rewrite Hsent, Er; by destruct (cut stop _)).
    destruct Hstr as [|pre ev post lsrc t Epre Es].
    + split; [by left|]. split; [exact Hcut|]. rewrite Hsent.
      eapply (sent_stack stop (mkView top []) _ _ []). rewrite app_nil_r. exact (consume_final top _ _ Hev Hc).
    + cbn [JoiningSource.src_events src] in Epre. apply fmap_app_inv in Epre as (b1 & b2 & -> & E2 & Eb).
      destruct b2 as [|b b2]; [done|]. rewrite fmap_cons in E2. injection E2 as -> ->. cbn [rejoin fst file_event] in Es.
      assert (Hb : b ∈ blocks) by (rewrite Eb; set_solver). rewrite Forall_forall in Hg.
      destruct (Hjoin t b Hb) as [Hn|Hsame]; [by rewrite Hn in Es|].
      destruct (live_passes unum Hpos clock objects_order Hdec env keep lib Hlib es Hes time nums Hroom c block fin Hcb t b lsrc Hsame
        (Hg b Hb) Es) as (l & h & s & Hp & ->).
      split; [right; by exists b1, b, b2, t, l, h, s|]. split; [exact Hcut|]. rewrite Hsent. cbn [JoiningSource.src_events].
      rewrite Eb in Hc. apply CursorResolver.chained_app in Hc as [Hc1 [Hpar _]].
      destruct Hp as (_ & _ & out & held & later & rest & pending & Eo & C1 & _ & C2 & _).
      destruct (stack_consumed _ _ _ [] (consume_final top _ _ (file_events_final (O := O) b1) Hc1)) as [below S1].
      destruct (stack_through _ below _ _ _ _ C1 C2) as [st S2]. rewrite <- Eo in S2.
      eapply (sent_of_stack stop [top] _ (Hub.blocks s ++ rest) st). rewrite <- app_assoc, stack_app.
      change (stack_of (mkView top []) []) with [top] in S1. rewrite S1. cbn [mbind option_bind].
      unfold stack_of. cbn [v_pending v_final app]. by rewrite <- Hpar.
Qed.

(** *** The example: the blocks from 3 to 9 through the cursor left on 8b; the hub starts at 6a *)

Section Example.
#[local] Existing Instance ForkableProps.proto0.
#[local] Existing Instance FileSourceProps.no_index.
#[local] Existing Instance files_store.
#[local] Existing Instance digits_or_file.

Definition past_blocks : list (hub_event unit (list (event unit))) :=
  (fun x => LiveBlock (ForkableProps.ex_block x.1.1 x.1.2 x.2) None) <$>
    [("6a", "5a", 4); ("7a", "6a", 5); ("8b", "7a", 5); ("8a", "7a", 6); ("9a", "8a", 7)].
Definition past_life : list (hub_event unit (list (event unit))) := past_blocks ++ replicate 7 (Reads 0%nat).
Definition past_time (t : nat) : nat := match t with O => O | _ => length past_blocks end.
#[local] Notation past_hub k := (hub_at ex_clock ex_order
  (Hub.NewForkableHub (O := unit) (HS := list (event unit)) "" 10 [WithExclusiveLIB far_lib]) past_life k).
#[local] Notation past_live := (live_hub ex_clock ex_order
  (Hub.NewForkableHub (O := unit) (HS := list (event unit)) "" 10 [WithExclusiveLIB far_lib]) past_life past_time []).
Definition on_8b : Cursor :=
  mkCursor StepNew (Some (NewBlockRef "8b" 8)) (Some (NewBlockRef "7a" 7)) (Some (NewBlockRef "8b" 8)).
Definition past_stream : outcome unit * list (event unit) :=
  Stream.Run (Stream.New (NewFileSourceFactory has_bundle [] 2) past_live 9 3 recorder
    [Stream.WithTargetCursor (Some on_8b); Stream.WithStopBlock 9]) [].
Definition past_fs : FileSource unit := NewFileSource 3 [FileSourceWithStopBlock 9].

Example past_stream_summary :
  join_summary (reverse past_stream.2) =
    [(Some StepNewIrreversible, "3a"); (Some StepNewIrreversible, "4a"); (Some StepNewIrreversible, "5a");
     (Some StepNewIrreversible, "6a"); (Some StepNewIrreversible, "7a"); (Some StepNew, "8b"); (Some StepUndo, "8b");
     (Some StepNew, "8a"); (Some StepNew, "9a")].
Proof. vm_compute. reflexivity. Qed.

Lemma past_cursor t : resumable_cursor ForkableProps.ex_num (with_hstate [] (Hub.forkable (past_hub (past_time (S t))))) on_8b
  (NewBlockRef "8b" 8) (NewBlockRef "7a" 7) ["8b"].
Proof.
  split; try by split.
  - vm_compute. eauto.
  - exists []. assert (LIBID (forkDB (with_hstate (B := list (event unit)) [] (Hub.forkable (past_hub (past_time (S t)))))) = "7a") as ->
      by (vm_compute; reflexivity). constructor.
  - walk.
  - vm_compute. left.
Qed.

Lemma past_target t b : b ∈ requested past_fs far_bundle ->
  JoiningSource.SourceThroughCursor past_live t (Number b) (Some on_8b) = Ok None \/
  same_target ForkableProps.ex_num ex_clock ex_order "" 10 far_lib past_life past_time on_8b (NewBlockRef "8b" 8) (NewBlockRef "7a" 7) t b.
Proof.
  intros Hb. destruct t as [|t]; [left|].
  { repeat (apply elem_of_cons in Hb as [->|Hb]; [vm_compute; reflexivity|]). by apply elem_of_nil in Hb. }
  do 3 (apply elem_of_cons in Hb as [->|Hb]; [left; vm_compute; reflexivity|]). right.
  assert (E7 : LIBID (forkDB (Hub.forkable (past_hub (past_time (S t))))) = "7a") by by vm_compute.
  apply elem_of_cons in Hb as [->|Hb]; [|apply list_elem_of_singleton in Hb as ->].
  - split; [by vm_compute|rewrite E7; exists ["7a"]; walk|by vm_compute| |].
    + intros blks E. vm_compute in E. injection E as <-. vm_compute. reflexivity.
    + eapply resumed; [vm_compute; reflexivity|apply past_cursor|exists ["7a"]; walk|right; rewrite E7; exists ["8b"]; walk].
  - split; [by vm_compute|rewrite E7; exists []; walk|by vm_compute| |].
    + intros blks E. vm_compute in E. injection E as <-. vm_compute. reflexivity.
    + eapply resumed; [vm_compute; reflexivity|apply past_cursor|exists []; walk|right; rewrite E7; exists ["8b"]; walk].
Qed.

Lemma past_room t : roomy (past_hub (past_time t)).
Proof. destruct t; (split; [by vm_compute|vm_compute; reflexivity]). Qed.

Lemma past_holds : held has_bundle past_fs far_bundle (Err ErrStopBlockReached).
Proof.
  split; [by vm_compute|by vm_compute|done|by vm_compute| |by apply ends_stop].
  exact (held_bundles _ _ _ _ far_holds).
Qed.

Lemma target_in_files_witness :
  (exists st, stack ["2a"] (reverse past_stream.2) = Some st) /\ past_stream.1 = Err Stream.ErrStopBlockReached /\
  join_summary (reverse past_stream.2) =
    [(Some StepNewIrreversible, "3a"); (Some StepNewIrreversible, "4a"); (Some StepNewIrreversible, "5a");
     (Some StepNewIrreversible, "6a"); (Some StepNewIrreversible, "7a"); (Some StepNew, "8b"); (Some StepUndo, "8b");
     (Some StepNew, "8a"); (Some StepNew, "9a")].
Proof.
  split; [|split; vm_compute; reflexivity].
  destruct (target_in_files has_bundle [] 2 ForkableProps.ex_num ex_clock ex_order "" 10 far_lib past_life past_time [] 9 3 9
    far_bundle (Err ErrStopBlockReached) on_8b (NewBlockRef "8b" 8) (NewBlockRef "7a" 7) "2a") as (evs & last & _ & _ & st & E).
  - apply ex_num_pos.
  - exact far_decoded.
  - by split.
  - repeat constructor; try discriminate; vm_compute; congruence.
  - exact past_room.
  - reflexivity.
  - reflexivity.
  - by vm_compute.
  - intros t b Hb. apply past_target. unfold let_through in Hb. case_decide; [exact Hb|]. by apply list_elem_of_filter in Hb as [_ ?].
  - by vm_compute.
  - lia.
  - right. by vm_compute.
  - vm_compute. reflexivity.
  - exact past_holds.
  - repeat constructor.
  - repeat constructor.
  - intros b Hb E. repeat (apply elem_of_cons in Hb as [->|Hb]; [first [reflexivity|discriminate E]|]). by apply elem_of_nil in Hb.
  - repeat constructor; try discriminate; vm_compute; congruence.
  - cbn; lia.
  - exists st. exact E.
Defined.
End Example.
