(* ===== verification/TestHelpers.v ===== *)
(** * The helpers of the tests ([testing.go], [mock_source.go], [transform/testing.go],
      [transform/testdata/transforms.go], [internal/pb/.../test/v1/test.go])

    The blocks the tests make out of short IDs, the sources and the index provider
    they stand in for the real ones, and the transform they register.  The JSON
    reading of [TestBlockFromJSON] is left out: a block is made of its fields. *)

From Stdlib Require Import Ascii.
From S2P Require Import Prelude GoStrings Types OneBlockFiles BlockFiles FileSource BlockIndex BlockIndexProps Transforms.

(** ** Blocks *)

Module TestBlocks.

(** The message [sf.bstream.test.v1.Block]. *)
Record Block := mkBlock { Id : string }.

Definition is_digit (c : ascii) : bool := bool_decide (is_Some (digit_val c)).

(** The longest prefix of bytes that satisfy [p], and the rest. *)
Fixpoint span (p : ascii -> bool) (s : string) : string * string :=
  match s with
  | EmptyString => (EmptyString, EmptyString)
  | String c s' => if p c then let '(a, b) := span p s' in (String c a, b) else (EmptyString, s)
  end.

Definition newline : ascii := "010"%char.

(** The expression: as many digits as possible, at least one, then what goes on to
    the first underscore, then the rest; a dot does not match a newline. *)
Definition idRegex (s : string) : option (string * string * string) :=
  let '(digits, rest) := span is_digit s in
  if bool_decide (digits = "") || negb (free_of newline rest) then None
  else let '(line, fork) := span (fun c => negb (bool_decide (c = "_"%char))) rest in Some (digits, line, fork).

(** The error of [ParseUint] is dropped: digits are refused only when the number
    does not fit, and it is then the highest one. *)
Definition number_of (digits : string) : Z :=
  match ParseUint digits 64 with Ok n => n | _ => two64 - 1 end.

Definition splitID (b : Block) : outcome (Z * string * string) :=
  match idRegex (Id b) with
  | None => Panic "invalid block ID %q received, must match regex %s"
  | Some (digits, forkLine, fork) =>
      Ok (number_of digits, if bool_decide (fork = "") then forkLine else str_drop 1 fork, forkLine)
  end.

Definition ID (b : Block) : outcome string :=
  '(number, forkLine, _) ← splitID b; Ok (fmt_d number +:+ forkLine).

Definition Number (b : Block) : outcome Z := '(number, _, _) ← splitID b; Ok number.

Definition ParentID (b : Block) : outcome string :=
  '(number, _, parentLine) ← splitID b;
  Ok (if number =? 0 then "" else fmt_d (u64_sub number 1) +:+ parentLine).

Definition ParentNumber (b : Block) : outcome Z :=
  '(number, _, _) ← splitID b; Ok (if number =? 0 then 0 else u64_sub number 1).

Definition LIBNum (b : Block) : outcome Z :=
  '(number, _, _) ← splitID b; Ok (if number =? 0 then 0 else u64_sub number 1).

(** A minute per block, in nanoseconds. *)
Definition Time (b : Block) : outcome Z := n ← Number b; Ok (i64 (60000000000 * i64 n)).

Section Convert.
(** [anypb.New] of the message. *)
Context (anypb_New : Block -> outcome Any).

Definition ToPbbstreamBlock (b : Block) : outcome Types.Block :=
  payload ← (match anypb_New b with Err _ => Panic "unable to create anypb: %s" | r => r end);
  id ← ID b; number ← Number b; parentNum ← ParentNumber b; parentID ← ParentID b; t ← Time b; lib ← LIBNum b;
  Ok (Types.mkBlock number id parentID (Some t) lib 0 0 "" 0 parentNum (Some payload)).

(** *** IDs give chains *)

Lemma span_app p s t : str_forall p s = true -> span p (s +:+ t) = (s +:+ (span p t).1, (span p t).2).
Proof.
  induction s as [|c s IH]; intros Hs; [by change ("" +:+ t) with t; destruct (span p t)|].
  cbn in Hs. apply andb_true_iff in Hs as [Hc Hs]. change (String c s +:+ t) with (String c (s +:+ t)).
  cbn [span]. by rewrite Hc, (IH Hs).
Qed.

Definition starts_with (p : ascii -> bool) (s : string) : bool :=
  match s with EmptyString => false | String c _ => p c end.

Lemma span_stop p s : starts_with p s = false -> span p s = ("", s).
Proof. destruct s as [|c s]; [done|]. cbn. by intros ->. Qed.

(** A line of blocks: letters after the number of its blocks. *)
Definition line_ok (line : string) : Prop :=
  starts_with is_digit line = false /\ free_of "_"%char line = true /\ free_of newline line = true.

Lemma fmt_d_digits n : 0 <= n -> str_forall is_digit (fmt_d n) = true.
Proof.
  intros Hn. refine (fmt_d_forall _ _ _ Hn). intros d Hd. unfold is_digit. rewrite digit_val_char by done.
  by apply bool_decide_eq_true_2.
Qed.

Lemma idRegex_line n line fork : 0 <= n -> line_ok line -> free_of newline fork = true ->
  (fork = "" \/ exists rest, fork = String "_" rest) -> idRegex (fmt_d n +:+ line +:+ fork) = Some (fmt_d n, line, fork).
Proof.
  intros Hn (Hd & Hu & Hl) Hf Hc. unfold idRegex. rewrite span_app by by apply fmt_d_digits.
  rewrite span_stop; [|by destruct line as [|c line]; [destruct Hc as [->|[? ->]]|]].
  cbn [fst snd]. rewrite str_app_nil_r. pose proof (fmt_d_nonempty n). rewrite bool_decide_false by done.
  unfold free_of in Hl, Hf |- *. rewrite str_forall_app, Hl, Hf. cbn [orb andb negb].
  rewrite span_app by exact Hu. by destruct Hc as [->|[? ->]]; cbn; rewrite str_app_nil_r.
Qed.

Lemma number_of_fmt n : is_u64 n -> number_of (fmt_d n) = n.
Proof. intros Hn. unfold number_of. by rewrite ParseUint_fmt_d. Qed.

Lemma splitID_line n line : is_u64 n -> line_ok line -> splitID (mkBlock (fmt_d n +:+ line)) = Ok (n, line, line).
Proof.
  intros Hn Hl. unfold splitID. cbn [Id]. rewrite <- (str_app_nil_r line) at 1.
  rewrite idRegex_line; [|by destruct Hn|done|done|by left]. by rewrite number_of_fmt.
Qed.

Lemma splitID_fork n line fork : is_u64 n -> line_ok line -> free_of newline fork = true ->
  splitID (mkBlock (fmt_d n +:+ line +:+ "_" +:+ fork)) = Ok (n, fork, line).
Proof.
  intros Hn Hl Hf. unfold splitID. cbn [Id].
  rewrite idRegex_line; [|by destruct Hn|done|done|by right; eexists]. rewrite number_of_fmt by done.
  change ("_" +:+ fork) with (String "_" fork). by rewrite bool_decide_false, str_drop_1.
Qed.

(** A child of the block [n] of a line, on the line or on a fork of it, names that
    block as its parent and as its LIB. *)
Lemma ToPbbstreamBlock_child n line fork b p : is_u64 (n + 1) -> 0 <= n -> line_ok line -> free_of newline fork = true ->
  (b = mkBlock (fmt_d (n + 1) +:+ line) /\ fork = line \/ b = mkBlock (fmt_d (n + 1) +:+ line +:+ "_" +:+ fork)) ->
  anypb_New b = Ok p ->
  exists t, ToPbbstreamBlock b = Ok (Types.mkBlock (n + 1) (fmt_d (n + 1) +:+ fork) (fmt_d n +:+ line) (Some t) n
    0 0 "" 0 n (Some p)) /\ ID (mkBlock (fmt_d n +:+ line)) = Ok (fmt_d n +:+ line).
Proof.
  intros Hn Hn0 Hl Hf Hb Hp. eexists. unfold ToPbbstreamBlock, ID, Number, ParentNumber, ParentID, Time, LIBNum, Number.
  assert (E : splitID b = Ok (n + 1, fork, line)).
  { destruct Hb as [[-> ->]| ->]; [by apply splitID_line|by apply splitID_fork]. }
  assert (En : is_u64 n) by u64_solve. rewrite Hp, E, splitID_line by done. cbn -[fmt_d].
  destruct (Z.eqb_spec (n + 1) 0); [lia|]. replace (u64_sub (n + 1) 1) with n by u64_solve. done.
Qed.
End Convert.
End TestBlocks.

(** ** Blocks from their fields *)

Module ParsedBlocks.

(** A parsed [ParsableTestBlock]; its time is [None] when the field is empty. *)
Record ParsableTestBlock := mkParsable {
  ID : string;
  ParentID : string;
  ParentNum : Z;
  Number : Z;
  LIBNum : Z;
  Timestamp : option Z;
}.

Definition byte_in (lo hi : Z) (c : ascii) : bool :=
  let n := Z.of_nat (nat_of_ascii c) in (lo <=? n) && (n <=? hi).
Definition continuation : ascii -> bool := byte_in 128 191.

(** The second byte of a rune after its first, for runes of two, three and four
    bytes. *)
Definition rune2 (c c1 : ascii) : bool := byte_in 194 223 c && continuation c1.
Definition rune3 (c c1 : ascii) : bool :=
  byte_in 224 224 c && byte_in 160 191 c1 ||
  (byte_in 225 236 c || byte_in 238 239 c) && continuation c1 ||
  byte_in 237 237 c && byte_in 128 159 c1.
Definition rune4 (c c1 : ascii) : bool :=
  byte_in 240 240 c && byte_in 144 191 c1 || byte_in 241 243 c && continuation c1 ||
  byte_in 244 244 c && byte_in 128 143 c1.

(** [utf8.RuneCountInString]: a byte that starts no rune counts for one. *)
Fixpoint RuneCount (s : string) : nat :=
  match s with
  | String c s1 =>
      S match s1 with
        | String c1 s2 =>
            if rune2 c c1 then RuneCount s2
            else
              match s2 with
              | String c2 s3 =>
                  if rune3 c c1 && continuation c2 then RuneCount s3
                  else
                    match s3 with
                    | String c3 s4 =>
                        if rune4 c c1 && continuation c2 && continuation c3 then RuneCount s4
                        else RuneCount s1
                    | EmptyString => RuneCount s1
                    end
              | EmptyString => RuneCount s1
              end
        | EmptyString => O
        end
  | EmptyString => O
  end.

(** [%09s]: padded with zeros to nine runes. *)
Definition fmt_09s (s : string) : string := zeros (9 - RuneCount s) +:+ s.

Definition blocknum (blockID : string) : outcome Z :=
  let b := if (String.length blockID <? 8)%nat then fmt_09s blockID else blockID in
  match hex_DecodeString (String.substring 0 8 b) with
  | None => Ok 0
  | Some bin => BigEndian_Uint32 bin
  end.

(** [time.Time{}], the first of January of year 1. *)
Definition zero_time : Z := -62135596800 * 1000000000.

(** What [TestBlockFromJSON] makes of the fields it read in [jsonContent]. *)
Definition TestBlockFromJSON (obj : ParsableTestBlock) (jsonContent : string) : outcome Types.Block :=
  number ← (if Number obj =? 0 then blocknum (ID obj) else Ok (Number obj));
  previousNum ← (if ParentNum obj =? 0 then blocknum (ParentID obj) else Ok (ParentNum obj));
  Ok (Types.mkBlock number (ID obj) (ParentID obj) (Some (default zero_time (Timestamp obj))) (LIBNum obj) 0 0 "" 0
        previousNum (Some (mkAny "type.googleapis.com/sf.bsream.type.v1.TestBlock" jsonContent))).

(** The fields [TestBlock], [TestBlockWithNumbers] and [TestBlockWithLIBNum] write. *)
Definition TestBlock_fields (id prev : string) : ParsableTestBlock := mkParsable id prev 0 0 0 None.
Definition TestBlockWithNumbers_fields (id prev : string) (num prevNum : Z) : ParsableTestBlock :=
  mkParsable id prev prevNum num 0 None.
Definition TestBlockWithLIBNum_fields (id previousID : string) (newLIB : Z) : ParsableTestBlock :=
  mkParsable id previousID 0 0 newLIB None.

(** The numbers of short IDs, and of IDs with more than one letter. *)
Example blocknum_short : blocknum "8a" = Ok 8. Proof. reflexivity. Qed.
Example blocknum_padded : blocknum "00000010aa" = Ok 16. Proof. reflexivity. Qed.
Example blocknum_two_letters : blocknum "8ab" = Ok 138. Proof. reflexivity. Qed.
Example blocknum_not_hex : blocknum "zz" = Ok 0. Proof. reflexivity. Qed.

(** [blocknum] never panics: nine runes are at least eight bytes, and eight
    characters are four bytes. *)
Lemma hex_length s : forall bs, hex_DecodeString s = Some bs -> String.length s = (2 * length bs)%nat.
Proof.
  assert (HI : forall n s, (String.length s <= n)%nat -> forall bs, hex_DecodeString s = Some bs ->
    String.length s = (2 * length bs)%nat).
  { clear s. induction n as [|n IH]; intros s Hn bs Hs.
    - destruct s; [|cbn in Hn; lia]. cbn in Hs. by injection Hs as <-.
    - destruct s as [|a [|b s]]; [cbn in Hs; by injection Hs as <-|done|]. cbn in Hs, Hn.
      destruct (hex_val a), (hex_val b), (hex_DecodeString s) as [bs'|] eqn:E; try done. injection Hs as <-.
      cbn. rewrite (IH s ltac:(lia) _ E). lia. }
  eauto.
Qed.

Lemma RuneCount_le s : (RuneCount s <= String.length s)%nat.
Proof.
  assert (HI : forall n s, (String.length s <= n)%nat -> (RuneCount s <= String.length s)%nat).
  { clear s. induction n as [|n IH]; intros s Hn; [by destruct s; cbn in *; lia|].
    destruct s as [|c s1]; [done|]. cbn [String.length] in Hn |- *. pose proof (IH s1 ltac:(lia)) as H1.
    destruct s1 as [|c1 s2]; [cbn; lia|]. cbn [String.length] in *. pose proof (IH s2 ltac:(lia)) as H2.
    cbn [RuneCount]. destruct (rune2 c c1); [lia|]. cbn [RuneCount] in H1.
    destruct s2 as [|c2 s3]; [lia|]. cbn [String.length] in *. pose proof (IH s3 ltac:(lia)) as H3.
    destruct (_ && _); [lia|]. destruct s3 as [|c3 s4]; [lia|]. cbn [String.length] in *.
    pose proof (IH s4 ltac:(lia)). destruct (_ && _ && _); lia. }
  eauto.
Qed.

Lemma zeros_length n : String.length (zeros n) = n.
Proof. induction n as [|n IH]; [done|]. cbn. by rewrite IH. Qed.

Lemma prefix_length n : forall s, (n <= String.length s)%nat -> String.length (String.substring 0 n s) = n.
Proof.
  induction n as [|n IH]; intros [|c s] Hn; cbn in Hn |- *; try done; [lia|]. rewrite IH; lia.
Qed.

(** The number of a block is read without a panic, whatever its ID. *)
Lemma blocknum_total id : exists n, blocknum id = Ok n.
Proof.
  unfold blocknum. set (b := if (_ <? _)%nat then fmt_09s id else id).
  assert (Hb : (8 <= String.length b)%nat).
  { unfold b. destruct (Nat.ltb_spec (String.length id) 8); [|done]. unfold fmt_09s.
    rewrite str_app_length, zeros_length. pose proof (RuneCount_le id). lia. }
  destruct (hex_DecodeString _) as [bs|] eqn:E; [|eauto]. apply hex_length in E. rewrite prefix_length in E by done.
  destruct bs as [|b0 [|b1 [|b2 [|b3 bs]]]]; cbn in E; try lia. cbn. eauto.
Qed.

(** A block made by [TestBlock] has the numbers of its ID and of that of its parent. *)
Lemma TestBlock_numbers id prev json : exists n m, blocknum id = Ok n /\ blocknum prev = Ok m /\
  TestBlockFromJSON (TestBlock_fields id prev) json =
    Ok (Types.mkBlock n id prev (Some zero_time) 0 0 0 "" 0 m
          (Some (mkAny "type.googleapis.com/sf.bsream.type.v1.TestBlock" json))).
Proof.
  destruct (blocknum_total id) as [n En], (blocknum_total prev) as [m Em]. exists n, m.
  split; [done|]. split; [done|]. unfold TestBlockFromJSON, TestBlock_fields. cbn -[blocknum zero_time].
  by rewrite En, Em.
Qed.
End ParsedBlocks.

(** ** Sources *)

Module TestSources.

Section Sources.
Context {O HS : Type}.

(** A source that hands over the blocks the test pushes.  [ts_err] is what its
    [Shutter] was shut down with. *)
Record TestSource := mkTestSource {
  handler : Handler O HS;
  running : bool;
  ts_err : option (option error);
  StartBlockID : string;
  StartBlockNum : Z;
  ts_Cursor : option Cursor;
  PassThroughCursor : bool;
}.

Definition NewTestSource (h : Handler O HS) : TestSource := mkTestSource h false None "" 0 None false.

(** Only the first [Shutdown] counts. *)
Definition Shutdown (err : option error) (t : TestSource) : TestSource :=
  match ts_err t with
  | Some _ => t
  | None => mkTestSource (handler t) (running t) (Some err) (StartBlockID t) (StartBlockNum t) (ts_Cursor t) (PassThroughCursor t)
  end.

Definition set_running (t : TestSource) : TestSource :=
  mkTestSource (handler t) true (ts_err t) (StartBlockID t) (StartBlockNum t) (ts_Cursor t) (PassThroughCursor t).

(** The sources that were made, the ones that wait in the channel of the factory,
    both as their ranks, and the state of the handlers. *)
Record World := mkWorld { sources : list TestSource; Created : list nat; w_state : HS }.

(** [Run] ends when the source is shut down; it is waiting otherwise. *)
Definition Run (i : nat) : M World unit := fun w =>
  match sources w !! i with
  | None => (Panic "invalid memory address or nil pointer dereference", w)
  | Some t =>
      if running t then (Panic "close of closed channel", w)
      else (match ts_err t with Some _ => Ok tt | None => Diverge end,
            mkWorld (<[i := set_running t]> (sources w)) (Created w) (w_state w))
  end.

Definition Push (i : nat) (b : Types.Block) (obj : iface O) : M World unit := fun w =>
  match sources w !! i with
  | None => (Panic "invalid memory address or nil pointer dereference", w)
  | Some t =>
      match handler t b obj (w_state w) with
      | (Some err, hs) =>
          (Err err, mkWorld (<[i := Shutdown (Some err) t]> (sources w)) (Created w) hs)
      | (None, hs) => (Ok tt, mkWorld (sources w) (Created w) hs)
      end
  end.

(** The factory: a function of the test makes the source, when there is one, of the
    type [Src] of its sources; [Created] holds ten of the others. *)
Record TestSourceFactory (Src : Type) := mkTestSourceFactory {
  FromBlockNumFunc : option (Z -> Handler O HS -> Src);
  FromCursorFunc : option (Cursor -> Handler O HS -> Src);
  ThroughCursorFunc : option (Z -> Cursor -> Handler O HS -> Src);
  LowestBlkNum : Z;
}.
Arguments FromBlockNumFunc {Src}. Arguments FromCursorFunc {Src}.
Arguments ThroughCursorFunc {Src}. Arguments LowestBlkNum {Src}.

Definition NewTestSourceFactory {Src} : TestSourceFactory Src := mkTestSourceFactory Src None None None 0.

Definition LowestBlockNum {Src} (t : TestSourceFactory Src) : Z := LowestBlkNum t.

(** [t.Created <- src] blocks while ten sources wait. *)
Definition create (src : TestSource) : M World nat := fun w =>
  let i := length (sources w) in
  if (length (Created w) <? 10)%nat
  then (Ok i, mkWorld (sources w ++ [src]) (Created w ++ [i]) (w_state w))
  else (Diverge, mkWorld (sources w ++ [src]) (Created w) (w_state w)).

Definition NewSource (h : Handler O HS) : M World nat := create (NewTestSource h).

Definition NewSourceFromRef (ref : option BlockRef) (h : Handler O HS) : M World nat :=
  r ← mlift (deref ref); create (mkTestSource h false None (Types.ID r) 0 None false).

Context {Src : Type} (t : TestSourceFactory Src).

Definition SourceFromBlockNum (blockNum : Z) (h : Handler O HS) : M World (Src + nat) :=
  match FromBlockNumFunc t with
  | Some f => mret (inl (f blockNum h))
  | None => i ← create (mkTestSource h false None "" blockNum None false); mret (inr i)
  end.

Definition SourceFromCursor (cursor : Cursor) (h : Handler O HS) : M World (Src + nat) :=
  match FromCursorFunc t with
  | Some f => mret (inl (f cursor h))
  | None => i ← create (mkTestSource h false None "" 0 (Some cursor) false); mret (inr i)
  end.

Definition SourceThroughCursor (start : Z) (cursor : Cursor) (h : Handler O HS) : M World (Src + nat) :=
  match ThroughCursorFunc t with
  | Some f => mret (inl (f start cursor h))
  | None => i ← create (mkTestSource h false None "" start (Some cursor) true); mret (inr i)
  end.

(** *** A source with its blocks ([mock_source.go]) *)

Record MockSource := mkMockSource {
  mock_handler : Handler O HS;
  mock_blocks : list Types.Block;
  mock_err : option (option error);
}.

Definition NewMockSource (blocks : list Types.Block) (h : Handler O HS) : MockSource := mkMockSource h blocks None.

Definition mock_Shutdown (err : option error) (s : MockSource) : MockSource :=
  match mock_err s with Some _ => s | None => mkMockSource (mock_handler s) (mock_blocks s) (Some err) end.

Fixpoint mock_loop (h : Handler O HS) (blocks : list Types.Block) (hs : HS) : option error * HS :=
  match blocks with
  | [] => (None, hs)
  | block :: blocks' =>
      match h block INil hs with
      | (Some err, hs') => (Some err, hs')
      | (None, hs') => mock_loop h blocks' hs'
      end
  end.

Definition MockSource_Run (s : MockSource) (hs : HS) : MockSource * HS :=
  match mock_loop (mock_handler s) (mock_blocks s) hs with
  | (Some err, hs') => (mock_Shutdown (Some err) s, hs')
  | (None, hs') => (s, hs')
  end.
End Sources.
Arguments TestSource : clear implicits.
Arguments World : clear implicits.
Arguments TestSourceFactory : clear implicits.
Arguments MockSource : clear implicits.

(** A block its handler refuses shuts the source down with the error, that of the
    first refusal; its [Run] then returns. *)
Lemma Push_refused {O HS} (w : World O HS) i src b obj err hs : sources w !! i = Some src ->
  ts_err src = None -> running src = false -> handler src b obj (w_state w) = (Some err, hs) ->
  let w1 := (Push i b obj w).2 in
  (Push i b obj w).1 = Err err /\ (exists src', sources w1 !! i = Some src' /\ ts_err src' = Some (Some err)) /\
  (Run i w1).1 = Ok tt /\ is_Panic (Run i (Run i w1).2).1 = true.
Proof.
  intros Ei Ee Er Eh. pose proof (lookup_lt_Some _ _ _ Ei). unfold Push. rewrite Ei, Eh. cbn [fst snd].
  unfold Run. cbn [sources]. rewrite list_lookup_insert_eq by done. unfold Shutdown. rewrite Ee. cbn [running ts_err].
  rewrite Er. cbn [fst snd sources]. rewrite list_lookup_insert_eq by by rewrite length_insert.
  split_and!; eauto.
Qed.

(** The eleventh source that no one takes blocks the factory. *)
Lemma Created_full {O HS} (h : Handler O HS) (w : World O HS) : (length (Created w) < 10)%nat ->
  exists w', NewSource h w = (Ok (length (sources w)), w') /\ Created w' = Created w ++ [length (sources w)] /\
  sources w' !! length (sources w) = Some (NewTestSource h) /\
  ((length (Created w) = 9)%nat -> (NewSource h w').1 = Diverge).
Proof.
  intros Hl. unfold NewSource, create. destruct (Nat.ltb_spec (length (Created w)) 10); [|lia].
  eexists. split; [done|]. split; [done|]. split; [cbn; by rewrite lookup_app_r, Nat.sub_diag by lia|].
  intros E9. cbn [Created fst]. rewrite length_app, E9. done.
Qed.

Lemma mock_loop_app {O HS} (h : Handler O HS) l k hs : mock_loop h (l ++ k) hs =
  match mock_loop h l hs with (None, hs') => mock_loop h k hs' | r => r end.
Proof. revert hs. induction l as [|b l IH]; intros hs; [done|]. cbn. destruct (h b INil hs) as [[e|] hs']; [done|apply IH]. Qed.

(** A mock source hands its blocks over up to the one that is refused, the error of
    which it is shut down with. *)
Lemma MockSource_Run_refused {O HS} (h : Handler O HS) before b after hs hs1 e hs2 :
  mock_loop h before hs = (None, hs1) -> h b INil hs1 = (Some e, hs2) ->
  MockSource_Run (NewMockSource (before ++ b :: after) h) hs =
    (mkMockSource h (before ++ b :: after) (Some (Some e)), hs2).
Proof.
  intros E1 E2. unfold MockSource_Run. cbn [mock_handler mock_blocks NewMockSource].
  by rewrite mock_loop_app, E1; cbn [mock_loop]; rewrite E2.
Qed.
End TestSources.

(** ** Files *)

Module TestFiles.
Import BlockFiles.BlockFiles.
Section Files.
Context {W : Type} `{Protocol} `{DBin} `{DBinWriter W}.

(** The writer and the reader of messages, with no header and no completion of old
    blocks. *)
Definition Write (blk : Types.Block) : M W unit :=
  bytes ← mlift (OneBlockFiles.wrap "unable to marshal proto block" (MarshalBlock blk)); WriteMessage bytes.

Definition Read (src : string) : outcome (Types.Block * string) :=
  let '(message, err, rest) := ReadMessage src in
  match message with
  | String _ _ => blk ← OneBlockFiles.wrap "unable to read block proto" (UnmarshalBlock message); Ok (blk, rest)
  | EmptyString =>
      match err with
      | Some e => if decide (e = EOF) then Err EOF else Err (EWrap "failed reading next dbin message" e)
      | None => Err (EMsg "failed reading next dbin message")
      end
  end.

(** The blocks of a file, up to the error that ends it. *)
Inductive reads_to : string -> list Types.Block -> error -> Prop :=
  | reads_stop src e : Read src = Err e -> reads_to src [] e
  | reads_more src blk rest blks e : Read src = Ok (blk, rest) -> reads_to rest blks e -> reads_to src (blk :: blks) e.

(** What was written without an error reads back, and then the end of the file. *)
Lemma test_files_roundtrip `{!Format W} blocks : forall w w',
  mfor blocks Write w = (Ok tt, w') -> Forall (fun b => b <> blank) blocks ->
  exists data, sunk w' = sunk w +:+ data /\ reads_to data blocks EOF.
Proof.
  induction blocks as [|b blocks IH]; intros w w' E Hb.
  - injection E as <-. exists "". split; [by rewrite str_app_nil_r|]. apply reads_stop.
    unfold Read. rewrite end_of_file. by rewrite decide_True.
  - apply Forall_cons in Hb as [Hb Hbs]. cbn [mfor] in E. unfold Write, mlift, mbind, M_bind in E.
    destruct (MarshalBlock b) as [bytes|e|m|] eqn:Em; cbn [OneBlockFiles.wrap] in E; try discriminate E.
    destruct (WriteMessage bytes w) as [[[]|e|m|] w1] eqn:Ew; try discriminate E.
    destruct (message_written _ _ _ Ew) as (data & _ & Es & Hr). destruct (IH _ _ E Hbs) as (rest & Es' & HR).
    exists (data +:+ rest). split; [by rewrite Es', Es, str_app_assoc|].
    apply (reads_more _ b rest); [|done]. destruct (unmarshalled _ _ Em) as (Eu & _ & Hblank).
    unfold Read. rewrite Hr. destruct bytes as [|c bytes]; [by destruct Hb; apply Hblank|].
    by rewrite Eu.
Qed.
End Files.
End TestFiles.

(** ** Indexes *)

Module TestIndexes.

Record TestBlockIndexProvider := mkTestProvider {
  Blocks : list Z;
  LastIndexedBlock : Z;
  ThrowError : option error;
}.

(** A nil slice when no block is in the range. *)
Definition BlocksInRange (t : TestBlockIndexProvider) (lowBlockNum bundleSize : Z) : outcome (option (list Z)) :=
  match ThrowError t with
  | Some e => Err e
  | None =>
      if LastIndexedBlock t <? lowBlockNum then Err (EMsg "no indexed file here")
      else Ok (FileSource.nilable
                 (filter (fun blkNum => lowBlockNum <= blkNum /\ blkNum < u64_add lowBlockNum bundleSize) (Blocks t)))
  end.

(** It is a provider of the file source. *)
Definition test_provider (t : TestBlockIndexProvider) : BlockIndexProvider :=
  {| FileSource.BlocksInRange := BlocksInRange t |}.

(** Unlike the provider of [transform], it leaves the first block of the next bundle
    out. *)
Lemma BlocksInRange_spec t low size out : BlocksInRange t low size = Ok out -> low + size < two64 -> 0 <= low + size ->
  forall n, n ∈ default [] out <-> n ∈ Blocks t /\ low <= n < low + size.
Proof.
  unfold BlocksInRange. destruct (ThrowError t); [done|]. destruct (_ <? _); [done|]. intros [= <-] H1 H2 n.
  assert (E : u64_add low size = low + size) by u64_solve. rewrite E. unfold FileSource.nilable.
  assert (Hn : forall l : list Z, default [] (match l with [] => None | _ => Some l end) = l) by by intros [].
  rewrite Hn, list_elem_of_filter. naive_solver.
Qed.

(** *** [transform/testing.go] *)

Section Transform.
Context {BM : Type} `{Bitmap BM} `{IndexCodec} `{Protocol}.
Import BlockIndex.

Definition NewTestBlockIndex (lowBlockNum indexSize : Z) (kv : gmap string BM) : blockIndex BM :=
  mkBlockIndex kv lowBlockNum indexSize.

(** The maps of the blocks are lists in the order Go iterates them. *)
Definition testMockstoreWithFiles (blocks : list (list (Z * list string))) (indexSize : Z)
  : outcome (gmap string string) :=
  indexer ← NewBlockIndexer indexSize "test" [];
  let '(r, s) := mfor blocks (fun blk => mfor blk (fun kv => Add kv.2 kv.1)) (mkIndexing (BM := BM) indexer ∅ []) in
  _ ← r; Ok (objects s).
End Transform.

Definition testBlockValues (size : Z) : outcome (list (list (Z * list string))) :=
  let kvs :=
    [[(10, ["aaaaaaaaaaaaaaaaaaaaaaaaaaaaaaaaaaaaaaaa"; "3333333333333333333333333333333333333333";
            "cccccccccccccccccccccccccccccccccccccccc"; "prefzzzzzzzzzzzzzzzzzzzzzzzzzzzzzzsuffix"])];
     [(11, ["aaaaaaaaaaaaaaaaaaaaaaaaaaaaaaaaaaaaaaaa"; "bbbbbbbbbbbbbbbbbbbbbbbbbbbbbbbbbbbbbbbb";
            "dddddddddddddddddddddddddddddddddddddddd"])];
     [(12, ["aaaaaaaaaaaaaaaaaaaaaaaaaaaaaaaaaaaaaaaa"; "1111111111111111111111111111111111111111";
            "bbbbbbbbbbbbbbbbbbbbbbbbbbbbbbbbbbbbbbbb"; "prefwwwwwwwwwwwwwwwwwwwwwwwwwwwwwwsuffix"])];
     [(13, ["aaaaaaaaaaaaaaaaaaaaaaaaaaaaaaaaaaaaaaaa"; "4444444444444444444444444444444444444444";
            "cccccccccccccccccccccccccccccccccccccccc"])];
     [(14, ["5555555555555555555555555555555555555555"; "7777777777777777777777777777777777777777";
            "3333333333333333333333333333333333333333"])];
     [(15, [])]] in
  if size =? 0 then Ok kvs
  else if (0 <=? size) && (size <=? Z.of_nat (length kvs)) then Ok (take (Z.to_nat size) kvs)
  else Panic "slice bounds out of range".

#[local] Existing Instances proto_trip list_bitmap list_codec.

(** The files of two of the indexes of the test values, and a bundle of one; the
    last index is not written. *)
Example test_store_reads :
  let objs := blocks ← testBlockValues 0; testMockstoreWithFiles (BM := list Z) blocks 2 in
  (elements ∘ dom) <$> objs = Ok ["0000000012.2.test.idx"; "0000000010.2.test.idx"] /\
  (objs ≫= fun objs => (BlockIndex.BlocksInRange (fun name => objs !! name) 12 2
     (BlockIndex.NewGenericBlockIndexProvider "test" (Some [2])
        (by_key "bbbbbbbbbbbbbbbbbbbbbbbbbbbbbbbbbbbbbbbb"))).1) = Ok [12].
Proof. split; vm_compute; reflexivity. Qed.
End TestIndexes.

(** ** The transform of the tests *)

Module TestTransforms.
Section Square.
Import Transforms.

(** The generated messages: the output for a square, and the reading of a
    [BlockNumberSquare]. *)
Context {Msg Provider : Type} `{Messages Msg} (BlockNumberSquareOutput : Z -> Msg)
        (Unmarshal_BlockNumberSquare : string -> outcome unit).

Definition TestFilterTransformTypeURL : string := "sf.bstream.transforms.v1.BlockNumberSquare".

Definition validateInput (i : Input Msg) : bool := bool_decide (Type_ i = NilObjectType).

Definition Transform_square : PreprocessTransform Msg := fun readOnlyBlk i =>
  if negb (validateInput i) then Err (EMsg "invalid input type %q")
  else Ok (Some (BlockNumberSquareOutput (u64 (Types.Number readOnlyBlk * Types.Number readOnlyBlk)))).

Definition BlockSquareTransform : Transform Msg Provider :=
  mkTransform "block_square_transform" (Some Transform_square) None.

Definition TestBlockSquareTransformFactory (message : Any) : outcome (Transform Msg Provider) :=
  if negb (bool_decide (Any_MessageName message = TestFilterTransformTypeURL))
  then Err (EMsg "expected type url %q, recevied %q ")
  else
    _ ← OneBlockFiles.wrap "unexpected unmarshall error %w" (Unmarshal_BlockNumberSquare (Value message));
    Ok BlockSquareTransform.

(** Alone, a call gives the square of the number of its block. *)
Lemma square_alone blk : preprocessFunc [Transform_square] blk =
  Ok (Some (BlockNumberSquareOutput (u64 (Types.Number blk * Types.Number blk)))).
Proof. done. Qed.

(** Two calls that run together: one stores its output in the variable they share
    between the reset of the other and its transform, which refuses its input. *)
Lemma squares_together_fail a b : MessageName (Some (BlockNumberSquareOutput (u64 (Types.Number a * Types.Number a)))) <> NilObjectType ->
  calls (run_calls [Transform_square] [a; b] [0; 0; 1; 0; 1]%nat) !! 1%nat =
    Some (b, Done (Err (EWrap "transform %d failed: %w" (EMsg "invalid input type %q")))).
Proof.
  set (out := Some (BlockNumberSquareOutput _)). intros Hn.
  assert (Ea : Transform_square a NilObj = Ok out) by done.
  assert (Eb : Transform_square b (InputObj (MessageName out) out) = Err (EMsg "invalid input type %q")).
  { unfold Transform_square, validateInput. cbn [Type_]. by rewrite bool_decide_false. }
  unfold run_calls. cbn -[Transform_square]. rewrite Ea. cbn -[Transform_square]. by rewrite Eb.
Qed.
End Square.
End TestTransforms.
